(* ===== verification/_CoqProject ===== *)
-Q . S2P
Prelude.v
Layout.v
Kernel.v
Crates.v
Types.v
Bytes.v
Init.v
Msg.v
Header.v
Decoder.v
Operation.v
Op.v
OpWire.v
OpSpec.v
OpTotal.v
Reply.v
Dirent.v
Io.v
Device.v
Sim.v
Buf.v
Session.v
MountOpts.v
Mount.v
Connect.v
Server.v
Hello.v
Program.v
Threads.v
ProgramThreads.v
Basic.v
HeartbeatEntry.v
Heartbeat.v
HeartbeatThreads.v
EntryThreads.v
Poll.v
PollThreads.v
MemFs.v
MemFsSpec.v
MemFsRun.v
MemFsData.v
Host.v
INodeTable.v
PathThrough.v
PathThroughSpec.v
Nix.v
Passthrough.v
PassthroughSpec.v
PassthroughData.v
