(* ===== verification/Prelude.v ===== *)
(** * polyfuse: a verification library

polyfuse is a library for FUSE filesystems.  A process mounts a filesystem,
agrees on a protocol version with the kernel, and then answers the requests the
kernel sends over a device; it may also send notifications on its own.  This
development models the library, the ABI it speaks and the programs that use it,
and proves what makes them correct.

** The parts and where they are

The files, in the order in which they build on each other, with the sources they
translate ([src/...] is the repository, [src/src/] the library crate):

- [Prelude] (this file): outcomes of Rust calls (a value, an error, a panic,
  undefined behaviour), the state monad [M] of methods with a mutable receiver,
  machine integers at their width, checked arithmetic, the hints [widths].
- [Layout], [Kernel]: memory layout of C structures, and every structure, constant and
  enumeration of [src/crates/polyfuse-kernel/src/lib.rs] with its layout.
- [Crates]: the crates the code calls but the repository does not hold
  ([bitflags], [zerocopy], [rustix], [libc]) as classes of operations, their
  documented behaviour as classes of laws, and a reference instance of each.
- [Types] ([types.rs]), [Bytes] ([bytes.rs]: scattered bytes and the single
  vectored write), [Init] ([init.rs]: INIT requests, negotiation, INIT
  replies), [Msg] ([msg.rs]: messages to the kernel), [Header] and [Buf]
  ([buf.rs]: the request header, the pipe buffer and the vector buffer).
- [Decoder] ([op/decoder.rs]), [Operation] and [Op] ([op.rs]: the data of all
  operations; one definition per arm of the decoder), [OpWire] (the wire format,
  written independently), [OpSpec] and [OpTotal] (the decoder's theorems).
- [Reply] and [Dirent] ([reply.rs]: the reply methods, the directory buffer).
- [Io] ([io.rs]), [Device] ([device.rs]): pipes, splicing, the device; the system
  calls are parameters over an abstract world.  [Sim] is a concrete world.
- [Session] ([session.rs]): receiving, decoding, replying, notifying, the
  two atomics.  [MountOpts], [Mount] ([mount.rs], [mount/], [util.rs]):
  options, both ways of mounting, ownership of descriptors, unmounting.
  [Connect] ([connect.rs]): the handshake and [connect].
- [Server]: the loop of [src/examples/*.rs] (receive, decode, answer),
  and the interface [Answers] between it and a filesystem.
  [Hello], [Basic], [HeartbeatEntry], [Heartbeat], [Poll]: the programs of that name.
  [Program]: [main] of [hello] and [basic], from connecting to unmounting.
  [Threads]: the scope of threads every [main] runs in, generic in the threads a program
  spawns; [ProgramThreads]: [Program] as a schedule of it; [HeartbeatThreads],
  [EntryThreads], [PollThreads]: [main] of [heartbeat], [heartbeat_entry] and [poll],
  whose threads share state with the loop.
- [MemFs], [MemFsSpec], [MemFsRun], [MemFsData]: the file system in memory of
  [src/examples_disabled/memfs.rs], its invariant, the abstract tree it refines,
  its runs, and its data (content, extended attributes, listings).
- [Host]: what the two forwarding programs use of the host ([std::fs]), as
  parameters.  [INodeTable]: the table of inodes both keep, generic in the inode and its key.
- [PathThrough], [PathThroughSpec]: [src/examples_disabled/path_through.rs].
- [Nix] ([passthrough/nix.rs]: the wrappers of the system calls, which are
  parameters), [Passthrough] ([passthrough/main.rs]), [PassthroughSpec] (ownership of
  descriptors, by triples over the monad; numbers of inodes; a small host) and
  [PassthroughData] (listings, writes).

A method with a [&mut] receiver is a function in [M]; the state reached is kept
on errors, as in the source.  A trait is a class ([Bytes], [ReplySender],
[SpliceRead], [IoWrite]) whose laws are a second class; code generic in the
trait is proved against the class, and the implementations are instances.
Definitions have the source's names, with the type in front for a method
([RequestBuf_try_receive]) and the program in front for a handler ([hello_read]).

** What the theorems show

- Decoding: the decoder inverts the kernel's encoding of every operation;
  on any aligned input it returns an operation that is well formed or one of the
  listed errors; the one panic left is a lock owner that is no process (a debug
  assertion of [rustix]), which [OpTotal] delimits.
- Receiving: both buffers hand over exactly the message the kernel sent,
  header, argument and remaining data (the vector hands it over with the stale bytes
  that follow it); a request received by a session decodes without a panic, under the same
  condition on lock owners; the pipe of a request buffer has room for what it asks for.
- Negotiation and connecting: what [negotiate] leaves satisfies the
  bounds and flags of the protocol, except for the 32 pages of a write without MAX_PAGES,
  which it does not enforce; which INIT requests are refused; the
  handshake ends with a session after any number of refused requests.
- Replying: every implementation of [Bytes] is lawful; [write_bytes] and
  [send_msg] produce one write of the exact message; replies, directory streams and
  notifications are read back by the kernel's format; how the outcome of a
  reply reaches the session.
- Pipes: reading exactly a number of bytes ends and gives those bytes.
- Mounting: options survive the trip through both encodings; descriptors
  that are opened are owned or closed, but for the one that a failed [fusermount] leaves
  open for good; unmounting happens once.
- Programs: [main] connects, answers every request and unmounts once, with or
  without a signal; the daemon loop with [hello] and [poll] gives the kernel what an
  abstract filesystem would; [heartbeat] and [heartbeat_entry] keep what the
  kernel caches consistent across the two threads, for every interleaving.
- Threads: what is shown of [main] as one sequence of steps is a schedule of its
  threads; an invariant of [heartbeat] under every schedule of its threads; [poll]
  ends after a bounded number of steps of any schedule; [heartbeat] and
  [heartbeat_entry] do not end after an unmount, and the second can deadlock.
- The file system in memory: no sequence of operations breaks the tree, and the only
  way one does not end is to wait for a shard of the table it already holds; operations on names refine an abstract tree with the same error
  codes; forgetting reclaims exactly what is unlinked and forgotten; writes,
  extended attributes and listings are read back.
- The forwarding file systems: a path, or a file of the host, has one number
  while the kernel holds it, with the count of its lookups; listings lose and repeat
  nothing; [passthrough] owns exactly the descriptors its tables hold, after any
  requests, and closes no other; its writes end and store what was sent.
- Findings: places where the code does not do what it means to, each with the
  theorem that shows it.

** Bounds and fuel

The target is 64-bit little-endian Linux.  Loops that depend on the kernel take
fuel: the handshake, the daemon loop and [main] one unit per request (and one for the
end of the connection), and their theorems are for any fuel at least the number
of requests.  The loop of [read_exact] is bounded by the bytes it still wants.
Printing a number takes as many steps as it has digits, parsing a directory
stream as many as it has bytes, listing a directory one read per entry and one more.
READDIR and WRITE of [passthrough] loop over the host: the entries of the stream
and one are enough for the first, the bytes and the interruptions for the second.
A schedule of threads is a list of steps, of any length; the bound of a theorem
about one is in its statement.  All other recursion is structural.

** What is not modelled

[lib.rs] only re-exports.  [Debug], [Display] and tracing have no effect on
the protocol.  In the programs the parsing of arguments is left out.  In
[Program] the signal comes between two iterations; in [Threads] it comes at any
step.  A step of a thread is a critical section or a call that touches what the
threads share, and receiving and answering are two steps: the arms of [poll] are
one step each (what can happen inside POLL is [poll_wakeup_order]), a sleep is no
step, and the kernel makes a writer wait only where [EntryThreads] says so.
[poll_client.rs] is a client of the asynchronous runtime.  The system test of
the ABI compares it with C headers.  The programs under
[src/examples_disabled] are written against an interface the library no longer has:
a reply is the value handed to it.  In [passthrough] a request is one step, and a
lock that is taken twice is a panic.  In [memfs] the operations run one
after another; the shard an entry lies in is a parameter, and an operation that asks for
a second entry in a shard it holds, which never returns, is the panic "deadlock". *)

From stdpp Require Export base tactics list numbers option strings.
From coqutil Require Export Byte Word.LittleEndianList.
From Stdlib Require Export ZArith Lia.
From Stdlib Require Import Btauto.
From coqutil Require Import Z.bitblast.

Local Open Scope Z_scope.

(** ** Outcomes of a Rust call

A call returns normally ([Ok], or [Err] for the error side of a
[Result]), unwinds ([Panic]), or executes an operation whose behaviour the
language leaves undefined ([UB]: reading an uninitialised slot). *)

Inductive outcome (E A : Type) : Type :=
  | Ok (a : A)
  | Err (e : E)
  | Panic (why : string)
  | UB.
Arguments Ok {_ _} _.
Arguments Err {_ _} _.
Arguments Panic {_ _} _.
Arguments UB {_ _}.

Definition outcome_bind {E A B} (f : A → outcome E B) (o : outcome E A) : outcome E B :=
  match o with Ok a => f a | Err e => Err e | Panic w => Panic w | UB => UB end.

Global Instance outcome_ret E : MRet (outcome E) := λ A a, Ok a.
Global Instance outcome_mbind E : MBind (outcome E) := λ A B f o, outcome_bind f o.

(** [Option::ok_or] and [Result::map_err]. *)
Definition ok_or {E A} (o : option A) (e : E) : outcome E A :=
  match o with Some a => Ok a | None => Err e end.

Definition map_err {E F A} (f : E → F) (o : outcome E A) : outcome F A :=
  match o with Ok a => Ok a | Err e => Err (f e) | Panic w => Panic w | UB => UB end.

(** ** Stateful calls

A method with a [&mut] receiver is a function on the receiver's state; the
state reached is kept on every exit, as in the source. *)

Definition M (S E A : Type) : Type := S → outcome E A * S.

Global Instance M_ret S E : MRet (M S E) := λ A a s, (Ok a, s).
Global Instance M_bind S E : MBind (M S E) := λ A B f m s,
  match m s with
  | (Ok a, s') => f a s'
  | (Err e, s') => (Err e, s')
  | (Panic w, s') => (Panic w, s')
  | (UB, s') => (UB, s')
  end.

Definition lift {S E A} (o : outcome E A) : M S E A := λ s, (o, s).
Definition get {S E} : M S E S := λ s, (Ok s, s).
Definition put {S E} (s : S) : M S E unit := λ _, (Ok tt, s).
Definition modify {S E} (f : S → S) : M S E unit := λ s, (Ok tt, f s).

(** A call whose [Result] the caller inspects instead of returning its error. *)
Definition attempt {S E F A} (m : M S E A) : M S F (A + E) := λ s,
  match m s with
  | (Ok a, s') => (Ok (inl a), s')
  | (Err e, s') => (Ok (inr e), s')
  | (Panic w, s') => (Panic w, s')
  | (UB, s') => (UB, s')
  end.

(** Rewriting a sequence of stateful calls one call at a time. *)
Lemma M_bind_Ok {S E A B} (m : M S E A) (f : A → M S E B) s s' a :
  m s = (Ok a, s') → (m ≫= f) s = f a s'.
Proof. unfold mbind, M_bind. by intros ->. Qed.

Lemma M_bind_inv {S E A B} (m : M S E A) (f : A → M S E B) s s' b :
  (m ≫= f) s = (Ok b, s') → ∃ a s1, m s = (Ok a, s1) ∧ f a s1 = (Ok b, s').
Proof. unfold mbind, M_bind. destruct (m s) as [[a|e|w|] s1]; intros H; try done. eauto. Qed.

(** ** Machine integers

A [w]-bit integer is a [Z] in range; [uN]/[iN] record the width the source
declares.  The target is 64-bit, so [usize] has 64 bits. *)

#[export] Instance byte_eq_dec : EqDecision byte.
Proof. intros a b. destruct (Byte.byte_eq_dec a b); [by left|by right]. Defined.

Definition u8 := Z.
Definition u16 := Z.
Definition u32 := Z.
Definition u64 := Z.
Definition usize := Z.
Definition i32 := Z.
Definition i64 := Z.

Definition wrap_u (w z : Z) : Z := z mod 2 ^ w.
Definition wrap_i (w z : Z) : Z := (z + 2 ^ (w - 1)) mod 2 ^ w - 2 ^ (w - 1).

Definition is_u (w z : Z) : Prop := 0 ≤ z < 2 ^ w.
Definition is_i (w z : Z) : Prop := - 2 ^ (w - 1) ≤ z < 2 ^ (w - 1).

(** Equality of integers bit by bit: the library's [Z.bitblast], with a second
round for the bits that only appear after the first case split. *)
Ltac zbits :=
  Z.bitblast; Z.rewrite_bitwise; Z.destruct_ltbs;
  try (exfalso; lia); try btauto.

Lemma Z_testbit_high a n m : 0 ≤ a < 2 ^ n → 0 ≤ n ≤ m → Z.testbit a m = false.
Proof.
  intros. rewrite <- (Z.mod_small a (2 ^ n)) by lia.
  rewrite Z.mod_pow2_bits_high; auto; lia.
Qed.

(** ** Checked arithmetic

An operation whose mathematical result leaves the type panics when overflow
checks are compiled in (the default of debug builds) and wraps otherwise. *)

Class Profile := overflow_checks : bool.

Definition arith_u `{Profile} {E} (w z : Z) : outcome E Z :=
  if (0 <=? z) && (z <? 2 ^ w) then Ok z
  else if overflow_checks then Panic "arithmetic overflow"
  else Ok (wrap_u w z).

Lemma arith_u_ok `{Profile} {E} w z : is_u w z → arith_u (E:=E) w z = Ok z.
Proof.
  intros [H1 H2]. unfold arith_u. by rewrite (proj2 (Z.leb_le _ _)), (proj2 (Z.ltb_lt _ _)).
Qed.

(** ** Bits of machine integers *)

Lemma is_u_mod w z : 0 ≤ w → is_u w z ↔ z mod 2 ^ w = z.
Proof.
  intros Hw. split; [apply Z.mod_small|].
  intros <-. apply Z.mod_pos_bound. by apply Z.pow_pos_nonneg.
Qed.

Lemma is_u_land w a b : 0 ≤ w → is_u w b → is_u w (Z.land a b).
Proof.
  intros Hw Hb%is_u_mod; [|done]. apply is_u_mod; [done|]. rewrite <- Hb. zbits.
Qed.

Lemma is_u_ldiff w a b : 0 ≤ w → is_u w a → is_u w (Z.ldiff a b).
Proof.
  intros Hw Ha%is_u_mod; [|done]. apply is_u_mod; [done|]. rewrite <- Ha.
  apply Z.bits_inj'. intros n Hn.
  rewrite Z.testbit_mod_pow2, Z.ldiff_spec, Z.testbit_mod_pow2 by done. btauto.
Qed.

Lemma is_u_lor w a b : 0 ≤ w → is_u w a → is_u w b → is_u w (Z.lor a b).
Proof.
  intros Hw Ha%is_u_mod Hb%is_u_mod; [|done..]. apply is_u_mod; [done|].
  rewrite <- Ha, <- Hb. zbits.
Qed.

Lemma wrap_u_is_u w z : 0 ≤ w → is_u w (wrap_u w z).
Proof. intros. apply Z.mod_pos_bound. by apply Z.pow_pos_nonneg. Qed.

(** Ranges of integers that are put together from others. *)
Create HintDb widths.
#[export] Hint Resolve is_u_land is_u_lor is_u_ldiff wrap_u_is_u : widths.
#[export] Hint Extern 1 (0 ≤ _) => lia : widths.

Lemma wrap_u_id w z : is_u w z → wrap_u w z = z.
Proof. apply Z.mod_small. Qed.

Lemma wrap_i_is_i w z : 0 < w → is_i w (wrap_i w z).
Proof.
  intros Hw. unfold is_i, wrap_i.
  assert (2 ^ w = 2 * 2 ^ (w - 1)) as He by (rewrite <- Z.pow_succ_r by lia; f_equal; lia).
  pose proof (Z.mod_pos_bound (z + 2 ^ (w - 1)) (2 ^ w)) as Hm.
  assert (0 < 2 ^ (w - 1)) by (apply Z.pow_pos_nonneg; lia). lia.
Qed.
