(* ===== verification/Layout.v ===== *)
(** * Memory layout of the [repr(C)] types

The types of the FUSE ABI are [repr(C)] structs over fixed-width integers
and arrays.  This file gives their layout as the language defines it (offset,
size and alignment of a C struct), the memory image of a value on a
little-endian target, and the inverse reading of an image.  [Pod] ties a
record of the development to its layout. *)

From S2P Require Import Prelude.

(** ** Types and their values *)

Inductive prim := U8 | U16 | U32 | U64 | I8 | I32 | I64.

Inductive ty :=
  | TPrim (p : prim)
  | TArray (t : ty) (n : nat)
  | TStruct (fs : fields)
with fields :=
  | FNil
  | FCons (t : ty) (fs : fields).

Scheme ty_mut := Induction for ty Sort Prop
  with fields_mut := Induction for fields Sort Prop.
Combined Scheme ty_fields_ind from ty_mut, fields_mut.

Fixpoint struct (ts : list ty) : fields :=
  match ts with [] => FNil | t :: ts => FCons t (struct ts) end.

Fixpoint val (t : ty) : Type :=
  match t with
  | TPrim _ => Z
  | TArray t _ => list (val t)
  | TStruct fs => fvals fs
  end
with fvals (fs : fields) : Type :=
  match fs with FNil => unit | FCons t fs => val t * fvals fs end.

(** ** Size and alignment *)

Definition prim_size (p : prim) : nat :=
  match p with U8 | I8 => 1 | U16 => 2 | U32 | I32 => 4 | U64 | I64 => 8 end.

Definition prim_signed (p : prim) : bool :=
  match p with I8 | I32 | I64 => true | _ => false end.

Definition prim_bits (p : prim) : Z := (Z.of_nat (prim_size p) * 8)%Z.

Definition round_up (n a : nat) : nat := (n + a - 1) / a * a.

Fixpoint ty_align (t : ty) : nat :=
  match t with
  | TPrim p => prim_size p
  | TArray t _ => ty_align t
  | TStruct fs => fields_align fs
  end
with fields_align (fs : fields) : nat :=
  match fs with FNil => 1 | FCons t fs => Nat.max (ty_align t) (fields_align fs) end.

(** [fields_end off fs] is the offset after the last field when the fields
are laid out from [off], each at the next multiple of its alignment; a
struct's size is that offset rounded up to the struct's alignment. *)
Fixpoint ty_size (t : ty) : nat :=
  match t with
  | TPrim p => prim_size p
  | TArray t n => n * ty_size t
  | TStruct fs => round_up (fields_end 0 fs) (fields_align fs)
  end
with fields_end (off : nat) (fs : fields) : nat :=
  match fs with
  | FNil => off
  | FCons t fs => fields_end (round_up off (ty_align t) + ty_size t) fs
  end.

(** ** No padding: every byte of the image belongs to a field.  This is what
the [IntoBytes] derive of the source's structs demands at compile time. *)

Fixpoint fields_sum (fs : fields) : nat :=
  match fs with FNil => 0 | FCons t fs => ty_size t + fields_sum fs end.

Fixpoint packed (t : ty) : bool :=
  match t with
  | TPrim _ => true
  | TArray t _ => packed t
  | TStruct fs => bool_decide (ty_size (TStruct fs) = fields_sum fs) && fields_packed fs
  end
with fields_packed (fs : fields) : bool :=
  match fs with FNil => true | FCons t fs => packed t && fields_packed fs end.

(** ** The memory image *)

Definition prim_in_range (p : prim) (z : Z) : Prop :=
  if prim_signed p then is_i (prim_bits p) z else is_u (prim_bits p) z.

Definition prim_encode (p : prim) (z : Z) : list byte := le_split (prim_size p) z.

Definition prim_decode (p : prim) (bs : list byte) : Z :=
  let z := le_combine (take (prim_size p) bs) in
  if prim_signed p then wrap_i (prim_bits p) z else z.

Fixpoint in_range (t : ty) : val t → Prop :=
  match t with
  | TPrim p => prim_in_range p
  | TArray t n => λ l, length l = n ∧ Forall (in_range t) l
  | TStruct fs => fields_in_range fs
  end
with fields_in_range (fs : fields) : fvals fs → Prop :=
  match fs with
  | FNil => λ _, True
  | FCons t fs => λ v, in_range t v.1 ∧ fields_in_range fs v.2
  end.

Fixpoint encode (t : ty) : val t → list byte :=
  match t with
  | TPrim p => prim_encode p
  | TArray t n => λ l, concat (map (encode t) l)
  | TStruct fs => fields_encode fs
  end
with fields_encode (fs : fields) : fvals fs → list byte :=
  match fs with
  | FNil => λ _, []
  | FCons t fs => λ v, encode t v.1 ++ fields_encode fs v.2
  end.

Fixpoint decode (t : ty) : list byte → val t :=
  match t with
  | TPrim p => prim_decode p
  | TArray t n =>
      (fix go n bs := match n with
       | O => []
       | S n => decode t bs :: go n (drop (ty_size t) bs)
       end) n
  | TStruct fs => fields_decode fs
  end
with fields_decode (fs : fields) : list byte → fvals fs :=
  match fs with
  | FNil => λ _, tt
  | FCons t fs => λ bs, (decode t bs, fields_decode fs (drop (ty_size t) bs))
  end.

(** ** Round trips *)

Lemma length_prim_encode p z : length (prim_encode p z) = prim_size p.
Proof. apply length_le_split. Qed.

Lemma prim_decode_encode p z r :
  prim_in_range p z → prim_decode p (prim_encode p z ++ r) = z.
Proof.
  unfold prim_in_range, prim_decode. intros Hz.
  rewrite take_app_length' by (by rewrite length_prim_encode).
  unfold prim_encode. rewrite le_combine_split. fold (prim_bits p).
  destruct (prim_signed p); [|by apply Z.mod_small].
  unfold wrap_i, is_i in *. rewrite Zplus_mod_idemp_l.
  rewrite Z.mod_small; [lia|].
  assert (2 ^ prim_bits p = 2 * 2 ^ (prim_bits p - 1))%Z; [|lia].
  rewrite <- Z.pow_succ_r by (by destruct p). f_equal. lia.
Qed.

Lemma wrap_i_mod w z : (0 < w → wrap_i w z mod 2 ^ w = z mod 2 ^ w)%Z.
Proof.
  intros. unfold wrap_i. rewrite Zminus_mod_idemp_l. f_equal. lia.
Qed.

Lemma prim_encode_decode p bs :
  length bs = prim_size p → prim_encode p (prim_decode p bs) = bs.
Proof.
  intros Hl. unfold prim_decode, prim_encode. rewrite take_ge by lia.
  destruct (prim_signed p); [|by apply split_le_combine'].
  rewrite le_split_mod. fold (prim_bits p). rewrite wrap_i_mod by (by destruct p).
  unfold prim_bits. rewrite <- le_split_mod. by apply split_le_combine'.
Qed.

Lemma prim_decode_in_range p bs :
  length bs = prim_size p → prim_in_range p (prim_decode p bs).
Proof.
  intros Hl. unfold prim_decode, prim_in_range. rewrite take_ge by lia.
  destruct (prim_signed p).
  - unfold wrap_i, is_i.
    assert (0 < 2 ^ prim_bits p)%Z by (apply Z.pow_pos_nonneg; destruct p; done).
    assert (2 ^ prim_bits p = 2 * 2 ^ (prim_bits p - 1))%Z.
    { rewrite <- Z.pow_succ_r by (by destruct p). f_equal. lia. }
    pose proof (Z.mod_pos_bound (le_combine bs + 2 ^ (prim_bits p - 1)) (2 ^ prim_bits p)).
    lia.
  - unfold is_u, prim_bits. pose proof (le_combine_bound bs) as Hb.
    rewrite Hl in Hb. by rewrite (Z.mul_comm (Z.of_nat _)).
Qed.

(** The length of an image, by induction on the type. *)
Lemma length_encode_all :
  (∀ t v, packed t = true → in_range t v → length (encode t v) = ty_size t) ∧
  (∀ fs v, fields_packed fs = true → fields_in_range fs v →
     length (fields_encode fs v) = fields_sum fs).
Proof.
  apply ty_fields_ind; simpl.
  - intros. apply length_prim_encode.
  - intros t IH n l Hp [<- Hl].
    induction Hl as [|x l Hx Hl IHl]; simpl; [done|].
    rewrite length_app, IHl, IH; auto.
  - intros fs IH v [Hs Hp]%andb_true_iff Hv. apply bool_decide_eq_true in Hs.
    rewrite IH by done. by rewrite <- Hs.
  - done.
  - intros t IHt fs IHfs [v vs] [Hp Hps]%andb_true_iff [Hv Hvs]; simpl in *.
    by rewrite length_app, IHt, IHfs.
Qed.

Lemma length_encode t v :
  packed t = true → in_range t v → length (encode t v) = ty_size t.
Proof. apply length_encode_all. Qed.

Lemma decode_encode_all :
  (∀ t v r, packed t = true → in_range t v → decode t (encode t v ++ r) = v) ∧
  (∀ fs v r, fields_packed fs = true → fields_in_range fs v →
     fields_decode fs (fields_encode fs v ++ r) = v).
Proof.
  apply ty_fields_ind; simpl.
  - intros. by apply prim_decode_encode.
  - intros t IH n l r Hp [<- Hl].
    induction Hl as [|x l Hx Hl IHl]; simpl; [done|].
    rewrite <- app_assoc, IH by done. f_equal.
    by rewrite drop_app_length' by (by rewrite length_encode).
  - intros fs IH v r [_ Hp]%andb_true_iff Hv. by apply IH.
  - by intros [].
  - intros t IHt fs IHfs [v vs] r [Hp Hps]%andb_true_iff [Hv Hvs]; simpl in *.
    rewrite <- app_assoc, IHt by done. f_equal.
    rewrite drop_app_length' by (by rewrite length_encode). by apply IHfs.
Qed.

Lemma decode_encode t v r :
  packed t = true → in_range t v → decode t (encode t v ++ r) = v.
Proof. apply decode_encode_all. Qed.

(** Reading only looks at the bytes of the image. *)
Lemma decode_take_all :
  (∀ t n bs, packed t = true → ty_size t ≤ n → decode t (take n bs) = decode t bs) ∧
  (∀ fs n bs, fields_packed fs = true → fields_sum fs ≤ n →
     fields_decode fs (take n bs) = fields_decode fs bs).
Proof.
  apply ty_fields_ind; simpl.
  - intros. unfold prim_decode. by rewrite take_take, Nat.min_l by done.
  - intros t IH n m bs Hp. revert m bs.
    induction n as [|n IHn]; simpl; intros m bs Hm; [done|].
    rewrite IH by (done || lia). f_equal.
    rewrite skipn_firstn_comm. apply IHn. lia.
  - intros fs IH n bs [Hs Hp]%andb_true_iff Hn. apply bool_decide_eq_true in Hs.
    apply IH; [done|]. by rewrite <- Hs.
  - done.
  - intros t IHt fs IHfs n bs [Hp Hps]%andb_true_iff Hn.
    rewrite IHt by (done || lia). f_equal.
    rewrite skipn_firstn_comm. apply IHfs; [done|lia].
Qed.

Lemma decode_take t bs : packed t = true → decode t (take (ty_size t) bs) = decode t bs.
Proof. intros. by apply decode_take_all. Qed.

Lemma encode_decode_all :
  (∀ t bs, packed t = true → ty_size t ≤ length bs →
     encode t (decode t bs) = take (ty_size t) bs ∧ in_range t (decode t bs)) ∧
  (∀ fs bs, fields_packed fs = true → fields_sum fs ≤ length bs →
     fields_encode fs (fields_decode fs bs) = take (fields_sum fs) bs ∧
     fields_in_range fs (fields_decode fs bs)).
Proof.
  apply ty_fields_ind; simpl.
  - intros p bs _ Hl.
    assert (prim_decode p bs = prim_decode p (take (prim_size p) bs)) as ->.
    { unfold prim_decode. by rewrite take_take, Nat.min_id. }
    assert (length (take (prim_size p) bs) = prim_size p) by (rewrite length_take; lia).
    split; [by apply prim_encode_decode | by apply prim_decode_in_range].
  - intros t IH n bs Hp. revert bs.
    induction n as [|n IHn]; intros bs Hl; simpl in *; [done|].
    destruct (IH bs) as [He Hr]; [done|lia|].
    destruct (IHn (drop (ty_size t) bs)) as [Hes [Hlen Hrs]]; [rewrite length_drop; lia|].
    rewrite Hes, He, take_take_drop. repeat split; [by f_equal|by constructor].
  - intros fs IH bs [Hs Hp]%andb_true_iff Hl. apply bool_decide_eq_true in Hs.
    change (round_up (fields_end 0 fs) (fields_align fs)) with (ty_size (TStruct fs)) in *.
    rewrite Hs in *. by apply IH.
  - by intros; rewrite take_0.
  - intros t IHt fs IHfs bs [Hp Hps]%andb_true_iff Hl.
    destruct (IHt bs) as [He Hr]; [done|lia|].
    destruct (IHfs (drop (ty_size t) bs)) as [Hes Hrs]; [done|rewrite length_drop; lia|].
    by rewrite Hes, He, take_take_drop.
Qed.

Lemma encode_decode t bs :
  packed t = true → length bs = ty_size t → encode t (decode t bs) = bs.
Proof.
  intros Hp Hl. rewrite (proj1 (proj1 encode_decode_all t bs Hp ltac:(lia))).
  apply take_ge; lia.
Qed.

Lemma decode_in_range t bs :
  packed t = true → ty_size t ≤ length bs → in_range t (decode t bs).
Proof. intros Hp Hl. by apply encode_decode_all. Qed.

(** ** Plain old data

[Pod T] states that the record [T] is the Rust struct with layout [layout],
and that the struct has no padding. *)

Class Pod (T : Type) := {
  layout : ty;
  to_val : T → val layout;
  of_val : val layout → T;
  of_to_val x : of_val (to_val x) = x;
  to_of_val v : to_val (of_val v) = v;
  layout_packed : packed layout = true;
}.
Arguments layout T {_}.

(** [mem::size_of] and [mem::align_of]. *)
Definition size_of (T : Type) `{Pod T} : nat := ty_size (layout T).
Definition align_of (T : Type) `{Pod T} : nat := ty_align (layout T).

Definition pod_wf {T} `{Pod T} (x : T) : Prop := in_range (layout T) (to_val x).
Definition pod_encode {T} `{Pod T} (x : T) : list byte := encode (layout T) (to_val x).
Definition pod_decode {T} `{Pod T} (bs : list byte) : T := of_val (decode (layout T) bs).

(** [FromZeros::new_zeroed]: the value whose image is all zeroes. *)
Definition pod_zeroed {T} `{Pod T} : T := pod_decode (replicate (size_of T) Byte.x00).

Section pod.
Context {T : Type} `{Pod T}.
Implicit Types x : T.

Lemma length_pod_encode x : pod_wf x → length (pod_encode x) = size_of T.
Proof. apply length_encode, layout_packed. Qed.

Lemma pod_decode_encode x r : pod_wf x → pod_decode (pod_encode x ++ r) = x.
Proof.
  intros Hx. unfold pod_decode, pod_encode.
  rewrite decode_encode by (done || apply layout_packed). apply of_to_val.
Qed.

Lemma pod_decode_take bs : pod_decode (take (size_of T) bs) = pod_decode (T:=T) bs.
Proof. unfold pod_decode, size_of. by rewrite decode_take by apply layout_packed. Qed.

Lemma pod_encode_decode bs :
  length bs = size_of T → pod_encode (pod_decode (T:=T) bs) = bs.
Proof.
  intros. unfold pod_decode, pod_encode.
  rewrite to_of_val. by apply encode_decode; [apply layout_packed|].
Qed.

Lemma pod_decode_wf bs : size_of T ≤ length bs → pod_wf (pod_decode (T:=T) bs).
Proof.
  intros. unfold pod_decode, pod_wf. rewrite to_of_val.
  by apply decode_in_range; [apply layout_packed|].
Qed.

End pod.

(** ** Ranges of the fields

[simpl_pod_wf H] turns a hypothesis [pod_wf x], for a record [x] in
constructor form, into the ranges of its fields. *)

Arguments prim_in_range : simpl never.
Arguments prim_encode : simpl never.
Arguments prim_decode : simpl never.
Arguments pod_wf : simpl never.
Arguments pod_encode : simpl never.
Arguments pod_decode : simpl never.
Arguments size_of : simpl never.
Arguments align_of : simpl never.

Ltac fold_widths H :=
  change (prim_in_range U8) with (is_u 8) in H;
  change (prim_in_range U16) with (is_u 16) in H;
  change (prim_in_range U32) with (is_u 32) in H;
  change (prim_in_range U64) with (is_u 64) in H;
  change (prim_in_range I32) with (is_i 32) in H;
  change (prim_in_range I64) with (is_i 64) in H.

Ltac simpl_pod_wf H := unfold pod_wf in H; cbn in H; fold_widths H.

Ltac fold_widths_goal :=
  change (prim_in_range U8) with (is_u 8);
  change (prim_in_range U16) with (is_u 16);
  change (prim_in_range U32) with (is_u 32);
  change (prim_in_range U64) with (is_u 64);
  change (prim_in_range I32) with (is_i 32);
  change (prim_in_range I64) with (is_i 64).

Ltac goal_pod_wf := unfold pod_wf; cbn; fold_widths_goal.

(** Splits conjunctions without opening the ranges of the fields. *)
Ltac split_fields := repeat match goal with |- _ ∧ _ => split end.

(** A structure put together from values in range. *)
Ltac out_wf := goal_pod_wf; split_fields; first [done|by auto with widths].
