(* ===== verification/Kernel.v ===== *)
(** * The FUSE ABI: [crates/polyfuse-kernel/src/lib.rs]

Constants, enumerations and [repr(C)] structs of the protocol, field for
field, each struct with its layout ([Pod]).  A field [f] of the struct
[fuse_x] is the projection [x_f]. *)

From S2P Require Import Prelude Layout.
Local Open Scope Z_scope.

(** ** Constants *)

Definition FUSE_KERNEL_VERSION : u32 := 7.
Definition FUSE_KERNEL_MINOR_VERSION : u32 := 44.
Definition FUSE_MIN_READ_BUFFER : u32 := 8192.
Definition FUSE_IOCTL_MAX_IOV : u32 := 256.
Definition FATTR_MODE : u32 := Z.shiftl 1 0.
Definition FATTR_UID : u32 := Z.shiftl 1 1.
Definition FATTR_GID : u32 := Z.shiftl 1 2.
Definition FATTR_SIZE : u32 := Z.shiftl 1 3.
Definition FATTR_ATIME : u32 := Z.shiftl 1 4.
Definition FATTR_MTIME : u32 := Z.shiftl 1 5.
Definition FATTR_FH : u32 := Z.shiftl 1 6.
Definition FATTR_ATIME_NOW : u32 := Z.shiftl 1 7.
Definition FATTR_MTIME_NOW : u32 := Z.shiftl 1 8.
Definition FATTR_LOCKOWNER : u32 := Z.shiftl 1 9.
Definition FATTR_CTIME : u32 := Z.shiftl 1 10.
Definition FATTR_KILL_SUIDGID : u32 := Z.shiftl 1 11.
Definition FUSE_ATTR_SUBMOUNT : u32 := Z.shiftl 1 0.
Definition FOPEN_DIRECT_IO : u32 := Z.shiftl 1 0.
Definition FOPEN_KEEP_CACHE : u32 := Z.shiftl 1 1.
Definition FOPEN_NONSEEKABLE : u32 := Z.shiftl 1 2.
Definition FOPEN_CACHE_DIR : u32 := Z.shiftl 1 3.
Definition FOPEN_STREAM : u32 := Z.shiftl 1 4.
Definition FOPEN_NOFLUSH : u32 := Z.shiftl 1 5.
Definition FOPEN_PARALLEL_DIRECT_WRITES : u32 := Z.shiftl 1 6.
Definition FOPEN_PASSTHROUGH : u32 := Z.shiftl 1 7.
Definition FUSE_ASYNC_READ : u32 := 1.
Definition FUSE_POSIX_LOCKS : u32 := Z.shiftl 1 1.
Definition FUSE_FILE_OPS : u32 := Z.shiftl 1 2.
Definition FUSE_ATOMIC_O_TRUNC : u32 := Z.shiftl 1 3.
Definition FUSE_EXPORT_SUPPORT : u32 := Z.shiftl 1 4.
Definition FUSE_BIG_WRITES : u32 := Z.shiftl 1 5.
Definition FUSE_DONT_MASK : u32 := Z.shiftl 1 6.
Definition FUSE_SPLICE_WRITE : u32 := Z.shiftl 1 7.
Definition FUSE_SPLICE_MOVE : u32 := Z.shiftl 1 8.
Definition FUSE_SPLICE_READ : u32 := Z.shiftl 1 9.
Definition FUSE_FLOCK_LOCKS : u32 := Z.shiftl 1 10.
Definition FUSE_HAS_IOCTL_DIR : u32 := Z.shiftl 1 11.
Definition FUSE_AUTO_INVAL_DATA : u32 := Z.shiftl 1 12.
Definition FUSE_DO_READDIRPLUS : u32 := Z.shiftl 1 13.
Definition FUSE_READDIRPLUS_AUTO : u32 := Z.shiftl 1 14.
Definition FUSE_ASYNC_DIO : u32 := Z.shiftl 1 15.
Definition FUSE_WRITEBACK_CACHE : u32 := Z.shiftl 1 16.
Definition FUSE_NO_OPEN_SUPPORT : u32 := Z.shiftl 1 17.
Definition FUSE_PARALLEL_DIROPS : u32 := Z.shiftl 1 18.
Definition FUSE_HANDLE_KILLPRIV : u32 := Z.shiftl 1 19.
Definition FUSE_POSIX_ACL : u32 := Z.shiftl 1 20.
Definition FUSE_ABORT_ERROR : u32 := Z.shiftl 1 21.
Definition FUSE_MAX_PAGES : u32 := Z.shiftl 1 22.
Definition FUSE_CACHE_SYMLINKS : u32 := Z.shiftl 1 23.
Definition FUSE_NO_OPENDIR_SUPPORT : u32 := Z.shiftl 1 24.
Definition FUSE_EXPLICIT_INVAL_DATA : u32 := Z.shiftl 1 25.
Definition FUSE_MAP_ALIGNMENT : u32 := Z.shiftl 1 26.
Definition FUSE_SUBMOUNTS : u32 := Z.shiftl 1 27.
Definition FUSE_HANDLE_KILLPRIV_V2 : u32 := Z.shiftl 1 28.
Definition FUSE_SETXATTR_EXT : u32 := Z.shiftl 1 29.
Definition FUSE_INIT_EXT : u32 := Z.shiftl 1 30.
Definition FUSE_INIT_RESERVED : u32 := Z.shiftl 1 31.
Definition FUSE_SECURITY_CTX : u64 := Z.shiftl 1 32.
Definition FUSE_HAS_INODE_DAX : u64 := Z.shiftl 1 33.
Definition FUSE_CREATE_SUPP_GROUP : u64 := Z.shiftl 1 34.
Definition FUSE_HAS_EXPIRE_ONLY : u64 := Z.shiftl 1 35.
Definition FUSE_DIRECT_IO_ALLOW_MMAP : u64 := Z.shiftl 1 36.
Definition FUSE_PASSTHROUGH : u64 := Z.shiftl 1 37.
Definition FUSE_NO_EXPORT_SUPPORT : u64 := Z.shiftl 1 38.
Definition FUSE_HAS_RESEND : u64 := Z.shiftl 1 39.
Definition FUSE_ALLOW_IDMAP : u64 := Z.shiftl 1 40.
Definition FUSE_OVER_IO_URING : u64 := Z.shiftl 1 41.
Definition FUSE_REQUEST_TIMEOUT : u64 := Z.shiftl 1 42.
Definition CUSE_UNRESTRICTED_IOCTL : u32 := Z.shiftl 1 0.
Definition FUSE_RELEASE_FLUSH : u32 := Z.shiftl 1 0.
Definition FUSE_RELEASE_FLOCK_UNLOCK : u32 := Z.shiftl 1 1.
Definition FUSE_GETATTR_FH : u32 := 1.
Definition FUSE_LK_FLOCK : u32 := Z.shiftl 1 0.
Definition FUSE_WRITE_CACHE : u32 := Z.shiftl 1 0.
Definition FUSE_WRITE_LOCKOWNER : u32 := Z.shiftl 1 1.
Definition FUSE_WRITE_KILL_SUIDGID : u32 := Z.shiftl 1 2.
Definition FUSE_WRITE_KILL_PRIV : u32 := FUSE_WRITE_KILL_SUIDGID.
Definition FUSE_READ_LOCKOWNER : u32 := Z.shiftl 1 1.
Definition FUSE_IOCTL_COMPAT : u32 := Z.shiftl 1 0.
Definition FUSE_IOCTL_UNRESTRICTED : u32 := Z.shiftl 1 1.
Definition FUSE_IOCTL_RETRY : u32 := Z.shiftl 1 2.
Definition FUSE_IOCTL_32BIT : u32 := Z.shiftl 1 3.
Definition FUSE_IOCTL_DIR : u32 := Z.shiftl 1 4.
Definition FUSE_IOCTL_COMPAT_X32 : u32 := Z.shiftl 1 5.
Definition FUSE_POLL_SCHEDULE_NOTIFY : u32 := Z.shiftl 1 0.
Definition FUSE_FSYNC_FDATASYNC : u32 := Z.shiftl 1 0.
Definition FUSE_OPEN_KILL_SUIDGID : u32 := Z.shiftl 1 0.
Definition FUSE_EXPIRE_ONLY : u32 := Z.shiftl 1 0.
Definition CUSE_INIT_INFO_MAX : u32 := 4096.
Definition FUSE_SETUPMAPPING_FLAG_WRITE : u64 := Z.shiftl 1 0.
Definition FUSE_SETUPMAPPING_FLAG_READ : u64 := Z.shiftl 1 1.
Definition FUSE_SETXATTR_ACL_KILL_SGID : u32 := Z.shiftl 1 0.
Definition FUSE_DEV_IOC_MAGIC : u32 := 229.
Definition FUSE_URING_IN_OUT_HEADER_SZ : usize := 128.
Definition FUSE_URING_OP_IN_OUT_SZ : usize := 128.
Definition CUSE_INIT_BSWAP_RESERVED : u32 := 1048576.
Definition FUSE_INIT_BSWAP_RESERVED : u32 := 436207616.
Definition FUSE_COMPAT_MKNOD_IN_SIZE : usize := 8.
Definition FUSE_COMPAT_WRITE_IN_SIZE : usize := 24.
Definition FUSE_COMPAT_SETXATTR_IN_SIZE : usize := 8.
Definition FUSE_COMPAT_ATTR_OUT_SIZE : usize := 96.
Definition FUSE_COMPAT_ENTRY_OUT_SIZE : usize := 120.
Definition FUSE_COMPAT_INIT_OUT_SIZE : usize := 8.
Definition FUSE_COMPAT_22_INIT_OUT_SIZE : usize := 24.
Definition FUSE_COMPAT_STATFS_SIZE : usize := 48.

(** ** Enumerations with [repr(u32)]

A field-less enum is its variants with their discriminants; the macro that
declares it also declares each discriminant as a constant, written here
[discr V]. *)

Class ReprU32 (E : Type) := {
  discr : E → u32;
  variants : list E;
  variants_complete e : In e variants;
  discr_inj e e' : discr e = discr e' → e = e';
}.

Ltac solve_enum_complete := intros []; cbn; tauto.
Ltac solve_enum_inj := intros [] []; first [reflexivity | discriminate].

Inductive fuse_opcode :=
  | FUSE_LOOKUP
  | FUSE_FORGET
  | FUSE_GETATTR
  | FUSE_SETATTR
  | FUSE_READLINK
  | FUSE_SYMLINK
  | FUSE_MKNOD
  | FUSE_MKDIR
  | FUSE_UNLINK
  | FUSE_RMDIR
  | FUSE_RENAME
  | FUSE_LINK
  | FUSE_OPEN
  | FUSE_READ
  | FUSE_WRITE
  | FUSE_STATFS
  | FUSE_RELEASE
  | FUSE_FSYNC
  | FUSE_SETXATTR
  | FUSE_GETXATTR
  | FUSE_LISTXATTR
  | FUSE_REMOVEXATTR
  | FUSE_FLUSH
  | FUSE_INIT
  | FUSE_OPENDIR
  | FUSE_READDIR
  | FUSE_RELEASEDIR
  | FUSE_FSYNCDIR
  | FUSE_GETLK
  | FUSE_SETLK
  | FUSE_SETLKW
  | FUSE_ACCESS
  | FUSE_CREATE
  | FUSE_INTERRUPT
  | FUSE_BMAP
  | FUSE_DESTROY
  | FUSE_IOCTL
  | FUSE_POLL
  | FUSE_NOTIFY_REPLY
  | FUSE_BATCH_FORGET
  | FUSE_FALLOCATE
  | FUSE_READDIRPLUS
  | FUSE_RENAME2
  | FUSE_LSEEK
  | FUSE_COPY_FILE_RANGE
  | FUSE_SETUPMAPPING
  | FUSE_REMOVEMAPPING
  | FUSE_SYNCFS
  | FUSE_TMPFILE
  | FUSE_STATX
  | CUSE_INIT.

Definition fuse_opcode_discr (e : fuse_opcode) : u32 :=
  match e with
  | FUSE_LOOKUP => 1
  | FUSE_FORGET => 2
  | FUSE_GETATTR => 3
  | FUSE_SETATTR => 4
  | FUSE_READLINK => 5
  | FUSE_SYMLINK => 6
  | FUSE_MKNOD => 8
  | FUSE_MKDIR => 9
  | FUSE_UNLINK => 10
  | FUSE_RMDIR => 11
  | FUSE_RENAME => 12
  | FUSE_LINK => 13
  | FUSE_OPEN => 14
  | FUSE_READ => 15
  | FUSE_WRITE => 16
  | FUSE_STATFS => 17
  | FUSE_RELEASE => 18
  | FUSE_FSYNC => 20
  | FUSE_SETXATTR => 21
  | FUSE_GETXATTR => 22
  | FUSE_LISTXATTR => 23
  | FUSE_REMOVEXATTR => 24
  | FUSE_FLUSH => 25
  | FUSE_INIT => 26
  | FUSE_OPENDIR => 27
  | FUSE_READDIR => 28
  | FUSE_RELEASEDIR => 29
  | FUSE_FSYNCDIR => 30
  | FUSE_GETLK => 31
  | FUSE_SETLK => 32
  | FUSE_SETLKW => 33
  | FUSE_ACCESS => 34
  | FUSE_CREATE => 35
  | FUSE_INTERRUPT => 36
  | FUSE_BMAP => 37
  | FUSE_DESTROY => 38
  | FUSE_IOCTL => 39
  | FUSE_POLL => 40
  | FUSE_NOTIFY_REPLY => 41
  | FUSE_BATCH_FORGET => 42
  | FUSE_FALLOCATE => 43
  | FUSE_READDIRPLUS => 44
  | FUSE_RENAME2 => 45
  | FUSE_LSEEK => 46
  | FUSE_COPY_FILE_RANGE => 47
  | FUSE_SETUPMAPPING => 48
  | FUSE_REMOVEMAPPING => 49
  | FUSE_SYNCFS => 50
  | FUSE_TMPFILE => 51
  | FUSE_STATX => 52
  | CUSE_INIT => 4096
  end.

Definition fuse_opcode_variants : list fuse_opcode :=
  [ FUSE_LOOKUP;
    FUSE_FORGET;
    FUSE_GETATTR;
    FUSE_SETATTR;
    FUSE_READLINK;
    FUSE_SYMLINK;
    FUSE_MKNOD;
    FUSE_MKDIR;
    FUSE_UNLINK;
    FUSE_RMDIR;
    FUSE_RENAME;
    FUSE_LINK;
    FUSE_OPEN;
    FUSE_READ;
    FUSE_WRITE;
    FUSE_STATFS;
    FUSE_RELEASE;
    FUSE_FSYNC;
    FUSE_SETXATTR;
    FUSE_GETXATTR;
    FUSE_LISTXATTR;
    FUSE_REMOVEXATTR;
    FUSE_FLUSH;
    FUSE_INIT;
    FUSE_OPENDIR;
    FUSE_READDIR;
    FUSE_RELEASEDIR;
    FUSE_FSYNCDIR;
    FUSE_GETLK;
    FUSE_SETLK;
    FUSE_SETLKW;
    FUSE_ACCESS;
    FUSE_CREATE;
    FUSE_INTERRUPT;
    FUSE_BMAP;
    FUSE_DESTROY;
    FUSE_IOCTL;
    FUSE_POLL;
    FUSE_NOTIFY_REPLY;
    FUSE_BATCH_FORGET;
    FUSE_FALLOCATE;
    FUSE_READDIRPLUS;
    FUSE_RENAME2;
    FUSE_LSEEK;
    FUSE_COPY_FILE_RANGE;
    FUSE_SETUPMAPPING;
    FUSE_REMOVEMAPPING;
    FUSE_SYNCFS;
    FUSE_TMPFILE;
    FUSE_STATX;
    CUSE_INIT ].

#[export] Instance fuse_opcode_repr : ReprU32 fuse_opcode.
Proof.
  refine {| discr := fuse_opcode_discr; variants := fuse_opcode_variants |}.
  - solve_enum_complete.
  - solve_enum_inj.
Defined.

Inductive fuse_notify_code :=
  | FUSE_NOTIFY_POLL
  | FUSE_NOTIFY_INVAL_INODE
  | FUSE_NOTIFY_INVAL_ENTRY
  | FUSE_NOTIFY_STORE
  | FUSE_NOTIFY_RETRIEVE
  | FUSE_NOTIFY_DELETE
  | FUSE_NOTIFY_RESEND
  | FUSE_NOTIFY_INC_EPOCH.

Definition fuse_notify_code_discr (e : fuse_notify_code) : u32 :=
  match e with
  | FUSE_NOTIFY_POLL => 1
  | FUSE_NOTIFY_INVAL_INODE => 2
  | FUSE_NOTIFY_INVAL_ENTRY => 3
  | FUSE_NOTIFY_STORE => 4
  | FUSE_NOTIFY_RETRIEVE => 5
  | FUSE_NOTIFY_DELETE => 6
  | FUSE_NOTIFY_RESEND => 7
  | FUSE_NOTIFY_INC_EPOCH => 8
  end.

Definition fuse_notify_code_variants : list fuse_notify_code :=
  [ FUSE_NOTIFY_POLL;
    FUSE_NOTIFY_INVAL_INODE;
    FUSE_NOTIFY_INVAL_ENTRY;
    FUSE_NOTIFY_STORE;
    FUSE_NOTIFY_RETRIEVE;
    FUSE_NOTIFY_DELETE;
    FUSE_NOTIFY_RESEND;
    FUSE_NOTIFY_INC_EPOCH ].

#[export] Instance fuse_notify_code_repr : ReprU32 fuse_notify_code.
Proof.
  refine {| discr := fuse_notify_code_discr; variants := fuse_notify_code_variants |}.
  - solve_enum_complete.
  - solve_enum_inj.
Defined.

Inductive fuse_ext_type :=
  | FUSE_MAX_NR_SECCTX
  | FUSE_EXT_GROUPS.

Definition fuse_ext_type_discr (e : fuse_ext_type) : u32 :=
  match e with
  | FUSE_MAX_NR_SECCTX => 31
  | FUSE_EXT_GROUPS => 32
  end.

Definition fuse_ext_type_variants : list fuse_ext_type :=
  [ FUSE_MAX_NR_SECCTX;
    FUSE_EXT_GROUPS ].

#[export] Instance fuse_ext_type_repr : ReprU32 fuse_ext_type.
Proof.
  refine {| discr := fuse_ext_type_discr; variants := fuse_ext_type_variants |}.
  - solve_enum_complete.
  - solve_enum_inj.
Defined.

Inductive fuse_uring_cmd :=
  | FUSE_IO_URING_CMD_INVALID
  | FUSE_IO_URING_CMD_REGISTER
  | FUSE_IO_URING_CMD_COMMIT_AND_FETCH.

Definition fuse_uring_cmd_discr (e : fuse_uring_cmd) : u32 :=
  match e with
  | FUSE_IO_URING_CMD_INVALID => 0
  | FUSE_IO_URING_CMD_REGISTER => 1
  | FUSE_IO_URING_CMD_COMMIT_AND_FETCH => 2
  end.

Definition fuse_uring_cmd_variants : list fuse_uring_cmd :=
  [ FUSE_IO_URING_CMD_INVALID;
    FUSE_IO_URING_CMD_REGISTER;
    FUSE_IO_URING_CMD_COMMIT_AND_FETCH ].

#[export] Instance fuse_uring_cmd_repr : ReprU32 fuse_uring_cmd.
Proof.
  refine {| discr := fuse_uring_cmd_discr; variants := fuse_uring_cmd_variants |}.
  - solve_enum_complete.
  - solve_enum_inj.
Defined.

(** ** Structs *)

Ltac solve_pod :=
  intros; repeat match goal with
  | x : val (TStruct _) |- _ => cbn in x
  | x : (_ * _)%type |- _ => destruct x
  | x : unit |- _ => destruct x
  | x : ?T |- _ => let _ := constr:(_ : Pod T) in destruct x
  | x : ?T |- _ = ?x => is_var x; destruct x
  end; reflexivity.

Record fuse_attr_compat_8 := {
  attr_compat_8_ino : u64;
  attr_compat_8_size : u64;
  attr_compat_8_blocks : u64;
  attr_compat_8_atime : u64;
  attr_compat_8_mtime : u64;
  attr_compat_8_ctime : u64;
  attr_compat_8_atimensec : u32;
  attr_compat_8_mtimensec : u32;
  attr_compat_8_ctimensec : u32;
  attr_compat_8_mode : u32;
  attr_compat_8_nlink : u32;
  attr_compat_8_uid : u32;
  attr_compat_8_gid : u32;
  attr_compat_8_rdev : u32;
}.

#[export] Instance fuse_attr_compat_8_pod : Pod fuse_attr_compat_8 := {|
  layout := TStruct (struct
    [TPrim U64; TPrim U64; TPrim U64; TPrim U64; TPrim U64; TPrim U64; TPrim U32; TPrim U32;
     TPrim U32; TPrim U32; TPrim U32; TPrim U32; TPrim U32; TPrim U32]);
  to_val x := (x.(attr_compat_8_ino), (x.(attr_compat_8_size), (x.(attr_compat_8_blocks),
    (x.(attr_compat_8_atime), (x.(attr_compat_8_mtime), (x.(attr_compat_8_ctime),
    (x.(attr_compat_8_atimensec), (x.(attr_compat_8_mtimensec),
    (x.(attr_compat_8_ctimensec), (x.(attr_compat_8_mode), (x.(attr_compat_8_nlink),
    (x.(attr_compat_8_uid), (x.(attr_compat_8_gid), (x.(attr_compat_8_rdev),
    tt))))))))))))));
  of_val v := let '(f0, (f1, (f2, (f3, (f4, (f5, (f6, (f7, (f8, (f9, (f10, (f11, (f12, (f13,
    _)))))))))))))) := v in
    {| attr_compat_8_ino := f0; attr_compat_8_size := f1; attr_compat_8_blocks := f2;
       attr_compat_8_atime := f3; attr_compat_8_mtime := f4; attr_compat_8_ctime := f5;
       attr_compat_8_atimensec := f6; attr_compat_8_mtimensec := f7; attr_compat_8_ctimensec
       := f8; attr_compat_8_mode := f9; attr_compat_8_nlink := f10; attr_compat_8_uid :=
       f11; attr_compat_8_gid := f12; attr_compat_8_rdev := f13 |};
  of_to_val := ltac:(solve_pod);
  to_of_val := ltac:(solve_pod);
  layout_packed := eq_refl;
|}.

Record fuse_attr := {
  attr_ino : u64;
  attr_size : u64;
  attr_blocks : u64;
  attr_atime : u64;
  attr_mtime : u64;
  attr_ctime : u64;
  attr_atimensec : u32;
  attr_mtimensec : u32;
  attr_ctimensec : u32;
  attr_mode : u32;
  attr_nlink : u32;
  attr_uid : u32;
  attr_gid : u32;
  attr_rdev : u32;
  attr_blksize : u32;
  attr_flags : u32;
}.

#[export] Instance fuse_attr_pod : Pod fuse_attr := {|
  layout := TStruct (struct
    [TPrim U64; TPrim U64; TPrim U64; TPrim U64; TPrim U64; TPrim U64; TPrim U32; TPrim U32;
     TPrim U32; TPrim U32; TPrim U32; TPrim U32; TPrim U32; TPrim U32; TPrim U32; TPrim U32]);
  to_val x := (x.(attr_ino), (x.(attr_size), (x.(attr_blocks), (x.(attr_atime), (x.(attr_mtime),
    (x.(attr_ctime), (x.(attr_atimensec), (x.(attr_mtimensec), (x.(attr_ctimensec),
    (x.(attr_mode), (x.(attr_nlink), (x.(attr_uid), (x.(attr_gid), (x.(attr_rdev),
    (x.(attr_blksize), (x.(attr_flags), tt))))))))))))))));
  of_val v := let '(f0, (f1, (f2, (f3, (f4, (f5, (f6, (f7, (f8, (f9, (f10, (f11, (f12, (f13, (f14, (f15,
    _)))))))))))))))) := v in
    {| attr_ino := f0; attr_size := f1; attr_blocks := f2; attr_atime := f3; attr_mtime :=
       f4; attr_ctime := f5; attr_atimensec := f6; attr_mtimensec := f7; attr_ctimensec :=
       f8; attr_mode := f9; attr_nlink := f10; attr_uid := f11; attr_gid := f12; attr_rdev
       := f13; attr_blksize := f14; attr_flags := f15 |};
  of_to_val := ltac:(solve_pod);
  to_of_val := ltac:(solve_pod);
  layout_packed := eq_refl;
|}.

Record fuse_dirent := {
  dirent_ino : u64;
  dirent_off : u64;
  dirent_namelen : u32;
  dirent_typ : u32;
  dirent_name : list u8;
}.

#[export] Instance fuse_dirent_pod : Pod fuse_dirent := {|
  layout := TStruct (struct
    [TPrim U64; TPrim U64; TPrim U32; TPrim U32; TArray (TPrim U8) 0]);
  to_val x := (x.(dirent_ino), (x.(dirent_off), (x.(dirent_namelen), (x.(dirent_typ),
    (x.(dirent_name), tt)))));
  of_val v := let '(f0, (f1, (f2, (f3, (f4, _))))) := v in
    {| dirent_ino := f0; dirent_off := f1; dirent_namelen := f2; dirent_typ := f3;
       dirent_name := f4 |};
  of_to_val := ltac:(solve_pod);
  to_of_val := ltac:(solve_pod);
  layout_packed := eq_refl;
|}.

Record fuse_entry_out := {
  entry_out_nodeid : u64;
  entry_out_generation : u64;
  entry_out_entry_valid : u64;
  entry_out_attr_valid : u64;
  entry_out_entry_valid_nsec : u32;
  entry_out_attr_valid_nsec : u32;
  entry_out_attr : fuse_attr;
}.

#[export] Instance fuse_entry_out_pod : Pod fuse_entry_out := {|
  layout := TStruct (struct
    [TPrim U64; TPrim U64; TPrim U64; TPrim U64; TPrim U32; TPrim U32; layout fuse_attr]);
  to_val x := (x.(entry_out_nodeid), (x.(entry_out_generation), (x.(entry_out_entry_valid),
    (x.(entry_out_attr_valid), (x.(entry_out_entry_valid_nsec),
    (x.(entry_out_attr_valid_nsec), (to_val x.(entry_out_attr), tt)))))));
  of_val v := let '(f0, (f1, (f2, (f3, (f4, (f5, (f6, _))))))) := v in
    {| entry_out_nodeid := f0; entry_out_generation := f1; entry_out_entry_valid := f2;
       entry_out_attr_valid := f3; entry_out_entry_valid_nsec := f4;
       entry_out_attr_valid_nsec := f5; entry_out_attr := of_val f6 |};
  of_to_val := ltac:(solve_pod);
  to_of_val := ltac:(solve_pod);
  layout_packed := eq_refl;
|}.

Record fuse_direntplus := {
  direntplus_entry_out : fuse_entry_out;
  direntplus_dirent : fuse_dirent;
}.

#[export] Instance fuse_direntplus_pod : Pod fuse_direntplus := {|
  layout := TStruct (struct
    [layout fuse_entry_out; layout fuse_dirent]);
  to_val x := (to_val x.(direntplus_entry_out), (to_val x.(direntplus_dirent), tt));
  of_val v := let '(f0, (f1, _)) := v in
    {| direntplus_entry_out := of_val f0; direntplus_dirent := of_val f1 |};
  of_to_val := ltac:(solve_pod);
  to_of_val := ltac:(solve_pod);
  layout_packed := eq_refl;
|}.

Record fuse_sx_time := {
  sx_time_tv_sec : i64;
  sx_time_tv_nsec : u32;
  sx_time___reserved : i32;
}.

#[export] Instance fuse_sx_time_pod : Pod fuse_sx_time := {|
  layout := TStruct (struct
    [TPrim I64; TPrim U32; TPrim I32]);
  to_val x := (x.(sx_time_tv_sec), (x.(sx_time_tv_nsec), (x.(sx_time___reserved), tt)));
  of_val v := let '(f0, (f1, (f2, _))) := v in
    {| sx_time_tv_sec := f0; sx_time_tv_nsec := f1; sx_time___reserved := f2 |};
  of_to_val := ltac:(solve_pod);
  to_of_val := ltac:(solve_pod);
  layout_packed := eq_refl;
|}.

Record fuse_statx := {
  statx_mask : u32;
  statx_blksize : u32;
  statx_attributes : u64;
  statx_nlink : u32;
  statx_uid : u32;
  statx_gid : u32;
  statx_mode : u16;
  statx___spare0 : list u16;
  statx_ino : u64;
  statx_size : u64;
  statx_blocks : u64;
  statx_attributes_mask : u64;
  statx_atime : fuse_sx_time;
  statx_btime : fuse_sx_time;
  statx_ctime : fuse_sx_time;
  statx_mtime : fuse_sx_time;
  statx_rdev_major : u32;
  statx_rdev_minor : u32;
  statx_dev_major : u32;
  statx_dev_minor : u32;
  statx___spare2 : list u64;
}.

#[export] Instance fuse_statx_pod : Pod fuse_statx := {|
  layout := TStruct (struct
    [TPrim U32; TPrim U32; TPrim U64; TPrim U32; TPrim U32; TPrim U32; TPrim U16; TArray
     (TPrim U16) 1; TPrim U64; TPrim U64; TPrim U64; TPrim U64; layout fuse_sx_time; layout
     fuse_sx_time; layout fuse_sx_time; layout fuse_sx_time; TPrim U32; TPrim U32; TPrim
     U32; TPrim U32; TArray (TPrim U64) 14]);
  to_val x := (x.(statx_mask), (x.(statx_blksize), (x.(statx_attributes), (x.(statx_nlink),
    (x.(statx_uid), (x.(statx_gid), (x.(statx_mode), (x.(statx___spare0), (x.(statx_ino),
    (x.(statx_size), (x.(statx_blocks), (x.(statx_attributes_mask), (to_val x.(statx_atime),
    (to_val x.(statx_btime), (to_val x.(statx_ctime), (to_val x.(statx_mtime),
    (x.(statx_rdev_major), (x.(statx_rdev_minor), (x.(statx_dev_major),
    (x.(statx_dev_minor), (x.(statx___spare2), tt)))))))))))))))))))));
  of_val v := let '(f0, (f1, (f2, (f3, (f4, (f5, (f6, (f7, (f8, (f9, (f10, (f11, (f12, (f13, (f14, (f15,
    (f16, (f17, (f18, (f19, (f20, _))))))))))))))))))))) := v in
    {| statx_mask := f0; statx_blksize := f1; statx_attributes := f2; statx_nlink := f3;
       statx_uid := f4; statx_gid := f5; statx_mode := f6; statx___spare0 := f7; statx_ino
       := f8; statx_size := f9; statx_blocks := f10; statx_attributes_mask := f11;
       statx_atime := of_val f12; statx_btime := of_val f13; statx_ctime := of_val f14;
       statx_mtime := of_val f15; statx_rdev_major := f16; statx_rdev_minor := f17;
       statx_dev_major := f18; statx_dev_minor := f19; statx___spare2 := f20 |};
  of_to_val := ltac:(solve_pod);
  to_of_val := ltac:(solve_pod);
  layout_packed := eq_refl;
|}.

Record fuse_kstatfs_compat_3 := {
  kstatfs_compat_3_blocks : u64;
  kstatfs_compat_3_bfree : u64;
  kstatfs_compat_3_bavail : u64;
  kstatfs_compat_3_files : u64;
  kstatfs_compat_3_ffree : u64;
  kstatfs_compat_3_bsize : u32;
  kstatfs_compat_3_namelen : u32;
}.

#[export] Instance fuse_kstatfs_compat_3_pod : Pod fuse_kstatfs_compat_3 := {|
  layout := TStruct (struct
    [TPrim U64; TPrim U64; TPrim U64; TPrim U64; TPrim U64; TPrim U32; TPrim U32]);
  to_val x := (x.(kstatfs_compat_3_blocks), (x.(kstatfs_compat_3_bfree), (x.(kstatfs_compat_3_bavail),
    (x.(kstatfs_compat_3_files), (x.(kstatfs_compat_3_ffree), (x.(kstatfs_compat_3_bsize),
    (x.(kstatfs_compat_3_namelen), tt)))))));
  of_val v := let '(f0, (f1, (f2, (f3, (f4, (f5, (f6, _))))))) := v in
    {| kstatfs_compat_3_blocks := f0; kstatfs_compat_3_bfree := f1; kstatfs_compat_3_bavail
       := f2; kstatfs_compat_3_files := f3; kstatfs_compat_3_ffree := f4;
       kstatfs_compat_3_bsize := f5; kstatfs_compat_3_namelen := f6 |};
  of_to_val := ltac:(solve_pod);
  to_of_val := ltac:(solve_pod);
  layout_packed := eq_refl;
|}.

Record fuse_kstatfs := {
  kstatfs_blocks : u64;
  kstatfs_bfree : u64;
  kstatfs_bavail : u64;
  kstatfs_files : u64;
  kstatfs_ffree : u64;
  kstatfs_bsize : u32;
  kstatfs_namelen : u32;
  kstatfs_frsize : u32;
  kstatfs_padding : u32;
  kstatfs_spare : list u32;
}.

#[export] Instance fuse_kstatfs_pod : Pod fuse_kstatfs := {|
  layout := TStruct (struct
    [TPrim U64; TPrim U64; TPrim U64; TPrim U64; TPrim U64; TPrim U32; TPrim U32; TPrim U32;
     TPrim U32; TArray (TPrim U32) 6]);
  to_val x := (x.(kstatfs_blocks), (x.(kstatfs_bfree), (x.(kstatfs_bavail), (x.(kstatfs_files),
    (x.(kstatfs_ffree), (x.(kstatfs_bsize), (x.(kstatfs_namelen), (x.(kstatfs_frsize),
    (x.(kstatfs_padding), (x.(kstatfs_spare), tt))))))))));
  of_val v := let '(f0, (f1, (f2, (f3, (f4, (f5, (f6, (f7, (f8, (f9, _)))))))))) := v in
    {| kstatfs_blocks := f0; kstatfs_bfree := f1; kstatfs_bavail := f2; kstatfs_files := f3;
       kstatfs_ffree := f4; kstatfs_bsize := f5; kstatfs_namelen := f6; kstatfs_frsize :=
       f7; kstatfs_padding := f8; kstatfs_spare := f9 |};
  of_to_val := ltac:(solve_pod);
  to_of_val := ltac:(solve_pod);
  layout_packed := eq_refl;
|}.

Record fuse_file_lock := {
  file_lock_start : u64;
  file_lock_end : u64;
  file_lock_typ : u32;
  file_lock_pid : u32;
}.

#[export] Instance fuse_file_lock_pod : Pod fuse_file_lock := {|
  layout := TStruct (struct
    [TPrim U64; TPrim U64; TPrim U32; TPrim U32]);
  to_val x := (x.(file_lock_start), (x.(file_lock_end), (x.(file_lock_typ), (x.(file_lock_pid), tt))));
  of_val v := let '(f0, (f1, (f2, (f3, _)))) := v in
    {| file_lock_start := f0; file_lock_end := f1; file_lock_typ := f2; file_lock_pid := f3 |};
  of_to_val := ltac:(solve_pod);
  to_of_val := ltac:(solve_pod);
  layout_packed := eq_refl;
|}.

Record fuse_in_header := {
  in_header_len : u32;
  in_header_opcode : u32;
  in_header_unique : u64;
  in_header_nodeid : u64;
  in_header_uid : u32;
  in_header_gid : u32;
  in_header_pid : u32;
  in_header_total_extlen : u16;
  in_header_padding : u16;
}.

#[export] Instance fuse_in_header_pod : Pod fuse_in_header := {|
  layout := TStruct (struct
    [TPrim U32; TPrim U32; TPrim U64; TPrim U64; TPrim U32; TPrim U32; TPrim U32; TPrim U16;
     TPrim U16]);
  to_val x := (x.(in_header_len), (x.(in_header_opcode), (x.(in_header_unique), (x.(in_header_nodeid),
    (x.(in_header_uid), (x.(in_header_gid), (x.(in_header_pid), (x.(in_header_total_extlen),
    (x.(in_header_padding), tt)))))))));
  of_val v := let '(f0, (f1, (f2, (f3, (f4, (f5, (f6, (f7, (f8, _))))))))) := v in
    {| in_header_len := f0; in_header_opcode := f1; in_header_unique := f2; in_header_nodeid
       := f3; in_header_uid := f4; in_header_gid := f5; in_header_pid := f6;
       in_header_total_extlen := f7; in_header_padding := f8 |};
  of_to_val := ltac:(solve_pod);
  to_of_val := ltac:(solve_pod);
  layout_packed := eq_refl;
|}.

Record fuse_init_in_compat_35 := {
  init_in_compat_35_major : u32;
  init_in_compat_35_minor : u32;
  init_in_compat_35_max_readahead : u32;
  init_in_compat_35_flags : u32;
}.

#[export] Instance fuse_init_in_compat_35_pod : Pod fuse_init_in_compat_35 := {|
  layout := TStruct (struct
    [TPrim U32; TPrim U32; TPrim U32; TPrim U32]);
  to_val x := (x.(init_in_compat_35_major), (x.(init_in_compat_35_minor),
    (x.(init_in_compat_35_max_readahead), (x.(init_in_compat_35_flags), tt))));
  of_val v := let '(f0, (f1, (f2, (f3, _)))) := v in
    {| init_in_compat_35_major := f0; init_in_compat_35_minor := f1;
       init_in_compat_35_max_readahead := f2; init_in_compat_35_flags := f3 |};
  of_to_val := ltac:(solve_pod);
  to_of_val := ltac:(solve_pod);
  layout_packed := eq_refl;
|}.

Record fuse_init_in := {
  init_in_major : u32;
  init_in_minor : u32;
  init_in_max_readahead : u32;
  init_in_flags : u32;
  init_in_flags2 : u32;
  init_in_unused : list u32;
}.

#[export] Instance fuse_init_in_pod : Pod fuse_init_in := {|
  layout := TStruct (struct
    [TPrim U32; TPrim U32; TPrim U32; TPrim U32; TPrim U32; TArray (TPrim U32) 11]);
  to_val x := (x.(init_in_major), (x.(init_in_minor), (x.(init_in_max_readahead), (x.(init_in_flags),
    (x.(init_in_flags2), (x.(init_in_unused), tt))))));
  of_val v := let '(f0, (f1, (f2, (f3, (f4, (f5, _)))))) := v in
    {| init_in_major := f0; init_in_minor := f1; init_in_max_readahead := f2; init_in_flags
       := f3; init_in_flags2 := f4; init_in_unused := f5 |};
  of_to_val := ltac:(solve_pod);
  to_of_val := ltac:(solve_pod);
  layout_packed := eq_refl;
|}.

Record fuse_forget_in := {
  forget_in_nlookup : u64;
}.

#[export] Instance fuse_forget_in_pod : Pod fuse_forget_in := {|
  layout := TStruct (struct
    [TPrim U64]);
  to_val x := (x.(forget_in_nlookup), tt);
  of_val v := let '(f0, _) := v in
    {| forget_in_nlookup := f0 |};
  of_to_val := ltac:(solve_pod);
  to_of_val := ltac:(solve_pod);
  layout_packed := eq_refl;
|}.

Record fuse_getattr_in := {
  getattr_in_getattr_flags : u32;
  getattr_in_dummy : u32;
  getattr_in_fh : u64;
}.

#[export] Instance fuse_getattr_in_pod : Pod fuse_getattr_in := {|
  layout := TStruct (struct
    [TPrim U32; TPrim U32; TPrim U64]);
  to_val x := (x.(getattr_in_getattr_flags), (x.(getattr_in_dummy), (x.(getattr_in_fh), tt)));
  of_val v := let '(f0, (f1, (f2, _))) := v in
    {| getattr_in_getattr_flags := f0; getattr_in_dummy := f1; getattr_in_fh := f2 |};
  of_to_val := ltac:(solve_pod);
  to_of_val := ltac:(solve_pod);
  layout_packed := eq_refl;
|}.

Record fuse_setattr_in := {
  setattr_in_valid : u32;
  setattr_in_padding : u32;
  setattr_in_fh : u64;
  setattr_in_size : u64;
  setattr_in_lock_owner : u64;
  setattr_in_atime : u64;
  setattr_in_mtime : u64;
  setattr_in_ctime : u64;
  setattr_in_atimensec : u32;
  setattr_in_mtimensec : u32;
  setattr_in_ctimensec : u32;
  setattr_in_mode : u32;
  setattr_in_unused4 : u32;
  setattr_in_uid : u32;
  setattr_in_gid : u32;
  setattr_in_unused5 : u32;
}.

#[export] Instance fuse_setattr_in_pod : Pod fuse_setattr_in := {|
  layout := TStruct (struct
    [TPrim U32; TPrim U32; TPrim U64; TPrim U64; TPrim U64; TPrim U64; TPrim U64; TPrim U64;
     TPrim U32; TPrim U32; TPrim U32; TPrim U32; TPrim U32; TPrim U32; TPrim U32; TPrim U32]);
  to_val x := (x.(setattr_in_valid), (x.(setattr_in_padding), (x.(setattr_in_fh),
    (x.(setattr_in_size), (x.(setattr_in_lock_owner), (x.(setattr_in_atime),
    (x.(setattr_in_mtime), (x.(setattr_in_ctime), (x.(setattr_in_atimensec),
    (x.(setattr_in_mtimensec), (x.(setattr_in_ctimensec), (x.(setattr_in_mode),
    (x.(setattr_in_unused4), (x.(setattr_in_uid), (x.(setattr_in_gid),
    (x.(setattr_in_unused5), tt))))))))))))))));
  of_val v := let '(f0, (f1, (f2, (f3, (f4, (f5, (f6, (f7, (f8, (f9, (f10, (f11, (f12, (f13, (f14, (f15,
    _)))))))))))))))) := v in
    {| setattr_in_valid := f0; setattr_in_padding := f1; setattr_in_fh := f2;
       setattr_in_size := f3; setattr_in_lock_owner := f4; setattr_in_atime := f5;
       setattr_in_mtime := f6; setattr_in_ctime := f7; setattr_in_atimensec := f8;
       setattr_in_mtimensec := f9; setattr_in_ctimensec := f10; setattr_in_mode := f11;
       setattr_in_unused4 := f12; setattr_in_uid := f13; setattr_in_gid := f14;
       setattr_in_unused5 := f15 |};
  of_to_val := ltac:(solve_pod);
  to_of_val := ltac:(solve_pod);
  layout_packed := eq_refl;
|}.

Record fuse_mknod_in_compat_11 := {
  mknod_in_compat_11_mode : u32;
  mknod_in_compat_11_rdev : u32;
}.

#[export] Instance fuse_mknod_in_compat_11_pod : Pod fuse_mknod_in_compat_11 := {|
  layout := TStruct (struct
    [TPrim U32; TPrim U32]);
  to_val x := (x.(mknod_in_compat_11_mode), (x.(mknod_in_compat_11_rdev), tt));
  of_val v := let '(f0, (f1, _)) := v in
    {| mknod_in_compat_11_mode := f0; mknod_in_compat_11_rdev := f1 |};
  of_to_val := ltac:(solve_pod);
  to_of_val := ltac:(solve_pod);
  layout_packed := eq_refl;
|}.

Record fuse_mknod_in := {
  mknod_in_mode : u32;
  mknod_in_rdev : u32;
  mknod_in_umask : u32;
  mknod_in_padding : u32;
}.

#[export] Instance fuse_mknod_in_pod : Pod fuse_mknod_in := {|
  layout := TStruct (struct
    [TPrim U32; TPrim U32; TPrim U32; TPrim U32]);
  to_val x := (x.(mknod_in_mode), (x.(mknod_in_rdev), (x.(mknod_in_umask), (x.(mknod_in_padding),
    tt))));
  of_val v := let '(f0, (f1, (f2, (f3, _)))) := v in
    {| mknod_in_mode := f0; mknod_in_rdev := f1; mknod_in_umask := f2; mknod_in_padding :=
       f3 |};
  of_to_val := ltac:(solve_pod);
  to_of_val := ltac:(solve_pod);
  layout_packed := eq_refl;
|}.

Record fuse_mkdir_in := {
  mkdir_in_mode : u32;
  mkdir_in_umask : u32;
}.

#[export] Instance fuse_mkdir_in_pod : Pod fuse_mkdir_in := {|
  layout := TStruct (struct
    [TPrim U32; TPrim U32]);
  to_val x := (x.(mkdir_in_mode), (x.(mkdir_in_umask), tt));
  of_val v := let '(f0, (f1, _)) := v in
    {| mkdir_in_mode := f0; mkdir_in_umask := f1 |};
  of_to_val := ltac:(solve_pod);
  to_of_val := ltac:(solve_pod);
  layout_packed := eq_refl;
|}.

Record fuse_rename_in := {
  rename_in_newdir : u64;
}.

#[export] Instance fuse_rename_in_pod : Pod fuse_rename_in := {|
  layout := TStruct (struct
    [TPrim U64]);
  to_val x := (x.(rename_in_newdir), tt);
  of_val v := let '(f0, _) := v in
    {| rename_in_newdir := f0 |};
  of_to_val := ltac:(solve_pod);
  to_of_val := ltac:(solve_pod);
  layout_packed := eq_refl;
|}.

Record fuse_link_in := {
  link_in_oldnodeid : u64;
}.

#[export] Instance fuse_link_in_pod : Pod fuse_link_in := {|
  layout := TStruct (struct
    [TPrim U64]);
  to_val x := (x.(link_in_oldnodeid), tt);
  of_val v := let '(f0, _) := v in
    {| link_in_oldnodeid := f0 |};
  of_to_val := ltac:(solve_pod);
  to_of_val := ltac:(solve_pod);
  layout_packed := eq_refl;
|}.

Record fuse_open_in := {
  open_in_flags : u32;
  open_in_open_flags : u32;
}.

#[export] Instance fuse_open_in_pod : Pod fuse_open_in := {|
  layout := TStruct (struct
    [TPrim U32; TPrim U32]);
  to_val x := (x.(open_in_flags), (x.(open_in_open_flags), tt));
  of_val v := let '(f0, (f1, _)) := v in
    {| open_in_flags := f0; open_in_open_flags := f1 |};
  of_to_val := ltac:(solve_pod);
  to_of_val := ltac:(solve_pod);
  layout_packed := eq_refl;
|}.

Record fuse_read_in := {
  read_in_fh : u64;
  read_in_offset : u64;
  read_in_size : u32;
  read_in_read_flags : u32;
  read_in_lock_owner : u64;
  read_in_flags : u32;
  read_in_padding : u32;
}.

#[export] Instance fuse_read_in_pod : Pod fuse_read_in := {|
  layout := TStruct (struct
    [TPrim U64; TPrim U64; TPrim U32; TPrim U32; TPrim U64; TPrim U32; TPrim U32]);
  to_val x := (x.(read_in_fh), (x.(read_in_offset), (x.(read_in_size), (x.(read_in_read_flags),
    (x.(read_in_lock_owner), (x.(read_in_flags), (x.(read_in_padding), tt)))))));
  of_val v := let '(f0, (f1, (f2, (f3, (f4, (f5, (f6, _))))))) := v in
    {| read_in_fh := f0; read_in_offset := f1; read_in_size := f2; read_in_read_flags := f3;
       read_in_lock_owner := f4; read_in_flags := f5; read_in_padding := f6 |};
  of_to_val := ltac:(solve_pod);
  to_of_val := ltac:(solve_pod);
  layout_packed := eq_refl;
|}.

Record fuse_write_in_compat_8 := {
  write_in_compat_8_fh : u64;
  write_in_compat_8_offset : u64;
  write_in_compat_8_size : u32;
  write_in_compat_8_write_flags : u32;
}.

#[export] Instance fuse_write_in_compat_8_pod : Pod fuse_write_in_compat_8 := {|
  layout := TStruct (struct
    [TPrim U64; TPrim U64; TPrim U32; TPrim U32]);
  to_val x := (x.(write_in_compat_8_fh), (x.(write_in_compat_8_offset), (x.(write_in_compat_8_size),
    (x.(write_in_compat_8_write_flags), tt))));
  of_val v := let '(f0, (f1, (f2, (f3, _)))) := v in
    {| write_in_compat_8_fh := f0; write_in_compat_8_offset := f1; write_in_compat_8_size :=
       f2; write_in_compat_8_write_flags := f3 |};
  of_to_val := ltac:(solve_pod);
  to_of_val := ltac:(solve_pod);
  layout_packed := eq_refl;
|}.

Record fuse_write_in := {
  write_in_fh : u64;
  write_in_offset : u64;
  write_in_size : u32;
  write_in_write_flags : u32;
  write_in_lock_owner : u64;
  write_in_flags : u32;
  write_in_padding : u32;
}.

#[export] Instance fuse_write_in_pod : Pod fuse_write_in := {|
  layout := TStruct (struct
    [TPrim U64; TPrim U64; TPrim U32; TPrim U32; TPrim U64; TPrim U32; TPrim U32]);
  to_val x := (x.(write_in_fh), (x.(write_in_offset), (x.(write_in_size), (x.(write_in_write_flags),
    (x.(write_in_lock_owner), (x.(write_in_flags), (x.(write_in_padding), tt)))))));
  of_val v := let '(f0, (f1, (f2, (f3, (f4, (f5, (f6, _))))))) := v in
    {| write_in_fh := f0; write_in_offset := f1; write_in_size := f2; write_in_write_flags
       := f3; write_in_lock_owner := f4; write_in_flags := f5; write_in_padding := f6 |};
  of_to_val := ltac:(solve_pod);
  to_of_val := ltac:(solve_pod);
  layout_packed := eq_refl;
|}.

Record fuse_flush_in := {
  flush_in_fh : u64;
  flush_in_unused : u32;
  flush_in_padding : u32;
  flush_in_lock_owner : u64;
}.

#[export] Instance fuse_flush_in_pod : Pod fuse_flush_in := {|
  layout := TStruct (struct
    [TPrim U64; TPrim U32; TPrim U32; TPrim U64]);
  to_val x := (x.(flush_in_fh), (x.(flush_in_unused), (x.(flush_in_padding), (x.(flush_in_lock_owner),
    tt))));
  of_val v := let '(f0, (f1, (f2, (f3, _)))) := v in
    {| flush_in_fh := f0; flush_in_unused := f1; flush_in_padding := f2; flush_in_lock_owner
       := f3 |};
  of_to_val := ltac:(solve_pod);
  to_of_val := ltac:(solve_pod);
  layout_packed := eq_refl;
|}.

Record fuse_release_in := {
  release_in_fh : u64;
  release_in_flags : u32;
  release_in_release_flags : u32;
  release_in_lock_owner : u64;
}.

#[export] Instance fuse_release_in_pod : Pod fuse_release_in := {|
  layout := TStruct (struct
    [TPrim U64; TPrim U32; TPrim U32; TPrim U64]);
  to_val x := (x.(release_in_fh), (x.(release_in_flags), (x.(release_in_release_flags),
    (x.(release_in_lock_owner), tt))));
  of_val v := let '(f0, (f1, (f2, (f3, _)))) := v in
    {| release_in_fh := f0; release_in_flags := f1; release_in_release_flags := f2;
       release_in_lock_owner := f3 |};
  of_to_val := ltac:(solve_pod);
  to_of_val := ltac:(solve_pod);
  layout_packed := eq_refl;
|}.

Record fuse_fsync_in := {
  fsync_in_fh : u64;
  fsync_in_fsync_flags : u32;
  fsync_in_padding : u32;
}.

#[export] Instance fuse_fsync_in_pod : Pod fuse_fsync_in := {|
  layout := TStruct (struct
    [TPrim U64; TPrim U32; TPrim U32]);
  to_val x := (x.(fsync_in_fh), (x.(fsync_in_fsync_flags), (x.(fsync_in_padding), tt)));
  of_val v := let '(f0, (f1, (f2, _))) := v in
    {| fsync_in_fh := f0; fsync_in_fsync_flags := f1; fsync_in_padding := f2 |};
  of_to_val := ltac:(solve_pod);
  to_of_val := ltac:(solve_pod);
  layout_packed := eq_refl;
|}.

Record fuse_getxattr_in := {
  getxattr_in_size : u32;
  getxattr_in_padding : u32;
}.

#[export] Instance fuse_getxattr_in_pod : Pod fuse_getxattr_in := {|
  layout := TStruct (struct
    [TPrim U32; TPrim U32]);
  to_val x := (x.(getxattr_in_size), (x.(getxattr_in_padding), tt));
  of_val v := let '(f0, (f1, _)) := v in
    {| getxattr_in_size := f0; getxattr_in_padding := f1 |};
  of_to_val := ltac:(solve_pod);
  to_of_val := ltac:(solve_pod);
  layout_packed := eq_refl;
|}.

Record fuse_setxattr_in_compat_32 := {
  setxattr_in_compat_32_size : u32;
  setxattr_in_compat_32_flags : u32;
}.

#[export] Instance fuse_setxattr_in_compat_32_pod : Pod fuse_setxattr_in_compat_32 := {|
  layout := TStruct (struct
    [TPrim U32; TPrim U32]);
  to_val x := (x.(setxattr_in_compat_32_size), (x.(setxattr_in_compat_32_flags), tt));
  of_val v := let '(f0, (f1, _)) := v in
    {| setxattr_in_compat_32_size := f0; setxattr_in_compat_32_flags := f1 |};
  of_to_val := ltac:(solve_pod);
  to_of_val := ltac:(solve_pod);
  layout_packed := eq_refl;
|}.

Record fuse_setxattr_in := {
  setxattr_in_size : u32;
  setxattr_in_flags : u32;
  setxattr_in_setxattr_flags : u32;
  setxattr_in_padding : u32;
}.

#[export] Instance fuse_setxattr_in_pod : Pod fuse_setxattr_in := {|
  layout := TStruct (struct
    [TPrim U32; TPrim U32; TPrim U32; TPrim U32]);
  to_val x := (x.(setxattr_in_size), (x.(setxattr_in_flags), (x.(setxattr_in_setxattr_flags),
    (x.(setxattr_in_padding), tt))));
  of_val v := let '(f0, (f1, (f2, (f3, _)))) := v in
    {| setxattr_in_size := f0; setxattr_in_flags := f1; setxattr_in_setxattr_flags := f2;
       setxattr_in_padding := f3 |};
  of_to_val := ltac:(solve_pod);
  to_of_val := ltac:(solve_pod);
  layout_packed := eq_refl;
|}.

Record fuse_lk_in := {
  lk_in_fh : u64;
  lk_in_owner : u64;
  lk_in_lk : fuse_file_lock;
  lk_in_lk_flags : u32;
  lk_in_padding : u32;
}.

#[export] Instance fuse_lk_in_pod : Pod fuse_lk_in := {|
  layout := TStruct (struct
    [TPrim U64; TPrim U64; layout fuse_file_lock; TPrim U32; TPrim U32]);
  to_val x := (x.(lk_in_fh), (x.(lk_in_owner), (to_val x.(lk_in_lk), (x.(lk_in_lk_flags),
    (x.(lk_in_padding), tt)))));
  of_val v := let '(f0, (f1, (f2, (f3, (f4, _))))) := v in
    {| lk_in_fh := f0; lk_in_owner := f1; lk_in_lk := of_val f2; lk_in_lk_flags := f3;
       lk_in_padding := f4 |};
  of_to_val := ltac:(solve_pod);
  to_of_val := ltac:(solve_pod);
  layout_packed := eq_refl;
|}.

Record fuse_access_in := {
  access_in_mask : u32;
  access_in_padding : u32;
}.

#[export] Instance fuse_access_in_pod : Pod fuse_access_in := {|
  layout := TStruct (struct
    [TPrim U32; TPrim U32]);
  to_val x := (x.(access_in_mask), (x.(access_in_padding), tt));
  of_val v := let '(f0, (f1, _)) := v in
    {| access_in_mask := f0; access_in_padding := f1 |};
  of_to_val := ltac:(solve_pod);
  to_of_val := ltac:(solve_pod);
  layout_packed := eq_refl;
|}.

Record fuse_create_in := {
  create_in_flags : u32;
  create_in_mode : u32;
  create_in_umask : u32;
  create_in_open_flags : u32;
}.

#[export] Instance fuse_create_in_pod : Pod fuse_create_in := {|
  layout := TStruct (struct
    [TPrim U32; TPrim U32; TPrim U32; TPrim U32]);
  to_val x := (x.(create_in_flags), (x.(create_in_mode), (x.(create_in_umask),
    (x.(create_in_open_flags), tt))));
  of_val v := let '(f0, (f1, (f2, (f3, _)))) := v in
    {| create_in_flags := f0; create_in_mode := f1; create_in_umask := f2;
       create_in_open_flags := f3 |};
  of_to_val := ltac:(solve_pod);
  to_of_val := ltac:(solve_pod);
  layout_packed := eq_refl;
|}.

Record fuse_bmap_in := {
  bmap_in_block : u64;
  bmap_in_blocksize : u32;
  bmap_in_padding : u32;
}.

#[export] Instance fuse_bmap_in_pod : Pod fuse_bmap_in := {|
  layout := TStruct (struct
    [TPrim U64; TPrim U32; TPrim U32]);
  to_val x := (x.(bmap_in_block), (x.(bmap_in_blocksize), (x.(bmap_in_padding), tt)));
  of_val v := let '(f0, (f1, (f2, _))) := v in
    {| bmap_in_block := f0; bmap_in_blocksize := f1; bmap_in_padding := f2 |};
  of_to_val := ltac:(solve_pod);
  to_of_val := ltac:(solve_pod);
  layout_packed := eq_refl;
|}.

Record fuse_out_header := {
  out_header_len : u32;
  out_header_error : i32;
  out_header_unique : u64;
}.

#[export] Instance fuse_out_header_pod : Pod fuse_out_header := {|
  layout := TStruct (struct
    [TPrim U32; TPrim I32; TPrim U64]);
  to_val x := (x.(out_header_len), (x.(out_header_error), (x.(out_header_unique), tt)));
  of_val v := let '(f0, (f1, (f2, _))) := v in
    {| out_header_len := f0; out_header_error := f1; out_header_unique := f2 |};
  of_to_val := ltac:(solve_pod);
  to_of_val := ltac:(solve_pod);
  layout_packed := eq_refl;
|}.

Record fuse_attr_out_compat_8 := {
  attr_out_compat_8_attr_valid : u64;
  attr_out_compat_8_attr_valid_nsec : u32;
  attr_out_compat_8_dummy : u32;
  attr_out_compat_8_attr : fuse_attr_compat_8;
}.

#[export] Instance fuse_attr_out_compat_8_pod : Pod fuse_attr_out_compat_8 := {|
  layout := TStruct (struct
    [TPrim U64; TPrim U32; TPrim U32; layout fuse_attr_compat_8]);
  to_val x := (x.(attr_out_compat_8_attr_valid), (x.(attr_out_compat_8_attr_valid_nsec),
    (x.(attr_out_compat_8_dummy), (to_val x.(attr_out_compat_8_attr), tt))));
  of_val v := let '(f0, (f1, (f2, (f3, _)))) := v in
    {| attr_out_compat_8_attr_valid := f0; attr_out_compat_8_attr_valid_nsec := f1;
       attr_out_compat_8_dummy := f2; attr_out_compat_8_attr := of_val f3 |};
  of_to_val := ltac:(solve_pod);
  to_of_val := ltac:(solve_pod);
  layout_packed := eq_refl;
|}.

Record fuse_attr_out := {
  attr_out_attr_valid : u64;
  attr_out_attr_valid_nsec : u32;
  attr_out_dummy : u32;
  attr_out_attr : fuse_attr;
}.

#[export] Instance fuse_attr_out_pod : Pod fuse_attr_out := {|
  layout := TStruct (struct
    [TPrim U64; TPrim U32; TPrim U32; layout fuse_attr]);
  to_val x := (x.(attr_out_attr_valid), (x.(attr_out_attr_valid_nsec), (x.(attr_out_dummy), (to_val
    x.(attr_out_attr), tt))));
  of_val v := let '(f0, (f1, (f2, (f3, _)))) := v in
    {| attr_out_attr_valid := f0; attr_out_attr_valid_nsec := f1; attr_out_dummy := f2;
       attr_out_attr := of_val f3 |};
  of_to_val := ltac:(solve_pod);
  to_of_val := ltac:(solve_pod);
  layout_packed := eq_refl;
|}.

Record fuse_entry_out_compat_8 := {
  entry_out_compat_8_nodeid : u64;
  entry_out_compat_8_generation : u64;
  entry_out_compat_8_entry_valid : u64;
  entry_out_compat_8_attr_valid : u64;
  entry_out_compat_8_entry_valid_nsec : u32;
  entry_out_compat_8_attr_valid_nsec : u32;
  entry_out_compat_8_attr : fuse_attr_compat_8;
}.

#[export] Instance fuse_entry_out_compat_8_pod : Pod fuse_entry_out_compat_8 := {|
  layout := TStruct (struct
    [TPrim U64; TPrim U64; TPrim U64; TPrim U64; TPrim U32; TPrim U32; layout
     fuse_attr_compat_8]);
  to_val x := (x.(entry_out_compat_8_nodeid), (x.(entry_out_compat_8_generation),
    (x.(entry_out_compat_8_entry_valid), (x.(entry_out_compat_8_attr_valid),
    (x.(entry_out_compat_8_entry_valid_nsec), (x.(entry_out_compat_8_attr_valid_nsec),
    (to_val x.(entry_out_compat_8_attr), tt)))))));
  of_val v := let '(f0, (f1, (f2, (f3, (f4, (f5, (f6, _))))))) := v in
    {| entry_out_compat_8_nodeid := f0; entry_out_compat_8_generation := f1;
       entry_out_compat_8_entry_valid := f2; entry_out_compat_8_attr_valid := f3;
       entry_out_compat_8_entry_valid_nsec := f4; entry_out_compat_8_attr_valid_nsec := f5;
       entry_out_compat_8_attr := of_val f6 |};
  of_to_val := ltac:(solve_pod);
  to_of_val := ltac:(solve_pod);
  layout_packed := eq_refl;
|}.

Record fuse_init_in_out_compat_3 := {
  init_in_out_compat_3_major : u32;
  init_in_out_compat_3_minor : u32;
}.

#[export] Instance fuse_init_in_out_compat_3_pod : Pod fuse_init_in_out_compat_3 := {|
  layout := TStruct (struct
    [TPrim U32; TPrim U32]);
  to_val x := (x.(init_in_out_compat_3_major), (x.(init_in_out_compat_3_minor), tt));
  of_val v := let '(f0, (f1, _)) := v in
    {| init_in_out_compat_3_major := f0; init_in_out_compat_3_minor := f1 |};
  of_to_val := ltac:(solve_pod);
  to_of_val := ltac:(solve_pod);
  layout_packed := eq_refl;
|}.

Record fuse_init_out_compat_22 := {
  init_out_compat_22_major : u32;
  init_out_compat_22_minor : u32;
  init_out_compat_22_max_readahead : u32;
  init_out_compat_22_flags : u32;
  init_out_compat_22_max_background : u16;
  init_out_compat_22_congestion_threshold : u16;
  init_out_compat_22_max_write : u32;
}.

#[export] Instance fuse_init_out_compat_22_pod : Pod fuse_init_out_compat_22 := {|
  layout := TStruct (struct
    [TPrim U32; TPrim U32; TPrim U32; TPrim U32; TPrim U16; TPrim U16; TPrim U32]);
  to_val x := (x.(init_out_compat_22_major), (x.(init_out_compat_22_minor),
    (x.(init_out_compat_22_max_readahead), (x.(init_out_compat_22_flags),
    (x.(init_out_compat_22_max_background), (x.(init_out_compat_22_congestion_threshold),
    (x.(init_out_compat_22_max_write), tt)))))));
  of_val v := let '(f0, (f1, (f2, (f3, (f4, (f5, (f6, _))))))) := v in
    {| init_out_compat_22_major := f0; init_out_compat_22_minor := f1;
       init_out_compat_22_max_readahead := f2; init_out_compat_22_flags := f3;
       init_out_compat_22_max_background := f4; init_out_compat_22_congestion_threshold :=
       f5; init_out_compat_22_max_write := f6 |};
  of_to_val := ltac:(solve_pod);
  to_of_val := ltac:(solve_pod);
  layout_packed := eq_refl;
|}.

Record fuse_init_out := {
  init_out_major : u32;
  init_out_minor : u32;
  init_out_max_readahead : u32;
  init_out_flags : u32;
  init_out_max_background : u16;
  init_out_congestion_threshold : u16;
  init_out_max_write : u32;
  init_out_time_gran : u32;
  init_out_max_pages : u16;
  init_out_map_alignment : u16;
  init_out_flags2 : u32;
  init_out_max_stack_depth : u32;
  init_out_request_timeout : u16;
  init_out_unused : list u16;
}.

#[export] Instance fuse_init_out_pod : Pod fuse_init_out := {|
  layout := TStruct (struct
    [TPrim U32; TPrim U32; TPrim U32; TPrim U32; TPrim U16; TPrim U16; TPrim U32; TPrim U32;
     TPrim U16; TPrim U16; TPrim U32; TPrim U32; TPrim U16; TArray (TPrim U16) 11]);
  to_val x := (x.(init_out_major), (x.(init_out_minor), (x.(init_out_max_readahead),
    (x.(init_out_flags), (x.(init_out_max_background), (x.(init_out_congestion_threshold),
    (x.(init_out_max_write), (x.(init_out_time_gran), (x.(init_out_max_pages),
    (x.(init_out_map_alignment), (x.(init_out_flags2), (x.(init_out_max_stack_depth),
    (x.(init_out_request_timeout), (x.(init_out_unused), tt))))))))))))));
  of_val v := let '(f0, (f1, (f2, (f3, (f4, (f5, (f6, (f7, (f8, (f9, (f10, (f11, (f12, (f13,
    _)))))))))))))) := v in
    {| init_out_major := f0; init_out_minor := f1; init_out_max_readahead := f2;
       init_out_flags := f3; init_out_max_background := f4; init_out_congestion_threshold :=
       f5; init_out_max_write := f6; init_out_time_gran := f7; init_out_max_pages := f8;
       init_out_map_alignment := f9; init_out_flags2 := f10; init_out_max_stack_depth :=
       f11; init_out_request_timeout := f12; init_out_unused := f13 |};
  of_to_val := ltac:(solve_pod);
  to_of_val := ltac:(solve_pod);
  layout_packed := eq_refl;
|}.

Record fuse_getxattr_out := {
  getxattr_out_size : u32;
  getxattr_out_padding : u32;
}.

#[export] Instance fuse_getxattr_out_pod : Pod fuse_getxattr_out := {|
  layout := TStruct (struct
    [TPrim U32; TPrim U32]);
  to_val x := (x.(getxattr_out_size), (x.(getxattr_out_padding), tt));
  of_val v := let '(f0, (f1, _)) := v in
    {| getxattr_out_size := f0; getxattr_out_padding := f1 |};
  of_to_val := ltac:(solve_pod);
  to_of_val := ltac:(solve_pod);
  layout_packed := eq_refl;
|}.

Record fuse_open_out := {
  open_out_fh : u64;
  open_out_open_flags : u32;
  open_out_backing_id : i32;
}.

#[export] Instance fuse_open_out_pod : Pod fuse_open_out := {|
  layout := TStruct (struct
    [TPrim U64; TPrim U32; TPrim I32]);
  to_val x := (x.(open_out_fh), (x.(open_out_open_flags), (x.(open_out_backing_id), tt)));
  of_val v := let '(f0, (f1, (f2, _))) := v in
    {| open_out_fh := f0; open_out_open_flags := f1; open_out_backing_id := f2 |};
  of_to_val := ltac:(solve_pod);
  to_of_val := ltac:(solve_pod);
  layout_packed := eq_refl;
|}.

Record fuse_write_out := {
  write_out_size : u32;
  write_out_padding : u32;
}.

#[export] Instance fuse_write_out_pod : Pod fuse_write_out := {|
  layout := TStruct (struct
    [TPrim U32; TPrim U32]);
  to_val x := (x.(write_out_size), (x.(write_out_padding), tt));
  of_val v := let '(f0, (f1, _)) := v in
    {| write_out_size := f0; write_out_padding := f1 |};
  of_to_val := ltac:(solve_pod);
  to_of_val := ltac:(solve_pod);
  layout_packed := eq_refl;
|}.

Record fuse_statfs_out_compat_3 := {
  statfs_out_compat_3_st : fuse_kstatfs_compat_3;
}.

#[export] Instance fuse_statfs_out_compat_3_pod : Pod fuse_statfs_out_compat_3 := {|
  layout := TStruct (struct
    [layout fuse_kstatfs_compat_3]);
  to_val x := (to_val x.(statfs_out_compat_3_st), tt);
  of_val v := let '(f0, _) := v in
    {| statfs_out_compat_3_st := of_val f0 |};
  of_to_val := ltac:(solve_pod);
  to_of_val := ltac:(solve_pod);
  layout_packed := eq_refl;
|}.

Record fuse_statfs_out := {
  statfs_out_st : fuse_kstatfs;
}.

#[export] Instance fuse_statfs_out_pod : Pod fuse_statfs_out := {|
  layout := TStruct (struct
    [layout fuse_kstatfs]);
  to_val x := (to_val x.(statfs_out_st), tt);
  of_val v := let '(f0, _) := v in
    {| statfs_out_st := of_val f0 |};
  of_to_val := ltac:(solve_pod);
  to_of_val := ltac:(solve_pod);
  layout_packed := eq_refl;
|}.

Record fuse_lk_out := {
  lk_out_lk : fuse_file_lock;
}.

#[export] Instance fuse_lk_out_pod : Pod fuse_lk_out := {|
  layout := TStruct (struct
    [layout fuse_file_lock]);
  to_val x := (to_val x.(lk_out_lk), tt);
  of_val v := let '(f0, _) := v in
    {| lk_out_lk := of_val f0 |};
  of_to_val := ltac:(solve_pod);
  to_of_val := ltac:(solve_pod);
  layout_packed := eq_refl;
|}.

Record fuse_bmap_out := {
  bmap_out_block : u64;
}.

#[export] Instance fuse_bmap_out_pod : Pod fuse_bmap_out := {|
  layout := TStruct (struct
    [TPrim U64]);
  to_val x := (x.(bmap_out_block), tt);
  of_val v := let '(f0, _) := v in
    {| bmap_out_block := f0 |};
  of_to_val := ltac:(solve_pod);
  to_of_val := ltac:(solve_pod);
  layout_packed := eq_refl;
|}.

Record fuse_ioctl_in := {
  ioctl_in_fh : u64;
  ioctl_in_flags : u32;
  ioctl_in_cmd : u32;
  ioctl_in_arg : u64;
  ioctl_in_in_size : u32;
  ioctl_in_out_size : u32;
}.

#[export] Instance fuse_ioctl_in_pod : Pod fuse_ioctl_in := {|
  layout := TStruct (struct
    [TPrim U64; TPrim U32; TPrim U32; TPrim U64; TPrim U32; TPrim U32]);
  to_val x := (x.(ioctl_in_fh), (x.(ioctl_in_flags), (x.(ioctl_in_cmd), (x.(ioctl_in_arg),
    (x.(ioctl_in_in_size), (x.(ioctl_in_out_size), tt))))));
  of_val v := let '(f0, (f1, (f2, (f3, (f4, (f5, _)))))) := v in
    {| ioctl_in_fh := f0; ioctl_in_flags := f1; ioctl_in_cmd := f2; ioctl_in_arg := f3;
       ioctl_in_in_size := f4; ioctl_in_out_size := f5 |};
  of_to_val := ltac:(solve_pod);
  to_of_val := ltac:(solve_pod);
  layout_packed := eq_refl;
|}.

Record fuse_ioctl_out := {
  ioctl_out_result : i32;
  ioctl_out_flags : u32;
  ioctl_out_in_iovs : u32;
  ioctl_out_out_iovs : u32;
}.

#[export] Instance fuse_ioctl_out_pod : Pod fuse_ioctl_out := {|
  layout := TStruct (struct
    [TPrim I32; TPrim U32; TPrim U32; TPrim U32]);
  to_val x := (x.(ioctl_out_result), (x.(ioctl_out_flags), (x.(ioctl_out_in_iovs),
    (x.(ioctl_out_out_iovs), tt))));
  of_val v := let '(f0, (f1, (f2, (f3, _)))) := v in
    {| ioctl_out_result := f0; ioctl_out_flags := f1; ioctl_out_in_iovs := f2;
       ioctl_out_out_iovs := f3 |};
  of_to_val := ltac:(solve_pod);
  to_of_val := ltac:(solve_pod);
  layout_packed := eq_refl;
|}.

Record fuse_ioctl_iovec := {
  ioctl_iovec_base : u64;
  ioctl_iovec_len : u64;
}.

#[export] Instance fuse_ioctl_iovec_pod : Pod fuse_ioctl_iovec := {|
  layout := TStruct (struct
    [TPrim U64; TPrim U64]);
  to_val x := (x.(ioctl_iovec_base), (x.(ioctl_iovec_len), tt));
  of_val v := let '(f0, (f1, _)) := v in
    {| ioctl_iovec_base := f0; ioctl_iovec_len := f1 |};
  of_to_val := ltac:(solve_pod);
  to_of_val := ltac:(solve_pod);
  layout_packed := eq_refl;
|}.

Record fuse_poll_in := {
  poll_in_fh : u64;
  poll_in_kh : u64;
  poll_in_flags : u32;
  poll_in_events : u32;
}.

#[export] Instance fuse_poll_in_pod : Pod fuse_poll_in := {|
  layout := TStruct (struct
    [TPrim U64; TPrim U64; TPrim U32; TPrim U32]);
  to_val x := (x.(poll_in_fh), (x.(poll_in_kh), (x.(poll_in_flags), (x.(poll_in_events), tt))));
  of_val v := let '(f0, (f1, (f2, (f3, _)))) := v in
    {| poll_in_fh := f0; poll_in_kh := f1; poll_in_flags := f2; poll_in_events := f3 |};
  of_to_val := ltac:(solve_pod);
  to_of_val := ltac:(solve_pod);
  layout_packed := eq_refl;
|}.

Record fuse_poll_out := {
  poll_out_revents : u32;
  poll_out_padding : u32;
}.

#[export] Instance fuse_poll_out_pod : Pod fuse_poll_out := {|
  layout := TStruct (struct
    [TPrim U32; TPrim U32]);
  to_val x := (x.(poll_out_revents), (x.(poll_out_padding), tt));
  of_val v := let '(f0, (f1, _)) := v in
    {| poll_out_revents := f0; poll_out_padding := f1 |};
  of_to_val := ltac:(solve_pod);
  to_of_val := ltac:(solve_pod);
  layout_packed := eq_refl;
|}.

Record fuse_interrupt_in := {
  interrupt_in_unique : u64;
}.

#[export] Instance fuse_interrupt_in_pod : Pod fuse_interrupt_in := {|
  layout := TStruct (struct
    [TPrim U64]);
  to_val x := (x.(interrupt_in_unique), tt);
  of_val v := let '(f0, _) := v in
    {| interrupt_in_unique := f0 |};
  of_to_val := ltac:(solve_pod);
  to_of_val := ltac:(solve_pod);
  layout_packed := eq_refl;
|}.

Record fuse_fallocate_in := {
  fallocate_in_fh : u64;
  fallocate_in_offset : u64;
  fallocate_in_length : u64;
  fallocate_in_mode : u32;
  fallocate_in_padding : u32;
}.

#[export] Instance fuse_fallocate_in_pod : Pod fuse_fallocate_in := {|
  layout := TStruct (struct
    [TPrim U64; TPrim U64; TPrim U64; TPrim U32; TPrim U32]);
  to_val x := (x.(fallocate_in_fh), (x.(fallocate_in_offset), (x.(fallocate_in_length),
    (x.(fallocate_in_mode), (x.(fallocate_in_padding), tt)))));
  of_val v := let '(f0, (f1, (f2, (f3, (f4, _))))) := v in
    {| fallocate_in_fh := f0; fallocate_in_offset := f1; fallocate_in_length := f2;
       fallocate_in_mode := f3; fallocate_in_padding := f4 |};
  of_to_val := ltac:(solve_pod);
  to_of_val := ltac:(solve_pod);
  layout_packed := eq_refl;
|}.

Record fuse_batch_forget_in := {
  batch_forget_in_count : u32;
  batch_forget_in_dummy : u32;
}.

#[export] Instance fuse_batch_forget_in_pod : Pod fuse_batch_forget_in := {|
  layout := TStruct (struct
    [TPrim U32; TPrim U32]);
  to_val x := (x.(batch_forget_in_count), (x.(batch_forget_in_dummy), tt));
  of_val v := let '(f0, (f1, _)) := v in
    {| batch_forget_in_count := f0; batch_forget_in_dummy := f1 |};
  of_to_val := ltac:(solve_pod);
  to_of_val := ltac:(solve_pod);
  layout_packed := eq_refl;
|}.

Record fuse_forget_one := {
  forget_one_nodeid : u64;
  forget_one_nlookup : u64;
}.

#[export] Instance fuse_forget_one_pod : Pod fuse_forget_one := {|
  layout := TStruct (struct
    [TPrim U64; TPrim U64]);
  to_val x := (x.(forget_one_nodeid), (x.(forget_one_nlookup), tt));
  of_val v := let '(f0, (f1, _)) := v in
    {| forget_one_nodeid := f0; forget_one_nlookup := f1 |};
  of_to_val := ltac:(solve_pod);
  to_of_val := ltac:(solve_pod);
  layout_packed := eq_refl;
|}.

Record fuse_rename2_in := {
  rename2_in_newdir : u64;
  rename2_in_flags : u32;
  rename2_in_padding : u32;
}.

#[export] Instance fuse_rename2_in_pod : Pod fuse_rename2_in := {|
  layout := TStruct (struct
    [TPrim U64; TPrim U32; TPrim U32]);
  to_val x := (x.(rename2_in_newdir), (x.(rename2_in_flags), (x.(rename2_in_padding), tt)));
  of_val v := let '(f0, (f1, (f2, _))) := v in
    {| rename2_in_newdir := f0; rename2_in_flags := f1; rename2_in_padding := f2 |};
  of_to_val := ltac:(solve_pod);
  to_of_val := ltac:(solve_pod);
  layout_packed := eq_refl;
|}.

Record fuse_lseek_in := {
  lseek_in_fh : u64;
  lseek_in_offset : u64;
  lseek_in_whence : u32;
  lseek_in_padding : u32;
}.

#[export] Instance fuse_lseek_in_pod : Pod fuse_lseek_in := {|
  layout := TStruct (struct
    [TPrim U64; TPrim U64; TPrim U32; TPrim U32]);
  to_val x := (x.(lseek_in_fh), (x.(lseek_in_offset), (x.(lseek_in_whence), (x.(lseek_in_padding),
    tt))));
  of_val v := let '(f0, (f1, (f2, (f3, _)))) := v in
    {| lseek_in_fh := f0; lseek_in_offset := f1; lseek_in_whence := f2; lseek_in_padding :=
       f3 |};
  of_to_val := ltac:(solve_pod);
  to_of_val := ltac:(solve_pod);
  layout_packed := eq_refl;
|}.

Record fuse_lseek_out := {
  lseek_out_offset : u64;
}.

#[export] Instance fuse_lseek_out_pod : Pod fuse_lseek_out := {|
  layout := TStruct (struct
    [TPrim U64]);
  to_val x := (x.(lseek_out_offset), tt);
  of_val v := let '(f0, _) := v in
    {| lseek_out_offset := f0 |};
  of_to_val := ltac:(solve_pod);
  to_of_val := ltac:(solve_pod);
  layout_packed := eq_refl;
|}.

Record fuse_copy_file_range_in := {
  copy_file_range_in_fh_in : u64;
  copy_file_range_in_off_in : u64;
  copy_file_range_in_nodeid_out : u64;
  copy_file_range_in_fh_out : u64;
  copy_file_range_in_off_out : u64;
  copy_file_range_in_len : u64;
  copy_file_range_in_flags : u64;
}.

#[export] Instance fuse_copy_file_range_in_pod : Pod fuse_copy_file_range_in := {|
  layout := TStruct (struct
    [TPrim U64; TPrim U64; TPrim U64; TPrim U64; TPrim U64; TPrim U64; TPrim U64]);
  to_val x := (x.(copy_file_range_in_fh_in), (x.(copy_file_range_in_off_in),
    (x.(copy_file_range_in_nodeid_out), (x.(copy_file_range_in_fh_out),
    (x.(copy_file_range_in_off_out), (x.(copy_file_range_in_len),
    (x.(copy_file_range_in_flags), tt)))))));
  of_val v := let '(f0, (f1, (f2, (f3, (f4, (f5, (f6, _))))))) := v in
    {| copy_file_range_in_fh_in := f0; copy_file_range_in_off_in := f1;
       copy_file_range_in_nodeid_out := f2; copy_file_range_in_fh_out := f3;
       copy_file_range_in_off_out := f4; copy_file_range_in_len := f5;
       copy_file_range_in_flags := f6 |};
  of_to_val := ltac:(solve_pod);
  to_of_val := ltac:(solve_pod);
  layout_packed := eq_refl;
|}.

Record fuse_notify_poll_wakeup_out := {
  notify_poll_wakeup_out_kh : u64;
}.

#[export] Instance fuse_notify_poll_wakeup_out_pod : Pod fuse_notify_poll_wakeup_out := {|
  layout := TStruct (struct
    [TPrim U64]);
  to_val x := (x.(notify_poll_wakeup_out_kh), tt);
  of_val v := let '(f0, _) := v in
    {| notify_poll_wakeup_out_kh := f0 |};
  of_to_val := ltac:(solve_pod);
  to_of_val := ltac:(solve_pod);
  layout_packed := eq_refl;
|}.

Record fuse_notify_inval_inode_out := {
  notify_inval_inode_out_ino : u64;
  notify_inval_inode_out_off : i64;
  notify_inval_inode_out_len : i64;
}.

#[export] Instance fuse_notify_inval_inode_out_pod : Pod fuse_notify_inval_inode_out := {|
  layout := TStruct (struct
    [TPrim U64; TPrim I64; TPrim I64]);
  to_val x := (x.(notify_inval_inode_out_ino), (x.(notify_inval_inode_out_off),
    (x.(notify_inval_inode_out_len), tt)));
  of_val v := let '(f0, (f1, (f2, _))) := v in
    {| notify_inval_inode_out_ino := f0; notify_inval_inode_out_off := f1;
       notify_inval_inode_out_len := f2 |};
  of_to_val := ltac:(solve_pod);
  to_of_val := ltac:(solve_pod);
  layout_packed := eq_refl;
|}.

Record fuse_notify_inval_entry_out := {
  notify_inval_entry_out_parent : u64;
  notify_inval_entry_out_namelen : u32;
  notify_inval_entry_out_flags : u32;
}.

#[export] Instance fuse_notify_inval_entry_out_pod : Pod fuse_notify_inval_entry_out := {|
  layout := TStruct (struct
    [TPrim U64; TPrim U32; TPrim U32]);
  to_val x := (x.(notify_inval_entry_out_parent), (x.(notify_inval_entry_out_namelen),
    (x.(notify_inval_entry_out_flags), tt)));
  of_val v := let '(f0, (f1, (f2, _))) := v in
    {| notify_inval_entry_out_parent := f0; notify_inval_entry_out_namelen := f1;
       notify_inval_entry_out_flags := f2 |};
  of_to_val := ltac:(solve_pod);
  to_of_val := ltac:(solve_pod);
  layout_packed := eq_refl;
|}.

Record fuse_notify_delete_out := {
  notify_delete_out_parent : u64;
  notify_delete_out_child : u64;
  notify_delete_out_namelen : u32;
  notify_delete_out_padding : u32;
}.

#[export] Instance fuse_notify_delete_out_pod : Pod fuse_notify_delete_out := {|
  layout := TStruct (struct
    [TPrim U64; TPrim U64; TPrim U32; TPrim U32]);
  to_val x := (x.(notify_delete_out_parent), (x.(notify_delete_out_child),
    (x.(notify_delete_out_namelen), (x.(notify_delete_out_padding), tt))));
  of_val v := let '(f0, (f1, (f2, (f3, _)))) := v in
    {| notify_delete_out_parent := f0; notify_delete_out_child := f1;
       notify_delete_out_namelen := f2; notify_delete_out_padding := f3 |};
  of_to_val := ltac:(solve_pod);
  to_of_val := ltac:(solve_pod);
  layout_packed := eq_refl;
|}.

Record fuse_notify_store_out := {
  notify_store_out_nodeid : u64;
  notify_store_out_offset : u64;
  notify_store_out_size : u32;
  notify_store_out_padding : u32;
}.

#[export] Instance fuse_notify_store_out_pod : Pod fuse_notify_store_out := {|
  layout := TStruct (struct
    [TPrim U64; TPrim U64; TPrim U32; TPrim U32]);
  to_val x := (x.(notify_store_out_nodeid), (x.(notify_store_out_offset), (x.(notify_store_out_size),
    (x.(notify_store_out_padding), tt))));
  of_val v := let '(f0, (f1, (f2, (f3, _)))) := v in
    {| notify_store_out_nodeid := f0; notify_store_out_offset := f1; notify_store_out_size
       := f2; notify_store_out_padding := f3 |};
  of_to_val := ltac:(solve_pod);
  to_of_val := ltac:(solve_pod);
  layout_packed := eq_refl;
|}.

Record fuse_notify_retrieve_out := {
  notify_retrieve_out_notify_unique : u64;
  notify_retrieve_out_nodeid : u64;
  notify_retrieve_out_offset : u64;
  notify_retrieve_out_size : u32;
  notify_retrieve_out_padding : u32;
}.

#[export] Instance fuse_notify_retrieve_out_pod : Pod fuse_notify_retrieve_out := {|
  layout := TStruct (struct
    [TPrim U64; TPrim U64; TPrim U64; TPrim U32; TPrim U32]);
  to_val x := (x.(notify_retrieve_out_notify_unique), (x.(notify_retrieve_out_nodeid),
    (x.(notify_retrieve_out_offset), (x.(notify_retrieve_out_size),
    (x.(notify_retrieve_out_padding), tt)))));
  of_val v := let '(f0, (f1, (f2, (f3, (f4, _))))) := v in
    {| notify_retrieve_out_notify_unique := f0; notify_retrieve_out_nodeid := f1;
       notify_retrieve_out_offset := f2; notify_retrieve_out_size := f3;
       notify_retrieve_out_padding := f4 |};
  of_to_val := ltac:(solve_pod);
  to_of_val := ltac:(solve_pod);
  layout_packed := eq_refl;
|}.

Record fuse_notify_retrieve_in := {
  notify_retrieve_in_dummy1 : u64;
  notify_retrieve_in_offset : u64;
  notify_retrieve_in_size : u32;
  notify_retrieve_in_dummy2 : u32;
  notify_retrieve_in_dummy3 : u64;
  notify_retrieve_in_dummy4 : u64;
}.

#[export] Instance fuse_notify_retrieve_in_pod : Pod fuse_notify_retrieve_in := {|
  layout := TStruct (struct
    [TPrim U64; TPrim U64; TPrim U32; TPrim U32; TPrim U64; TPrim U64]);
  to_val x := (x.(notify_retrieve_in_dummy1), (x.(notify_retrieve_in_offset),
    (x.(notify_retrieve_in_size), (x.(notify_retrieve_in_dummy2),
    (x.(notify_retrieve_in_dummy3), (x.(notify_retrieve_in_dummy4), tt))))));
  of_val v := let '(f0, (f1, (f2, (f3, (f4, (f5, _)))))) := v in
    {| notify_retrieve_in_dummy1 := f0; notify_retrieve_in_offset := f1;
       notify_retrieve_in_size := f2; notify_retrieve_in_dummy2 := f3;
       notify_retrieve_in_dummy3 := f4; notify_retrieve_in_dummy4 := f5 |};
  of_to_val := ltac:(solve_pod);
  to_of_val := ltac:(solve_pod);
  layout_packed := eq_refl;
|}.

Record fuse_backing_map := {
  backing_map_fd : i32;
  backing_map_flags : u32;
  backing_map_padding : u64;
}.

#[export] Instance fuse_backing_map_pod : Pod fuse_backing_map := {|
  layout := TStruct (struct
    [TPrim I32; TPrim U32; TPrim U64]);
  to_val x := (x.(backing_map_fd), (x.(backing_map_flags), (x.(backing_map_padding), tt)));
  of_val v := let '(f0, (f1, (f2, _))) := v in
    {| backing_map_fd := f0; backing_map_flags := f1; backing_map_padding := f2 |};
  of_to_val := ltac:(solve_pod);
  to_of_val := ltac:(solve_pod);
  layout_packed := eq_refl;
|}.

Record cuse_init_in := {
  cuse_init_in_major : u32;
  cuse_init_in_minor : u32;
  cuse_init_in_unused : u32;
  cuse_init_in_flags : u32;
}.

#[export] Instance cuse_init_in_pod : Pod cuse_init_in := {|
  layout := TStruct (struct
    [TPrim U32; TPrim U32; TPrim U32; TPrim U32]);
  to_val x := (x.(cuse_init_in_major), (x.(cuse_init_in_minor), (x.(cuse_init_in_unused),
    (x.(cuse_init_in_flags), tt))));
  of_val v := let '(f0, (f1, (f2, (f3, _)))) := v in
    {| cuse_init_in_major := f0; cuse_init_in_minor := f1; cuse_init_in_unused := f2;
       cuse_init_in_flags := f3 |};
  of_to_val := ltac:(solve_pod);
  to_of_val := ltac:(solve_pod);
  layout_packed := eq_refl;
|}.

Record cuse_init_out := {
  cuse_init_out_major : u32;
  cuse_init_out_minor : u32;
  cuse_init_out_unused : u32;
  cuse_init_out_flags : u32;
  cuse_init_out_max_read : u32;
  cuse_init_out_max_write : u32;
  cuse_init_out_dev_major : u32;
  cuse_init_out_dev_minor : u32;
  cuse_init_out_spare : list u32;
}.

#[export] Instance cuse_init_out_pod : Pod cuse_init_out := {|
  layout := TStruct (struct
    [TPrim U32; TPrim U32; TPrim U32; TPrim U32; TPrim U32; TPrim U32; TPrim U32; TPrim U32;
     TArray (TPrim U32) 10]);
  to_val x := (x.(cuse_init_out_major), (x.(cuse_init_out_minor), (x.(cuse_init_out_unused),
    (x.(cuse_init_out_flags), (x.(cuse_init_out_max_read), (x.(cuse_init_out_max_write),
    (x.(cuse_init_out_dev_major), (x.(cuse_init_out_dev_minor), (x.(cuse_init_out_spare),
    tt)))))))));
  of_val v := let '(f0, (f1, (f2, (f3, (f4, (f5, (f6, (f7, (f8, _))))))))) := v in
    {| cuse_init_out_major := f0; cuse_init_out_minor := f1; cuse_init_out_unused := f2;
       cuse_init_out_flags := f3; cuse_init_out_max_read := f4; cuse_init_out_max_write :=
       f5; cuse_init_out_dev_major := f6; cuse_init_out_dev_minor := f7; cuse_init_out_spare
       := f8 |};
  of_to_val := ltac:(solve_pod);
  to_of_val := ltac:(solve_pod);
  layout_packed := eq_refl;
|}.

Record fuse_setupmapping_in := {
  setupmapping_in_fh : u64;
  setupmapping_in_foffset : u64;
  setupmapping_in_len : u64;
  setupmapping_in_flags : u64;
  setupmapping_in_moffset : u64;
}.

#[export] Instance fuse_setupmapping_in_pod : Pod fuse_setupmapping_in := {|
  layout := TStruct (struct
    [TPrim U64; TPrim U64; TPrim U64; TPrim U64; TPrim U64]);
  to_val x := (x.(setupmapping_in_fh), (x.(setupmapping_in_foffset), (x.(setupmapping_in_len),
    (x.(setupmapping_in_flags), (x.(setupmapping_in_moffset), tt)))));
  of_val v := let '(f0, (f1, (f2, (f3, (f4, _))))) := v in
    {| setupmapping_in_fh := f0; setupmapping_in_foffset := f1; setupmapping_in_len := f2;
       setupmapping_in_flags := f3; setupmapping_in_moffset := f4 |};
  of_to_val := ltac:(solve_pod);
  to_of_val := ltac:(solve_pod);
  layout_packed := eq_refl;
|}.

Record fuse_removemapping_in := {
  removemapping_in_count : u32;
}.

#[export] Instance fuse_removemapping_in_pod : Pod fuse_removemapping_in := {|
  layout := TStruct (struct
    [TPrim U32]);
  to_val x := (x.(removemapping_in_count), tt);
  of_val v := let '(f0, _) := v in
    {| removemapping_in_count := f0 |};
  of_to_val := ltac:(solve_pod);
  to_of_val := ltac:(solve_pod);
  layout_packed := eq_refl;
|}.

Record fuse_removemapping_one := {
  removemapping_one_moffset : u64;
  removemapping_one_len : u64;
}.

#[export] Instance fuse_removemapping_one_pod : Pod fuse_removemapping_one := {|
  layout := TStruct (struct
    [TPrim U64; TPrim U64]);
  to_val x := (x.(removemapping_one_moffset), (x.(removemapping_one_len), tt));
  of_val v := let '(f0, (f1, _)) := v in
    {| removemapping_one_moffset := f0; removemapping_one_len := f1 |};
  of_to_val := ltac:(solve_pod);
  to_of_val := ltac:(solve_pod);
  layout_packed := eq_refl;
|}.

Record fuse_syncfs_in := {
  syncfs_in_padding : u64;
}.

#[export] Instance fuse_syncfs_in_pod : Pod fuse_syncfs_in := {|
  layout := TStruct (struct
    [TPrim U64]);
  to_val x := (x.(syncfs_in_padding), tt);
  of_val v := let '(f0, _) := v in
    {| syncfs_in_padding := f0 |};
  of_to_val := ltac:(solve_pod);
  to_of_val := ltac:(solve_pod);
  layout_packed := eq_refl;
|}.

Record fuse_secctx := {
  secctx_size : u32;
  secctx_padding : u32;
}.

#[export] Instance fuse_secctx_pod : Pod fuse_secctx := {|
  layout := TStruct (struct
    [TPrim U32; TPrim U32]);
  to_val x := (x.(secctx_size), (x.(secctx_padding), tt));
  of_val v := let '(f0, (f1, _)) := v in
    {| secctx_size := f0; secctx_padding := f1 |};
  of_to_val := ltac:(solve_pod);
  to_of_val := ltac:(solve_pod);
  layout_packed := eq_refl;
|}.

Record fuse_secctx_header := {
  secctx_header_size : u32;
  secctx_header_nr_secctx : u32;
}.

#[export] Instance fuse_secctx_header_pod : Pod fuse_secctx_header := {|
  layout := TStruct (struct
    [TPrim U32; TPrim U32]);
  to_val x := (x.(secctx_header_size), (x.(secctx_header_nr_secctx), tt));
  of_val v := let '(f0, (f1, _)) := v in
    {| secctx_header_size := f0; secctx_header_nr_secctx := f1 |};
  of_to_val := ltac:(solve_pod);
  to_of_val := ltac:(solve_pod);
  layout_packed := eq_refl;
|}.

Record fuse_ext_header := {
  ext_header_size : u32;
  ext_header_typ : u32;
}.

#[export] Instance fuse_ext_header_pod : Pod fuse_ext_header := {|
  layout := TStruct (struct
    [TPrim U32; TPrim U32]);
  to_val x := (x.(ext_header_size), (x.(ext_header_typ), tt));
  of_val v := let '(f0, (f1, _)) := v in
    {| ext_header_size := f0; ext_header_typ := f1 |};
  of_to_val := ltac:(solve_pod);
  to_of_val := ltac:(solve_pod);
  layout_packed := eq_refl;
|}.

Record fuse_supp_groups := {
  supp_groups_nr_groups : u32;
  supp_groups_groups : list u32;
}.

#[export] Instance fuse_supp_groups_pod : Pod fuse_supp_groups := {|
  layout := TStruct (struct
    [TPrim U32; TArray (TPrim U32) 0]);
  to_val x := (x.(supp_groups_nr_groups), (x.(supp_groups_groups), tt));
  of_val v := let '(f0, (f1, _)) := v in
    {| supp_groups_nr_groups := f0; supp_groups_groups := f1 |};
  of_to_val := ltac:(solve_pod);
  to_of_val := ltac:(solve_pod);
  layout_packed := eq_refl;
|}.

Record fuse_uring_ent_in_out := {
  uring_ent_in_out_flags : u64;
  uring_ent_in_out_commit_id : u64;
  uring_ent_in_out_payload_sz : u32;
  uring_ent_in_out_padding : u32;
  uring_ent_in_out_reserved : u64;
}.

#[export] Instance fuse_uring_ent_in_out_pod : Pod fuse_uring_ent_in_out := {|
  layout := TStruct (struct
    [TPrim U64; TPrim U64; TPrim U32; TPrim U32; TPrim U64]);
  to_val x := (x.(uring_ent_in_out_flags), (x.(uring_ent_in_out_commit_id),
    (x.(uring_ent_in_out_payload_sz), (x.(uring_ent_in_out_padding),
    (x.(uring_ent_in_out_reserved), tt)))));
  of_val v := let '(f0, (f1, (f2, (f3, (f4, _))))) := v in
    {| uring_ent_in_out_flags := f0; uring_ent_in_out_commit_id := f1;
       uring_ent_in_out_payload_sz := f2; uring_ent_in_out_padding := f3;
       uring_ent_in_out_reserved := f4 |};
  of_to_val := ltac:(solve_pod);
  to_of_val := ltac:(solve_pod);
  layout_packed := eq_refl;
|}.

Record fuse_uring_req_header := {
  uring_req_header_in_out : list Z;
  uring_req_header_op_in : list Z;
  uring_req_header_ring_ent_in_out : fuse_uring_ent_in_out;
}.

#[export] Instance fuse_uring_req_header_pod : Pod fuse_uring_req_header := {|
  layout := TStruct (struct
    [TArray (TPrim I8) (Z.to_nat FUSE_URING_IN_OUT_HEADER_SZ); TArray (TPrim I8) (Z.to_nat
     FUSE_URING_OP_IN_OUT_SZ); layout fuse_uring_ent_in_out]);
  to_val x := (x.(uring_req_header_in_out), (x.(uring_req_header_op_in), (to_val
    x.(uring_req_header_ring_ent_in_out), tt)));
  of_val v := let '(f0, (f1, (f2, _))) := v in
    {| uring_req_header_in_out := f0; uring_req_header_op_in := f1;
       uring_req_header_ring_ent_in_out := of_val f2 |};
  of_to_val := ltac:(solve_pod);
  to_of_val := ltac:(solve_pod);
  layout_packed := eq_refl;
|}.

Record fuse_uring_cmd_req := {
  uring_cmd_req_flags : u64;
  uring_cmd_req_commit_id : u64;
  uring_cmd_req_qid : u16;
  uring_cmd_req_padding : list u8;
}.

#[export] Instance fuse_uring_cmd_req_pod : Pod fuse_uring_cmd_req := {|
  layout := TStruct (struct
    [TPrim U64; TPrim U64; TPrim U16; TArray (TPrim U8) 6]);
  to_val x := (x.(uring_cmd_req_flags), (x.(uring_cmd_req_commit_id), (x.(uring_cmd_req_qid),
    (x.(uring_cmd_req_padding), tt))));
  of_val v := let '(f0, (f1, (f2, (f3, _)))) := v in
    {| uring_cmd_req_flags := f0; uring_cmd_req_commit_id := f1; uring_cmd_req_qid := f2;
       uring_cmd_req_padding := f3 |};
  of_to_val := ltac:(solve_pod);
  to_of_val := ltac:(solve_pod);
  layout_packed := eq_refl;
|}.
