(* ===== verification/Crates.v ===== *)
(** * The crates polyfuse depends on

The code of [bitflags], [zerocopy], [rustix] and [libc] is not part of the
repository.  Each crate is a class of operations that the model takes as a
parameter, and a second class states the documented behaviour the proofs rely
on.  The last section gives a reference instance of every class, so that the
hypotheses are satisfiable and the model runs on concrete inputs. *)

From S2P Require Import Prelude Layout Kernel.
Local Open Scope Z_scope.

(** ** [std::io::Error]

An error made from an OS error code, or one with a kind and a message. *)

Inductive ErrorKind := NotFound | InvalidInput | InvalidData | UnexpectedEof | WriteZero | Interrupted | Other.

Inductive io_error :=
  | Os (code : i32)
  | Custom (kind : ErrorKind) (message : string).

#[export] Instance ErrorKind_eq_dec : EqDecision ErrorKind.
Proof. solve_decision. Defined.

(** ** [bitflags]

A flags type declared by [bitflags!] is its bits; [flags] is the list of the
declared constants. *)

Class Bitflags := {
  bf_empty : Z;
  bf_all (flags : list Z) : Z;
  bf_from_bits_truncate (flags : list Z) (bits : Z) : Z;
  bf_union (a b : Z) : Z;
  bf_intersection (a b : Z) : Z;
  bf_contains (a b : Z) : bool;
  bf_remove (a b : Z) : Z;
}.

Class BitflagsSpec `{Bitflags} : Prop := {
  bf_empty_spec : bf_empty = 0;
  bf_all_spec flags : bf_all flags = foldr Z.lor 0 flags;
  bf_from_bits_truncate_spec flags bits :
    bf_from_bits_truncate flags bits = Z.land bits (bf_all flags);
  bf_union_spec a b : bf_union a b = Z.lor a b;
  bf_intersection_spec a b : bf_intersection a b = Z.land a b;
  bf_contains_spec a b : bf_contains a b = (Z.land a b =? b);
  bf_remove_spec a b : bf_remove a b = Z.ldiff a b;
}.

(** ** [zerocopy]

References to byte slices carry the address of their first byte, since the
conversions check alignment. *)

Class Zerocopy := {
  zc_as_bytes {T} `{Pod T} (x : T) : list byte;
  zc_new_zeroed {T} `{Pod T} : T;
  zc_try_ref_from_bytes {T} `{Pod T} (addr : Z) (bs : list byte) : option T;
  zc_try_ref_array {T} `{Pod T} (addr : Z) (bs : list byte) : option (list T);
  zc_try_ref_from_prefix {T} `{Pod T} (addr : Z) (bs : list byte) : option (T * list byte);
  zc_try_transmute {E} `{ReprU32 E} (x : u32) : option E;
  zc_transmute_i32 (x : u32) : i32;
  zc_transmute_u64 (x : i64) : u64;
}.

Definition aligned_to (addr : Z) (a : nat) : bool := addr mod Z.of_nat a =? 0.

(** The elements of a slice [[T]] whose image is [bs]. *)
Fixpoint pod_decode_array {T} `{Pod T} (n : nat) (bs : list byte) : list T :=
  match n with
  | O => []
  | S n => pod_decode bs :: pod_decode_array n (drop (size_of T) bs)
  end.

Class ZerocopySpec `{Zerocopy} : Prop := {
  zc_as_bytes_spec {T} `{Pod T} (x : T) : zc_as_bytes x = pod_encode x;
  zc_new_zeroed_spec {T} `{Pod T} : zc_new_zeroed = pod_zeroed (T:=T);
  zc_try_ref_from_bytes_spec {T} `{Pod T} addr bs :
    zc_try_ref_from_bytes (T:=T) addr bs =
      if aligned_to addr (align_of T) && (length bs =? size_of T)%nat
      then Some (pod_decode bs) else None;
  zc_try_ref_array_spec {T} `{Pod T} addr bs :
    (0 < size_of T)%nat →
    zc_try_ref_array (T:=T) addr bs =
      if aligned_to addr (align_of T) && (length bs mod size_of T =? 0)%nat
      then Some (pod_decode_array (length bs / size_of T) bs) else None;
  zc_try_ref_from_prefix_spec {T} `{Pod T} addr bs :
    zc_try_ref_from_prefix (T:=T) addr bs =
      if aligned_to addr (align_of T) && (size_of T <=? length bs)%nat
      then Some (pod_decode bs, drop (size_of T) bs) else None;
  zc_try_transmute_spec {E} `{ReprU32 E} x e :
    zc_try_transmute (E:=E) x = Some e ↔ discr e = x;
  zc_transmute_i32_spec x : zc_transmute_i32 x = wrap_i 32 x;
  zc_transmute_u64_spec x : zc_transmute_u64 x = wrap_u 64 x;
}.

(** ** [rustix]

[Errno] is its raw code, [Uid] and [Gid] their raw ids, [Pid] a raw id that
is positive.  [Pid::from_raw] is documented for positive ids and for zero only: it
asserts in debug builds that its argument is not negative, so it may panic there,
and nothing is assumed of what it does with a negative id. *)

Definition Errno := i32.
Definition Uid := u32.
Definition Gid := u32.
Definition Pid := i32.

Class Rustix := {
  Errno_PERM : Errno;
  Errno_NOENT : Errno;
  Errno_INTR : Errno;
  Errno_AGAIN : Errno;
  Errno_NODEV : Errno;
  Errno_INVAL : Errno;
  Errno_PROTO : Errno;
  Errno_from_io_error (e : io_error) : option Errno;
  Pid_from_raw {E : Type} (raw : i32) : outcome E (option Pid);
  XattrFlags_from_bits_truncate (bits : u32) : u32;
  page_size : usize;
}.

(** Truncation keeps a subset of the bits it is given, the known ones; a page is a power of two
of at least 4096 bytes and at most 64 KiB. *)
Class RustixSpec `{Rustix} : Prop := {
  Errno_values :
    (Errno_PERM, Errno_NOENT, Errno_INTR, Errno_AGAIN, Errno_NODEV, Errno_INVAL, Errno_PROTO)
    = (1, 2, 4, 11, 19, 22, 71);
  Errno_from_io_error_os code : Errno_from_io_error (Os code) = Some code;
  Errno_from_io_error_custom kind msg : Errno_from_io_error (Custom kind msg) = None;
  Pid_from_raw_pos {E} raw : 0 < raw → Pid_from_raw (E:=E) raw = Ok (Some raw);
  Pid_from_raw_0 {E} : Pid_from_raw (E:=E) 0 = Ok None;
  XattrFlags_truncated bits :
    XattrFlags_from_bits_truncate (XattrFlags_from_bits_truncate bits)
    = XattrFlags_from_bits_truncate bits;
  XattrFlags_width bits : is_u 32 bits → is_u 32 (XattrFlags_from_bits_truncate bits);
  page_size_bounds : 4096 ≤ page_size ≤ 65536;
}.

(** ** [libc] constants and the [dev_t] functions *)

Class Libc := {
  S_IFMT : u32; S_IFREG : u32; S_IFDIR : u32; S_IFCHR : u32; S_IFBLK : u32;
  S_IFLNK : u32; S_IFIFO : u32; S_IFSOCK : u32;
  S_IRUSR : u32; S_IRGRP : u32; S_IROTH : u32;
  S_IWUSR : u32; S_IWGRP : u32; S_IWOTH : u32;
  S_IXUSR : u32; S_IXGRP : u32; S_IXOTH : u32;
  S_ISUID : u32; S_ISGID : u32; S_ISVTX : u32;
  DT_UNKNOWN : u8; DT_FIFO : u8; DT_CHR : u8; DT_DIR : u8; DT_BLK : u8;
  DT_REG : u8; DT_LNK : u8; DT_SOCK : u8;
  POLLIN : u32; POLLOUT : u32; POLLRDHUP : u32; POLLERR : u32; POLLHUP : u32; POLLNVAL : u32;
  RENAME_NOREPLACE : u32; RENAME_EXCHANGE : u32; RENAME_WHITEOUT : u32;
  O_ACCMODE : i32; O_RDONLY : i32; O_WRONLY : i32; O_RDWR : i32;
  O_CLOEXEC : u32; O_DIRECTORY : u32; O_NOFOLLOW : u32; O_TMPFILE : u32; O_TRUNC : u32;
  O_APPEND : u32; O_ASYNC : u32; O_DIRECT : u32; O_DSYNC : u32; O_LARGEFILE : u32;
  O_NOATIME : u32; O_NONBLOCK : u32; O_NDELAY : u32; O_PATH : u32; O_SYNC : u32;
  F_RDLCK : i32; F_WRLCK : i32; F_UNLCK : i32;
  LOCK_SH : i32; LOCK_EX : i32; LOCK_NB : i32; LOCK_UN : i32;
  SEEK_SET : i32; SEEK_CUR : i32; SEEK_END : i32; SEEK_DATA : i32; SEEK_HOLE : i32;
  FALLOC_FL_KEEP_SIZE : u32; FALLOC_FL_PUNCH_HOLE : u32; FALLOC_FL_COLLAPSE_RANGE : u32;
  FALLOC_FL_ZERO_RANGE : u32; FALLOC_FL_INSERT_RANGE : u32; FALLOC_FL_UNSHARE_RANGE : u32;
  dev_major (dev : u64) : u32;
  dev_minor (dev : u64) : u32;
  makedev (major minor : u32) : u64;
}.

(** The split of a [dev_t] that the C library documents for Linux: the major
number in bits 8-19 and 32-63, the minor number in bits 0-7 and 12-31. *)
Definition gnu_makedev (major minor : u32) : u64 :=
  Z.lor (Z.lor (Z.shiftl (Z.land major 0xfff) 8) (Z.shiftl (Z.land major 0xfffff000) 32))
        (Z.lor (Z.land minor 0xff) (Z.shiftl (Z.land minor 0xffffff00) 12)).
Definition gnu_dev_major (dev : u64) : u32 :=
  Z.lor (Z.land (Z.shiftr dev 8) 0xfff) (Z.land (Z.shiftr dev 32) 0xfffff000).
Definition gnu_dev_minor (dev : u64) : u32 :=
  Z.lor (Z.land dev 0xff) (Z.land (Z.shiftr dev 12) 0xffffff00).

(** The values on Linux x86-64. *)
Definition linux_libc : Libc := {|
  S_IFMT := 0xf000; S_IFREG := 0x8000; S_IFDIR := 0x4000; S_IFCHR := 0x2000; S_IFBLK := 0x6000;
  S_IFLNK := 0xa000; S_IFIFO := 0x1000; S_IFSOCK := 0xc000;
  S_IRUSR := 256; S_IRGRP := 32; S_IROTH := 4;
  S_IWUSR := 128; S_IWGRP := 16; S_IWOTH := 2;
  S_IXUSR := 64; S_IXGRP := 8; S_IXOTH := 1;
  S_ISUID := 2048; S_ISGID := 1024; S_ISVTX := 512;
  DT_UNKNOWN := 0; DT_FIFO := 1; DT_CHR := 2; DT_DIR := 4; DT_BLK := 6;
  DT_REG := 8; DT_LNK := 10; DT_SOCK := 12;
  POLLIN := 1; POLLOUT := 4; POLLRDHUP := 0x2000; POLLERR := 8; POLLHUP := 16; POLLNVAL := 32;
  RENAME_NOREPLACE := 1; RENAME_EXCHANGE := 2; RENAME_WHITEOUT := 4;
  O_ACCMODE := 3; O_RDONLY := 0; O_WRONLY := 1; O_RDWR := 2;
  O_CLOEXEC := 0x80000; O_DIRECTORY := 0x10000; O_NOFOLLOW := 0x20000; O_TMPFILE := 0x410000;
  O_TRUNC := 0x200; O_APPEND := 0x400; O_ASYNC := 0x2000; O_DIRECT := 0x4000; O_DSYNC := 0x1000;
  O_LARGEFILE := 0; O_NOATIME := 0x40000; O_NONBLOCK := 0x800; O_NDELAY := 0x800;
  O_PATH := 0x200000; O_SYNC := 0x101000;
  F_RDLCK := 0; F_WRLCK := 1; F_UNLCK := 2;
  LOCK_SH := 1; LOCK_EX := 2; LOCK_NB := 4; LOCK_UN := 8;
  SEEK_SET := 0; SEEK_CUR := 1; SEEK_END := 2; SEEK_DATA := 3; SEEK_HOLE := 4;
  FALLOC_FL_KEEP_SIZE := 1; FALLOC_FL_PUNCH_HOLE := 2; FALLOC_FL_COLLAPSE_RANGE := 8;
  FALLOC_FL_ZERO_RANGE := 16; FALLOC_FL_INSERT_RANGE := 32; FALLOC_FL_UNSHARE_RANGE := 64;
  dev_major := gnu_dev_major;
  dev_minor := gnu_dev_minor;
  makedev := gnu_makedev;
|}.

Class LibcLinux (L : Libc) : Prop := libc_linux : L = linux_libc.

(** ** Reference instances *)

Definition ref_bitflags : Bitflags := {|
  bf_empty := 0;
  bf_all := foldr Z.lor 0;
  bf_from_bits_truncate flags bits := Z.land bits (foldr Z.lor 0 flags);
  bf_union := Z.lor;
  bf_intersection := Z.land;
  bf_contains a b := Z.land a b =? b;
  bf_remove := Z.ldiff;
|}.

Lemma ref_bitflags_spec : @BitflagsSpec ref_bitflags.
Proof. by split. Qed.

Definition ref_zerocopy : Zerocopy := {|
  zc_as_bytes _ _ x := pod_encode x;
  zc_new_zeroed _ _ := pod_zeroed;
  zc_try_ref_from_bytes T _ addr bs :=
    if aligned_to addr (align_of T) && (length bs =? size_of T)%nat
    then Some (pod_decode bs) else None;
  zc_try_ref_array T _ addr bs :=
    if aligned_to addr (align_of T) && (length bs mod size_of T =? 0)%nat
    then Some (pod_decode_array (length bs / size_of T) bs) else None;
  zc_try_ref_from_prefix T _ addr bs :=
    if aligned_to addr (align_of T) && (size_of T <=? length bs)%nat
    then Some (pod_decode bs, drop (size_of T) bs) else None;
  zc_try_transmute E _ x := List.find (λ e, discr e =? x) variants;
  zc_transmute_i32 := wrap_i 32;
  zc_transmute_u64 := wrap_u 64;
|}.

Lemma find_discr {E} `{ReprU32 E} x e :
  List.find (λ e, discr e =? x) variants = Some e ↔ discr e = x.
Proof.
  split.
  - intros [_ Hx]%List.find_some. by apply Z.eqb_eq.
  - intros <-. destruct (List.find _ _) as [e'|] eqn:Hf.
    + apply List.find_some in Hf as [_ Hx]. apply Z.eqb_eq, discr_inj in Hx. by subst.
    + pose proof (List.find_none _ _ Hf e (variants_complete e)) as Hn. simpl in Hn.
      by rewrite Z.eqb_refl in Hn.
Qed.

Lemma ref_zerocopy_spec : @ZerocopySpec ref_zerocopy.
Proof. split; try done. intros. apply find_discr. Qed.

Definition ref_rustix : Rustix := {|
  Errno_PERM := 1; Errno_NOENT := 2; Errno_INTR := 4; Errno_AGAIN := 11;
  Errno_NODEV := 19; Errno_INVAL := 22; Errno_PROTO := 71;
  Errno_from_io_error e := match e with Os code => Some code | Custom _ _ => None end;
  Pid_from_raw _ raw :=
    if raw <? 0 then Panic "assertion failed: raw >= 0"
    else Ok (if raw =? 0 then None else Some raw);
  XattrFlags_from_bits_truncate bits := bits;
  page_size := 4096;
|}.

Lemma ref_rustix_spec : @RustixSpec ref_rustix.
Proof.
  split; simpl; (done || lia || idtac).
  intros E raw Hr. rewrite (proj2 (Z.ltb_ge _ _)), (proj2 (Z.eqb_neq _ _)) by lia. done.
Qed.

Lemma ref_libc_linux : LibcLinux linux_libc.
Proof. done. Qed.

(** ** Derived facts *)

Section facts.
Context `{ZC : Zerocopy} {ZCS : ZerocopySpec}.

Lemma zc_try_transmute_discr {E} `{ReprU32 E} (e : E) :
  zc_try_transmute (discr e) = Some e.
Proof. by apply zc_try_transmute_spec. Qed.

Lemma length_zc_as_bytes {T} `{Pod T} (x : T) :
  pod_wf x → length (zc_as_bytes x) = size_of T.
Proof. intros. rewrite zc_as_bytes_spec. by apply length_pod_encode. Qed.

End facts.
