(* ===== verification/Types.v ===== *)
(** * Common types: [src/types.rs]

Identifiers, device numbers, file modes and types, attributes and their
conversion from [struct stat], file-system statistics and locks. *)

From S2P Require Import Prelude Layout Kernel Crates.
Local Open Scope Z_scope.

(** ** Identifiers

[define_id_type!] makes a newtype: the constructor is [from_raw] and the
projection [into_raw]. *)

Record RequestID := RequestID_from_raw { RequestID_into_raw : u64 }.
Record NotifyID := NotifyID_from_raw { NotifyID_into_raw : u64 }.
Record FileID := FileID_from_raw { FileID_into_raw : u64 }.
Record PollWakeupID := PollWakeupID_from_raw { PollWakeupID_into_raw : u64 }.
Record LockOwnerID := LockOwnerID_from_raw { LockOwnerID_value : u64 }.

(** A [NodeID] holds a [NonZeroU64]. *)
Record NodeID := NodeID_from_raw_unchecked { NodeID_into_raw : u64 }.

Definition NodeID_ROOT : NodeID := NodeID_from_raw_unchecked 1.

Definition NodeID_from_raw (value : u64) : option NodeID :=
  if value =? 0 then None else Some (NodeID_from_raw_unchecked value).

Definition NodeID_wf (n : NodeID) : Prop := n.(NodeID_into_raw) ≠ 0.

#[export] Instance NodeID_eq_dec : EqDecision NodeID.
Proof. solve_decision. Defined.
#[export] Instance FileID_eq_dec : EqDecision FileID.
Proof. solve_decision. Defined.
#[export] Instance NotifyID_eq_dec : EqDecision NotifyID.
Proof. solve_decision. Defined.

(** ** Device numbers *)

Record DeviceID := DeviceID_from_kernel_dev { DeviceID_into_kernel_dev : u32 }.

Definition MAJOR_MAX : u32 := 0xfff.
Definition MINOR_MAX : u32 := 0xfffff.

(** [u32 << n] drops the bits shifted out. *)
Definition u32_shl (x n : Z) : u32 := wrap_u 32 (Z.shiftl x n).

Definition DeviceID_new {E} (major minor : u32) : outcome E DeviceID :=
  if negb (major <=? MAJOR_MAX) then Panic "DeviceID.major"
  else if negb (minor <=? MINOR_MAX) then Panic "DeviceID.minor"
  else Ok (DeviceID_from_kernel_dev
    (Z.lor (Z.lor (Z.land minor 0xff) (u32_shl (Z.land major 0xfff) 8))
           (u32_shl (Z.land minor 0xfff00) 12))).

Definition DeviceID_major (d : DeviceID) : u32 :=
  Z.land (Z.shiftr d.(DeviceID_into_kernel_dev) 8) 0xfff.

Definition DeviceID_minor (d : DeviceID) : u32 :=
  Z.lor (Z.land d.(DeviceID_into_kernel_dev) 0xff)
        (Z.land (Z.shiftr d.(DeviceID_into_kernel_dev) 12) 0xfff00).

(** ** Time: [std::time::Duration::new]

Nanoseconds carry into the seconds; the constructor panics when the seconds
overflow. *)

Record Duration := { as_secs : u64; subsec_nanos : u32 }.

Definition NANOS_PER_SEC : Z := 1000000000.

Definition Duration_new {E} (secs : u64) (nanos : u32) : outcome E Duration :=
  if nanos <? NANOS_PER_SEC then Ok {| as_secs := secs; subsec_nanos := nanos |}
  else
    let secs' := secs + nanos / NANOS_PER_SEC in
    if 2 ^ 64 <=? secs' then Panic "overflow in Duration::new"
    else Ok {| as_secs := secs'; subsec_nanos := nanos mod NANOS_PER_SEC |}.

Definition Duration_ZERO : Duration := {| as_secs := 0; subsec_nanos := 0 |}.

(** ** File types, permissions and modes *)

Inductive FileType :=
  | Regular | Directory | CharacterDevice | BlockDevice | SymbolicLink | Fifo | Socket.

#[export] Instance FileType_eq_dec : EqDecision FileType.
Proof. solve_decision. Defined.

Section modes.
Context `{L : Libc} `{BF : Bitflags}.

Definition DeviceID_from_userspace_dev {E} (rdev : u64) : outcome E DeviceID :=
  DeviceID_new (dev_major rdev) (dev_minor rdev).

Definition DeviceID_into_userspace_dev (d : DeviceID) : u64 :=
  makedev (DeviceID_major d) (DeviceID_minor d).

Definition FileType_from_raw (raw : u32) : option FileType :=
  let t := Z.land raw S_IFMT in
  if t =? S_IFREG then Some Regular
  else if t =? S_IFDIR then Some Directory
  else if t =? S_IFCHR then Some CharacterDevice
  else if t =? S_IFBLK then Some BlockDevice
  else if t =? S_IFLNK then Some SymbolicLink
  else if t =? S_IFIFO then Some Fifo
  else if t =? S_IFSOCK then Some Socket
  else None.

Definition FileType_from_dirent_type (typ : u8) : option FileType :=
  if typ =? DT_BLK then Some BlockDevice
  else if typ =? DT_CHR then Some CharacterDevice
  else if typ =? DT_DIR then Some Directory
  else if typ =? DT_FIFO then Some Fifo
  else if typ =? DT_LNK then Some SymbolicLink
  else if typ =? DT_REG then Some Regular
  else if typ =? DT_SOCK then Some Socket
  else None.

Definition FileType_into_raw (t : FileType) : u32 :=
  match t with
  | Regular => S_IFREG
  | Directory => S_IFDIR
  | CharacterDevice => S_IFCHR
  | BlockDevice => S_IFBLK
  | SymbolicLink => S_IFLNK
  | Fifo => S_IFIFO
  | Socket => S_IFSOCK
  end.

(** A flags type is its bits; the list holds the constants in declaration
order. *)
Definition FilePermissions_flags : list u32 :=
  [S_IRUSR; S_IRGRP; S_IROTH; S_IWUSR; S_IWGRP; S_IWOTH; S_IXUSR; S_IXGRP; S_IXOTH;
   S_ISUID; S_ISGID; S_ISVTX].

Definition FilePermissions_from_bits_truncate (bits : u32) : u32 :=
  bf_from_bits_truncate FilePermissions_flags bits.

Definition FilePermissions_READ : u32 := bf_union (bf_union S_IRUSR S_IRGRP) S_IROTH.
Definition FilePermissions_WRITE : u32 := bf_union (bf_union S_IWUSR S_IWGRP) S_IWOTH.
Definition FilePermissions_EXEC : u32 := bf_union (bf_union S_IXUSR S_IXGRP) S_IXOTH.
Definition FilePermissions_MASK : u32 :=
  bf_union (bf_union FilePermissions_READ FilePermissions_WRITE) FilePermissions_EXEC.

Record FileMode := FileMode_from_raw { FileMode_into_raw : u32 }.

Definition FileMode_new (typ : FileType) (perm : u32) : FileMode :=
  FileMode_from_raw (Z.lor (FileType_into_raw typ) perm).

Definition FileMode_file_type (m : FileMode) : option FileType :=
  FileType_from_raw m.(FileMode_into_raw).

Definition FileMode_permissions (m : FileMode) : u32 :=
  FilePermissions_from_bits_truncate m.(FileMode_into_raw).

Definition PollEvents_flags : list u32 := [POLLIN; POLLOUT; POLLRDHUP; POLLERR; POLLHUP; POLLNVAL].

Definition PollEvents_from_bits_truncate (bits : u32) : u32 :=
  bf_from_bits_truncate PollEvents_flags bits.

(** ** Attributes *)

Record FileAttr := {
  FileAttr_ino : NodeID;
  FileAttr_size : u64;
  FileAttr_mode : FileMode;
  FileAttr_nlink : u32;
  FileAttr_uid : Uid;
  FileAttr_gid : Gid;
  FileAttr_rdev : DeviceID;
  FileAttr_blksize : u32;
  FileAttr_blocks : u64;
  FileAttr_atime : Duration;
  FileAttr_mtime : Duration;
  FileAttr_ctime : Duration;
}.

Definition FileAttr_new {E} : outcome E FileAttr :=
  rdev ← DeviceID_new 0 0;
  atime ← Duration_new 0 0;
  mtime ← Duration_new 0 0;
  ctime ← Duration_new 0 0;
  Ok {|
    FileAttr_ino := NodeID_ROOT;
    FileAttr_size := 0;
    FileAttr_mode := FileMode_new Regular FilePermissions_READ;
    FileAttr_nlink := 1;
    FileAttr_uid := 0;
    FileAttr_gid := 0;
    FileAttr_rdev := rdev;
    FileAttr_blksize := 0;
    FileAttr_blocks := 0;
    FileAttr_atime := atime;
    FileAttr_mtime := mtime;
    FileAttr_ctime := ctime;
  |}.

Inductive TryIntoFileAttrError :=
  | TryIntoFileAttrError_InvalidNodeID
  | TryIntoFileAttrError_Num.

(** [libc::stat] on Linux x86-64, the fields the conversion reads. *)
Record stat := {
  st_ino : u64;
  st_nlink : u64;
  st_mode : u32;
  st_uid : u32;
  st_gid : u32;
  st_rdev : u64;
  st_size : i64;
  st_blksize : i64;
  st_blocks : i64;
  st_atime : i64;
  st_atime_nsec : i64;
  st_mtime : i64;
  st_mtime_nsec : i64;
  st_ctime : i64;
  st_ctime_nsec : i64;
}.

(** [TryFrom] between integers: an error when the value does not fit [u32]. *)
Definition try_into_u32 {E} (e : E) (z : Z) : outcome E u32 :=
  if (0 <=? z) && (z <? 2 ^ 32) then Ok z else Err e.

Context `{ZC : Zerocopy}.

Definition FileAttr_try_from_stat (st : stat) : outcome TryIntoFileAttrError FileAttr :=
  ino ← ok_or (NodeID_from_raw st.(st_ino)) TryIntoFileAttrError_InvalidNodeID;
  let size := zc_transmute_u64 st.(st_size) in
  let mode := FileMode_from_raw st.(st_mode) in
  nlink ← try_into_u32 TryIntoFileAttrError_Num st.(st_nlink);
  rdev ← DeviceID_from_userspace_dev st.(st_rdev);
  blksize ← try_into_u32 TryIntoFileAttrError_Num st.(st_blksize);
  let blocks := zc_transmute_u64 st.(st_blocks) in
  atime ← Duration_new (zc_transmute_u64 st.(st_atime)) (wrap_u 32 st.(st_atime_nsec));
  mtime ← Duration_new (zc_transmute_u64 st.(st_mtime)) (wrap_u 32 st.(st_mtime_nsec));
  ctime ← Duration_new (zc_transmute_u64 st.(st_ctime)) (wrap_u 32 st.(st_ctime_nsec));
  Ok {|
    FileAttr_ino := ino;
    FileAttr_size := size;
    FileAttr_mode := mode;
    FileAttr_nlink := nlink;
    FileAttr_uid := st.(st_uid);
    FileAttr_gid := st.(st_gid);
    FileAttr_rdev := rdev;
    FileAttr_blksize := blksize;
    FileAttr_blocks := blocks;
    FileAttr_atime := atime;
    FileAttr_mtime := mtime;
    FileAttr_ctime := ctime;
  |}.

(** [std::fs::Metadata], through the accessors of [MetadataExt]. *)
Record Metadata := {
  m_ino : u64;
  m_size : u64;
  m_mode : u32;
  m_nlink : u64;
  m_uid : u32;
  m_gid : u32;
  m_rdev : u64;
  m_blksize : u64;
  m_blocks : u64;
  m_atime : i64;
  m_atime_nsec : i64;
  m_mtime : i64;
  m_mtime_nsec : i64;
  m_ctime : i64;
  m_ctime_nsec : i64;
}.

Definition FileAttr_try_from_metadata (m : Metadata) : outcome TryIntoFileAttrError FileAttr :=
  ino ← ok_or (NodeID_from_raw m.(m_ino)) TryIntoFileAttrError_InvalidNodeID;
  nlink ← try_into_u32 TryIntoFileAttrError_Num m.(m_nlink);
  rdev ← DeviceID_from_userspace_dev m.(m_rdev);
  blksize ← try_into_u32 TryIntoFileAttrError_Num m.(m_blksize);
  atime ← Duration_new (zc_transmute_u64 m.(m_atime)) (wrap_u 32 m.(m_atime_nsec));
  mtime ← Duration_new (zc_transmute_u64 m.(m_mtime)) (wrap_u 32 m.(m_mtime_nsec));
  ctime ← Duration_new (zc_transmute_u64 m.(m_ctime)) (wrap_u 32 m.(m_ctime_nsec));
  Ok {|
    FileAttr_ino := ino;
    FileAttr_size := m.(m_size);
    FileAttr_mode := FileMode_from_raw m.(m_mode);
    FileAttr_nlink := nlink;
    FileAttr_uid := m.(m_uid);
    FileAttr_gid := m.(m_gid);
    FileAttr_rdev := rdev;
    FileAttr_blksize := blksize;
    FileAttr_blocks := m.(m_blocks);
    FileAttr_atime := atime;
    FileAttr_mtime := mtime;
    FileAttr_ctime := ctime;
  |}.

End modes.

(** ** File-system statistics and locks *)

Record Statfs := {
  Statfs_bsize : u32;
  Statfs_frsize : u32;
  Statfs_blocks : u64;
  Statfs_bfree : u64;
  Statfs_bavail : u64;
  Statfs_files : u64;
  Statfs_ffree : u64;
  Statfs_namelen : u32;
}.

(** [libc::statvfs], the fields the conversion reads. *)
Record statvfs := {
  f_bsize : u64;
  f_frsize : u64;
  f_blocks : u64;
  f_bfree : u64;
  f_bavail : u64;
  f_files : u64;
  f_ffree : u64;
  f_namemax : u64;
}.

Definition Statfs_from_statvfs (st : statvfs) : Statfs := {|
  Statfs_bsize := wrap_u 32 st.(f_bsize);
  Statfs_frsize := wrap_u 32 st.(f_frsize);
  Statfs_blocks := st.(f_blocks);
  Statfs_bfree := st.(f_bfree);
  Statfs_bavail := st.(f_bavail);
  Statfs_files := st.(f_files);
  Statfs_ffree := st.(f_ffree);
  Statfs_namelen := wrap_u 32 st.(f_namemax);
|}.

Record FileLock := {
  FileLock_typ : u32;
  FileLock_start : u64;
  FileLock_end : u64;
  FileLock_pid : Pid;
}.

(** ** Properties *)


Ltac ones_masks :=
  change 0xff with (Z.ones 8) in *; change 0xfff00 with (Z.shiftl (Z.ones 12) 8) in *;
  change 0xfff with (Z.ones 12) in *.

(** The encoding without the wrap of the shifts, which never drop a bit. *)
Definition kernel_dev (major minor : Z) : Z :=
  Z.lor (Z.lor (Z.land minor 0xff) (Z.shiftl (Z.land major 0xfff) 8))
        (Z.shiftl (Z.land minor 0xfff00) 12).

Lemma DeviceID_new_ok {E} major minor :
  major ≤ MAJOR_MAX → minor ≤ MINOR_MAX →
  DeviceID_new (E:=E) major minor = Ok (DeviceID_from_kernel_dev (kernel_dev major minor)).
Proof.
  unfold DeviceID_new. intros Hmaj Hmin.
  rewrite (proj2 (Z.leb_le _ _)) by done. rewrite (proj2 (Z.leb_le _ _)) by done.
  simpl. unfold kernel_dev, u32_shl, wrap_u. ones_masks. do 3 f_equal; [f_equal|]; zbits.
Qed.

Lemma kernel_dev_major major minor :
  0 ≤ major ≤ MAJOR_MAX → DeviceID_major (DeviceID_from_kernel_dev (kernel_dev major minor)) = major.
Proof.
  intros. unfold MAJOR_MAX in *. rewrite <- (Z.mod_small major (2 ^ 12)) at 2 by lia.
  unfold DeviceID_major, kernel_dev; simpl DeviceID_into_kernel_dev. ones_masks. zbits.
Qed.

Lemma kernel_dev_minor major minor :
  0 ≤ minor ≤ MINOR_MAX → DeviceID_minor (DeviceID_from_kernel_dev (kernel_dev major minor)) = minor.
Proof.
  intros. unfold MINOR_MAX in *. rewrite <- (Z.mod_small minor (2 ^ 20)) at 2 by lia.
  unfold DeviceID_minor, kernel_dev; simpl DeviceID_into_kernel_dev. ones_masks. zbits.
Qed.

Lemma DeviceID_major_range d : 0 ≤ DeviceID_major d ≤ MAJOR_MAX.
Proof.
  unfold DeviceID_major. ones_masks. rewrite Z.land_ones by lia. unfold MAJOR_MAX.
  pose proof (Z.mod_pos_bound (Z.shiftr d.(DeviceID_into_kernel_dev) 8) (2 ^ 12)). lia.
Qed.

Lemma DeviceID_minor_range d : 0 ≤ DeviceID_minor d ≤ MINOR_MAX.
Proof.
  assert (DeviceID_minor d = DeviceID_minor d mod 2 ^ 20) as ->.
  { unfold DeviceID_minor. ones_masks. zbits. }
  pose proof (Z.mod_pos_bound (DeviceID_minor d) (2 ^ 20)). unfold MINOR_MAX. lia.
Qed.

Lemma kernel_dev_split d :
  is_u 32 d.(DeviceID_into_kernel_dev) →
  kernel_dev (DeviceID_major d) (DeviceID_minor d) = d.(DeviceID_into_kernel_dev).
Proof.
  destruct d as [raw]; simpl. intros Hr. rewrite <- (Z.mod_small raw (2 ^ 32)) at 3 by done.
  unfold kernel_dev, DeviceID_major, DeviceID_minor; simpl DeviceID_into_kernel_dev.
  ones_masks. zbits.
Qed.

Lemma kernel_dev_u32 major minor : is_u 32 (kernel_dev major minor).
Proof.
  assert (kernel_dev major minor = kernel_dev major minor mod 2 ^ 32) as ->.
  { unfold kernel_dev. ones_masks. zbits. }
  by apply Z.mod_pos_bound.
Qed.

(** [DeviceID::new] accepts exactly the major numbers of 12 bits and the
minor numbers of 20 bits, panicking on any other pair; what it builds is a
32-bit number from which [major] and [minor] recover the arguments. *)
Lemma DeviceID_new_spec major minor :
  0 ≤ major → 0 ≤ minor →
  match DeviceID_new (E:=Empty_set) major minor with
  | Ok d => major ≤ 0xfff ∧ minor ≤ 0xfffff ∧ is_u 32 d.(DeviceID_into_kernel_dev) ∧
      DeviceID_major d = major ∧ DeviceID_minor d = minor
  | Panic why => (why = "DeviceID.major" ∧ 0xfff < major) ∨
      (why = "DeviceID.minor" ∧ major ≤ 0xfff ∧ 0xfffff < minor)
  | _ => False
  end.
Proof.
  intros Hmaj Hmin. destruct (Z.leb_spec major MAJOR_MAX) as [Hle|Hlt].
  - destruct (Z.leb_spec minor MINOR_MAX) as [Hle'|Hlt'].
    + rewrite DeviceID_new_ok by done. simpl.
      rewrite kernel_dev_major, kernel_dev_minor by done. auto using kernel_dev_u32.
    + unfold DeviceID_new. rewrite (proj2 (Z.leb_le major _)), (proj2 (Z.leb_gt minor _)) by done.
      simpl. by right.
  - unfold DeviceID_new. rewrite (proj2 (Z.leb_gt major _)) by done. simpl. by left.
Qed.

Lemma DeviceID_new_spec_witness :
  DeviceID_new (E:=Empty_set) 0x42 0x93817 = Ok (DeviceID_from_kernel_dev 0x93804217) ∧
  DeviceID_major (DeviceID_from_kernel_dev 0x93804217) = 0x42.
Proof.
  split; [reflexivity|].
  exact (proj1 (proj2 (proj2 (proj2 (DeviceID_new_spec 0x42 0x93817 ltac:(lia) ltac:(lia)))))).
Defined.

Section types_properties.
Context `{L : Libc} `{BF : Bitflags} `{ZC : Zerocopy}.
Context {HL : LibcLinux L} {HBF : BitflagsSpec} {HZC : ZerocopySpec}.

(** On 32-bit device numbers the C library's split agrees with the kernel's. *)
Lemma land_small_high x m k :
  0 ≤ x < 2 ^ k → 0 ≤ k → Z.land x (Z.shiftl m k) = 0.
Proof.
  intros Hx Hk. apply Z.bits_inj'. intros i Hi. rewrite Z.land_spec, Z.bits_0.
  destruct (Z.ltb_spec i k).
  - by rewrite Z.shiftl_spec_low, andb_false_r.
  - by rewrite (Z_testbit_high x k) by lia.
Qed.

Lemma gnu_makedev_kernel_dev major minor :
  0 ≤ major ≤ MAJOR_MAX → 0 ≤ minor ≤ MINOR_MAX →
  gnu_makedev major minor = kernel_dev major minor.
Proof.
  unfold MAJOR_MAX, MINOR_MAX. intros Hmaj Hmin. unfold gnu_makedev, kernel_dev.
  change 0xfffff000 with (Z.shiftl (Z.ones 20) 12). rewrite land_small_high by lia.
  rewrite Z.shiftl_0_l, Z.lor_0_r, Z.lor_assoc, (Z.lor_comm (Z.shiftl _ 8)).
  do 2 f_equal. change 0xffffff00 with (Z.lor 0xfff00 (Z.shiftl 0xfff 20)).
  by rewrite Z.land_lor_distr_r, (land_small_high minor), Z.lor_0_r by lia.
Qed.

Lemma gnu_dev_major_u32 raw :
  is_u 32 raw → gnu_dev_major raw = DeviceID_major (DeviceID_from_kernel_dev raw).
Proof.
  intros [Hl Hh]. unfold gnu_dev_major, DeviceID_major; simpl.
  rewrite (Z.shiftr_eq_0 raw 32), Z.lor_0_r; [done|lia|].
  destruct (decide (raw = 0)) as [->|]; [done|]. apply Z.log2_lt_pow2; lia.
Qed.

Lemma gnu_dev_minor_u32 raw :
  is_u 32 raw → gnu_dev_minor raw = DeviceID_minor (DeviceID_from_kernel_dev raw).
Proof.
  intros [Hl Hh]. unfold gnu_dev_minor, DeviceID_minor; simpl. f_equal.
  change 0xffffff00 with (Z.lor 0xfff00 (Z.shiftl 0xfff 20)).
  rewrite Z.land_lor_distr_r, (land_small_high (Z.shiftr raw 12)), Z.lor_0_r; [done| |lia].
  rewrite Z.shiftr_div_pow2 by lia. split; [apply Z.div_pos; lia|].
  apply Z.div_lt_upper_bound; lia.
Qed.

(** Every 32-bit device number survives the round trip through the
userspace [dev_t]: [from_userspace_dev (into_userspace_dev d)] returns [d] and
does not panic. *)
Lemma DeviceID_userspace_roundtrip {E} (d : DeviceID) :
  is_u 32 d.(DeviceID_into_kernel_dev) →
  DeviceID_from_userspace_dev (E:=E) (DeviceID_into_userspace_dev d) = Ok d.
Proof.
  intros Hd. unfold DeviceID_from_userspace_dev, DeviceID_into_userspace_dev.
  rewrite HL; simpl.
  rewrite gnu_makedev_kernel_dev, kernel_dev_split
    by auto using DeviceID_major_range, DeviceID_minor_range.
  rewrite gnu_dev_major_u32, gnu_dev_minor_u32 by done.
  rewrite DeviceID_new_ok by (apply DeviceID_major_range || apply DeviceID_minor_range).
  rewrite kernel_dev_split by done. by destruct d.
Qed.

Lemma FilePermissions_truncate bits :
  FilePermissions_from_bits_truncate bits = Z.land bits (Z.ones 12).
Proof.
  unfold FilePermissions_from_bits_truncate, FilePermissions_flags.
  rewrite bf_from_bits_truncate_spec, bf_all_spec. by rewrite HL.
Qed.

Lemma FilePermissions_MASK_value : FilePermissions_MASK = Z.ones 9.
Proof.
  unfold FilePermissions_MASK, FilePermissions_READ, FilePermissions_WRITE, FilePermissions_EXEC.
  rewrite !bf_union_spec. by rewrite HL.
Qed.

Lemma PollEvents_truncate bits :
  PollEvents_from_bits_truncate bits = Z.land bits 0x203d.
Proof.
  unfold PollEvents_from_bits_truncate, PollEvents_flags.
  rewrite bf_from_bits_truncate_spec, bf_all_spec. by rewrite HL.
Qed.

(** A [FileMode] keeps its file type and its permissions apart: for every
file type and every set of the twelve permission bits, [file_type] and
[permissions] of [FileMode::new typ perm] give back [typ] and [perm]. *)
Lemma FileMode_new_split typ perm :
  is_u 12 perm →
  FileMode_file_type (FileMode_new typ perm) = Some typ ∧
  FileMode_permissions (FileMode_new typ perm) = perm.
Proof.
  intros Hp. unfold FileMode_file_type, FileMode_permissions, FileMode_new; simpl.
  assert (∃ k, FileType_into_raw typ = Z.shiftl k 12) as [k Hk].
  { rewrite HL. destruct typ; [exists 8|exists 4|exists 2|exists 6|exists 10|exists 1|exists 12]; done. }
  split.
  - unfold FileType_from_raw. rewrite Z.land_lor_distr_l.
    rewrite HL; simpl S_IFMT. change 0xf000 with (Z.shiftl 15 12).
    rewrite (land_small_high perm); [rewrite Z.lor_0_r|done|lia]. by destruct typ.
  - rewrite FilePermissions_truncate, Hk, Z.land_lor_distr_l.
    rewrite Z.land_ones, Z.shiftl_mul_pow2, Z.mod_mul, Z.lor_0_l by lia.
    rewrite Z.land_ones by lia. by apply Z.mod_small.
Qed.

(** [FileType::from_raw] reads the type of a mode whatever the
permission bits: it inverts [into_raw] and depends only on bits 12 to 15. *)
Lemma FileType_from_raw_spec (raw : u32) typ :
  FileType_from_raw raw = Some typ ↔ Z.land raw 0xf000 = FileType_into_raw typ.
Proof.
  unfold FileType_from_raw. rewrite HL; simpl. set (t := Z.land raw 61440).
  split.
  - repeat case_match; try discriminate; intros [= <-]; by apply Z.eqb_eq.
  - intros ->. by destruct typ.
Qed.

(** A [stat] whose numbers fit the FUSE types: a device number of 12 and 20
bits, sizes that fit [u32] and normalised nanoseconds. *)
Definition stat_in_range (st : stat) : Prop :=
  st.(st_ino) ≠ 0 ∧ is_u 32 st.(st_nlink) ∧ is_u 32 st.(st_blksize) ∧
  0 ≤ dev_major st.(st_rdev) ≤ MAJOR_MAX ∧ 0 ≤ dev_minor st.(st_rdev) ≤ MINOR_MAX ∧
  0 ≤ st.(st_atime_nsec) < NANOS_PER_SEC ∧
  0 ≤ st.(st_mtime_nsec) < NANOS_PER_SEC ∧
  0 ≤ st.(st_ctime_nsec) < NANOS_PER_SEC.

Lemma Duration_new_nsec {E} secs nsec :
  0 ≤ nsec < NANOS_PER_SEC →
  Duration_new (E:=E) secs (wrap_u 32 nsec) = Ok {| as_secs := secs; subsec_nanos := nsec |}.
Proof.
  intros H. unfold Duration_new, wrap_u, NANOS_PER_SEC in *. rewrite Z.mod_small by lia.
  by rewrite (proj2 (Z.ltb_lt _ _)) by lia.
Qed.

Lemma try_into_u32_ok {E} (e : E) z : is_u 32 z → try_into_u32 e z = Ok z.
Proof.
  intros [H1 H2]. unfold try_into_u32.
  by rewrite (proj2 (Z.leb_le _ _)), (proj2 (Z.ltb_lt _ _)).
Qed.

(** The conversion of a [stat] in range to [FileAttr] succeeds and keeps
every number: times before the epoch become the two's complement of their
seconds, and the device number keeps its major and minor parts. *)
Theorem FileAttr_try_from_stat_ok st :
  stat_in_range st →
  ∃ a, FileAttr_try_from_stat st = Ok a ∧
    NodeID_into_raw a.(FileAttr_ino) = st.(st_ino) ∧
    a.(FileAttr_size) = st.(st_size) mod 2 ^ 64 ∧
    FileMode_into_raw a.(FileAttr_mode) = st.(st_mode) ∧
    a.(FileAttr_nlink) = st.(st_nlink) ∧ a.(FileAttr_blksize) = st.(st_blksize) ∧
    a.(FileAttr_blocks) = st.(st_blocks) mod 2 ^ 64 ∧
    DeviceID_major a.(FileAttr_rdev) = dev_major st.(st_rdev) ∧
    DeviceID_minor a.(FileAttr_rdev) = dev_minor st.(st_rdev) ∧
    a.(FileAttr_atime) = {| as_secs := st.(st_atime) mod 2 ^ 64; subsec_nanos := st.(st_atime_nsec) |} ∧
    a.(FileAttr_mtime) = {| as_secs := st.(st_mtime) mod 2 ^ 64; subsec_nanos := st.(st_mtime_nsec) |} ∧
    a.(FileAttr_ctime) = {| as_secs := st.(st_ctime) mod 2 ^ 64; subsec_nanos := st.(st_ctime_nsec) |}.
Proof.
  intros (Hino & Hn & Hb & [Hmaj Hmaj'] & [Hmin Hmin'] & Ha & Hm & Hc).
  unfold FileAttr_try_from_stat, DeviceID_from_userspace_dev.
  unfold NodeID_from_raw. rewrite (proj2 (Z.eqb_neq _ _)) by done. simpl.
  rewrite !try_into_u32_ok by done. simpl.
  rewrite DeviceID_new_ok by done. simpl. rewrite !Duration_new_nsec by done. simpl.
  eexists; split; [done|]. simpl. rewrite !zc_transmute_u64_spec.
  by rewrite kernel_dev_major, kernel_dev_minor by done.
Qed.

(** The same conversion reports a zero inode number as [InvalidNodeID],
before anything else is looked at, and otherwise reports a link count or block
size that does not fit 32 bits as [Num] unless the device number panics first. *)
Lemma FileAttr_try_from_stat_err st :
  (st.(st_ino) = 0 ↔ FileAttr_try_from_stat st = Err TryIntoFileAttrError_InvalidNodeID) ∧
  (FileAttr_try_from_stat st = Err TryIntoFileAttrError_Num →
     ¬ is_u 32 st.(st_nlink) ∨ ¬ is_u 32 st.(st_blksize)).
Proof.
  assert (∀ secs ns, Duration_new (E:=TryIntoFileAttrError) secs ns ≠ Err TryIntoFileAttrError_InvalidNodeID ∧
                     Duration_new (E:=TryIntoFileAttrError) secs ns ≠ Err TryIntoFileAttrError_Num) as HD.
  { intros. unfold Duration_new. by repeat case_match. }
  assert (∀ e, DeviceID_new (E:=TryIntoFileAttrError) (dev_major st.(st_rdev))
    (dev_minor st.(st_rdev)) ≠ Err e) as HN.
  { intros. unfold DeviceID_new. by repeat case_match. }
  assert (∀ z, try_into_u32 TryIntoFileAttrError_Num z = Ok z ∧ is_u 32 z ∨ try_into_u32 TryIntoFileAttrError_Num z = Err TryIntoFileAttrError_Num ∧ ¬ is_u 32 z) as HT.
  { intros z. unfold try_into_u32, is_u.
    destruct (Z.leb_spec 0 z), (Z.ltb_spec z (2 ^ 32)); simpl; auto; right; (split; [done|lia]). }
  unfold FileAttr_try_from_stat, NodeID_from_raw, DeviceID_from_userspace_dev.
  destruct (Z.eqb_spec st.(st_ino) 0) as [|Hne]; simpl; [by split|].
  destruct (HT st.(st_nlink)) as [[-> Hn]|[-> Hn]]; simpl; [|by split; [|auto]].
  destruct (DeviceID_new _ _) as [d|e|w|] eqn:Hd; simpl; [|by destruct (HN e)|by split..].
  destruct (HT st.(st_blksize)) as [[-> Hb]|[-> Hb]]; simpl; [|by split; [|auto]].
  repeat match goal with
  | |- context [Duration_new ?s ?n] =>
      destruct (HD s n); destruct (Duration_new s n) as [?|[]|?|]; simpl; try by split
  end.
Qed.

End types_properties.

Lemma DeviceID_userspace_roundtrip_witness :
  @DeviceID_from_userspace_dev linux_libc Empty_set
    (@DeviceID_into_userspace_dev linux_libc (DeviceID_from_kernel_dev 0x93804217))
  = Ok (DeviceID_from_kernel_dev 0x93804217).
Proof.
  apply (@DeviceID_userspace_roundtrip linux_libc ref_libc_linux Empty_set). done.
Defined.

Lemma FileMode_new_split_witness :
  @FileMode_file_type linux_libc (@FileMode_new linux_libc Directory 493) = Some Directory ∧
  @FileMode_permissions linux_libc ref_bitflags (@FileMode_new linux_libc Directory 493) = 493.
Proof.
  exact (@FileMode_new_split linux_libc ref_bitflags ref_libc_linux ref_bitflags_spec
    Directory 493 ltac:(unfold is_u; lia)).
Defined.

Lemma FileType_from_raw_spec_witness :
  @FileType_from_raw linux_libc 0x41ed = Some Directory.
Proof.
  apply (@FileType_from_raw_spec linux_libc ref_libc_linux 0x41ed Directory). reflexivity.
Defined.

Definition stat_example : stat := {|
  st_ino := 42; st_nlink := 2; st_mode := 0x41ed; st_uid := 1000; st_gid := 1000;
  st_rdev := 0x801; st_size := 4096; st_blksize := 4096; st_blocks := 8;
  st_atime := -1; st_atime_nsec := 7; st_mtime := 5; st_mtime_nsec := 8;
  st_ctime := 6; st_ctime_nsec := 9;
|}.

Lemma FileAttr_try_from_stat_ok_witness :
  ∃ a, @FileAttr_try_from_stat linux_libc ref_zerocopy stat_example = Ok a ∧
    NodeID_into_raw a.(FileAttr_ino) = 42.
Proof.
  destruct (@FileAttr_try_from_stat_ok linux_libc ref_zerocopy ref_zerocopy_spec stat_example)
    as (a & H1 & H2 & _).
  - unfold stat_in_range, is_u, MAJOR_MAX, MINOR_MAX, NANOS_PER_SEC; simpl.
    repeat split; vm_compute; discriminate.
  - by exists a.
Defined.
