(* ===== verification/Bytes.v ===== *)
(** * Scattered bytes: [src/bytes.rs]

The trait [Bytes] (its three methods and the implementations the crate
provides), the visitor [FillBytes], and [write_bytes], which hands all the
chunks of a value to one [write_vectored] call. *)

From stdpp Require Import vector.
From S2P Require Import Prelude Layout Kernel Crates.
Local Open Scope nat_scope.

(** ** The traits

[put] may panic, so that the visitor used by [write_bytes] can index out of
bounds; sizes and counts are sums of lengths of slices. *)

Class FillBytes (D : Type) := put_chunk : list byte → M D Empty_set unit.

Class Bytes (T : Type) := {
  bytes_size : T → nat;
  bytes_count : T → nat;
  fill_bytes {D} `{FillBytes D} : T → M D Empty_set unit;
}.

(** [impl FillBytes for Vec<u8>] *)
Definition Vec_put : FillBytes (list byte) := λ chunk dst, (Ok tt, dst ++ chunk).

(** ** Implementations *)

(** [()] *)
Definition unit_Bytes : Bytes unit := {|
  bytes_size _ := 0;
  bytes_count _ := 0;
  fill_bytes D _ _ := mret tt;
|}.

(** [&R], [&mut R], [Box<R>], [Rc<R>], [Arc<R>]: a pointer is the value it
points to. *)
Definition pointer_Bytes {R} (B : Bytes R) : Bytes R := {|
  bytes_size x := bytes_size x;
  bytes_count x := bytes_count x;
  fill_bytes D _ x := fill_bytes x;
|}.

(** A component of a tuple: a value with its implementation. *)
Record component := Component {
  comp_type : Type;
  comp_bytes : Bytes comp_type;
  comp_val : comp_type;
}.
Arguments Component {_ _} _.

(** [impl_reply_for_tuple!] for every arity: the accumulators of [size] and
[count] start at zero and the components are visited in order. *)
Definition tuple := list component.

Definition tuple_Bytes : Bytes tuple := {|
  bytes_size t := fold_left (λ size c, size + @bytes_size _ c.(comp_bytes) c.(comp_val)) t 0;
  bytes_count t := fold_left (λ count c, count + @bytes_count _ c.(comp_bytes) c.(comp_val)) t 0;
  fill_bytes D _ :=
    fix go (t : tuple) := match t with
    | [] => mret tt
    | c :: t => _ ← @fill_bytes _ c.(comp_bytes) D _ c.(comp_val); go t
    end;
|}.

(** The pair and the triple, as values of an ordinary product. *)
Definition tuple2_Bytes {A B} (BA : Bytes A) (BB : Bytes B) : Bytes (A * B) :=
  let t '(a, b) := [@Component _ BA a; @Component _ BB b] in {|
  bytes_size x := @bytes_size _ tuple_Bytes (t x);
  bytes_count x := @bytes_count _ tuple_Bytes (t x);
  fill_bytes D F x := @fill_bytes _ tuple_Bytes D F (t x);
|}.

Definition tuple3_Bytes {A B C} (BA : Bytes A) (BB : Bytes B) (BC : Bytes C) : Bytes (A * B * C) :=
  let t '(a, b, c) := [@Component _ BA a; @Component _ BB b; @Component _ BC c] in {|
  bytes_size x := @bytes_size _ tuple_Bytes (t x);
  bytes_count x := @bytes_count _ tuple_Bytes (t x);
  fill_bytes D F x := @fill_bytes _ tuple_Bytes D F (t x);
|}.

(** [[R]], [[R; N]] and [Vec<R>] *)
Definition slice_Bytes {R} (B : Bytes R) : Bytes (list R) := {|
  bytes_size l := sum_list (bytes_size <$> l);
  bytes_count l := sum_list (bytes_count <$> l);
  fill_bytes D _ :=
    fix go (l : list R) := match l with
    | [] => mret tt
    | x :: l => _ ← fill_bytes x; go l
    end;
|}.

(** [Option<T>] *)
Definition option_Bytes {T} (B : Bytes T) : Bytes (option T) := {|
  bytes_size o := match o with Some b => bytes_size b | None => 0 end;
  bytes_count o := match o with Some b => bytes_count b | None => 0 end;
  fill_bytes D _ o := match o with Some b => fill_bytes b | None => mret tt end;
|}.

(** [Either<L, R>] *)
Definition either_Bytes {L R} (BL : Bytes L) (BR : Bytes R) : Bytes (L + R) := {|
  bytes_size e := match e with inl l => bytes_size l | inr r => bytes_size r end;
  bytes_count e := match e with inl l => bytes_count l | inr r => bytes_count r end;
  fill_bytes D _ e := match e with inl l => fill_bytes l | inr r => fill_bytes r end;
|}.

(** [[u8]] *)
Definition u8_slice_Bytes : Bytes (list byte) := {|
  bytes_size l := length l;
  bytes_count l := if decide (l = []) then 0 else 1;
  fill_bytes D _ l := if decide (l = []) then mret tt else put_chunk l;
|}.

(** [str], [String], [Vec<u8>] and [Cow<[u8]>], by their [AsRef<[u8]>]. *)
Definition cont_Bytes {T} (as_bytes : T → list byte) : Bytes T := {|
  bytes_size t := length (as_bytes t);
  bytes_count t := if decide (as_bytes t = []) then 0 else 1;
  fill_bytes D _ t := fill_bytes (Bytes := u8_slice_Bytes) (as_bytes t);
|}.

(** [OsStr], and [OsString] by its [as_os_str]; both are their bytes here. *)
Definition OsStr_Bytes : Bytes (list byte) := {|
  bytes_size s := bytes_size (Bytes := u8_slice_Bytes) s;
  bytes_count s := bytes_count (Bytes := u8_slice_Bytes) s;
  fill_bytes D _ s := fill_bytes (Bytes := u8_slice_Bytes) s;
|}.

Definition OsString_Bytes : Bytes (list byte) := {|
  bytes_size s := bytes_size (Bytes := OsStr_Bytes) s;
  bytes_count s := bytes_count (Bytes := OsStr_Bytes) s;
  fill_bytes D _ s := fill_bytes (Bytes := OsStr_Bytes) s;
|}.

(** [[u8; N]] *)
Definition u8_array_Bytes (N : nat) : Bytes (vec byte N) := {|
  bytes_size a := if N =? 0 then 0 else length (vec_to_list a);
  bytes_count a := if (N =? 0) || bool_decide (vec_to_list a = []) then 0 else 1;
  fill_bytes D _ a :=
    if (0 <? N) && negb (bool_decide (vec_to_list a = [])) then put_chunk (vec_to_list a)
    else mret tt;
|}.

(** [CStr] and [CString]: the content without its terminator. *)
Record CStr := { cstr_content : list byte }.

Definition to_bytes_with_nul (s : CStr) : list byte := s.(cstr_content) ++ [Byte.x00].

Definition CStr_Bytes : Bytes CStr := {|
  bytes_size s := length (to_bytes_with_nul s);
  bytes_count s := 1;
  fill_bytes D _ s := put_chunk (to_bytes_with_nul s);
|}.

(** [POD<T>] *)
Record POD (T : Type) := mkPOD { pod_inner : T }.
Arguments mkPOD {_} _.
Arguments pod_inner {_} _.

Definition POD_Bytes {T} `{Zerocopy} `{Pod T} : Bytes (POD T) := {|
  bytes_count p := 1;
  bytes_size p := length (zc_as_bytes p.(pod_inner));
  fill_bytes D _ p := put_chunk (zc_as_bytes p.(pod_inner));
|}.

(** ** [write_bytes]

The scatter list is a fixed number of slots, uninitialised at first; [put]
stores a chunk at the current offset and panics past the end. *)

Record FillWriteBytes := { fwb_vec : list (option (list byte)); fwb_offset : nat }.

Definition FillWriteBytes_put : FillBytes FillWriteBytes := λ chunk d,
  if fwb_offset d <? length (fwb_vec d) then
    (Ok tt, {| fwb_vec := <[fwb_offset d := Some chunk]> (fwb_vec d);
               fwb_offset := S (fwb_offset d) |})
  else (Panic "index out of bounds", d).

(** [slice_assume_init_ref] and [Vec::set_len]: reading a slot that was never
written is undefined behaviour. *)
Definition slice_assume_init {E} (vec : list (option (list byte))) : outcome E (list (list byte)) :=
  match mapM id vec with Some v => Ok v | None => UB end.

(** The trait [io::Write], as far as the crate uses it: one vectored write
takes the chunks and returns the number of bytes accepted. *)
Class IoWrite (W : Type) := write_vectored : list (list byte) → M W io_error nat.

Definition never_err {E A} (o : outcome Empty_set A) : outcome E A :=
  map_err (λ e : Empty_set, match e with end) o.

(** The array of the small cases and the vector of the general case hold the
same slots, so the five branches after [0] are one. *)
Definition write_bytes {W T} `{IoWrite W} (B : Bytes T) (bytes : T) : M W io_error unit := λ w,
  let size := bytes_size bytes in
  let count := bytes_count bytes in
  if count =? 0 then (Ok tt, w)
  else
    let (r, d) := @fill_bytes T B _ FillWriteBytes_put bytes
      {| fwb_vec := replicate count None; fwb_offset := 0 |} in
    (_ ← lift (never_err r);
     vec ← lift (slice_assume_init d.(fwb_vec));
     written ← write_vectored vec;
     if written <? size then lift (Err (Custom Other "written data is too short"))
     else mret tt) w.

(** ** What an implementation promises

[chunks] is what a visitor that records its calls sees.  An implementation is
lawful at a value when every visitor sees those chunks in that order, their
number is [count] and their total length is [size]. *)

Definition collect : FillBytes (list (list byte)) := λ chunk acc, (Ok tt, acc ++ [chunk]).

Definition chunks {T} (B : Bytes T) (x : T) : list (list byte) :=
  (@fill_bytes T B _ collect x []).2.

Fixpoint put_all {D} `{FillBytes D} (cs : list (list byte)) : M D Empty_set unit :=
  match cs with
  | [] => mret tt
  | c :: cs => _ ← put_chunk c; put_all cs
  end.

Record bytes_ok {T} (B : Bytes T) (x : T) : Prop := {
  bytes_ok_fill {D} (F : FillBytes D) d : fill_bytes x d = put_all (chunks B x) d;
  bytes_ok_count : bytes_count x = length (chunks B x);
  bytes_ok_size : bytes_size x = length (concat (chunks B x));
}.

(** The bytes a value stands for. *)
Definition content {T} (B : Bytes T) (x : T) : list byte := concat (chunks B x).

(** A convenient way to show an implementation lawful: name the chunks. *)
Lemma bytes_ok_intro {T} (B : Bytes T) x cs :
  (∀ D (F : FillBytes D) d, fill_bytes x d = put_all cs d) →
  bytes_count x = length cs → bytes_size x = length (concat cs) →
  bytes_ok B x ∧ chunks B x = cs.
Proof.
  intros Hf Hc Hs. assert (chunks B x = cs) as Hcs.
  { unfold chunks. rewrite Hf.
    assert (∀ acc, @put_all _ collect cs acc = (Ok tt, acc ++ cs)) as ->; [|done].
    clear. induction cs as [|c cs IH]; intros acc; simpl; [by rewrite app_nil_r|].
    unfold mbind, M_bind; simpl. rewrite IH. by rewrite <- app_assoc. }
  split; [|done]. split; by rewrite Hcs.
Qed.

Lemma put_all_app {D} (F : FillBytes D) cs cs' d :
  put_all (cs ++ cs') d = (_ ← put_all cs; put_all cs') d.
Proof.
  revert d. induction cs as [|c cs IH]; intros d; simpl; [done|].
  unfold mbind, M_bind in *; simpl. destruct (put_chunk c d) as [[]]; auto.
Qed.

Lemma put_all_one {D} (F : FillBytes D) c d : put_chunk c d = put_all [c] d.
Proof.
  simpl. unfold mbind, M_bind, mret, M_ret; simpl. by destruct (put_chunk c d) as [[[]|[]| |]].
Qed.

(** ** The implementations are lawful *)

Lemma unit_chunks x : bytes_ok unit_Bytes x ∧ chunks unit_Bytes x = [].
Proof. by apply bytes_ok_intro. Qed.

Lemma u8_slice_chunks l :
  bytes_ok u8_slice_Bytes l ∧ content u8_slice_Bytes l = l.
Proof.
  destruct (decide (l = [])) as [->|Hl].
  - by destruct (bytes_ok_intro u8_slice_Bytes [] []) as [? Hc].
  - destruct (bytes_ok_intro u8_slice_Bytes l [l]) as [? Hc]; simpl.
    + intros. rewrite decide_False by done. apply put_all_one.
    + by rewrite decide_False by done.
    + by rewrite app_nil_r.
    + split; [done|]. unfold content. rewrite Hc. simpl. by rewrite app_nil_r.
Qed.

Lemma cont_chunks {T} (as_bytes : T → list byte) t :
  bytes_ok (cont_Bytes as_bytes) t ∧ content (cont_Bytes as_bytes) t = as_bytes t.
Proof. destruct (u8_slice_chunks (as_bytes t)) as [[H1 H2 H3] H4]. by split; [split|]. Qed.

Lemma u8_array_chunks N (a : vec byte N) :
  bytes_ok (u8_array_Bytes N) a ∧ content (u8_array_Bytes N) a = vec_to_list a.
Proof.
  destruct N as [|N].
  - inv_vec a. by destruct (bytes_ok_intro (u8_array_Bytes 0) [#] []) as [? Hc].
  - assert (vec_to_list a ≠ []) as Hne by (by inv_vec a).
    destruct (bytes_ok_intro (u8_array_Bytes (S N)) a [vec_to_list a]) as [? Hc]; simpl.
    + intros. rewrite bool_decide_eq_false_2 by done. simpl. apply put_all_one.
    + by rewrite bool_decide_eq_false_2 by done.
    + by rewrite app_nil_r.
    + split; [done|]. unfold content. rewrite Hc. simpl. by rewrite app_nil_r.
Qed.

Lemma CStr_chunks s :
  bytes_ok CStr_Bytes s ∧ content CStr_Bytes s = s.(cstr_content) ++ [Byte.x00].
Proof.
  destruct (bytes_ok_intro CStr_Bytes s [to_bytes_with_nul s]) as [? Hc]; simpl.
  - intros. apply put_all_one.
  - done.
  - by rewrite app_nil_r.
  - split; [done|]. unfold content. rewrite Hc. simpl. by rewrite app_nil_r.
Qed.

Lemma POD_chunks {T} `{Zerocopy} `{Pod T} (p : POD T) :
  bytes_ok POD_Bytes p ∧ chunks POD_Bytes p = [zc_as_bytes p.(pod_inner)].
Proof.
  apply bytes_ok_intro; simpl; [|done|by rewrite app_nil_r].
  intros. apply put_all_one.
Qed.

Lemma pointer_chunks {R} (B : Bytes R) x :
  bytes_ok B x → bytes_ok (pointer_Bytes B) x ∧ chunks (pointer_Bytes B) x = chunks B x.
Proof. intros []. by apply bytes_ok_intro. Qed.

Lemma option_chunks {T} (B : Bytes T) o :
  (∀ x, o = Some x → bytes_ok B x) →
  bytes_ok (option_Bytes B) o ∧
  chunks (option_Bytes B) o = match o with Some x => chunks B x | None => [] end.
Proof.
  intros Ho. destruct o as [x|]; [destruct (Ho x) as []; [done|]|]; by apply bytes_ok_intro.
Qed.

Lemma either_chunks {L R} (BL : Bytes L) (BR : Bytes R) e :
  match e with inl l => bytes_ok BL l | inr r => bytes_ok BR r end →
  bytes_ok (either_Bytes BL BR) e ∧
  chunks (either_Bytes BL BR) e = match e with inl l => chunks BL l | inr r => chunks BR r end.
Proof. destruct e; intros []; by apply bytes_ok_intro. Qed.

Lemma slice_chunks {R} (B : Bytes R) l :
  Forall (bytes_ok B) l →
  bytes_ok (slice_Bytes B) l ∧ chunks (slice_Bytes B) l = concat (chunks B <$> l).
Proof.
  intros Hl. apply bytes_ok_intro.
  - intros D F. induction Hl as [|x l Hx Hl IH]; intros d; simpl; [done|].
    rewrite put_all_app. unfold mbind, M_bind; simpl.
    rewrite (bytes_ok_fill _ _ Hx). destruct (put_all _ d) as [[]]; auto.
  - simpl. induction Hl as [|x l [] Hl IH]; csimpl; [done|]. rewrite length_app. lia.
  - simpl. induction Hl as [|x l [] Hl IH]; csimpl; [done|].
    rewrite concat_app, length_app. lia.
Qed.

Definition component_ok (c : component) : Prop := bytes_ok c.(comp_bytes) c.(comp_val).
Definition component_chunks (c : component) : list (list byte) := chunks c.(comp_bytes) c.(comp_val).

Lemma fold_left_add {A} (f : A → nat) l n :
  fold_left (λ acc x, acc + f x) l n = n + sum_list (f <$> l).
Proof. revert n. induction l as [|x l IH]; intros n; csimpl; [lia|]. rewrite IH. lia. Qed.

Lemma tuple_chunks (t : tuple) :
  Forall component_ok t →
  bytes_ok tuple_Bytes t ∧ chunks tuple_Bytes t = concat (component_chunks <$> t).
Proof.
  intros Ht. apply bytes_ok_intro.
  - intros D F. induction Ht as [|x t Hx Ht IH]; intros d; simpl; [done|].
    rewrite put_all_app. unfold mbind, M_bind; simpl.
    rewrite (bytes_ok_fill _ _ Hx). fold (component_chunks x).
    destruct (put_all _ d) as [[]]; auto.
  - simpl. rewrite (fold_left_add (λ c, @bytes_count _ c.(comp_bytes) c.(comp_val))). simpl.
    induction Ht as [|x t [] Ht IH]; csimpl; [done|]. rewrite length_app.
    unfold component_chunks at 1. lia.
  - simpl. rewrite (fold_left_add (λ c, @bytes_size _ c.(comp_bytes) c.(comp_val))). simpl.
    induction Ht as [|x t [] Ht IH]; csimpl; [done|].
    rewrite concat_app, length_app. unfold component_chunks at 1. lia.
Qed.

Lemma tuple2_chunks {A B} (BA : Bytes A) (BB : Bytes B) a b :
  bytes_ok BA a → bytes_ok BB b →
  bytes_ok (tuple2_Bytes BA BB) (a, b) ∧
  chunks (tuple2_Bytes BA BB) (a, b) = chunks BA a ++ chunks BB b.
Proof.
  intros Ha Hb. destruct (tuple_chunks [@Component _ BA a; @Component _ BB b]) as [[Hf Hc Hs] Hcs].
  { by rewrite !Forall_cons, Forall_nil. }
  assert (chunks (tuple2_Bytes BA BB) (a, b)
    = chunks tuple_Bytes [@Component _ BA a; @Component _ BB b]) as He by done.
  split; [by split; rewrite He|]. rewrite He, Hcs. cbn. by rewrite app_nil_r.
Qed.

Lemma tuple3_chunks {A B C} (BA : Bytes A) (BB : Bytes B) (BC : Bytes C) a b c :
  bytes_ok BA a → bytes_ok BB b → bytes_ok BC c →
  bytes_ok (tuple3_Bytes BA BB BC) (a, b, c) ∧
  chunks (tuple3_Bytes BA BB BC) (a, b, c) = chunks BA a ++ chunks BB b ++ chunks BC c.
Proof.
  intros Ha Hb Hc0.
  destruct (tuple_chunks [@Component _ BA a; @Component _ BB b; @Component _ BC c]) as [[Hf Hc Hs] Hcs].
  { by rewrite !Forall_cons, Forall_nil. }
  assert (chunks (tuple3_Bytes BA BB BC) (a, b, c)
    = chunks tuple_Bytes [@Component _ BA a; @Component _ BB b; @Component _ BC c]) as He by done.
  split; [by split; rewrite He|]. rewrite He, Hcs. cbn. by rewrite app_nil_r.
Qed.

(** [x] is lawful and puts the chunks [cs], in this order. *)
Definition puts {T} (B : Bytes T) (x : T) (cs : list (list byte)) : Prop :=
  bytes_ok B x ∧ chunks B x = cs.

(** Plain bytes are one chunk, and none when there are no bytes. *)
Definition plain (bs : list byte) : list (list byte) := if decide (bs = []) then [] else [bs].

Lemma chunks_plain {T} (B : Bytes T) x bs :
  @fill_bytes T B _ collect x = @fill_bytes _ u8_slice_Bytes _ collect bs → chunks B x = plain bs.
Proof.
  intros Hf. unfold chunks, plain. rewrite Hf. cbn. by destruct (decide (bs = [])).
Qed.

Lemma u8_array_plain N (a : vec byte N) : chunks (u8_array_Bytes N) a = plain (vec_to_list a).
Proof. unfold chunks, plain. destruct N; by inv_vec a. Qed.

(** C32: every implementation of [Bytes] in the crate is lawful (whatever the visitor,
[fill_bytes] puts exactly [count] chunks, of total length [size]) and puts the chunks
one expects, in order: [()] and [None] none; a slice of bytes, what [as_ref] gives, an
OS string and an array of bytes their bytes as one chunk, or none when they are empty;
a C string its content and the terminator as one chunk; a POD its bytes; a pointer,
[Some] and either side of an [Either] those of the value inside; a slice of values and
a tuple those of all their parts, from the first to the last. *)
Theorem bytes_implementations_lawful :
  (∀ x, puts unit_Bytes x []) ∧
  (∀ l, puts u8_slice_Bytes l (plain l)) ∧
  (∀ T (as_bytes : T → list byte) t, puts (cont_Bytes as_bytes) t (plain (as_bytes t))) ∧
  (∀ s, puts OsStr_Bytes s (plain s)) ∧
  (∀ s, puts OsString_Bytes s (plain s)) ∧
  (∀ N (a : vec byte N), puts (u8_array_Bytes N) a (plain (vec_to_list a))) ∧
  (∀ s, puts CStr_Bytes s [s.(cstr_content) ++ [Byte.x00]]) ∧
  (∀ T (ZC : Zerocopy) (P : Pod T) (p : POD T), puts POD_Bytes p [zc_as_bytes p.(pod_inner)]) ∧
  (∀ R (B : Bytes R) x, bytes_ok B x → puts (pointer_Bytes B) x (chunks B x)) ∧
  (∀ T (B : Bytes T), puts (option_Bytes B) None []) ∧
  (∀ T (B : Bytes T) x, bytes_ok B x → puts (option_Bytes B) (Some x) (chunks B x)) ∧
  (∀ L R (BL : Bytes L) (BR : Bytes R) l,
     bytes_ok BL l → puts (either_Bytes BL BR) (inl l) (chunks BL l)) ∧
  (∀ L R (BL : Bytes L) (BR : Bytes R) r,
     bytes_ok BR r → puts (either_Bytes BL BR) (inr r) (chunks BR r)) ∧
  (∀ R (B : Bytes R) l, Forall (bytes_ok B) l →
     puts (slice_Bytes B) l (concat (chunks B <$> l))) ∧
  (∀ t, Forall component_ok t → puts tuple_Bytes t (concat (component_chunks <$> t))).
Proof.
  repeat split_and?; intros.
  - apply unit_chunks.
  - split; [apply u8_slice_chunks|by apply chunks_plain].
  - split; [apply cont_chunks|by apply chunks_plain].
  - split; [apply (cont_chunks (λ s, s))|by apply chunks_plain].
  - split; [apply (cont_chunks (λ s, s))|by apply chunks_plain].
  - split; [apply u8_array_chunks|apply u8_array_plain].
  - split; [apply CStr_chunks|done].
  - apply POD_chunks.
  - by apply pointer_chunks.
  - by apply (option_chunks B None).
  - by apply (option_chunks B (Some x)); intros ? [= <-].
  - by apply (either_chunks BL BR (inl l)).
  - by apply (either_chunks BL BR (inr r)).
  - by apply slice_chunks.
  - by apply tuple_chunks.
Qed.

(** Filling a scatter list that has room: the slots hold the chunks. *)
Lemma FillWriteBytes_put_all cs done n :
  length cs ≤ n →
  @put_all _ FillWriteBytes_put cs
    {| fwb_vec := (Some <$> done) ++ replicate n None; fwb_offset := length done |} =
  (Ok tt, {| fwb_vec := (Some <$> done ++ cs) ++ replicate (n - length cs) None;
             fwb_offset := length done + length cs |}).
Proof.
  revert done n. induction cs as [|c cs IH]; intros done n Hn; simpl.
  - by rewrite app_nil_r, Nat.sub_0_r, Nat.add_0_r.
  - destruct n as [|n]; [simpl in Hn; lia|].
    unfold mbind, M_bind. unfold put_chunk at 1, FillWriteBytes_put at 1; simpl.
    rewrite length_app, length_fmap; simpl.
    rewrite (proj2 (Nat.ltb_lt _ _)) by lia.
    rewrite insert_app_r_alt by (by rewrite length_fmap).
    rewrite length_fmap, Nat.sub_diag; simpl.
    rewrite cons_middle, app_assoc.
    replace ((Some <$> done) ++ [Some c]) with (Some <$> (done ++ [c])) by (by rewrite fmap_app).
    replace (S (length done)) with (length (done ++ [c])) by (rewrite length_app; simpl; lia).
    rewrite IH by (simpl in Hn; lia). rewrite length_app, <- app_assoc. simpl.
    do 2 f_equal. lia.
Qed.

Lemma slice_assume_init_Some {E} cs : slice_assume_init (E:=E) (Some <$> cs) = Ok cs.
Proof.
  unfold slice_assume_init.
  assert (mapM id (Some <$> cs) = Some cs) as ->; [|done].
  apply mapM_Some, Forall2_fmap_l, Forall_Forall2_diag, Forall_true. by intros.
Qed.

(** C33: [write_bytes] on a lawful value never panics and never reads an
uninitialised slot.  It performs one vectored write with all the chunks, in
order, and nothing when there is none; it fails exactly when that write fails
or accepts fewer bytes than the value has. *)
Theorem write_bytes_spec {W T} `{IoWrite W} (B : Bytes T) (x : T) (w : W) :
  bytes_ok B x →
  write_bytes B x w =
    if bytes_count x =? 0 then (Ok tt, w)
    else match write_vectored (chunks B x) w with
    | (Ok written, w') =>
        (if written <? length (content B x)
         then Err (Custom Other "written data is too short") else Ok tt, w')
    | (Err e, w') => (Err e, w')
    | (Panic why, w') => (Panic why, w')
    | (UB, w') => (UB, w')
    end.
Proof.
  intros Hx. unfold write_bytes. destruct (bytes_count x =? 0); [done|].
  rewrite (bytes_ok_fill _ _ Hx), (bytes_ok_count _ _ Hx).
  pose proof (FillWriteBytes_put_all (chunks B x) [] (length (chunks B x))) as Hp.
  simpl in Hp. rewrite Hp, Nat.sub_diag by done. simpl. rewrite app_nil_r.
  unfold mbind, M_bind, lift; simpl. rewrite slice_assume_init_Some.
  destruct (write_vectored (chunks B x) w) as [[written|e|why|] w']; try done.
  rewrite (bytes_ok_size _ _ Hx). unfold content. by destruct (_ <? _).
Qed.

(** [impl Write for Vec<u8>]: accepts everything. *)
Definition Vec_write : IoWrite (list byte) := λ cs w, (Ok (length (concat cs)), w ++ concat cs).

Lemma write_bytes_spec_witness :
  bytes_ok u8_slice_Bytes [Byte.x66; Byte.x6f] ∧
  @write_bytes _ _ Vec_write u8_slice_Bytes [Byte.x66; Byte.x6f] [Byte.x61]
  = (Ok tt, [Byte.x61; Byte.x66; Byte.x6f]).
Proof.
  split; [apply u8_slice_chunks|].
  rewrite (@write_bytes_spec _ _ Vec_write u8_slice_Bytes) by apply u8_slice_chunks.
  reflexivity.
Defined.
