(* ===== verification/Init.v ===== *)
(** * Negotiation with the kernel: [src/init.rs]

The configuration of a session, the flags, the three versions of the INIT
request and of its reply, and [negotiate], which merges what the filesystem
asks for with what the kernel offers. *)

From S2P Require Import Prelude Layout Kernel Crates.
Local Open Scope Z_scope.

Definition FILESYSTEM_MAX_STACK_DEPTH : u32 := 2.
Definition MIN_MAX_WRITE : u32 :=
  FUSE_MIN_READ_BUFFER - Z.of_nat (size_of fuse_in_header + size_of fuse_write_in).
Definition DEFAULT_MAX_PAGES_PER_REQ : u16 := 32.
Definition MAX_MAX_PAGES : u16 := 256.

(** ** [KernelFlags] *)

Definition KernelFlags := u64.

(** The constants of the [bitflags!] declaration, in order. *)
Definition KernelFlags_flags : list KernelFlags :=
  [ FUSE_ASYNC_READ; FUSE_ATOMIC_O_TRUNC; FUSE_AUTO_INVAL_DATA; FUSE_ASYNC_DIO;
    FUSE_PARALLEL_DIROPS; FUSE_HANDLE_KILLPRIV; FUSE_POSIX_LOCKS; FUSE_FLOCK_LOCKS;
    FUSE_EXPORT_SUPPORT; FUSE_DONT_MASK; FUSE_WRITEBACK_CACHE; FUSE_POSIX_ACL;
    FUSE_DO_READDIRPLUS; FUSE_READDIRPLUS_AUTO; FUSE_NO_OPEN_SUPPORT; FUSE_NO_OPENDIR_SUPPORT;
    FUSE_CACHE_SYMLINKS; FUSE_EXPLICIT_INVAL_DATA; FUSE_SPLICE_READ; FUSE_SPLICE_WRITE;
    FUSE_SPLICE_MOVE; FUSE_BIG_WRITES; FUSE_ABORT_ERROR; FUSE_MAX_PAGES;
    FUSE_HANDLE_KILLPRIV_V2; FUSE_SETXATTR_EXT; FUSE_INIT_EXT; FUSE_SECURITY_CTX;
    FUSE_CREATE_SUPP_GROUP; FUSE_HAS_EXPIRE_ONLY; FUSE_DIRECT_IO_ALLOW_MMAP; FUSE_PASSTHROUGH;
    FUSE_NO_EXPORT_SUPPORT; FUSE_HAS_RESEND; FUSE_ALLOW_IDMAP; FUSE_OVER_IO_URING;
    FUSE_REQUEST_TIMEOUT ].

(** ** [KernelConfig] *)

Record KernelConfig := {
  major : u32;
  minor : u32;
  max_readahead : u32;
  max_background : u16;
  congestion_threshold : u16;
  max_write : u32;
  time_gran : u32;
  max_pages : u16;
  max_stack_depth : u32;
  request_timeout : u16;
  flags : KernelFlags;
}.

(** ** INIT messages *)

Inductive InitIn :=
  | InCompat3 (arg : fuse_init_in_out_compat_3)
  | InCompat35 (arg : fuse_init_in_compat_35)
  | InCurrent (arg : fuse_init_in).

Inductive InitOut :=
  | OutCompat3 (out : fuse_init_in_out_compat_3)
  | OutCompat22 (out : fuse_init_out_compat_22)
  | OutCurrent (out : fuse_init_out).

Inductive NegotiationError := TooLargeProtocolVersion | TooSmallProtocolVersion.

Definition u32_MAX : u32 := 2 ^ 32 - 1.

Section init.
Context `{BF : Bitflags} `{ZC : Zerocopy} `{RX : Rustix} `{PR : Profile}.

Definition KernelFlags_new : KernelFlags :=
  bf_union (bf_union (bf_union (bf_union bf_empty
    FUSE_ATOMIC_O_TRUNC) FUSE_AUTO_INVAL_DATA) FUSE_NO_OPEN_SUPPORT) FUSE_NO_OPENDIR_SUPPORT.

Definition READ_ONLY : KernelFlags :=
  bf_union (bf_union (bf_union (bf_union (bf_union (bf_union (bf_union (bf_union (bf_union
    (bf_union bf_empty FUSE_SPLICE_READ) FUSE_SPLICE_WRITE) FUSE_SPLICE_MOVE) FUSE_BIG_WRITES)
    FUSE_MAX_PAGES) FUSE_ABORT_ERROR) FUSE_SETXATTR_EXT) FUSE_INIT_EXT) FUSE_HAS_EXPIRE_ONLY)
    FUSE_HAS_RESEND.

Definition KernelFlags_from_bits_truncate (bits : u64) : KernelFlags :=
  bf_from_bits_truncate KernelFlags_flags bits.

Definition KernelConfig_new : KernelConfig := {|
  major := FUSE_KERNEL_VERSION;
  minor := FUSE_KERNEL_MINOR_VERSION;
  max_readahead := u32_MAX;
  max_background := 0;
  congestion_threshold := 0;
  max_write := MIN_MAX_WRITE;
  max_pages := DEFAULT_MAX_PAGES_PER_REQ;
  time_gran := 1;
  max_stack_depth := 0;
  request_timeout := 0;
  flags := KernelFlags_new;
|}.

Definition to_out (self : KernelConfig) : InitOut :=
  if self.(minor) <=? 3 then
    OutCompat3 {|
      init_in_out_compat_3_major := self.(major);
      init_in_out_compat_3_minor := self.(minor);
    |}
  else if self.(minor) <=? 22 then
    OutCompat22 {|
      init_out_compat_22_major := self.(major);
      init_out_compat_22_minor := self.(minor);
      init_out_compat_22_max_readahead := self.(max_readahead);
      init_out_compat_22_flags := wrap_u 32 (Z.land self.(flags) u32_MAX);
      init_out_compat_22_max_background := self.(max_background);
      init_out_compat_22_congestion_threshold := self.(congestion_threshold);
      init_out_compat_22_max_write := self.(max_write);
    |}
  else
    OutCurrent {|
      init_out_major := self.(major);
      init_out_minor := self.(minor);
      init_out_max_readahead := self.(max_readahead);
      init_out_flags := wrap_u 32 (Z.land self.(flags) u32_MAX);
      init_out_max_background := self.(max_background);
      init_out_congestion_threshold := self.(congestion_threshold);
      init_out_max_write := self.(max_write);
      init_out_time_gran := self.(time_gran);
      init_out_max_pages := self.(max_pages);
      init_out_map_alignment := 0;
      init_out_flags2 :=
        if bf_contains self.(flags) FUSE_INIT_EXT
        then wrap_u 32 (Z.land (Z.shiftr self.(flags) 32) u32_MAX) else 0;
      init_out_max_stack_depth := self.(max_stack_depth);
      init_out_request_timeout := self.(request_timeout);
      init_out_unused := replicate 11 0;
    |}.

Definition InitIn_from_bytes (addr : Z) (bytes : list byte) : option InitIn :=
  '(arg, _) ← zc_try_ref_from_prefix (T:=fuse_init_in_out_compat_3) addr bytes;
  if arg.(init_in_out_compat_3_minor) <=? 3 then Some (InCompat3 arg)
  else if arg.(init_in_out_compat_3_minor) <=? 35 then
    '(arg, _) ← zc_try_ref_from_prefix (T:=fuse_init_in_compat_35) addr bytes;
    Some (InCompat35 arg)
  else
    '(arg, _) ← zc_try_ref_from_prefix (T:=fuse_init_in) addr bytes;
    Some (InCurrent arg).

Definition protocol_version (i : InitIn) : u32 * u32 :=
  match i with
  | InCompat3 arg => (arg.(init_in_out_compat_3_major), arg.(init_in_out_compat_3_minor))
  | InCompat35 arg => (arg.(init_in_compat_35_major), arg.(init_in_compat_35_minor))
  | InCurrent arg => (arg.(init_in_major), arg.(init_in_minor))
  end.

Definition InitIn_flags (i : InitIn) : KernelFlags :=
  match i with
  | InCompat3 _ => bf_empty
  | InCompat35 arg => KernelFlags_from_bits_truncate arg.(init_in_compat_35_flags)
  | InCurrent arg =>
      KernelFlags_from_bits_truncate
        (Z.lor arg.(init_in_flags) (wrap_u 64 (Z.shiftl arg.(init_in_flags2) 32)))
  end.

Definition InitIn_max_readahead (i : InitIn) : u32 :=
  match i with
  | InCompat35 arg => arg.(init_in_compat_35_max_readahead)
  | InCurrent arg => arg.(init_in_max_readahead)
  | _ => 0
  end.

Definition InitOut_to_bytes (o : InitOut) : list byte :=
  match o with
  | OutCompat3 out => zc_as_bytes out
  | OutCompat22 out => zc_as_bytes out
  | OutCurrent out => zc_as_bytes out
  end.

(** [u32::ilog10], for an argument that is not zero: at most nine divisions. *)
Fixpoint ilog10_aux (fuel : nat) (n : u32) : Z :=
  match fuel with
  | O => 0
  | S fuel => if n <? 10 then 0 else 1 + ilog10_aux fuel (n / 10)
  end.
Definition ilog10 (n : u32) : Z := ilog10_aux 10 n.

(** Assignments to the fields of [&mut KernelConfig]. *)
Definition set_version M m c := {| major := M; minor := m; max_readahead := c.(max_readahead);
  max_background := c.(max_background); congestion_threshold := c.(congestion_threshold);
  max_write := c.(max_write); time_gran := c.(time_gran); max_pages := c.(max_pages);
  max_stack_depth := c.(max_stack_depth); request_timeout := c.(request_timeout);
  flags := c.(flags) |}.
Definition set_flags f c := {| major := c.(major); minor := c.(minor);
  max_readahead := c.(max_readahead);
  max_background := c.(max_background); congestion_threshold := c.(congestion_threshold);
  max_write := c.(max_write); time_gran := c.(time_gran); max_pages := c.(max_pages);
  max_stack_depth := c.(max_stack_depth); request_timeout := c.(request_timeout);
  flags := f |}.
Definition set_max_readahead r c := {| major := c.(major); minor := c.(minor);
  max_readahead := r;
  max_background := c.(max_background); congestion_threshold := c.(congestion_threshold);
  max_write := c.(max_write); time_gran := c.(time_gran); max_pages := c.(max_pages);
  max_stack_depth := c.(max_stack_depth); request_timeout := c.(request_timeout);
  flags := c.(flags) |}.
Definition set_max_write w c := {| major := c.(major); minor := c.(minor);
  max_readahead := c.(max_readahead);
  max_background := c.(max_background); congestion_threshold := c.(congestion_threshold);
  max_write := w; time_gran := c.(time_gran); max_pages := c.(max_pages);
  max_stack_depth := c.(max_stack_depth); request_timeout := c.(request_timeout);
  flags := c.(flags) |}.
Definition set_background b t c := {| major := c.(major); minor := c.(minor);
  max_readahead := c.(max_readahead); max_background := b; congestion_threshold := t;
  max_write := c.(max_write); time_gran := c.(time_gran); max_pages := c.(max_pages);
  max_stack_depth := c.(max_stack_depth); request_timeout := c.(request_timeout);
  flags := c.(flags) |}.
Definition set_time_gran g c := {| major := c.(major); minor := c.(minor);
  max_readahead := c.(max_readahead);
  max_background := c.(max_background); congestion_threshold := c.(congestion_threshold);
  max_write := c.(max_write); time_gran := g; max_pages := c.(max_pages);
  max_stack_depth := c.(max_stack_depth); request_timeout := c.(request_timeout);
  flags := c.(flags) |}.
Definition set_max_pages p c := {| major := c.(major); minor := c.(minor);
  max_readahead := c.(max_readahead);
  max_background := c.(max_background); congestion_threshold := c.(congestion_threshold);
  max_write := c.(max_write); time_gran := c.(time_gran); max_pages := p;
  max_stack_depth := c.(max_stack_depth); request_timeout := c.(request_timeout);
  flags := c.(flags) |}.
Definition set_stack f d c := {| major := c.(major); minor := c.(minor);
  max_readahead := c.(max_readahead);
  max_background := c.(max_background); congestion_threshold := c.(congestion_threshold);
  max_write := c.(max_write); time_gran := c.(time_gran); max_pages := c.(max_pages);
  max_stack_depth := d; request_timeout := c.(request_timeout); flags := f |}.
Definition set_request_timeout t c := {| major := c.(major); minor := c.(minor);
  max_readahead := c.(max_readahead);
  max_background := c.(max_background); congestion_threshold := c.(congestion_threshold);
  max_write := c.(max_write); time_gran := c.(time_gran); max_pages := c.(max_pages);
  max_stack_depth := c.(max_stack_depth); request_timeout := t; flags := c.(flags) |}.

Definition is_compat3 (i : InitIn) : bool := match i with InCompat3 _ => true | _ => false end.

Definition negotiate (init_in : InitIn) : M KernelConfig NegotiationError unit :=
  let (major', minor') := protocol_version init_in in
  if 7 <? major' then lift (Err TooLargeProtocolVersion)
  else if major' <? 7 then lift (Err TooSmallProtocolVersion)
  else
  _ ← modify (λ config, set_version major' (Z.min config.(minor) minor') config);
  if is_compat3 init_in then mret tt
  else
  (* flags *)
  _ ← modify (λ config, set_flags
        (bf_intersection (bf_union config.(flags) READ_ONLY) (InitIn_flags init_in)) config);
  (* max_readahead *)
  _ ← modify (λ config, set_max_readahead
        (Z.min config.(max_readahead) (InitIn_max_readahead init_in)) config);
  _ ← modify (λ config, set_max_readahead (Z.max config.(max_readahead) 4096) config);
  (* max_write *)
  _ ← modify (λ config, set_max_write (Z.max config.(max_write) MIN_MAX_WRITE) config);
  limit ← lift (arith_u 64 (MAX_MAX_PAGES * page_size));
  _ ← modify (λ config, set_max_write (Z.min config.(max_write) (wrap_u 32 limit)) config);
  (* max_background, congestion_threshold *)
  config ← get;
  _ ← (if 13 <=? config.(minor) then
         _ ← (if config.(congestion_threshold) =? 0 then
                product ← lift (arith_u 16 (config.(max_background) * 3));
                modify (set_background config.(max_background) (product / 4))
              else mret tt);
         modify (λ config, set_background config.(max_background)
           (Z.min config.(congestion_threshold) config.(max_background)) config)
       else modify (set_background 0 0));
  (* time_gran *)
  _ ← (if 13 <=? config.(minor) then
         gran ← lift (arith_u 32 (10 ^ ilog10 (Z.max config.(time_gran) 1)));
         _ ← modify (set_time_gran gran);
         modify (λ config, set_time_gran (Z.min config.(time_gran) 1000000000) config)
       else modify (set_time_gran 0));
  (* max_pages *)
  _ ← (if (28 <=? config.(minor)) && bf_contains config.(flags) FUSE_MAX_PAGES then
         _ ← modify (λ config, set_max_pages (Z.max config.(max_pages) 1) config);
         modify (λ config, set_max_pages (Z.min config.(max_pages) MAX_MAX_PAGES) config)
       else modify (set_max_pages DEFAULT_MAX_PAGES_PER_REQ));
  (* max_stack_depth *)
  _ ← (if (40 <=? config.(minor)) && bf_contains config.(flags) FUSE_PASSTHROUGH
           && negb (bf_contains config.(flags) FUSE_WRITEBACK_CACHE) then
         modify (λ config, set_stack config.(flags)
           (Z.min config.(max_stack_depth) FILESYSTEM_MAX_STACK_DEPTH) config)
       else
         modify (λ config, set_stack (bf_remove config.(flags) FUSE_PASSTHROUGH) 0 config));
  modify (set_request_timeout 0).

End init.

(** ** Well-formed configurations and requests: every field fits its type *)

Record config_wf (c : KernelConfig) : Prop := {
  wf_major : is_u 32 c.(major);
  wf_minor : is_u 32 c.(minor);
  wf_max_readahead : is_u 32 c.(max_readahead);
  wf_max_background : is_u 16 c.(max_background);
  wf_congestion_threshold : is_u 16 c.(congestion_threshold);
  wf_max_write : is_u 32 c.(max_write);
  wf_time_gran : is_u 32 c.(time_gran);
  wf_max_pages : is_u 16 c.(max_pages);
  wf_max_stack_depth : is_u 32 c.(max_stack_depth);
  wf_request_timeout : is_u 16 c.(request_timeout);
  wf_flags : is_u 64 c.(flags);
}.

Definition init_in_wf (i : InitIn) : Prop :=
  match i with
  | InCompat3 arg => pod_wf arg
  | InCompat35 arg => pod_wf arg
  | InCurrent arg => pod_wf arg
  end.

(** ** Integer logarithm *)

Lemma ilog10_aux_spec fuel n :
  1 ≤ n < 10 ^ Z.of_nat fuel →
  0 ≤ ilog10_aux fuel n < Z.of_nat fuel ∧
  10 ^ ilog10_aux fuel n ≤ n < 10 ^ (ilog10_aux fuel n + 1).
Proof.
  revert n. induction fuel as [|fuel IH]; intros n Hn; [simpl in Hn; lia|].
  rewrite Nat2Z.inj_succ, Z.pow_succ_r in Hn by lia. simpl ilog10_aux.
  destruct (Z.ltb_spec n 10); [rewrite Z.pow_0_r, Z.add_0_l, Z.pow_1_r; lia|].
  pose proof (Z.div_mod n 10 ltac:(lia)). pose proof (Z.mod_pos_bound n 10 ltac:(lia)).
  destruct (IH (n / 10)) as [Hr [Hl Hh]].
  { split; [apply Z.div_le_lower_bound; lia|apply Z.div_lt_upper_bound; lia]. }
  set (k := ilog10_aux fuel (n / 10)) in *.
  replace (1 + k) with (Z.succ k) by lia. replace (Z.succ k + 1) with (Z.succ (k + 1)) by lia.
  rewrite !Z.pow_succ_r by lia. split; [lia|]. nia.
Qed.

Lemma ilog10_spec n :
  1 ≤ n < 2 ^ 32 →
  0 ≤ ilog10 n ≤ 9 ∧ 10 ^ ilog10 n ≤ n < 10 ^ (ilog10 n + 1).
Proof.
  intros Hn. destruct (ilog10_aux_spec 10 n) as [H1 H2]; [split; [lia|]|].
  - change (10 ^ Z.of_nat 10) with 10000000000. lia.
  - unfold ilog10. split; [lia|done].
Qed.

Lemma ilog10_pow k : 0 ≤ k ≤ 9 → ilog10 (10 ^ k) = k.
Proof.
  intros. assert (k = 0 ∨ k = 1 ∨ k = 2 ∨ k = 3 ∨ k = 4 ∨ k = 5 ∨ k = 6 ∨ k = 7 ∨ k = 8 ∨ k = 9)
    as Hk by lia.
  by destruct Hk as [->|[->|[->|[->|[->|[->|[->|[->|[->| ->]]]]]]]]].
Qed.

#[local] Arguments Z.testbit : simpl never.

Section negotiation.
Context `{BF : Bitflags} `{ZC : Zerocopy} `{RX : Rustix} `{PR : Profile}.
Context {HBF : BitflagsSpec} {HRX : RustixSpec}.

(** ** The result of a negotiation, field by field *)

Definition negotiated_minor (i : InitIn) (c : KernelConfig) : u32 :=
  Z.min c.(minor) (protocol_version i).2.

Definition offered_flags (i : InitIn) (c : KernelConfig) : KernelFlags :=
  Z.land (Z.lor c.(flags) READ_ONLY) (InitIn_flags i).

Definition has_flag (f flag : KernelFlags) : bool := Z.land f flag =? flag.

Definition passthrough_kept (i : InitIn) (c : KernelConfig) : bool :=
  (40 <=? negotiated_minor i c) && has_flag (offered_flags i c) FUSE_PASSTHROUGH
  && negb (has_flag (offered_flags i c) FUSE_WRITEBACK_CACHE).

(** The default threshold: three quarters of [max_background], computed in 16
bits. *)
Definition default_threshold (c : KernelConfig) : u16 := wrap_u 16 (c.(max_background) * 3) / 4.

Definition negotiated (i : InitIn) (c : KernelConfig) : KernelConfig :=
  let m := negotiated_minor i c in
  if is_compat3 i then set_version 7 m c
  else {|
    major := 7;
    minor := m;
    max_readahead := Z.max (Z.min c.(max_readahead) (InitIn_max_readahead i)) 4096;
    max_background := if 13 <=? m then c.(max_background) else 0;
    congestion_threshold :=
      if 13 <=? m then
        Z.min (if c.(congestion_threshold) =? 0 then default_threshold c
               else c.(congestion_threshold)) c.(max_background)
      else 0;
    max_write := Z.min (Z.max c.(max_write) MIN_MAX_WRITE) (MAX_MAX_PAGES * page_size);
    time_gran := if 13 <=? m then 10 ^ ilog10 (Z.max c.(time_gran) 1) else 0;
    max_pages :=
      if (28 <=? m) && has_flag (offered_flags i c) FUSE_MAX_PAGES
      then Z.min (Z.max c.(max_pages) 1) MAX_MAX_PAGES else DEFAULT_MAX_PAGES_PER_REQ;
    max_stack_depth :=
      if passthrough_kept i c then Z.min c.(max_stack_depth) FILESYSTEM_MAX_STACK_DEPTH else 0;
    request_timeout := 0;
    flags :=
      if passthrough_kept i c then offered_flags i c
      else Z.ldiff (offered_flags i c) FUSE_PASSTHROUGH;
  |}.

(** Where the multiplication of the default threshold does not panic. *)
Definition background_ok (i : InitIn) (c : KernelConfig) : Prop :=
  overflow_checks = false ∨ is_compat3 i = true ∨ negotiated_minor i c < 13 ∨
  c.(congestion_threshold) ≠ 0 ∨ c.(max_background) * 3 < 2 ^ 16.

Lemma page_limit_u32 : is_u 32 (MAX_MAX_PAGES * page_size).
Proof. pose proof page_size_bounds. unfold is_u, MAX_MAX_PAGES. lia. Qed.

Lemma time_gran_range c :
  config_wf c → 1 ≤ 10 ^ ilog10 (Z.max c.(time_gran) 1) ≤ 1000000000 ∧
                10 ^ ilog10 (Z.max c.(time_gran) 1) ≤ Z.max c.(time_gran) 1.
Proof.
  intros Hc. destruct (wf_time_gran _ Hc).
  destruct (ilog10_spec (Z.max c.(time_gran) 1)) as [[Hk Hk'] Hb]; [lia|].
  pose proof (Z.pow_le_mono_r 10 _ _ ltac:(lia) Hk').
  pose proof (Z.pow_pos_nonneg 10 _ ltac:(lia) Hk). lia.
Qed.

Lemma arith_threshold i c :
  config_wf c → background_ok i c → is_compat3 i = false → 13 ≤ negotiated_minor i c →
  c.(congestion_threshold) = 0 →
  arith_u (E:=NegotiationError) 16 (c.(max_background) * 3) =
    Ok (wrap_u 16 (c.(max_background) * 3)).
Proof.
  intros Hc Hb Hi Hm Ht. destruct (wf_max_background _ Hc). unfold arith_u.
  rewrite (proj2 (Z.leb_le _ _)) by lia. simpl.
  destruct (Z.ltb_spec (c.(max_background) * 3) (2 ^ 16)).
  - unfold wrap_u. by rewrite Z.mod_small by lia.
  - destruct Hb as [->|[?|[?|[?|?]]]]; [done|congruence|lia..].
Qed.

Lemma negotiate_negotiated i c :
  config_wf c → (protocol_version i).1 = 7 → background_ok i c →
  negotiate i c = (Ok tt, negotiated i c).
Proof.
  intros Hc Hmaj Hb. unfold negotiate, negotiated.
  destruct (protocol_version i) as [M m] eqn:Hv; simpl in Hmaj; subst M.
  assert (negotiated_minor i c = Z.min c.(minor) m) as Hm
    by (unfold negotiated_minor; by rewrite Hv).
  change (7 <? 7) with false; cbv iota.
  unfold mbind, M_bind, modify, get, lift, mret, M_ret; simpl. rewrite <- Hm.
  destruct (is_compat3 i) eqn:Hi; [done|].
  rewrite arith_u_ok by (pose proof page_limit_u32; unfold is_u in *; lia). simpl.
  unfold wrap_u at 1. rewrite (Z.mod_small (MAX_MAX_PAGES * page_size)) by apply page_limit_u32.
  rewrite bf_intersection_spec, bf_union_spec, !bf_contains_spec.
  fold (offered_flags i c).
  fold (has_flag (offered_flags i c) FUSE_MAX_PAGES)
       (has_flag (offered_flags i c) FUSE_PASSTHROUGH)
       (has_flag (offered_flags i c) FUSE_WRITEBACK_CACHE).
  fold (passthrough_kept i c).
  pose proof (time_gran_range c Hc) as [Hg _].
  rewrite (arith_u_ok 32) by (unfold is_u; lia).
  destruct (Z.leb_spec 13 (negotiated_minor i c)) as [H13|H13];
    [destruct (Z.eqb_spec c.(congestion_threshold) 0) as [Ht|Ht]; simpl;
      [rewrite (arith_threshold i c) by done; simpl|]|];
    destruct (_ && has_flag _ FUSE_MAX_PAGES), (passthrough_kept i c); simpl;
    unfold set_request_timeout; simpl; rewrite ?bf_remove_spec;
    rewrite ?(Z.min_l (10 ^ _)) by lia; done.
Qed.

Lemma negotiate_background_panic i c :
  config_wf c → (protocol_version i).1 = 7 → ¬ background_ok i c →
  (negotiate i c).1 = Panic "arithmetic overflow".
Proof.
  intros Hc Hmaj Hb. unfold background_ok in Hb.
  assert (overflow_checks = true) as Ho by (destruct overflow_checks; tauto).
  assert (is_compat3 i = false) as Hi by (destruct (is_compat3 i); tauto).
  assert (13 ≤ negotiated_minor i c) as Hm by (apply Z.nlt_ge; tauto).
  assert (c.(congestion_threshold) = 0) as Ht by (destruct (decide (c.(congestion_threshold) = 0)); tauto).
  assert (2 ^ 16 ≤ c.(max_background) * 3) as Hm3 by (apply Z.nlt_ge; tauto).
  unfold negotiate. destruct (protocol_version i) as [M m] eqn:Hv; simpl in Hmaj; subst M.
  unfold negotiated_minor in Hm. rewrite Hv in Hm; simpl in Hm.
  change (7 <? 7) with false; cbv iota. unfold mbind, M_bind, modify, get, lift, mret, M_ret; simpl.
  rewrite Hi, arith_u_ok by (pose proof page_limit_u32; unfold is_u in *; lia). simpl.
  rewrite (proj2 (Z.leb_le _ _) Hm), Ht. simpl. unfold arith_u.
  rewrite (proj2 (Z.ltb_ge _ _) Hm3), andb_false_r, Ho. done.
Qed.

(** A negotiation that succeeds had the right major version and no overflow. *)
Lemma negotiate_ok_inv i c c' :
  config_wf c → negotiate i c = (Ok tt, c') →
  (protocol_version i).1 = 7 ∧ background_ok i c ∧ c' = negotiated i c.
Proof.
  intros Hc Hn. assert ((protocol_version i).1 = 7) as Hmaj.
  { unfold negotiate in Hn. destruct (protocol_version i) as [M m]; simpl.
    destruct (Z.ltb_spec 7 M); [discriminate|]. destruct (Z.ltb_spec M 7); [discriminate|]. lia. }
  assert (background_ok i c) as Hb.
  { apply dec_stable. intros Hnb. pose proof (negotiate_background_panic i c Hc Hmaj Hnb) as Hp.
    by rewrite Hn in Hp. }
  rewrite negotiate_negotiated in Hn by done. by injection Hn as <-.
Qed.

Lemma READ_ONLY_value : READ_ONLY = 0x88606003a0.
Proof. unfold READ_ONLY. rewrite !bf_union_spec, bf_empty_spec. reflexivity. Qed.

Lemma InitIn_flags_u i : is_u 64 (InitIn_flags i).
Proof.
  destruct i; simpl; unfold KernelFlags_from_bits_truncate;
    rewrite ?bf_from_bits_truncate_spec, ?bf_all_spec, ?bf_empty_spec; [done|..];
    by apply is_u_land.
Qed.

(** What both sides may rely on after a negotiation. *)
Record session_config (i : InitIn) (c c' : KernelConfig) : Prop := {
  sc_major : c'.(major) = 7;
  sc_minor : c'.(minor) = Z.min c.(minor) (protocol_version i).2;
  (* a flag is kept only if the kernel offers it and the filesystem asks for it
     or it is one of the read-only flags *)
  sc_flags : ∀ n, Z.testbit c'.(flags) n = true →
    Z.testbit (InitIn_flags i) n = true ∧
    (Z.testbit c.(flags) n = true ∨ Z.testbit READ_ONLY n = true);
  sc_read_only : ∀ n, Z.testbit (InitIn_flags i) n = true → Z.testbit READ_ONLY n = true →
    Z.testbit c'.(flags) n = true;
  (* what the filesystem wants, no more than the kernel asks for, but 4096 at least *)
  sc_readahead : 4096 ≤ c'.(max_readahead) ∧
    (4096 < c'.(max_readahead) →
       c'.(max_readahead) = Z.min c.(max_readahead) (InitIn_max_readahead i)) ∧
    (c'.(max_readahead) = 4096 →
       c.(max_readahead) ≤ 4096 ∨ InitIn_max_readahead i ≤ 4096);
  (* 256 pages, whether or not MAX_PAGES was negotiated *)
  sc_max_write : MIN_MAX_WRITE ≤ c'.(max_write) ≤ MAX_MAX_PAGES * page_size;
  sc_max_write_kept : MIN_MAX_WRITE ≤ c.(max_write) ≤ MAX_MAX_PAGES * page_size →
    c'.(max_write) = c.(max_write);
  sc_congestion : c'.(congestion_threshold) ≤ c'.(max_background);
  sc_background : c'.(max_background) = if 13 <=? c'.(minor) then c.(max_background) else 0;
  sc_time_gran : c'.(minor) < 13 ∧ c'.(time_gran) = 0 ∨
    13 ≤ c'.(minor) ∧ ∃ k, 0 ≤ k ≤ 9 ∧ c'.(time_gran) = 10 ^ k ∧
      10 ^ k ≤ Z.max c.(time_gran) 1 < 10 ^ (k + 1);
  (* chosen by the filesystem only if both sides agreed on MAX_PAGES *)
  sc_max_pages :
    if (28 <=? c'.(minor)) && has_flag c'.(flags) FUSE_MAX_PAGES
    then 1 ≤ c'.(max_pages) ≤ MAX_MAX_PAGES ∧
      (1 ≤ c.(max_pages) ≤ MAX_MAX_PAGES → c'.(max_pages) = c.(max_pages))
    else c'.(max_pages) = DEFAULT_MAX_PAGES_PER_REQ;
  sc_passthrough : has_flag c'.(flags) FUSE_PASSTHROUGH = true →
    40 ≤ c'.(minor) ∧ has_flag c'.(flags) FUSE_WRITEBACK_CACHE = false;
  sc_stack_depth : c'.(max_stack_depth) ≤ FILESYSTEM_MAX_STACK_DEPTH ∧
    (has_flag c'.(flags) FUSE_PASSTHROUGH = false → c'.(max_stack_depth) = 0);
  sc_wf : config_wf c';
}.

Lemma testbit_offered i c n :
  Z.testbit (offered_flags i c) n =
  (Z.testbit c.(flags) n || Z.testbit READ_ONLY n) && Z.testbit (InitIn_flags i) n.
Proof. unfold offered_flags. by rewrite Z.land_spec, Z.lor_spec. Qed.

Lemma ldiff_has_flag f flag : flag ≠ 0 → has_flag (Z.ldiff f flag) flag = false.
Proof.
  intros Hf. unfold has_flag. apply Z.eqb_neq.
  replace (Z.land (Z.ldiff f flag) flag) with 0; [done|]. symmetry.
  apply Z.bits_inj'. intros n Hn. rewrite Z.land_spec, Z.ldiff_spec, Z.bits_0.
  by destruct (Z.testbit f n), (Z.testbit flag n).
Qed.

Lemma negotiated_wf i c :
  config_wf c → init_in_wf i → (protocol_version i).1 = 7 → config_wf (negotiated i c).
Proof.
  intros Hc Hi Hmaj. pose proof page_limit_u32 as Hpl. pose proof (time_gran_range c Hc) as [Hg _].
  assert (is_u 32 (protocol_version i).2 ∧ is_u 32 (InitIn_max_readahead i)) as [Hm Hra].
  { destruct i as [[]|[]|[]]; simpl in Hi; simpl_pod_wf Hi; simpl; split; try apply Hi; done. }
  destruct Hc. unfold negotiated, negotiated_minor, set_version, default_threshold.
  assert (is_u 16 (wrap_u 16 (c.(max_background) * 3) / 4)).
  { destruct (wrap_u_is_u 16 (c.(max_background) * 3)); [lia|].
    split; [apply Z.div_pos; lia|]. apply Z.div_lt_upper_bound; lia. }
  assert (is_u 64 (offered_flags i c)) by (apply is_u_land; [lia|apply InitIn_flags_u]).
  destruct (is_compat3 i); [split; simpl; unfold is_u in *; lia|].
  assert (∀ x y : Z, is_u 16 x → is_u 16 y → is_u 16 (Z.min x y)) as Hmin16
    by (unfold is_u; intros; lia).
  split; simpl; repeat case_match; try apply Hmin16; try (apply is_u_ldiff; [lia|]); try done;
    unfold is_u, MAX_MAX_PAGES, DEFAULT_MAX_PAGES_PER_REQ, FILESYSTEM_MAX_STACK_DEPTH in *;
    try (change MIN_MAX_WRITE with 8112); lia.
Qed.

Lemma negotiated_flags_testbit i c n :
  is_compat3 i = false → 0 ≤ n →
  Z.testbit (negotiated i c).(flags) n =
  Z.testbit (offered_flags i c) n && (passthrough_kept i c || negb (n =? 37)).
Proof.
  intros Hi Hn. unfold negotiated. rewrite Hi. simpl.
  destruct (passthrough_kept i c); simpl; [by rewrite andb_true_r|].
  rewrite Z.ldiff_spec. unfold FUSE_PASSTHROUGH. rewrite Z.shiftl_1_l, Z.pow2_bits_eqb by lia.
  by rewrite (Z.eqb_sym 37).
Qed.

Lemma has_flag_testbit f k :
  0 ≤ k → has_flag f (Z.shiftl 1 k) = Z.testbit f k.
Proof.
  intros Hk. unfold has_flag. rewrite Z.shiftl_1_l. destruct (Z.testbit f k) eqn:Hb.
  - apply Z.eqb_eq, Z.bits_inj'. intros n Hn. rewrite Z.land_spec, Z.pow2_bits_eqb by lia.
    destruct (Z.eqb_spec k n); [subst; by rewrite Hb|by rewrite andb_false_r].
  - apply Z.eqb_neq. intros He. apply (f_equal (λ z, Z.testbit z k)) in He.
    rewrite Z.land_spec, Hb, Z.pow2_bits_true in He by lia. discriminate.
Qed.

Lemma negotiated_session_config i c :
  config_wf c → init_in_wf i → is_compat3 i = false → (protocol_version i).1 = 7 →
  session_config i c (negotiated i c).
Proof.
  intros Hc Hi Hn3 Hmaj.
  pose proof (negotiated_wf i c Hc Hi Hmaj) as Hwf.
  pose proof page_size_bounds as Hps. pose proof (wf_time_gran _ Hc) as Htg.
  assert (∀ n, Z.testbit (negotiated i c).(flags) n =
    Z.testbit (offered_flags i c) n && (passthrough_kept i c || negb (n =? 37))) as Hbits.
  { intros n. destruct (Z.ltb_spec n 0); [by rewrite !Z.testbit_neg_r|].
    by apply negotiated_flags_testbit. }
  assert (∀ k, 0 ≤ k → has_flag (negotiated i c).(flags) (Z.shiftl 1 k) =
    Z.testbit (offered_flags i c) k && (passthrough_kept i c || negb (k =? 37))) as Hflag.
  { intros k Hk. by rewrite has_flag_testbit, Hbits. }
  assert (has_flag (negotiated i c).(flags) FUSE_PASSTHROUGH = true → passthrough_kept i c = true) as Hpass.
  { unfold FUSE_PASSTHROUGH. rewrite Hflag by lia. simpl. rewrite orb_false_r. by intros []%andb_true_iff. }
  split; try done.
  - unfold negotiated. by rewrite Hn3.
  - unfold negotiated. by rewrite Hn3.
  - intros n. rewrite Hbits, testbit_offered.
    by intros [[[?|?]%orb_true_iff ?]%andb_true_iff _]%andb_true_iff; split; auto.
  - intros n Hk Hr. rewrite Hbits, testbit_offered, Hk, Hr, orb_true_r. simpl.
    destruct (Z.eqb_spec n 37) as [->|]; [|by rewrite orb_true_r].
    by rewrite READ_ONLY_value in Hr.
  - unfold negotiated. rewrite Hn3. simpl. lia.
  - unfold negotiated. rewrite Hn3. simpl.
    change MIN_MAX_WRITE with 8112. unfold MAX_MAX_PAGES. lia.
  - unfold negotiated. rewrite Hn3. simpl.
    change MIN_MAX_WRITE with 8112. unfold MAX_MAX_PAGES. lia.
  - unfold negotiated. rewrite Hn3. simpl. destruct (13 <=? _); lia.
  - unfold negotiated. rewrite Hn3. done.
  - unfold negotiated. rewrite Hn3. simpl. destruct (Z.leb_spec 13 (negotiated_minor i c)); [right|by left].
    destruct (ilog10_spec (Z.max c.(time_gran) 1)) as [Hk Hp]; [destruct Htg; lia|]. eauto.
  - unfold FUSE_MAX_PAGES. rewrite Hflag by lia. rewrite orb_true_r, andb_true_r.
    rewrite <- has_flag_testbit by lia. fold FUSE_MAX_PAGES.
    unfold negotiated, MAX_MAX_PAGES, DEFAULT_MAX_PAGES_PER_REQ. rewrite Hn3. simpl.
    destruct (_ && _); lia.
  - intros Hp. pose proof (Hpass Hp) as Hk. unfold FUSE_WRITEBACK_CACHE. rewrite Hflag, Hk, andb_true_r by lia.
    unfold passthrough_kept in Hk. apply andb_true_iff in Hk as [[Hm _]%andb_true_iff Hw].
    apply negb_true_iff in Hw. unfold FUSE_WRITEBACK_CACHE in Hw. rewrite has_flag_testbit in Hw by lia.
    split; [|done]. unfold negotiated. rewrite Hn3. simpl. by apply Z.leb_le.
  - assert ((negotiated i c).(max_stack_depth) = if passthrough_kept i c
      then Z.min c.(max_stack_depth) FILESYSTEM_MAX_STACK_DEPTH else 0) as ->.
    { unfold negotiated. by rewrite Hn3. }
    unfold FILESYSTEM_MAX_STACK_DEPTH. destruct (passthrough_kept i c) eqn:Hk; [|lia].
    split; [lia|]. unfold FUSE_PASSTHROUGH. rewrite Hflag, andb_true_r by lia.
    intros Hf. unfold passthrough_kept in Hk. apply andb_true_iff in Hk as [[_ Hk]%andb_true_iff _].
    unfold FUSE_PASSTHROUGH in Hk. rewrite has_flag_testbit, Hf in Hk by lia. discriminate.
Qed.


(** The documentation of [max_write] promises that without MAX_PAGES it is adjusted to
at most [DEFAULT_MAX_PAGES_PER_REQ] pages.  It is not: a larger value stays larger. *)
Theorem max_write_exceeds_pages i c c' :
  config_wf c → is_compat3 i = false → negotiate i c = (Ok tt, c') →
  DEFAULT_MAX_PAGES_PER_REQ * page_size < c.(max_write) →
  DEFAULT_MAX_PAGES_PER_REQ * page_size < c'.(max_write).
Proof.
  intros Hc Hn3 Hn Hw. destruct (negotiate_ok_inv _ _ _ Hc Hn) as (_ & _ & ->).
  pose proof page_size_bounds. unfold negotiated. rewrite Hn3. simpl.
  unfold DEFAULT_MAX_PAGES_PER_REQ, MAX_MAX_PAGES in *. lia.
Qed.

Lemma negotiate_too_large i c :
  7 < (protocol_version i).1 → negotiate i c = (Err TooLargeProtocolVersion, c).
Proof.
  intros Hv. unfold negotiate. destruct (protocol_version i) as [M m]; simpl in *.
  by rewrite (proj2 (Z.ltb_lt 7 M)) by lia.
Qed.

Lemma negotiate_too_small i c :
  (protocol_version i).1 < 7 → negotiate i c = (Err TooSmallProtocolVersion, c).
Proof.
  intros Hv. unfold negotiate. destruct (protocol_version i) as [M m]; simpl in *.
  by rewrite (proj2 (Z.ltb_ge 7 M)), (proj2 (Z.ltb_lt M 7)) by lia.
Qed.

(** C30: the outcome of a negotiation is decided by the kernel's major version:
larger or smaller than 7 is the matching error, with the configuration left
untouched; equal to 7 succeeds, unless the 16-bit product of the default
congestion threshold overflows in a build with overflow checks. *)
Theorem negotiate_outcome i c :
  config_wf c →
  match negotiate i c with
  | (Ok tt, c') => (protocol_version i).1 = 7 ∧ background_ok i c ∧ c'.(major) = 7 ∧
      c'.(minor) = Z.min c.(minor) (protocol_version i).2
  | (Err TooLargeProtocolVersion, c') => 7 < (protocol_version i).1 ∧ c' = c
  | (Err TooSmallProtocolVersion, c') => (protocol_version i).1 < 7 ∧ c' = c
  | (Panic why, _) => why = "arithmetic overflow" ∧ (protocol_version i).1 = 7 ∧ ¬ background_ok i c
  | (UB, _) => False
  end.
Proof.
  intros Hc. destruct (Z.lt_trichotomy (protocol_version i).1 7) as [Hv|[Hv|Hv]].
  - by rewrite negotiate_too_small.
  - destruct (decide (background_ok i c)) as [Hb|Hb].
    + rewrite negotiate_negotiated by done. repeat split; try done;
        unfold negotiated; by destruct (is_compat3 i).
    + pose proof (negotiate_background_panic i c Hc Hv Hb) as Hp.
      by destruct (negotiate i c) as [[[]|[]|?|] c']; simplify_eq/=.
  - by rewrite negotiate_too_large.
Qed.

Lemma negotiated_offered_again i c :
  is_compat3 i = false → offered_flags i (negotiated i c) = (negotiated i c).(flags).
Proof.
  intros Hi. apply Z.bits_inj'. intros n Hn. rewrite testbit_offered.
  rewrite negotiated_flags_testbit, testbit_offered by done.
  destruct (Z.testbit READ_ONLY n) eqn:Hr;
    [|by destruct (Z.testbit (flags c) n), (Z.testbit (InitIn_flags i) n),
        (passthrough_kept i c), (n =? 37)].
  assert ((n =? 37) = false) as ->.
  { apply Z.eqb_neq. intros ->. by rewrite READ_ONLY_value in Hr. }
  rewrite !orb_true_r. simpl. by rewrite andb_true_r.
Qed.

Lemma min_absorb a b : Z.min (Z.min a b) b = Z.min a b.
Proof. lia. Qed.

Lemma negotiated_passthrough_again i c :
  is_compat3 i = false → passthrough_kept i (negotiated i c) = passthrough_kept i c.
Proof.
  intros Hi. unfold passthrough_kept at 1. rewrite negotiated_offered_again by done.
  assert (negotiated_minor i (negotiated i c) = negotiated_minor i c) as ->.
  { unfold negotiated_minor, negotiated. rewrite Hi. simpl. unfold negotiated_minor. apply min_absorb. }
  unfold FUSE_PASSTHROUGH, FUSE_WRITEBACK_CACHE.
  rewrite !has_flag_testbit, !negotiated_flags_testbit by (done || lia). simpl.
  rewrite orb_true_r, andb_true_r, orb_false_r.
  unfold passthrough_kept, FUSE_PASSTHROUGH, FUSE_WRITEBACK_CACHE. rewrite !has_flag_testbit by lia.
  by destruct (40 <=? negotiated_minor i c), (Z.testbit (offered_flags i c) 37),
    (Z.testbit (offered_flags i c) 16).
Qed.

Lemma negotiated_threshold_again c :
  config_wf c →
  let t := if c.(congestion_threshold) =? 0 then default_threshold c else c.(congestion_threshold) in
  Z.min (if Z.min t c.(max_background) =? 0 then default_threshold c
         else Z.min t c.(max_background)) c.(max_background) = Z.min t c.(max_background).
Proof.
  intros Hc. pose proof (wf_max_background _ Hc) as Hb. cbv zeta.
  pose proof (wf_congestion_threshold _ Hc) as Ht.
  assert (0 ≤ default_threshold c).
  { apply Z.div_pos; [|lia]. by apply wrap_u_is_u. }
  unfold is_u in *. destruct (Z.eqb_spec c.(congestion_threshold) 0).
  - destruct (Z.eqb_spec (Z.min (default_threshold c) c.(max_background)) 0); lia.
  - destruct (Z.eqb_spec (Z.min c.(congestion_threshold) c.(max_background)) 0); lia.
Qed.

Lemma time_gran_again c :
  config_wf c →
  10 ^ ilog10 (Z.max (10 ^ ilog10 (Z.max c.(time_gran) 1)) 1) = 10 ^ ilog10 (Z.max c.(time_gran) 1).
Proof.
  intros Hc. pose proof (time_gran_range c Hc). rewrite (Z.max_l (10 ^ _)) by lia.
  rewrite ilog10_pow; [done|]. apply ilog10_spec. destruct (wf_time_gran _ Hc). lia.
Qed.

Lemma negotiated_idempotent i c :
  config_wf c → negotiated i (negotiated i c) = negotiated i c.
Proof.
  intros Hc. pose proof page_size_bounds. destruct (is_compat3 i) eqn:Hi.
  { unfold negotiated. rewrite Hi. unfold set_version, negotiated_minor; simpl.
    by rewrite min_absorb. }
  assert (negotiated_minor i (negotiated i c) = negotiated_minor i c) as Hm.
  { unfold negotiated_minor, negotiated. rewrite Hi. simpl. unfold negotiated_minor. apply min_absorb. }
  pose proof (negotiated_threshold_again c Hc) as Ht.
  pose proof (negotiated_offered_again i c Hi) as Ho.
  pose proof (negotiated_passthrough_again i c Hi) as Hp.
  unfold negotiated at 1. rewrite Hm, Hp, Ho, Hi.
  assert (has_flag (flags (negotiated i c)) FUSE_MAX_PAGES = has_flag (offered_flags i c) FUSE_MAX_PAGES) as ->.
  { unfold FUSE_MAX_PAGES. rewrite !has_flag_testbit, negotiated_flags_testbit by (done || lia).
    simpl. by rewrite orb_true_r, andb_true_r. }
  pose proof (time_gran_again c Hc) as Hg.
  unfold negotiated. rewrite Hi. simpl. unfold MAX_MAX_PAGES. change MIN_MAX_WRITE with 8112.
  f_equal; try lia.
  - by destruct (13 <=? _).
  - destruct (13 <=? _); [exact Ht|done].
  - by destruct (13 <=? _).
  - destruct (_ && _); lia.
  - destruct (passthrough_kept i c); lia.
  - destruct (passthrough_kept i c); [done|]. by rewrite Z.ldiff_ldiff_l, Z.lor_diag.
Qed.

Lemma negotiated_background_ok i c :
  config_wf c → background_ok i c → background_ok i (negotiated i c).
Proof.
  intros Hc Hb. destruct (wf_max_background _ Hc). unfold background_ok, negotiated_minor in *.
  destruct Hb as [?|[?|Hb]]; [auto|auto|].
  destruct (is_compat3 i) eqn:Hi; [auto|]. do 2 right. unfold negotiated. rewrite Hi. simpl.
  unfold negotiated_minor in *. rewrite min_absorb.
  destruct (Z.leb_spec 13 (Z.min c.(minor) (protocol_version i).2)); [|auto].
  destruct Hb as [?|[Hb|Hb]]; [lia| |auto].
  rewrite (proj2 (Z.eqb_neq _ _) Hb).
  destruct (decide (Z.min c.(congestion_threshold) c.(max_background) = 0)); [|auto].
  destruct (wf_congestion_threshold _ Hc). right; right. lia.
Qed.

(** Negotiation is idempotent: a kernel that repeats its INIT request gets
the configuration of the first answer again. *)
Lemma negotiate_idempotent i c c' :
  config_wf c → init_in_wf i → negotiate i c = (Ok tt, c') → negotiate i c' = (Ok tt, c').
Proof.
  intros Hc Hi Hn. destruct (negotiate_ok_inv _ _ _ Hc Hn) as (Hmaj & Hb & ->).
  rewrite negotiate_negotiated by auto using negotiated_wf, negotiated_background_ok.
  by rewrite negotiated_idempotent.
Qed.

End negotiation.

(** ** INIT messages on the wire *)

(** The request is the variant that its minor version calls for. *)
Definition init_in_versioned (i : InitIn) : Prop :=
  match i with
  | InCompat3 _ => (protocol_version i).2 ≤ 3
  | InCompat35 _ => 3 < (protocol_version i).2 ≤ 35
  | InCurrent _ => 35 < (protocol_version i).2
  end.

Definition init_in_bytes (i : InitIn) : list byte :=
  match i with
  | InCompat3 arg => pod_encode arg
  | InCompat35 arg => pod_encode arg
  | InCurrent arg => pod_encode arg
  end.

(** The version numbers that every INIT request starts with. *)
Definition init_in_prefix (i : InitIn) : fuse_init_in_out_compat_3 := {|
  init_in_out_compat_3_major := (protocol_version i).1;
  init_in_out_compat_3_minor := (protocol_version i).2;
|}.

Lemma init_in_bytes_prefix i : ∃ r, init_in_bytes i = pod_encode (init_in_prefix i) ++ r.
Proof.
  destruct i as [[]|[]|[]]; [by exists []; rewrite app_nil_r|..];
    eexists; unfold init_in_bytes, init_in_prefix, pod_encode; cbn;
    by rewrite <- !app_assoc.
Qed.

Lemma init_in_prefix_wf i : init_in_wf i → pod_wf (init_in_prefix i).
Proof.
  destruct i as [[]|[]|[]]; simpl; intros Hi; simpl_pod_wf Hi; goal_pod_wf; tauto.
Qed.

Section wire.
Context `{BF : Bitflags} `{ZC : Zerocopy}.
Context {HBF : BitflagsSpec} {HZC : ZerocopySpec}.

Lemma InitIn_prefix_read i addr rest :
  init_in_wf i → aligned_to addr 4 = true →
  zc_try_ref_from_prefix addr (init_in_bytes i ++ rest) =
    Some (init_in_prefix i, drop 8 (init_in_bytes i ++ rest)).
Proof.
  intros Hi Ha. pose proof (init_in_prefix_wf i Hi) as Hp.
  rewrite zc_try_ref_from_prefix_spec.
  change (align_of fuse_init_in_out_compat_3) with 4%nat. rewrite Ha.
  change (size_of fuse_init_in_out_compat_3) with 8%nat.
  destruct (init_in_bytes_prefix i) as [r ->].
  rewrite !length_app, length_pod_encode by done.
  rewrite (proj2 (Nat.leb_le _ _)) by (change (size_of fuse_init_in_out_compat_3) with 8%nat; lia).
  cbn [andb]. rewrite <- (app_assoc (pod_encode _)). by rewrite pod_decode_encode.
Qed.

Lemma pod_prefix_read {T} `{Pod T} (x : T) addr rest :
  pod_wf x → aligned_to addr (align_of T) = true →
  zc_try_ref_from_prefix addr (pod_encode x ++ rest) = Some (x, rest).
Proof.
  intros Hx Ha. rewrite zc_try_ref_from_prefix_spec, Ha, pod_decode_encode by done.
  rewrite length_app, length_pod_encode by done.
  rewrite (proj2 (Nat.leb_le _ _)) by lia. simpl.
  by rewrite drop_app_length' by (by rewrite length_pod_encode).
Qed.

Lemma InitIn_from_bytes_encode i addr rest :
  init_in_wf i → init_in_versioned i → aligned_to addr 4 = true →
  InitIn_from_bytes addr (init_in_bytes i ++ rest) = Some i.
Proof.
  intros Hi Hv Ha. unfold InitIn_from_bytes. rewrite InitIn_prefix_read by done.
  destruct i as [arg|arg|arg]; simpl in Hi, Hv;
    cbn [mbind option_bind init_in_bytes init_in_prefix protocol_version fst snd
         init_in_out_compat_3_minor].
  - rewrite (proj2 (Z.leb_le _ _)) by lia. unfold init_in_prefix; simpl. by destruct arg.
  - rewrite (proj2 (Z.leb_gt _ _)), (proj2 (Z.leb_le _ _)) by lia.
    by rewrite pod_prefix_read.
  - rewrite (proj2 (Z.leb_gt _ 3)), (proj2 (Z.leb_gt _ 35)) by lia.
    by rewrite pod_prefix_read.
Qed.

(** Parsing an INIT request inverts its encoding, whatever follows it: the
parser reads the version numbers first and picks the structure that the minor
version calls for. *)
Theorem InitIn_from_bytes_roundtrip i addr rest :
  init_in_wf i → init_in_versioned i → aligned_to addr 4 = true →
  InitIn_from_bytes addr (init_in_bytes i ++ rest) = Some i.
Proof. apply InitIn_from_bytes_encode. Qed.

(** Reading a prefix: the value is well-formed and its image starts the input. *)
Lemma zc_prefix_inv {T} `{Pod T} addr bs :
  aligned_to addr (align_of T) = true →
  match zc_try_ref_from_prefix (T:=T) addr bs with
  | Some (x, r) => pod_wf x ∧ x = pod_decode bs ∧ bs = pod_encode x ++ r
  | None => (length bs < size_of T)%nat
  end.
Proof.
  intros Ha. rewrite zc_try_ref_from_prefix_spec, Ha. cbn [andb].
  destruct (Nat.leb_spec (size_of T) (length bs)); [|done].
  split_and!; [by apply pod_decode_wf|done|].
  rewrite <- pod_decode_take, pod_encode_decode by (rewrite length_take; lia).
  by rewrite take_drop.
Qed.

Lemma InitIn_from_bytes_inv addr bs :
  aligned_to addr 4 = true →
  match InitIn_from_bytes addr bs with
  | Some i => init_in_wf i ∧ init_in_versioned i ∧ init_in_bytes i `prefix_of` bs
  | None =>
      let m := (pod_decode (T:=fuse_init_in_out_compat_3) bs).(init_in_out_compat_3_minor) in
      (length bs < 8)%nat ∨ (3 < m ∧ (length bs < 16)%nat) ∨ (35 < m ∧ (length bs < 64)%nat)
  end.
Proof.
  intros Ha. unfold InitIn_from_bytes. remember (init_in_out_compat_3_minor (pod_decode bs)) as m eqn:Hmin.
  pose proof (zc_prefix_inv (T:=fuse_init_in_out_compat_3) addr bs Ha) as H3.
  pose proof (zc_prefix_inv (T:=fuse_init_in_compat_35) addr bs Ha) as H35.
  pose proof (zc_prefix_inv (T:=fuse_init_in) addr bs Ha) as Hc.
  destruct (zc_try_ref_from_prefix (T:=fuse_init_in_out_compat_3) addr bs) as [[x r]|]; simpl; [|by left].
  destruct H3 as (Hw & Hd & Hx). rewrite <- Hd in Hmin. subst m. clear Hd.
  destruct (Z.leb_spec x.(init_in_out_compat_3_minor) 3); [simpl; subst bs; eauto using prefix_app_r|].
  assert (∀ i r', bs = init_in_bytes i ++ r' → init_in_wf i →
    (protocol_version i).2 = x.(init_in_out_compat_3_minor)) as Hv.
  { intros i r' Hb Hi. destruct (init_in_bytes_prefix i) as [q Hq].
    rewrite Hq, Hx, <- app_assoc in Hb.
    assert (pod_decode (pod_encode x ++ r) = pod_decode (T:=fuse_init_in_out_compat_3)
      (pod_encode (init_in_prefix i) ++ q ++ r')) as He by (by rewrite Hb).
    rewrite !pod_decode_encode in He by auto using init_in_prefix_wf. by rewrite He. }
  destruct (Z.leb_spec x.(init_in_out_compat_3_minor) 35).
  - destruct (zc_try_ref_from_prefix (T:=fuse_init_in_compat_35) addr bs) as [[y r']|]; simpl; [|auto].
    destruct H35 as (Hwy & _ & Hy). pose proof (Hv (InCompat35 y) r' Hy Hwy) as Hm; simpl in Hm.
    rewrite Hm. split; [exact Hwy|split; [lia|]]. rewrite Hy. by apply prefix_app_r.
  - destruct (zc_try_ref_from_prefix (T:=fuse_init_in) addr bs) as [[y r']|]; simpl; [|auto].
    destruct Hc as (Hwy & _ & Hy). pose proof (Hv (InCurrent y) r' Hy Hwy) as Hm; simpl in Hm.
    rewrite Hm. split; [exact Hwy|split; [lia|]]. rewrite Hy. by apply prefix_app_r.
Qed.

(** The parser accepts only well-formed requests: what it returns has the
fields in range, is the variant of its minor version and is what the bytes
start with; on an aligned buffer it refuses exactly the inputs that are
shorter than the structure the minor version calls for. *)
Lemma InitIn_from_bytes_sound addr bs :
  aligned_to addr 4 = true →
  match InitIn_from_bytes addr bs with
  | Some i => init_in_wf i ∧ init_in_versioned i ∧ init_in_bytes i `prefix_of` bs
  | None =>
      let m := (pod_decode (T:=fuse_init_in_out_compat_3) bs).(init_in_out_compat_3_minor) in
      (length bs < 8)%nat ∨ (3 < m ∧ (length bs < 16)%nat) ∨ (35 < m ∧ (length bs < 64)%nat)
  end.
Proof. apply InitIn_from_bytes_inv. Qed.

Lemma low_word f : wrap_u 32 (Z.land f u32_MAX) = f mod 2 ^ 32.
Proof.
  unfold wrap_u, u32_MAX. change (2 ^ 32 - 1) with (Z.ones 32). rewrite Z.land_ones by lia.
  by rewrite Zmod_mod.
Qed.

Lemma split_words f : is_u 64 f → Z.lor (f mod 2 ^ 32) (Z.shiftl (Z.shiftr f 32 mod 2 ^ 32) 32) = f.
Proof. intros Hf. rewrite <- (Z.mod_small f (2 ^ 64)) by done. zbits. Qed.

Lemma to_out_wf c : config_wf c →
  match to_out c with
  | OutCompat3 out => pod_wf out
  | OutCompat22 out => pod_wf out
  | OutCurrent out => pod_wf out
  end.
Proof.
  intros []. unfold to_out. rewrite !low_word.
  pose proof (wrap_u_is_u 32 c.(flags)) as Hl. pose proof (wrap_u_is_u 32 (Z.shiftr c.(flags) 32)) as Hh.
  destruct (_ <=? 3); [|destruct (_ <=? 22)]; goal_pod_wf; split_fields; try done;
    try (by apply Hl); try (by repeat constructor).
  destruct (bf_contains _ _); [by apply Hh|done].
Qed.

(** The fields of the reply as the kernel reads them. *)
Definition reply_flags (out : fuse_init_out) : u64 :=
  Z.lor out.(init_out_flags) (Z.shiftl out.(init_out_flags2) 32).

(** C35: the INIT reply has the size and the layout that the negotiated minor
version prescribes (8 bytes up to 7.3, 24 up to 7.22, 64 from 7.23), and the
kernel reads from it the configuration of the session; the upper half of the
flags is announced only together with [INIT_EXT]. *)
Theorem to_out_wire c rest :
  config_wf c →
  let bytes := InitOut_to_bytes (to_out c) in
  if c.(minor) <=? 3 then
    length bytes = 8%nat ∧
    let out : fuse_init_in_out_compat_3 := pod_decode (bytes ++ rest) in
    out.(init_in_out_compat_3_major) = c.(major) ∧ out.(init_in_out_compat_3_minor) = c.(minor)
  else if c.(minor) <=? 22 then
    length bytes = 24%nat ∧
    let out : fuse_init_out_compat_22 := pod_decode (bytes ++ rest) in
    out.(init_out_compat_22_major) = c.(major) ∧ out.(init_out_compat_22_minor) = c.(minor) ∧
    out.(init_out_compat_22_flags) = c.(flags) mod 2 ^ 32 ∧
    out.(init_out_compat_22_max_readahead) = c.(max_readahead) ∧
    out.(init_out_compat_22_max_background) = c.(max_background) ∧
    out.(init_out_compat_22_congestion_threshold) = c.(congestion_threshold) ∧
    out.(init_out_compat_22_max_write) = c.(max_write)
  else
    length bytes = 64%nat ∧
    let out : fuse_init_out := pod_decode (bytes ++ rest) in
    out.(init_out_major) = c.(major) ∧ out.(init_out_minor) = c.(minor) ∧
    out.(init_out_max_readahead) = c.(max_readahead) ∧
    out.(init_out_max_background) = c.(max_background) ∧
    out.(init_out_congestion_threshold) = c.(congestion_threshold) ∧
    out.(init_out_max_write) = c.(max_write) ∧ out.(init_out_time_gran) = c.(time_gran) ∧
    out.(init_out_max_pages) = c.(max_pages) ∧
    out.(init_out_max_stack_depth) = c.(max_stack_depth) ∧
    reply_flags out =
      if has_flag c.(flags) FUSE_INIT_EXT then c.(flags) else c.(flags) mod 2 ^ 32.
Proof.
  intros Hc. pose proof (to_out_wf c Hc) as Hw. pose proof (wf_flags _ Hc) as Hf. cbv zeta.
  unfold to_out in *. rewrite !low_word in *.
  destruct (c.(minor) <=? 3); [|destruct (c.(minor) <=? 22)];
    cbn [InitOut_to_bytes]; rewrite zc_as_bytes_spec, length_pod_encode by done;
    rewrite pod_decode_encode by done; [by repeat split|by repeat split|].
  unfold reply_flags, has_flag. simpl. rewrite bf_contains_spec. do 10 (split; [done|]).
  destruct (_ =? FUSE_INIT_EXT); [|by rewrite Z.lor_0_r].
  by apply split_words.
Qed.
End wire.

(** ** Concrete negotiations *)

(** A kernel that offers every flag and a readahead of 8000 bytes. *)
Definition init_in_example (M m : u32) (f : u64) : InitIn :=
  InCurrent {| init_in_major := M; init_in_minor := m; init_in_max_readahead := 8000;
    init_in_flags := f mod 2 ^ 32; init_in_flags2 := f / 2 ^ 32; init_in_unused := replicate 11 0 |}.

Definition all_kernel_flags : KernelFlags := foldr Z.lor 0 KernelFlags_flags.

Definition config_example : KernelConfig := @KernelConfig_new ref_bitflags.

Lemma config_example_wf : config_wf config_example.
Proof. split; vm_compute; done. Qed.

Lemma init_in_example_wf : init_in_wf (init_in_example 7 64 all_kernel_flags).
Proof. simpl. goal_pod_wf. split_fields; try done. by repeat constructor. Qed.

Definition negotiated_example : KernelConfig :=
  (@negotiate ref_bitflags ref_rustix true (init_in_example 7 64 all_kernel_flags) config_example).2.


(** A kernel that does not offer MAX_PAGES, and a filesystem that asks for 1 MiB. *)
Lemma max_write_exceeds_pages_witness :
  let c := set_max_write 1048576 config_example in
  let i := init_in_example 7 64 (Z.ldiff all_kernel_flags FUSE_MAX_PAGES) in
  let c' := (@negotiate ref_bitflags ref_rustix true i c).2 in
  has_flag c'.(flags) FUSE_MAX_PAGES = false ∧ c'.(max_pages) = 32 ∧ 32 * 4096 < c'.(max_write).
Proof.
  intros c i c'. split; [reflexivity|]. split; [reflexivity|].
  apply (@max_write_exceeds_pages ref_bitflags ref_rustix true ref_bitflags_spec ref_rustix_spec i c).
  - split; vm_compute; done.
  - reflexivity.
  - vm_compute. reflexivity.
  - reflexivity.
Defined.

Lemma negotiate_outcome_witness :
  (@negotiate ref_bitflags ref_rustix true (init_in_example 8 0 0) config_example)
  = (Err TooLargeProtocolVersion, config_example) ∧ 7 < 8.
Proof.
  split; [reflexivity|].
  exact (proj1 (@negotiate_outcome ref_bitflags ref_rustix true ref_bitflags_spec ref_rustix_spec
    (init_in_example 8 0 0) config_example config_example_wf)).
Defined.

Lemma negotiate_idempotent_witness :
  @negotiate ref_bitflags ref_rustix true (init_in_example 7 64 all_kernel_flags) negotiated_example
  = (Ok tt, negotiated_example).
Proof.
  apply (@negotiate_idempotent ref_bitflags ref_rustix true ref_bitflags_spec ref_rustix_spec
    (init_in_example 7 64 all_kernel_flags) config_example).
  - apply config_example_wf.
  - apply init_in_example_wf.
  - vm_compute. reflexivity.
Defined.

Lemma InitIn_from_bytes_roundtrip_witness :
  @InitIn_from_bytes ref_zerocopy 0 (init_in_bytes (init_in_example 7 64 all_kernel_flags) ++ [Byte.x00])
  = Some (init_in_example 7 64 all_kernel_flags).
Proof.
  apply (@InitIn_from_bytes_roundtrip ref_zerocopy ref_zerocopy_spec).
  - apply init_in_example_wf.
  - reflexivity.
  - reflexivity.
Defined.

Lemma InitIn_from_bytes_sound_witness :
  @InitIn_from_bytes ref_zerocopy 0 (replicate 12 Byte.x07) = None ∧
  ((12 < 8)%nat ∨ (3 < 117901063 ∧ (12 < 16)%nat) ∨ (35 < 117901063 ∧ (12 < 64)%nat)).
Proof.
  split; [reflexivity|].
  exact (@InitIn_from_bytes_sound ref_zerocopy ref_zerocopy_spec 0 (replicate 12 Byte.x07) eq_refl).
Defined.

Lemma to_out_wire_witness :
  length (@InitOut_to_bytes ref_zerocopy (@to_out ref_bitflags config_example)) = 64%nat.
Proof.
  exact (proj1 (@to_out_wire ref_bitflags ref_zerocopy ref_bitflags_spec ref_zerocopy_spec
    config_example [] config_example_wf)).
Defined.

(** With more than 21845 background requests and no explicit threshold,
the product [max_background * 3] leaves 16 bits: a build with overflow checks
panics during the handshake, and one without computes the threshold from the
wrapped product (here 0 instead of 16384). *)
Lemma negotiate_background_overflow :
  let c := set_background 21846 0 config_example in
  let i := init_in_example 7 64 all_kernel_flags in
  (@negotiate ref_bitflags ref_rustix true i c).1 = Panic "arithmetic overflow" ∧
  ((@negotiate ref_bitflags ref_rustix false i c).2).(congestion_threshold) = 0 ∧
  21846 * 3 / 4 = 16384.
Proof. vm_compute. done. Qed.
