(* ===== verification/Msg.v ===== *)
(** * Messages to the kernel: [src/msg.rs]

A reply or a notification is an out header followed by its argument, sent with
one vectored write. *)

From S2P Require Import Prelude Layout Kernel Crates Types Bytes.
Local Open Scope Z_scope.

Inductive MessageKind :=
  | Reply (unique : RequestID) (error : option Errno)
  | Notify (code : fuse_notify_code).

Section msg.
Context `{ZC : Zerocopy} `{RX : Rustix}.

(** The fields [error] and [unique] of the header. *)
Definition message_ids (kind : MessageKind) : i32 * u64 :=
  match kind with
  | Reply unique error =>
      (match error with Some e => - e | None => 0 end, unique.(RequestID_into_raw))
  | Notify code => (zc_transmute_i32 (discr code), 0)
  end.

Definition send_msg {W T} `{IoWrite W} (kind : MessageKind) (B : Bytes T) (arg : T)
    : M W io_error unit :=
  len ← lift (try_into_u32 (Os Errno_INVAL)
          (Z.of_nat (size_of fuse_out_header) + Z.of_nat (bytes_size arg)));
  let (error, unique) := message_ids kind in
  write_bytes tuple_Bytes
    [ @Component _ POD_Bytes (mkPOD {| out_header_len := len; out_header_error := error;
                                       out_header_unique := unique |});
      @Component _ B arg ].

End msg.

(** ** The message as one sequence of bytes *)

Definition message_wf (kind : MessageKind) : Prop :=
  match kind with
  | Reply unique error =>
      is_u 64 unique.(RequestID_into_raw) ∧
      match error with Some e => 0 < e < 2 ^ 31 | None => True end
  | Notify _ => True
  end.

Section message.
Context `{ZC : Zerocopy} `{RX : Rustix} {HZC : ZerocopySpec}.

Definition message_header {T} (kind : MessageKind) (B : Bytes T) (arg : T) : fuse_out_header := {|
  out_header_len := 16 + Z.of_nat (length (content B arg));
  out_header_error := (message_ids kind).1;
  out_header_unique := (message_ids kind).2;
|}.

Definition fits {T} (B : Bytes T) (arg : T) : Prop := 16 + Z.of_nat (length (content B arg)) < 2 ^ 32.

#[export] Instance fits_dec {T} (B : Bytes T) arg : Decision (fits B arg).
Proof. unfold fits. apply _. Defined.

Lemma message_header_wf {T} kind (B : Bytes T) arg :
  message_wf kind → fits B arg → pod_wf (message_header kind B arg).
Proof.
  intros Hk Hf. unfold message_header, fits in *. goal_pod_wf. split_fields; [|..|done].
  - unfold is_u. lia.
  - destruct kind as [u [e|]|code]; simpl in *; [unfold is_i; lia|done|].
    rewrite zc_transmute_i32_spec. destruct code; done.
  - destruct kind as [u e|code]; simpl in *; [apply Hk|done].
Qed.

(** The chunks handed to the write: the header, then those of the argument. *)
Lemma send_msg_write {W T} `{IoWrite W} kind (B : Bytes T) arg (w : W) :
  bytes_ok B arg → fits B arg → message_wf kind →
  send_msg kind B arg w =
    match write_vectored (pod_encode (message_header kind B arg) :: chunks B arg) w with
    | (Ok written, w') =>
        (if Z.of_nat written <? 16 + Z.of_nat (length (content B arg))
         then Err (Custom Other "written data is too short") else Ok tt, w')
    | (Err e, w') => (Err e, w')
    | (Panic why, w') => (Panic why, w')
    | (UB, w') => (UB, w')
    end.
Proof.
  intros Hb Hf Hk. unfold send_msg, mbind, M_bind, lift.
  rewrite (bytes_ok_size _ _ Hb). fold (content B arg).
  rewrite try_into_u32_ok by (unfold is_u, fits in *; change (size_of fuse_out_header) with 16%nat; lia).
  change (Z.of_nat (size_of fuse_out_header)) with 16.
  destruct (message_ids kind) as [error unique] eqn:Hids.
  set (hdr := {| out_header_len := _ |}).
  assert (hdr = message_header kind B arg) as -> by (unfold hdr, message_header; by rewrite Hids).
  set (t := [_; _]).
  destruct (tuple_chunks t) as [Ht Hc].
  { apply Forall_cons; split; [apply POD_chunks|by apply Forall_singleton]. }
  rewrite write_bytes_spec by done.
  assert (chunks tuple_Bytes t = pod_encode (message_header kind B arg) :: chunks B arg) as Hcs.
  { rewrite Hc.
    change (concat (component_chunks <$> t)) with
      (chunks POD_Bytes (mkPOD (message_header kind B arg)) ++ chunks B arg ++ []).
    rewrite (proj2 (POD_chunks _)), zc_as_bytes_spec, app_nil_r. done. }
  rewrite (bytes_ok_count _ _ Ht), Hcs. unfold content at 1. rewrite Hcs. cbn [length Nat.eqb concat].
  destruct (write_vectored _ w) as [[n|?|?|] w']; try done.
  rewrite length_app, length_pod_encode by (by apply message_header_wf).
  change (size_of fuse_out_header) with 16%nat. fold (content B arg).
  destruct (Nat.ltb_spec n (16 + length (content B arg))), (Z.ltb_spec (Z.of_nat n) (16 + Z.of_nat (length (content B arg)))); (done || lia).
Qed.

Lemma send_msg_too_long {W T} `{IoWrite W} kind (B : Bytes T) arg (w : W) :
  bytes_ok B arg → ¬ fits B arg → send_msg kind B arg w = (Err (Os Errno_INVAL), w).
Proof.
  intros Hb Hf. unfold send_msg, mbind, M_bind, lift, try_into_u32.
  rewrite (bytes_ok_size _ _ Hb). fold (content B arg). unfold fits in Hf.
  change (Z.of_nat (size_of fuse_out_header)) with 16.
  rewrite (proj2 (Z.ltb_ge _ _)), andb_false_r by lia. done.
Qed.


(** The bytes of a message. *)
Definition message_bytes {T} (kind : MessageKind) (B : Bytes T) (arg : T) : list byte :=
  pod_encode (message_header kind B arg) ++ content B arg.

(** C29: [send_msg] performs at most one write to the connection.  A message
of 2^32 bytes or more is refused with [EINVAL] before anything is written.
Otherwise the write carries exactly the message, header first, and when it
accepts everything the call succeeds. *)
Theorem send_msg_single_write {W T} `{IoWrite W} kind (B : Bytes T) arg (w : W) :
  bytes_ok B arg → message_wf kind →
  (¬ fits B arg ∧ send_msg kind B arg w = (Err (Os Errno_INVAL), w)) ∨
  (fits B arg ∧ ∃ cs, concat cs = message_bytes kind B arg ∧
     (send_msg kind B arg w).2 = (write_vectored cs w).2 ∧
     ((send_msg kind B arg w).1 = Ok tt ↔
        ∃ n, (write_vectored cs w).1 = Ok n ∧ (length (message_bytes kind B arg) ≤ n)%nat) ∧
     (∀ e, (write_vectored cs w).1 = Err e → (send_msg kind B arg w).1 = Err e)).
Proof.
  intros Hb Hk. destruct (decide (fits B arg)) as [Hf|Hf]; [right|left; auto using send_msg_too_long].
  split; [done|]. exists (pod_encode (message_header kind B arg) :: chunks B arg).
  split; [done|]. rewrite send_msg_write by done. unfold message_bytes.
  rewrite length_app, length_pod_encode by (by apply message_header_wf).
  change (size_of fuse_out_header) with 16%nat.
  destruct (write_vectored _ w) as [[n|e|why|] w']; simpl.
  - destruct (Z.ltb_spec (Z.of_nat n) (16 + Z.of_nat (length (content B arg)))); simpl.
    + split; [done|]. split; [|done]. split; [done|]. intros (n' & [= ->] & ?). lia.
    + split; [done|]. split; [|done]. split; [|done]. intros _. exists n. split; [done|lia].
  - split; [done|]. split; [|congruence]. split; [done|]. by intros (? & ? & _).
  - split; [done|]. split; [|done]. split; [done|]. by intros (? & ? & _).
  - split; [done|]. split; [|done]. split; [done|]. by intros (? & ? & _).
Qed.

(** The header of a message says how long the message is, and carries the
request's identifier with the negated error number, or the notification code
with the identifier zero: reading the message back gives these values. *)
Lemma message_header_roundtrip {T} kind (B : Bytes T) arg rest :
  message_wf kind → fits B arg →
  let bytes := message_bytes kind B arg in
  let h : fuse_out_header := pod_decode (bytes ++ rest) in
  h.(out_header_len) = Z.of_nat (length bytes) ∧
  drop 16 bytes = content B arg ∧
  match kind with
  | Reply unique error => h.(out_header_unique) = unique.(RequestID_into_raw) ∧
      h.(out_header_error) = match error with Some e => - e | None => 0 end
  | Notify code => h.(out_header_unique) = 0 ∧ h.(out_header_error) = discr code
  end.
Proof.
  intros Hk Hf. pose proof (message_header_wf kind B arg Hk Hf) as Hw. cbv zeta.
  unfold message_bytes. rewrite <- app_assoc, pod_decode_encode by done.
  rewrite length_app, length_pod_encode by done.
  rewrite drop_app_length' by (by rewrite length_pod_encode).
  split; [unfold message_header; cbn [out_header_len]; change (size_of fuse_out_header) with 16%nat; lia|].
  split; [done|]. destruct kind as [u e|code]; simpl; [done|].
  split; [done|]. rewrite zc_transmute_i32_spec. by destruct code.
Qed.

End message.

Definition reply_example : MessageKind := Reply (RequestID_from_raw 42) (Some 4).

Lemma send_msg_single_write_witness :
  fits u8_slice_Bytes [Byte.x68] ∧
  ∃ cs, concat cs = @message_bytes ref_zerocopy _ reply_example u8_slice_Bytes [Byte.x68].
Proof.
  destruct (@send_msg_single_write ref_zerocopy ref_rustix ref_zerocopy_spec _ _ Vec_write
    reply_example u8_slice_Bytes [Byte.x68] []) as [[Hf _]|(Hf & cs & Hcs & _)].
  - apply u8_slice_chunks.
  - simpl. unfold is_u. lia.
  - exfalso. apply Hf. done.
  - split; [done|by exists cs].
Defined.

Lemma message_header_roundtrip_witness :
  (pod_decode (T:=fuse_out_header)
    (@message_bytes ref_zerocopy _ reply_example u8_slice_Bytes [Byte.x68] ++ [])).(out_header_error) = -4.
Proof.
  apply (@message_header_roundtrip ref_zerocopy ref_zerocopy_spec _
    reply_example u8_slice_Bytes [Byte.x68] []).
  - simpl. unfold is_u. lia.
  - done.
Defined.
