(* ===== verification/Header.v ===== *)
(** * The request header: [InHeader] of [src/buf.rs] *)

From S2P Require Import Prelude Layout Kernel Crates Types.
Local Open Scope Z_scope.

Record InHeader := { raw : fuse_in_header }.

Section header.
Context `{ZC : Zerocopy} `{RX : Rustix}.

Definition InHeader_len (h : InHeader) : u32 := h.(raw).(in_header_len).

Definition InHeader_nodeid (h : InHeader) : option NodeID :=
  NodeID_from_raw h.(raw).(in_header_nodeid).

Definition InHeader_unique (h : InHeader) : RequestID :=
  RequestID_from_raw h.(raw).(in_header_unique).

(** The opcode, or the raw number when it is not one of the enumeration. *)
Definition InHeader_opcode (h : InHeader) : outcome u32 fuse_opcode :=
  match zc_try_transmute h.(raw).(in_header_opcode) with
  | Some opcode => Ok opcode
  | None => Err h.(raw).(in_header_opcode)
  end.

Definition is_special_request (h : InHeader) : bool :=
  let op := h.(raw).(in_header_opcode) in
  (op =? discr FUSE_INIT) || (op =? discr FUSE_FORGET) || (op =? discr FUSE_BATCH_FORGET)
  || (op =? discr FUSE_INTERRUPT) || (op =? discr FUSE_DESTROY) || (op =? discr FUSE_NOTIFY_REPLY).

Definition InHeader_uid (h : InHeader) : option Uid :=
  if is_special_request h then None else Some h.(raw).(in_header_uid).

Definition InHeader_gid (h : InHeader) : option Gid :=
  if is_special_request h then None else Some h.(raw).(in_header_gid).

Definition InHeader_pid {E} (h : InHeader) : outcome E (option Pid) :=
  if is_special_request h then Ok None else Pid_from_raw (wrap_i 32 h.(raw).(in_header_pid)).

(** The number of bytes that are read before the operation is decoded. *)
Definition arg_len (h : InHeader) : usize :=
  match InHeader_opcode h with
  | Ok FUSE_WRITE => Z.of_nat (size_of fuse_write_in)
  | Ok FUSE_NOTIFY_REPLY => Z.of_nat (size_of fuse_notify_retrieve_in)
  | Ok _ => Z.max 0 (h.(raw).(in_header_len) - Z.of_nat (size_of fuse_in_header))
  | _ => 0
  end.

End header.

Section header_facts.
Context `{ZC : Zerocopy} {HZC : ZerocopySpec}.

Lemma InHeader_opcode_Ok h op :
  InHeader_opcode h = Ok op ↔ h.(raw).(in_header_opcode) = discr op.
Proof.
  unfold InHeader_opcode. destruct (zc_try_transmute _) as [op'|] eqn:Ht.
  - apply zc_try_transmute_spec in Ht. rewrite <- Ht. split.
    + by intros [= ->].
    + intros Hd%discr_inj. by subst.
  - split; [done|]. intros Hd. by rewrite Hd, zc_try_transmute_discr in Ht.
Qed.

(** An opcode is either one of the enumeration or reported as a number. *)
Lemma InHeader_opcode_cases h :
  (∃ op, InHeader_opcode h = Ok op ∧ h.(raw).(in_header_opcode) = discr op) ∨
  InHeader_opcode h = Err h.(raw).(in_header_opcode).
Proof.
  destruct (InHeader_opcode h) as [op|e|w|] eqn:Ho.
  - left. exists op. split; [done|]. by apply InHeader_opcode_Ok.
  - right. unfold InHeader_opcode in Ho. by destruct (zc_try_transmute _); simplify_eq.
  - unfold InHeader_opcode in Ho. by destruct (zc_try_transmute _).
  - unfold InHeader_opcode in Ho. by destruct (zc_try_transmute _).
Qed.

Lemma arg_len_bounds h :
  is_u 32 h.(raw).(in_header_len) →
  0 ≤ arg_len h ≤ Z.max 40 (h.(raw).(in_header_len) - 40).
Proof.
  intros [Hl _]. unfold arg_len.
  change (Z.of_nat (size_of fuse_write_in)) with 40.
  change (Z.of_nat (size_of fuse_notify_retrieve_in)) with 40.
  change (Z.of_nat (size_of fuse_in_header)) with 40.
  destruct (InHeader_opcode_cases h) as [(op & -> & _)| ->]; [destruct op; lia|lia].
Qed.

End header_facts.
