(* ===== verification/Decoder.v ===== *)
(** * The argument decoder: [src/op/decoder.rs]

A cursor over the argument bytes of a request.  A slice carries its address,
because reading a structure from it checks the alignment. *)

From S2P Require Import Prelude Layout Kernel Crates.
Local Open Scope Z_scope.

Inductive DecodeError :=
  | UnexpectedEof
  | MissingNulCharacter
  | Unaligned
  | InvalidNodeID
  | InvalidFlockType
  | InvalidPid
  | UnknownLseekWhence.

Record slice := { s_addr : Z; s_bytes : list byte }.

Definition s_len (s : slice) : Z := Z.of_nat (length s.(s_bytes)).

(** [[T]::split_at], for an index inside the slice. *)
Definition split_at (s : slice) (mid : usize) : slice * slice :=
  ({| s_addr := s.(s_addr); s_bytes := take (Z.to_nat mid) s.(s_bytes) |},
   {| s_addr := s.(s_addr) + mid; s_bytes := drop (Z.to_nat mid) s.(s_bytes) |}).

Record Decoder := Decoder_new { d_bytes : slice }.

Definition fetch_bytes (count : usize) : M Decoder DecodeError slice := λ self,
  if s_len self.(d_bytes) <? count then (Err UnexpectedEof, self)
  else
    let (bytes, remaining) := split_at self.(d_bytes) count in
    (Ok bytes, {| d_bytes := remaining |}).

(** [iter().position(|&b| b == 0)] *)
Fixpoint nul_position (bs : list byte) : option nat :=
  match bs with
  | [] => None
  | b :: bs => if decide (b = Byte.x00) then Some O else S <$> nul_position bs
  end.

Section decoder.
Context `{ZC : Zerocopy} `{PR : Profile}.

Definition fetch {T} `{Pod T} : M Decoder DecodeError T :=
  bytes ← fetch_bytes (Z.of_nat (size_of T));
  lift (ok_or (zc_try_ref_from_bytes bytes.(s_addr) bytes.(s_bytes)) Unaligned).

Definition fetch_array {T} `{Pod T} (count : usize) : M Decoder DecodeError (list T) :=
  size ← lift (arith_u 64 (Z.of_nat (size_of T) * count));
  bytes ← fetch_bytes size;
  lift (ok_or (zc_try_ref_array bytes.(s_addr) bytes.(s_bytes)) Unaligned).

(** [.expect] turns the error of the inner call into a panic. *)
Definition expect {S E A} (m : M S E A) (msg : string) : M S E A := λ s,
  match m s with
  | (Err _, s') => (Panic msg, s')
  | r => r
  end.

Definition fetch_str : M Decoder DecodeError (list byte) :=
  self ← get;
  len ← lift (ok_or (nul_position self.(d_bytes).(s_bytes)) MissingNulCharacter);
  bytes ← expect (fetch_bytes (Z.of_nat len + 1)) "invalid null terminator position";
  mret (take (length bytes.(s_bytes) - 1) bytes.(s_bytes)).

End decoder.

(** ** What the cursor does *)

Lemma nul_position_spec bs :
  match nul_position bs with
  | Some n => ∃ rest, bs = take n bs ++ Byte.x00 :: rest ∧
      (Byte.x00 ∉ take n bs) ∧ (n < length bs)%nat
  | None => Byte.x00 ∉ bs
  end.
Proof.
  induction bs as [|b bs IH]; simpl; [by apply not_elem_of_nil|].
  destruct (decide (b = Byte.x00)) as [->|Hb].
  - exists bs. simpl. split; [done|]. split; [apply not_elem_of_nil|lia].
  - destruct (nul_position bs) as [n|]; simpl.
    + destruct IH as (r & Hr & Hn & Hl). exists r. split; [by rewrite Hr at 1|].
      split; [|lia]. by apply not_elem_of_cons.
    + by apply not_elem_of_cons.
Qed.

Lemma nul_position_app s rest :
  Byte.x00 ∉ s → nul_position (s ++ Byte.x00 :: rest) = Some (length s).
Proof.
  induction s as [|b s IH]; simpl; intros Hs; [done|].
  apply not_elem_of_cons in Hs as [Hb Hs].
  destruct (decide (b = Byte.x00)); [congruence|]. by rewrite IH.
Qed.

(** A slice holding [bs] at [addr]. *)
Abbreviation at_addr addr bs := {| d_bytes := {| s_addr := addr; s_bytes := bs |} |}.

Lemma fetch_bytes_app addr a r n :
  Z.of_nat (length a) = n →
  fetch_bytes n (at_addr addr (a ++ r)) =
    (Ok {| s_addr := addr; s_bytes := a |}, at_addr (addr + n) r).
Proof.
  intros <-. unfold fetch_bytes, split_at, s_len. simpl.
  rewrite length_app, (proj2 (Z.ltb_ge _ _)), Nat2Z.id by lia.
  by rewrite take_app_length, drop_app_length.
Qed.

Lemma fetch_bytes_cases d n :
  0 ≤ n →
  (∃ a r, d.(d_bytes).(s_bytes) = a ++ r ∧ Z.of_nat (length a) = n ∧
     fetch_bytes n d = (Ok {| s_addr := d.(d_bytes).(s_addr); s_bytes := a |},
                        at_addr (d.(d_bytes).(s_addr) + n) r)) ∨
  (Z.of_nat (length d.(d_bytes).(s_bytes)) < n ∧ fetch_bytes n d = (Err UnexpectedEof, d)).
Proof.
  intros Hn. destruct d as [[addr bs]]. simpl.
  destruct (Z.ltb_spec (Z.of_nat (length bs)) n) as [Hlt|Hge].
  - right. split; [done|]. unfold fetch_bytes, s_len. simpl.
    by rewrite (proj2 (Z.ltb_lt _ _)).
  - left. exists (take (Z.to_nat n) bs), (drop (Z.to_nat n) bs).
    assert (Z.of_nat (length (take (Z.to_nat n) bs)) = n) as Hl
      by (rewrite length_take; lia).
    split_and!; [by rewrite take_drop|done|].
    rewrite <- (take_drop (Z.to_nat n) bs) at 1. by apply fetch_bytes_app.
Qed.

Section decoder_facts.
Context `{ZC : Zerocopy} {HZC : ZerocopySpec} `{PR : Profile}.

Lemma fetch_app {T} `{Pod T} addr a r :
  length a = size_of T →
  fetch (at_addr addr (a ++ r)) =
    (if aligned_to addr (align_of T) then Ok (pod_decode a) else Err Unaligned,
     at_addr (addr + Z.of_nat (size_of T)) r).
Proof.
  intros Hl. unfold fetch, mbind, M_bind. rewrite fetch_bytes_app by lia.
  unfold lift. rewrite zc_try_ref_from_bytes_spec. simpl.
  rewrite Hl, Nat.eqb_refl, andb_true_r. by destruct (aligned_to _ _).
Qed.

Lemma fetch_eof {T} `{Pod T} d :
  (length d.(d_bytes).(s_bytes) < size_of T)%nat → fetch (T:=T) d = (Err UnexpectedEof, d).
Proof.
  intros Hl. unfold fetch, mbind, M_bind, fetch_bytes, s_len.
  by rewrite (proj2 (Z.ltb_lt _ _)) by lia.
Qed.

(** The structure at the front of the argument, when the address is aligned. *)
Lemma fetch_cases {T} `{Pod T} d :
  aligned_to d.(d_bytes).(s_addr) (align_of T) = true →
  (∃ x r, pod_wf (T:=T) x ∧ d.(d_bytes).(s_bytes) = pod_encode x ++ r ∧
     fetch d = (Ok x, at_addr (d.(d_bytes).(s_addr) + Z.of_nat (size_of T)) r)) ∨
  ((length d.(d_bytes).(s_bytes) < size_of T)%nat ∧ fetch (T:=T) d = (Err UnexpectedEof, d)).
Proof.
  intros Ha. destruct d as [[addr bs]]. simpl in *.
  destruct (decide (length bs < size_of T)%nat) as [Hlt|Hge].
  - right. split; [done|]. by apply fetch_eof.
  - left. rewrite <- (take_drop (size_of T) bs).
    assert (length (take (size_of T) bs) = size_of T) as Hl by (rewrite length_take; lia).
    exists (pod_decode (take (size_of T) bs)), (drop (size_of T) bs).
    rewrite fetch_app, Ha by done. rewrite pod_encode_decode by done.
    split_and!; [apply pod_decode_wf; lia|done..].
Qed.

Lemma fetch_encode {T} `{Pod T} addr (x : T) r :
  pod_wf x → aligned_to addr (align_of T) = true →
  fetch (at_addr addr (pod_encode x ++ r)) = (Ok x, at_addr (addr + Z.of_nat (size_of T)) r).
Proof.
  intros Hx Ha. rewrite fetch_app, Ha by by apply length_pod_encode.
  rewrite <- (app_nil_r (pod_encode x)). by rewrite pod_decode_encode.
Qed.

Lemma fetch_str_app addr s r :
  Byte.x00 ∉ s →
  fetch_str (at_addr addr (s ++ Byte.x00 :: r)) =
    (Ok s, at_addr (addr + Z.of_nat (length s) + 1) r).
Proof.
  intros Hs. unfold fetch_str, mbind, M_bind, get, lift, expect. simpl.
  rewrite nul_position_app by done. simpl.
  rewrite (cons_middle _ s r), app_assoc, fetch_bytes_app by (rewrite length_app; simpl; lia).
  unfold mret, M_ret. simpl. rewrite length_app, Nat.add_sub, take_app_length. do 3 f_equal. lia.
Qed.

Lemma fetch_str_missing d :
  Byte.x00 ∉ d.(d_bytes).(s_bytes) → fetch_str d = (Err MissingNulCharacter, d).
Proof.
  intros Hs. unfold fetch_str, mbind, M_bind, get, lift.
  pose proof (nul_position_spec d.(d_bytes).(s_bytes)) as Hn.
  destruct (nul_position _) as [n|] eqn:E; [|done].
  destruct Hn as (r & Hr & _). exfalso. apply Hs. rewrite Hr.
  apply elem_of_app. right. by left.
Qed.

Lemma fetch_str_cases d :
  (∃ s r, d.(d_bytes).(s_bytes) = s ++ Byte.x00 :: r ∧ (Byte.x00 ∉ s) ∧
     fetch_str d = (Ok s, at_addr (d.(d_bytes).(s_addr) + Z.of_nat (length s) + 1) r)) ∨
  ((Byte.x00 ∉ d.(d_bytes).(s_bytes)) ∧ fetch_str d = (Err MissingNulCharacter, d)).
Proof.
  destruct d as [[addr bs]]. simpl. pose proof (nul_position_spec bs) as Hn.
  destruct (nul_position bs) as [n|].
  - left. destruct Hn as (r & Hr & Hnotin & _). exists (take n bs), r.
    split_and!; [done..|]. rewrite Hr at 1. by apply fetch_str_app.
  - right. split; [done|]. by apply fetch_str_missing.
Qed.

(** [fetch_array] of [n] structures laid out one after the other. *)
Lemma pod_decode_array_encode {T} `{Pod T} (xs : list T) :
  Forall pod_wf xs → pod_decode_array (length xs) (mjoin (pod_encode <$> xs)) = xs.
Proof.
  induction 1 as [|x xs Hx Hxs IH]; cbn; [done|].
  rewrite pod_decode_encode by done. f_equal.
  by rewrite <- (length_pod_encode x), drop_app_length.
Qed.

Lemma length_encode_array {T} `{Pod T} (xs : list T) :
  Forall pod_wf xs → length (mjoin (pod_encode <$> xs)) = (size_of T * length xs)%nat.
Proof.
  induction 1 as [|x xs Hx Hxs IH]; [cbn; lia|].
  change (mjoin _) with (pod_encode x ++ mjoin (pod_encode <$> xs)).
  rewrite length_app, IH, length_pod_encode by done. cbn [length]. lia.
Qed.

Lemma pod_encode_array {T} `{Pod T} (bs : list byte) n :
  length bs = (size_of T * n)%nat →
  ∃ xs : list T, Forall pod_wf xs ∧ length xs = n ∧ bs = mjoin (pod_encode <$> xs).
Proof.
  revert bs. induction n as [|n IH]; intros bs Hl.
  - exists []. split_and!; [done..|]. apply nil_length_inv. lia.
  - destruct (IH (drop (size_of T) bs)) as (xs & Hwf & Hlen & Hxs); [rewrite length_drop; lia|].
    assert (length (take (size_of T) bs) = size_of T) by (rewrite length_take; lia).
    exists (pod_decode (take (size_of T) bs) :: xs).
    split_and!; [constructor; [apply pod_decode_wf; lia|done]|by cbn; rewrite Hlen|].
    change (mjoin _) with (pod_encode (pod_decode (T:=T) (take (size_of T) bs)) ++ mjoin (pod_encode <$> xs)).
    by rewrite pod_encode_decode, <- Hxs, take_drop.
Qed.

Lemma fetch_array_cases {T} `{Pod T} d count :
  (0 < size_of T)%nat →
  aligned_to d.(d_bytes).(s_addr) (align_of T) = true →
  0 ≤ count → Z.of_nat (size_of T) * count < 2 ^ 64 →
  (∃ xs r, Forall pod_wf xs ∧ Z.of_nat (length xs) = count ∧
     d.(d_bytes).(s_bytes) = mjoin (pod_encode (T:=T) <$> xs) ++ r ∧
     fetch_array count d =
       (Ok xs, at_addr (d.(d_bytes).(s_addr) + Z.of_nat (size_of T) * count) r)) ∨
  (Z.of_nat (length d.(d_bytes).(s_bytes)) < Z.of_nat (size_of T) * count ∧
   fetch_array (T:=T) count d = (Err UnexpectedEof, d)).
Proof.
  intros Hs Ha Hc Hb. unfold fetch_array, mbind, M_bind, lift.
  rewrite arith_u_ok by (unfold is_u; lia).
  destruct (fetch_bytes_cases d (Z.of_nat (size_of T) * count)) as [(a & r & Hd & Hl & ->)|[Hl ->]];
    [lia| |by right].
  left. destruct (pod_encode_array a (Z.to_nat count)) as (xs & Hwf & Hlen & Hxs); [lia|].
  exists xs, r. split_and!; [done|lia|by rewrite Hd, <- Hxs|]. cbn [s_addr s_bytes].
  rewrite zc_try_ref_array_spec, Ha by done.
  assert (length a = (Z.to_nat count * size_of T)%nat) as -> by lia.
  rewrite Nat.Div0.mod_mul, Nat.div_mul by lia. cbn.
  rewrite <- Hlen, Hxs at 1. by rewrite pod_decode_array_encode.
Qed.

Lemma fetch_array_encode {T} `{Pod T} addr (xs : list T) r count :
  (0 < size_of T)%nat →
  aligned_to addr (align_of T) = true →
  Forall pod_wf xs → Z.of_nat (length xs) = count → Z.of_nat (size_of T) * count < 2 ^ 64 →
  fetch_array count (at_addr addr (mjoin (pod_encode <$> xs) ++ r)) =
    (Ok xs, at_addr (addr + Z.of_nat (size_of T) * count) r).
Proof.
  intros Hs Ha Hxs <- Hb. unfold fetch_array, mbind, M_bind, lift.
  rewrite arith_u_ok by (unfold is_u; lia).
  pose proof (length_encode_array xs Hxs) as Hl.
  rewrite fetch_bytes_app by (rewrite Hl; lia). cbn [s_addr s_bytes].
  rewrite zc_try_ref_array_spec, Ha, Hl, Nat.mul_comm by done.
  rewrite Nat.Div0.mod_mul, Nat.div_mul by lia. cbn. by rewrite pod_decode_array_encode.
Qed.

End decoder_facts.
