(* ===== verification/Operation.v ===== *)
(** * Operations: the data of [src/op.rs]

The payload of every request the library hands to a filesystem, the flag sets
and the small enumerations they use.  The fields that only carry a lifetime
([_marker]) are dropped; a string borrowed from the request is its bytes. *)

From S2P Require Import Prelude Layout Kernel Crates Types.
Local Open Scope Z_scope.

Definition OsStr := list byte.

(** ** Open flags and small enumerations *)

Inductive AccessMode := ReadOnly | WriteOnly | ReadWrite.

Inductive FlockOp := Shared | SharedNonblock | Exclusive | ExclusiveNonblock | Unlock.

Inductive Whence := Whence_Set | Whence_Current | Whence_End | Whence_Data | Whence_Hole.

Inductive ReaddirMode := ReaddirMode_Normal | ReaddirMode_Plus.

Inductive SetAttrTime := Timespec (t : Duration) | Now.

Record OpenOptions := OpenOptions_from_raw { OpenOptions_raw : u32 }.

(** The constants of each [bitflags!] declaration, in order. *)

Definition OpenInFlags_flags : list u32 := [FUSE_OPEN_KILL_SUIDGID].

Definition WriteInFlags_flags : list u32 := [FUSE_WRITE_CACHE; FUSE_WRITE_KILL_SUIDGID].

Definition ReleaseFlags_flags : list u32 := [FUSE_RELEASE_FLUSH; FUSE_RELEASE_FLOCK_UNLOCK].

Definition SetxattrInFlags_flags : list u32 := [FUSE_SETXATTR_ACL_KILL_SGID].

Section open_options.
Context `{L : Libc} `{BF : Bitflags}.

Definition RenameFlags_flags : list u32 := [RENAME_EXCHANGE; RENAME_NOREPLACE; RENAME_WHITEOUT].

Definition FallocateFlags_flags : list u32 :=
  [FALLOC_FL_KEEP_SIZE; FALLOC_FL_UNSHARE_RANGE; FALLOC_FL_PUNCH_HOLE; FALLOC_FL_COLLAPSE_RANGE;
   FALLOC_FL_ZERO_RANGE; FALLOC_FL_INSERT_RANGE].

Definition OpenFlags_flags : list u32 :=
  [O_CLOEXEC; O_DIRECTORY; O_NOFOLLOW; O_TMPFILE; O_TRUNC;
   O_APPEND; O_ASYNC; O_DIRECT; O_DSYNC; O_LARGEFILE; O_NOATIME; O_NONBLOCK; O_NDELAY;
   O_PATH; O_SYNC].

Definition AccessMode_into_raw (m : AccessMode) : i32 :=
  match m with
  | ReadOnly => O_RDONLY
  | WriteOnly => O_WRONLY
  | ReadWrite => O_RDWR
  end.

Definition FlockOp_into_raw (op : FlockOp) : i32 :=
  match op with
  | Shared => LOCK_SH
  | SharedNonblock => Z.lor LOCK_SH LOCK_NB
  | Exclusive => LOCK_EX
  | ExclusiveNonblock => Z.lor LOCK_EX LOCK_NB
  | Unlock => LOCK_UN
  end.

Definition access_mode (self : OpenOptions) : option AccessMode :=
  let m := Z.land (wrap_i 32 self.(OpenOptions_raw)) O_ACCMODE in
  if m =? O_RDONLY then Some ReadOnly
  else if m =? O_WRONLY then Some WriteOnly
  else if m =? O_RDWR then Some ReadWrite
  else None.

Definition OpenOptions_flags (self : OpenOptions) : u32 :=
  bf_from_bits_truncate OpenFlags_flags self.(OpenOptions_raw).

(** [!] on a [u32]. *)
Definition u32_not (x : u32) : u32 := Z.lxor x (2 ^ 32 - 1).

Definition OpenOptions_set_flags (fl : u32) (self : OpenOptions) : OpenOptions :=
  let raw := Z.land self.(OpenOptions_raw) (u32_not (bf_all OpenFlags_flags)) in
  OpenOptions_from_raw (Z.lor raw fl).

(** [std::fs::OpenOptions], the settings the conversion changes. *)
Record fs_OpenOptions := {
  fs_read : bool;
  fs_write : bool;
  fs_custom_flags : i32;
}.

Definition fs_OpenOptions_from (src : OpenOptions) : fs_OpenOptions :=
  let '(r, w) :=
    match access_mode src with
    | Some ReadOnly => (true, false)
    | Some WriteOnly => (false, true)
    | Some ReadWrite => (true, true)
    | None => (false, false)
    end in
  {| fs_read := r; fs_write := w; fs_custom_flags := wrap_i 32 (OpenOptions_flags src) |}.

End open_options.

(** ** Forgets *)

(** [Forget] is [repr(transparent)] over [fuse_forget_one]. *)
Record Forget := { Forget_raw : fuse_forget_one }.

Definition Forget_ino {E} (self : Forget) : outcome E NodeID :=
  match NodeID_from_raw self.(Forget_raw).(forget_one_nodeid) with
  | Some ino => Ok ino
  | None => Panic "invalid nodeid"
  end.

Definition Forget_nlookup (self : Forget) : u64 := self.(Forget_raw).(forget_one_nlookup).

Inductive Forgets :=
  | Forgets_Single (forget : Forget)
  | Forgets_Batch (forgets : list Forget).

Definition Forgets_deref (self : Forgets) : list Forget :=
  match self with
  | Forgets_Single forget => [forget]
  | Forgets_Batch forgets => forgets
  end.

(** ** The payloads *)

Record NotifyReply := {
  NotifyReply_unique : NotifyID;
  NotifyReply_ino : NodeID;
  NotifyReply_offset : u64;
  NotifyReply_size : u32;
}.

Record Interrupt := { Interrupt_unique : RequestID }.

Record Lookup := {
  Lookup_parent : NodeID;
  Lookup_name : OsStr;
}.

Record Getattr := {
  Getattr_ino : NodeID;
  Getattr_fh : option FileID;
}.

Record Setattr := {
  Setattr_ino : NodeID;
  Setattr_fh : option FileID;
  Setattr_mode : option FileMode;
  Setattr_uid : option Uid;
  Setattr_gid : option Gid;
  Setattr_size : option u64;
  Setattr_atime : option SetAttrTime;
  Setattr_mtime : option SetAttrTime;
  Setattr_ctime : option Duration;
  Setattr_lock_owner : option LockOwnerID;
  Setattr_kill_suidgid : bool;
}.

Record Readlink := { Readlink_ino : NodeID }.

Record Symlink := {
  Symlink_parent : NodeID;
  Symlink_name : OsStr;
  Symlink_link : OsStr;
}.

Record Mknod := {
  Mknod_parent : NodeID;
  Mknod_name : OsStr;
  Mknod_mode : FileMode;
  Mknod_rdev : DeviceID;
  Mknod_umask : u32;
}.

Record Mkdir := {
  Mkdir_parent : NodeID;
  Mkdir_name : OsStr;
  Mkdir_permissions : u32;
  Mkdir_umask : u32;
}.

Record Unlink := {
  Unlink_parent : NodeID;
  Unlink_name : OsStr;
}.

Record Rmdir := {
  Rmdir_parent : NodeID;
  Rmdir_name : OsStr;
}.

Record Rename := {
  Rename_parent : NodeID;
  Rename_name : OsStr;
  Rename_newparent : NodeID;
  Rename_newname : OsStr;
  Rename_flags : u32;
}.

Record Link := {
  Link_ino : NodeID;
  Link_newparent : NodeID;
  Link_newname : OsStr;
}.

Record Open := {
  Open_ino : NodeID;
  Open_options : OpenOptions;
  Open_flags : u32;
}.

Record Read := {
  Read_ino : NodeID;
  Read_fh : FileID;
  Read_offset : u64;
  Read_size : u32;
  Read_options : OpenOptions;
  Read_lock_owner : option LockOwnerID;
}.

Record Write := {
  Write_ino : NodeID;
  Write_fh : FileID;
  Write_offset : u64;
  Write_size : u32;
  Write_options : OpenOptions;
  Write_lock_owner : option LockOwnerID;
  Write_flags : u32;
}.

Record Release := {
  Release_ino : NodeID;
  Release_fh : FileID;
  Release_options : OpenOptions;
  Release_lock_owner : LockOwnerID;
  Release_flags : u32;
}.

Record StatfsOp := { StatfsOp_ino : NodeID }.

Record Fsync := {
  Fsync_ino : NodeID;
  Fsync_fh : FileID;
  Fsync_datasync : bool;
}.

Record Setxattr := {
  Setxattr_ino : NodeID;
  Setxattr_name : OsStr;
  Setxattr_value : list byte;
  Setxattr_flags : u32;
  Setxattr_extra_flags : u32;
}.

Record Getxattr := {
  Getxattr_ino : NodeID;
  Getxattr_name : OsStr;
  Getxattr_size : u32;
}.

Record Listxattr := {
  Listxattr_ino : NodeID;
  Listxattr_size : u32;
}.

Record Removexattr := {
  Removexattr_ino : NodeID;
  Removexattr_name : OsStr;
}.

Record Flush := {
  Flush_ino : NodeID;
  Flush_fh : FileID;
  Flush_lock_owner : LockOwnerID;
}.

Record Opendir := {
  Opendir_ino : NodeID;
  Opendir_options : OpenOptions;
}.

Record Readdir := {
  Readdir_ino : NodeID;
  Readdir_fh : FileID;
  Readdir_offset : u64;
  Readdir_size : u32;
  Readdir_mode : ReaddirMode;
}.

Record Releasedir := {
  Releasedir_ino : NodeID;
  Releasedir_fh : FileID;
  Releasedir_options : OpenOptions;
}.

Record Fsyncdir := {
  Fsyncdir_ino : NodeID;
  Fsyncdir_fh : FileID;
  Fsyncdir_datasync : bool;
}.

Record Getlk := {
  Getlk_ino : NodeID;
  Getlk_fh : FileID;
  Getlk_owner : LockOwnerID;
  Getlk_file_lock : FileLock;
}.

Record Setlk := {
  Setlk_ino : NodeID;
  Setlk_fh : FileID;
  Setlk_file_lock : FileLock;
  Setlk_sleep : bool;
}.

Record Flock := {
  Flock_ino : NodeID;
  Flock_fh : FileID;
  Flock_owner : LockOwnerID;
  Flock_op : FlockOp;
}.

Record Access := {
  Access_ino : NodeID;
  Access_mask : u32;
}.

Record Create := {
  Create_parent : NodeID;
  Create_name : OsStr;
  Create_mode : FileMode;
  Create_umask : u32;
  Create_open_options : OpenOptions;
}.

Record Bmap := {
  Bmap_ino : NodeID;
  Bmap_block : u64;
  Bmap_blocksize : u32;
}.

Record Fallocate := {
  Fallocate_ino : NodeID;
  Fallocate_fh : FileID;
  Fallocate_offset : u64;
  Fallocate_length : u64;
  Fallocate_mode : u32;
}.

Record CopyFileRange := {
  CopyFileRange_ino_in : NodeID;
  CopyFileRange_fh_in : FileID;
  CopyFileRange_offset_in : u64;
  CopyFileRange_ino_out : NodeID;
  CopyFileRange_fh_out : FileID;
  CopyFileRange_offset_out : u64;
  CopyFileRange_length : u64;
  CopyFileRange_flags : u64;
}.

Record Poll := {
  Poll_ino : NodeID;
  Poll_fh : FileID;
  Poll_events : u32;
  Poll_kh : option PollWakeupID;
}.

Record Lseek := {
  Lseek_ino : NodeID;
  Lseek_fh : FileID;
  Lseek_offset : u64;
  Lseek_whence : Whence;
}.

(** ** The operation *)

Inductive Operation :=
  | Operation_Lookup (op : Lookup)
  | Operation_Getattr (op : Getattr)
  | Operation_Setattr (op : Setattr)
  | Operation_Readlink (op : Readlink)
  | Operation_Symlink (op : Symlink)
  | Operation_Mknod (op : Mknod)
  | Operation_Mkdir (op : Mkdir)
  | Operation_Unlink (op : Unlink)
  | Operation_Rmdir (op : Rmdir)
  | Operation_Rename (op : Rename)
  | Operation_Link (op : Link)
  | Operation_Open (op : Open)
  | Operation_Read (op : Read)
  | Operation_Write (op : Write)
  | Operation_Release (op : Release)
  | Operation_Statfs (op : StatfsOp)
  | Operation_Fsync (op : Fsync)
  | Operation_Setxattr (op : Setxattr)
  | Operation_Getxattr (op : Getxattr)
  | Operation_Listxattr (op : Listxattr)
  | Operation_Removexattr (op : Removexattr)
  | Operation_Flush (op : Flush)
  | Operation_Opendir (op : Opendir)
  | Operation_Readdir (op : Readdir)
  | Operation_Releasedir (op : Releasedir)
  | Operation_Fsyncdir (op : Fsyncdir)
  | Operation_Getlk (op : Getlk)
  | Operation_Setlk (op : Setlk)
  | Operation_Flock (op : Flock)
  | Operation_Access (op : Access)
  | Operation_Create (op : Create)
  | Operation_Bmap (op : Bmap)
  | Operation_Fallocate (op : Fallocate)
  | Operation_CopyFileRange (op : CopyFileRange)
  | Operation_Poll (op : Poll)
  | Operation_Lseek (op : Lseek)
  | Operation_Forget (op : Forgets)
  | Operation_Interrupt (op : Interrupt)
  | Operation_NotifyReply (op : NotifyReply)
  | Operation_Unsupported.
