(* ===== verification/Op.v ===== *)
(** * Decoding a request: [Operation::decode] of [src/op.rs]

One definition per arm of the [match] on the opcode, and the dispatch.  An arm
reads the argument through the cursor of [Decoder], in the order of the
source: first the structure, then the strings, then the checks on ids. *)

From S2P Require Import Prelude Layout Kernel Crates Types Init Header Decoder Operation.
Local Open Scope Z_scope.

Definition FUSE_INT_REQ_BIT : u64 := 1.

(** [u64 & !m] *)
Definition u64_not (x : u64) : u64 := Z.lxor x (2 ^ 64 - 1).

(** [bool::then_some], and [bool::then] with a closure that can panic. *)
Definition then_some {A} (b : bool) (a : A) : option A := if b then Some a else None.
Definition then_ {E A} (b : bool) (f : outcome E A) : outcome E (option A) :=
  if b then a ← f; Ok (Some a) else Ok None.

(** [a & m != 0] *)
Definition has (a m : Z) : bool := negb (Z.land a m =? 0).

Section op.
Context `{BF : Bitflags} `{ZC : Zerocopy} `{RX : Rustix} `{L : Libc} `{PR : Profile}.
Variable config : KernelConfig.
Variable header : InHeader.

(** [header.nodeid().ok_or(DecodeError::InvalidNodeID)?] and the same check on
a node id of the argument. *)
Definition nodeid : M Decoder DecodeError NodeID :=
  lift (ok_or (InHeader_nodeid header) InvalidNodeID).
Definition node (raw : u64) : M Decoder DecodeError NodeID :=
  lift (ok_or (NodeID_from_raw raw) InvalidNodeID).

Definition decode_forget : M Decoder DecodeError Operation :=
  arg ← fetch (T:=fuse_forget_in);
  ino ← nodeid;
  mret (Operation_Forget (Forgets_Single {| Forget_raw := {|
    forget_one_nodeid := ino.(NodeID_into_raw);
    forget_one_nlookup := arg.(forget_in_nlookup) |} |})).

Definition decode_batch_forget : M Decoder DecodeError Operation :=
  arg ← fetch (T:=fuse_batch_forget_in);
  forgets ← fetch_array (T:=fuse_forget_one) arg.(batch_forget_in_count);
  mret (Operation_Forget (Forgets_Batch (Build_Forget <$> forgets))).

Definition decode_interrupt : M Decoder DecodeError Operation :=
  arg ← fetch (T:=fuse_interrupt_in);
  mret (Operation_Interrupt {|
    Interrupt_unique := RequestID_from_raw
      (Z.land arg.(interrupt_in_unique) (u64_not FUSE_INT_REQ_BIT)) |}).

Definition decode_notify_reply : M Decoder DecodeError Operation :=
  arg ← fetch (T:=fuse_notify_retrieve_in);
  ino ← nodeid;
  mret (Operation_NotifyReply {|
    NotifyReply_unique := NotifyID_from_raw (InHeader_unique header).(RequestID_into_raw);
    NotifyReply_ino := ino;
    NotifyReply_offset := arg.(notify_retrieve_in_offset);
    NotifyReply_size := arg.(notify_retrieve_in_size) |}).

Definition decode_lookup : M Decoder DecodeError Operation :=
  name ← fetch_str;
  parent ← nodeid;
  mret (Operation_Lookup {| Lookup_parent := parent; Lookup_name := name |}).

Definition decode_getattr : M Decoder DecodeError Operation :=
  arg ← fetch (T:=fuse_getattr_in);
  ino ← nodeid;
  mret (Operation_Getattr {|
    Getattr_ino := ino;
    Getattr_fh := then_some (has arg.(getattr_in_getattr_flags) FUSE_GETATTR_FH)
                    (FileID_from_raw arg.(getattr_in_fh)) |}).

(** The time of a [setattr]: now, or a timespec. *)
Definition setattr_time (valid now : u32) (secs : u64) (nanos : u32)
    : outcome DecodeError SetAttrTime :=
  if has valid now then Ok Now
  else t ← Duration_new secs nanos; Ok (Timespec t).

Definition decode_setattr : M Decoder DecodeError Operation :=
  arg ← fetch (T:=fuse_setattr_in);
  ino ← nodeid;
  let valid := arg.(setattr_in_valid) in
  atime ← lift (then_ (has valid FATTR_ATIME)
    (setattr_time valid FATTR_ATIME_NOW arg.(setattr_in_atime) arg.(setattr_in_atimensec)));
  mtime ← lift (then_ (has valid FATTR_MTIME)
    (setattr_time valid FATTR_MTIME_NOW arg.(setattr_in_mtime) arg.(setattr_in_mtimensec)));
  ctime ← lift (then_ (has valid FATTR_CTIME)
    (Duration_new arg.(setattr_in_ctime) arg.(setattr_in_ctimensec)));
  mret (Operation_Setattr {|
    Setattr_ino := ino;
    Setattr_fh := then_some (has valid FATTR_FH) (FileID_from_raw arg.(setattr_in_fh));
    Setattr_mode := then_some (has valid FATTR_MODE) (FileMode_from_raw arg.(setattr_in_mode));
    Setattr_uid := then_some (has valid FATTR_UID) arg.(setattr_in_uid);
    Setattr_gid := then_some (has valid FATTR_GID) arg.(setattr_in_gid);
    Setattr_size := then_some (has valid FATTR_SIZE) arg.(setattr_in_size);
    Setattr_atime := atime;
    Setattr_mtime := mtime;
    Setattr_ctime := ctime;
    Setattr_lock_owner := then_some (has valid FATTR_LOCKOWNER)
                            (LockOwnerID_from_raw arg.(setattr_in_lock_owner));
    Setattr_kill_suidgid := has valid FATTR_KILL_SUIDGID |}).

Definition decode_readlink : M Decoder DecodeError Operation :=
  ino ← nodeid;
  mret (Operation_Readlink {| Readlink_ino := ino |}).

Definition decode_symlink : M Decoder DecodeError Operation :=
  name ← fetch_str;
  link ← fetch_str;
  parent ← nodeid;
  mret (Operation_Symlink {|
    Symlink_parent := parent; Symlink_name := name; Symlink_link := link |}).

Definition decode_mknod_compat_11 : M Decoder DecodeError Operation :=
  arg ← fetch (T:=fuse_mknod_in_compat_11);
  name ← fetch_str;
  parent ← nodeid;
  mret (Operation_Mknod {|
    Mknod_parent := parent;
    Mknod_name := name;
    Mknod_mode := FileMode_from_raw arg.(mknod_in_compat_11_mode);
    Mknod_rdev := DeviceID_from_kernel_dev arg.(mknod_in_compat_11_rdev);
    Mknod_umask := bf_empty |}).

(** [FilePermissions::from_bits_truncate(bits) & FilePermissions::MASK] *)
Definition permissions_mask (bits : u32) : u32 :=
  bf_intersection (FilePermissions_from_bits_truncate bits) FilePermissions_MASK.

Definition decode_mknod : M Decoder DecodeError Operation :=
  arg ← fetch (T:=fuse_mknod_in);
  name ← fetch_str;
  parent ← nodeid;
  mret (Operation_Mknod {|
    Mknod_parent := parent;
    Mknod_name := name;
    Mknod_mode := FileMode_from_raw arg.(mknod_in_mode);
    Mknod_rdev := DeviceID_from_kernel_dev arg.(mknod_in_rdev);
    Mknod_umask := permissions_mask arg.(mknod_in_umask) |}).

Definition decode_mkdir : M Decoder DecodeError Operation :=
  arg ← fetch (T:=fuse_mkdir_in);
  name ← fetch_str;
  parent ← nodeid;
  mret (Operation_Mkdir {|
    Mkdir_parent := parent;
    Mkdir_name := name;
    Mkdir_permissions := FilePermissions_from_bits_truncate arg.(mkdir_in_mode);
    Mkdir_umask := permissions_mask arg.(mkdir_in_umask) |}).

Definition decode_unlink : M Decoder DecodeError Operation :=
  name ← fetch_str;
  parent ← nodeid;
  mret (Operation_Unlink {| Unlink_parent := parent; Unlink_name := name |}).

Definition decode_rmdir : M Decoder DecodeError Operation :=
  name ← fetch_str;
  parent ← nodeid;
  mret (Operation_Rmdir {| Rmdir_parent := parent; Rmdir_name := name |}).

Definition decode_rename : M Decoder DecodeError Operation :=
  arg ← fetch (T:=fuse_rename_in);
  name ← fetch_str;
  newname ← fetch_str;
  parent ← nodeid;
  newparent ← node arg.(rename_in_newdir);
  mret (Operation_Rename {|
    Rename_parent := parent;
    Rename_name := name;
    Rename_newparent := newparent;
    Rename_newname := newname;
    Rename_flags := bf_empty |}).

Definition decode_rename2 : M Decoder DecodeError Operation :=
  arg ← fetch (T:=fuse_rename2_in);
  name ← fetch_str;
  newname ← fetch_str;
  parent ← nodeid;
  newparent ← node arg.(rename2_in_newdir);
  mret (Operation_Rename {|
    Rename_parent := parent;
    Rename_name := name;
    Rename_newparent := newparent;
    Rename_newname := newname;
    Rename_flags := bf_from_bits_truncate RenameFlags_flags arg.(rename2_in_flags) |}).

Definition decode_link : M Decoder DecodeError Operation :=
  arg ← fetch (T:=fuse_link_in);
  newname ← fetch_str;
  ino ← node arg.(link_in_oldnodeid);
  newparent ← nodeid;
  mret (Operation_Link {|
    Link_ino := ino; Link_newparent := newparent; Link_newname := newname |}).

Definition decode_open : M Decoder DecodeError Operation :=
  arg ← fetch (T:=fuse_open_in);
  ino ← nodeid;
  mret (Operation_Open {|
    Open_ino := ino;
    Open_options := OpenOptions_from_raw arg.(open_in_flags);
    Open_flags := bf_from_bits_truncate OpenInFlags_flags arg.(open_in_open_flags) |}).

Definition decode_read : M Decoder DecodeError Operation :=
  arg ← fetch (T:=fuse_read_in);
  ino ← nodeid;
  mret (Operation_Read {|
    Read_ino := ino;
    Read_fh := FileID_from_raw arg.(read_in_fh);
    Read_offset := arg.(read_in_offset);
    Read_size := arg.(read_in_size);
    Read_options := OpenOptions_from_raw arg.(read_in_flags);
    Read_lock_owner := then_some (has arg.(read_in_read_flags) FUSE_READ_LOCKOWNER)
                         (LockOwnerID_from_raw arg.(read_in_lock_owner)) |}).

Definition decode_write_compat_8 : M Decoder DecodeError Operation :=
  arg ← fetch (T:=fuse_write_in_compat_8);
  ino ← nodeid;
  mret (Operation_Write {|
    Write_ino := ino;
    Write_fh := FileID_from_raw arg.(write_in_compat_8_fh);
    Write_offset := arg.(write_in_compat_8_offset);
    Write_size := arg.(write_in_compat_8_size);
    Write_options := OpenOptions_from_raw 0;
    Write_lock_owner := None;
    Write_flags := bf_empty |}).

Definition decode_write : M Decoder DecodeError Operation :=
  arg ← fetch (T:=fuse_write_in);
  ino ← nodeid;
  mret (Operation_Write {|
    Write_ino := ino;
    Write_fh := FileID_from_raw arg.(write_in_fh);
    Write_offset := arg.(write_in_offset);
    Write_size := arg.(write_in_size);
    Write_options := OpenOptions_from_raw arg.(write_in_flags);
    Write_lock_owner := then_some (has arg.(write_in_write_flags) FUSE_WRITE_LOCKOWNER)
                          (LockOwnerID_from_raw arg.(write_in_lock_owner));
    Write_flags := bf_from_bits_truncate WriteInFlags_flags arg.(write_in_write_flags) |}).

Definition decode_release : M Decoder DecodeError Operation :=
  arg ← fetch (T:=fuse_release_in);
  ino ← nodeid;
  mret (Operation_Release {|
    Release_ino := ino;
    Release_fh := FileID_from_raw arg.(release_in_fh);
    Release_options := OpenOptions_from_raw arg.(release_in_flags);
    Release_lock_owner := LockOwnerID_from_raw arg.(release_in_lock_owner);
    Release_flags := bf_from_bits_truncate ReleaseFlags_flags arg.(release_in_release_flags) |}).

Definition decode_statfs : M Decoder DecodeError Operation :=
  ino ← nodeid;
  mret (Operation_Statfs {| StatfsOp_ino := ino |}).

Definition decode_fsync : M Decoder DecodeError Operation :=
  arg ← fetch (T:=fuse_fsync_in);
  ino ← nodeid;
  mret (Operation_Fsync {|
    Fsync_ino := ino;
    Fsync_fh := FileID_from_raw arg.(fsync_in_fh);
    Fsync_datasync := has arg.(fsync_in_fsync_flags) FUSE_FSYNC_FDATASYNC |}).

Definition decode_setxattr_compat_32 : M Decoder DecodeError Operation :=
  arg ← fetch (T:=fuse_setxattr_in_compat_32);
  name ← fetch_str;
  value ← fetch_bytes arg.(setxattr_in_compat_32_size);
  ino ← nodeid;
  mret (Operation_Setxattr {|
    Setxattr_ino := ino;
    Setxattr_name := name;
    Setxattr_value := value.(s_bytes);
    Setxattr_flags := XattrFlags_from_bits_truncate arg.(setxattr_in_compat_32_flags);
    Setxattr_extra_flags := bf_empty |}).

Definition decode_setxattr : M Decoder DecodeError Operation :=
  arg ← fetch (T:=fuse_setxattr_in);
  name ← fetch_str;
  value ← fetch_bytes arg.(setxattr_in_size);
  ino ← nodeid;
  mret (Operation_Setxattr {|
    Setxattr_ino := ino;
    Setxattr_name := name;
    Setxattr_value := value.(s_bytes);
    Setxattr_flags := XattrFlags_from_bits_truncate arg.(setxattr_in_flags);
    Setxattr_extra_flags :=
      bf_from_bits_truncate SetxattrInFlags_flags arg.(setxattr_in_setxattr_flags) |}).

Definition decode_getxattr : M Decoder DecodeError Operation :=
  arg ← fetch (T:=fuse_getxattr_in);
  name ← fetch_str;
  ino ← nodeid;
  mret (Operation_Getxattr {|
    Getxattr_ino := ino; Getxattr_name := name; Getxattr_size := arg.(getxattr_in_size) |}).

Definition decode_listxattr : M Decoder DecodeError Operation :=
  arg ← fetch (T:=fuse_getxattr_in);
  ino ← nodeid;
  mret (Operation_Listxattr {|
    Listxattr_ino := ino; Listxattr_size := arg.(getxattr_in_size) |}).

Definition decode_removexattr : M Decoder DecodeError Operation :=
  name ← fetch_str;
  ino ← nodeid;
  mret (Operation_Removexattr {| Removexattr_ino := ino; Removexattr_name := name |}).

Definition decode_flush : M Decoder DecodeError Operation :=
  arg ← fetch (T:=fuse_flush_in);
  ino ← nodeid;
  mret (Operation_Flush {|
    Flush_ino := ino;
    Flush_fh := FileID_from_raw arg.(flush_in_fh);
    Flush_lock_owner := LockOwnerID_from_raw arg.(flush_in_lock_owner) |}).

Definition decode_opendir : M Decoder DecodeError Operation :=
  arg ← fetch (T:=fuse_open_in);
  ino ← nodeid;
  mret (Operation_Opendir {|
    Opendir_ino := ino; Opendir_options := OpenOptions_from_raw arg.(open_in_flags) |}).

(** [plus] is the test [opcode == FUSE_READDIRPLUS] of the shared arm. *)
Definition decode_readdir (plus : bool) : M Decoder DecodeError Operation :=
  arg ← fetch (T:=fuse_read_in);
  ino ← nodeid;
  mret (Operation_Readdir {|
    Readdir_ino := ino;
    Readdir_fh := FileID_from_raw arg.(read_in_fh);
    Readdir_offset := arg.(read_in_offset);
    Readdir_size := arg.(read_in_size);
    Readdir_mode := if plus then ReaddirMode_Plus else ReaddirMode_Normal |}).

Definition decode_releasedir : M Decoder DecodeError Operation :=
  arg ← fetch (T:=fuse_release_in);
  ino ← nodeid;
  mret (Operation_Releasedir {|
    Releasedir_ino := ino;
    Releasedir_fh := FileID_from_raw arg.(release_in_fh);
    Releasedir_options := OpenOptions_from_raw arg.(release_in_flags) |}).

Definition decode_fsyncdir : M Decoder DecodeError Operation :=
  arg ← fetch (T:=fuse_fsync_in);
  ino ← nodeid;
  mret (Operation_Fsyncdir {|
    Fsyncdir_ino := ino;
    Fsyncdir_fh := FileID_from_raw arg.(fsync_in_fh);
    Fsyncdir_datasync := has arg.(fsync_in_fsync_flags) FUSE_FSYNC_FDATASYNC |}).

(** The [FileLock] of a lock request. *)
Definition decode_file_lock (lk : fuse_file_lock) : M Decoder DecodeError FileLock :=
  raw ← lift (Pid_from_raw (wrap_i 32 lk.(file_lock_pid)));
  pid ← lift (ok_or raw InvalidPid);
  mret {|
    FileLock_typ := lk.(file_lock_typ);
    FileLock_start := lk.(file_lock_start);
    FileLock_end := lk.(file_lock_end);
    FileLock_pid := pid |}.

Definition decode_getlk : M Decoder DecodeError Operation :=
  arg ← fetch (T:=fuse_lk_in);
  ino ← nodeid;
  file_lock ← decode_file_lock arg.(lk_in_lk);
  mret (Operation_Getlk {|
    Getlk_ino := ino;
    Getlk_fh := FileID_from_raw arg.(lk_in_fh);
    Getlk_owner := LockOwnerID_from_raw arg.(lk_in_owner);
    Getlk_file_lock := file_lock |}).

(** The [FlockOp] of a lock type. *)
Definition flock_op (sleep : bool) (typ : i32) : outcome DecodeError FlockOp :=
  if typ =? F_RDLCK then Ok (if sleep then Shared else SharedNonblock)
  else if typ =? F_WRLCK then Ok (if sleep then Exclusive else ExclusiveNonblock)
  else if typ =? F_UNLCK then Ok Unlock
  else Err InvalidFlockType.

(** [sleep] is computed from the opcode: [FUSE_SETLKW] waits. *)
Definition decode_setlk (sleep : bool) : M Decoder DecodeError Operation :=
  arg ← fetch (T:=fuse_lk_in);
  if negb (has arg.(lk_in_lk_flags) FUSE_LK_FLOCK) then
    ino ← nodeid;
    file_lock ← decode_file_lock arg.(lk_in_lk);
    mret (Operation_Setlk {|
      Setlk_ino := ino;
      Setlk_fh := FileID_from_raw arg.(lk_in_fh);
      Setlk_file_lock := file_lock;
      Setlk_sleep := sleep |})
  else
    ino ← nodeid;
    op ← lift (flock_op sleep (wrap_i 32 arg.(lk_in_lk).(file_lock_typ)));
    mret (Operation_Flock {|
      Flock_ino := ino;
      Flock_fh := FileID_from_raw arg.(lk_in_fh);
      Flock_owner := LockOwnerID_from_raw arg.(lk_in_owner);
      Flock_op := op |}).

Definition decode_access : M Decoder DecodeError Operation :=
  arg ← fetch (T:=fuse_access_in);
  ino ← nodeid;
  mret (Operation_Access {|
    Access_ino := ino; Access_mask := permissions_mask arg.(access_in_mask) |}).

Definition decode_create : M Decoder DecodeError Operation :=
  arg ← fetch (T:=fuse_create_in);
  name ← fetch_str;
  parent ← nodeid;
  mret (Operation_Create {|
    Create_parent := parent;
    Create_name := name;
    Create_mode := FileMode_from_raw arg.(create_in_mode);
    Create_umask := permissions_mask arg.(create_in_umask);
    Create_open_options := OpenOptions_from_raw arg.(create_in_flags) |}).

Definition decode_bmap : M Decoder DecodeError Operation :=
  arg ← fetch (T:=fuse_bmap_in);
  ino ← nodeid;
  mret (Operation_Bmap {|
    Bmap_ino := ino;
    Bmap_block := arg.(bmap_in_block);
    Bmap_blocksize := arg.(bmap_in_blocksize) |}).

Definition decode_fallocate : M Decoder DecodeError Operation :=
  arg ← fetch (T:=fuse_fallocate_in);
  ino ← nodeid;
  mret (Operation_Fallocate {|
    Fallocate_ino := ino;
    Fallocate_fh := FileID_from_raw arg.(fallocate_in_fh);
    Fallocate_offset := arg.(fallocate_in_offset);
    Fallocate_length := arg.(fallocate_in_length);
    Fallocate_mode := bf_from_bits_truncate FallocateFlags_flags arg.(fallocate_in_mode) |}).

Definition decode_copy_file_range : M Decoder DecodeError Operation :=
  arg ← fetch (T:=fuse_copy_file_range_in);
  ino_in ← nodeid;
  ino_out ← node arg.(copy_file_range_in_nodeid_out);
  mret (Operation_CopyFileRange {|
    CopyFileRange_ino_in := ino_in;
    CopyFileRange_fh_in := FileID_from_raw arg.(copy_file_range_in_fh_in);
    CopyFileRange_offset_in := arg.(copy_file_range_in_off_in);
    CopyFileRange_ino_out := ino_out;
    CopyFileRange_fh_out := FileID_from_raw arg.(copy_file_range_in_fh_out);
    CopyFileRange_offset_out := arg.(copy_file_range_in_off_out);
    CopyFileRange_length := arg.(copy_file_range_in_len);
    CopyFileRange_flags := arg.(copy_file_range_in_flags) |}).

Definition decode_poll : M Decoder DecodeError Operation :=
  arg ← fetch (T:=fuse_poll_in);
  ino ← nodeid;
  mret (Operation_Poll {|
    Poll_ino := ino;
    Poll_fh := FileID_from_raw arg.(poll_in_fh);
    Poll_events := PollEvents_from_bits_truncate arg.(poll_in_events);
    Poll_kh := then_some (has arg.(poll_in_flags) FUSE_POLL_SCHEDULE_NOTIFY)
                 (PollWakeupID_from_raw arg.(poll_in_kh)) |}).

Definition lseek_whence (whence : i32) : outcome DecodeError Whence :=
  if whence =? SEEK_SET then Ok Whence_Set
  else if whence =? SEEK_CUR then Ok Whence_Current
  else if whence =? SEEK_END then Ok Whence_End
  else if whence =? SEEK_DATA then Ok Whence_Data
  else if whence =? SEEK_HOLE then Ok Whence_Hole
  else Err UnknownLseekWhence.

Definition decode_lseek : M Decoder DecodeError Operation :=
  arg ← fetch (T:=fuse_lseek_in);
  ino ← nodeid;
  whence ← lift (lseek_whence (wrap_i 32 arg.(lseek_in_whence)));
  mret (Operation_Lseek {|
    Lseek_ino := ino;
    Lseek_fh := FileID_from_raw arg.(lseek_in_fh);
    Lseek_offset := arg.(lseek_in_offset);
    Lseek_whence := whence |}).

(** The [match] on the opcode, its arms in the order of the source. *)
Definition decode_opcode (opcode : fuse_opcode) : M Decoder DecodeError Operation :=
  match opcode with
  | FUSE_FORGET => decode_forget
  | FUSE_BATCH_FORGET => decode_batch_forget
  | FUSE_INTERRUPT => decode_interrupt
  | FUSE_NOTIFY_REPLY => decode_notify_reply
  | FUSE_LOOKUP => decode_lookup
  | FUSE_GETATTR => decode_getattr
  | FUSE_SETATTR => decode_setattr
  | FUSE_READLINK => decode_readlink
  | FUSE_SYMLINK => decode_symlink
  | FUSE_MKNOD => if config.(minor) <=? 11 then decode_mknod_compat_11 else decode_mknod
  | FUSE_MKDIR => decode_mkdir
  | FUSE_UNLINK => decode_unlink
  | FUSE_RMDIR => decode_rmdir
  | FUSE_RENAME => decode_rename
  | FUSE_RENAME2 => decode_rename2
  | FUSE_LINK => decode_link
  | FUSE_OPEN => decode_open
  | FUSE_READ => decode_read
  | FUSE_WRITE => if config.(minor) <=? 8 then decode_write_compat_8 else decode_write
  | FUSE_RELEASE => decode_release
  | FUSE_STATFS => decode_statfs
  | FUSE_FSYNC => decode_fsync
  | FUSE_SETXATTR =>
      if (config.(minor) <=? 32) || negb (bf_contains config.(flags) FUSE_SETXATTR_EXT)
      then decode_setxattr_compat_32 else decode_setxattr
  | FUSE_GETXATTR => decode_getxattr
  | FUSE_LISTXATTR => decode_listxattr
  | FUSE_REMOVEXATTR => decode_removexattr
  | FUSE_FLUSH => decode_flush
  | FUSE_OPENDIR => decode_opendir
  | FUSE_READDIR => decode_readdir false
  | FUSE_READDIRPLUS => decode_readdir true
  | FUSE_RELEASEDIR => decode_releasedir
  | FUSE_FSYNCDIR => decode_fsyncdir
  | FUSE_GETLK => decode_getlk
  | FUSE_SETLK => decode_setlk false
  | FUSE_SETLKW => decode_setlk true
  | FUSE_ACCESS => decode_access
  | FUSE_CREATE => decode_create
  | FUSE_BMAP => decode_bmap
  | FUSE_FALLOCATE => decode_fallocate
  | FUSE_COPY_FILE_RANGE => decode_copy_file_range
  | FUSE_POLL => decode_poll
  | FUSE_LSEEK => decode_lseek
  | FUSE_INIT | FUSE_DESTROY => lift (Panic "internal error: entered unreachable code")
  | FUSE_IOCTL | FUSE_SETUPMAPPING | FUSE_REMOVEMAPPING | FUSE_SYNCFS | FUSE_TMPFILE
  | FUSE_STATX | CUSE_INIT => mret Operation_Unsupported
  end.

Definition Operation_decode (arg : slice) : outcome DecodeError Operation :=
  match InHeader_opcode header with
  | Ok opcode => fst (decode_opcode opcode (Decoder_new arg))
  | _ => Ok Operation_Unsupported
  end.

End op.
