(* ===== verification/OpWire.v ===== *)
(** * The wire format of requests

A specification that is independent of the decoder: which operations are well
formed under a configuration, and the request message the kernel side writes
for each of them (opcode, node id and argument bytes). *)

From S2P Require Import Prelude Layout Kernel Crates Types Init Header Decoder Operation.
Local Open Scope Z_scope.

Section wire.
Context `{BF : Bitflags} `{RX : Rustix} `{L : Libc}.
Variable config : KernelConfig.

(** ** Well-formed operations *)

Definition node_ok (n : NodeID) : Prop := is_u 64 n.(NodeID_into_raw) ∧ NodeID_wf n.
Definition name_ok (s : OsStr) : Prop := Byte.x00 ∉ s.
Definition fh_ok (f : FileID) : Prop := is_u 64 f.(FileID_into_raw).
Definition owner_ok (o : LockOwnerID) : Prop := is_u 64 o.(LockOwnerID_value).
Definition options_ok (o : OpenOptions) : Prop := is_u 32 o.(OpenOptions_raw).
Definition opt_ok {A} (P : A → Prop) (o : option A) : Prop :=
  match o with Some a => P a | None => True end.

(** [fl] is a [u32] that holds flags of the list only. *)
Definition flags_ok (known : list u32) (fl : u32) : Prop :=
  is_u 32 fl ∧ Z.land fl (bf_all known) = fl.
Definition mask_ok (fl : u32) : Prop :=
  flags_ok FilePermissions_flags fl ∧ Z.land fl FilePermissions_MASK = fl.
Definition duration_ok (t : Duration) : Prop :=
  is_u 64 t.(as_secs) ∧ 0 ≤ t.(subsec_nanos) < NANOS_PER_SEC.
Definition settime_ok (t : SetAttrTime) : Prop :=
  match t with Timespec t => duration_ok t | Now => True end.
Definition lock_ok (lk : FileLock) : Prop :=
  is_u 32 lk.(FileLock_typ) ∧ is_u 64 lk.(FileLock_start) ∧ is_u 64 lk.(FileLock_end) ∧
  is_i 32 lk.(FileLock_pid) ∧ 0 < lk.(FileLock_pid).

(** The form of [setxattr] the configuration selects. *)
Definition setxattr_is_compat : bool :=
  (config.(minor) <=? 32) || negb (bf_contains config.(flags) FUSE_SETXATTR_EXT).

Definition Operation_wf (o : Operation) : Prop :=
  match o with
  | Operation_Lookup op => node_ok op.(Lookup_parent) ∧ name_ok op.(Lookup_name)
  | Operation_Getattr op => node_ok op.(Getattr_ino) ∧ opt_ok fh_ok op.(Getattr_fh)
  | Operation_Setattr op =>
      node_ok op.(Setattr_ino) ∧ opt_ok fh_ok op.(Setattr_fh)
      ∧ opt_ok (λ m, is_u 32 m.(FileMode_into_raw)) op.(Setattr_mode)
      ∧ opt_ok (is_u 32) op.(Setattr_uid) ∧ opt_ok (is_u 32) op.(Setattr_gid)
      ∧ opt_ok (is_u 64) op.(Setattr_size) ∧ opt_ok settime_ok op.(Setattr_atime)
      ∧ opt_ok settime_ok op.(Setattr_mtime) ∧ opt_ok duration_ok op.(Setattr_ctime)
      ∧ opt_ok owner_ok op.(Setattr_lock_owner)
  | Operation_Readlink op => node_ok op.(Readlink_ino)
  | Operation_Symlink op =>
      node_ok op.(Symlink_parent) ∧ name_ok op.(Symlink_name) ∧ name_ok op.(Symlink_link)
  | Operation_Mknod op =>
      node_ok op.(Mknod_parent) ∧ name_ok op.(Mknod_name)
      ∧ is_u 32 op.(Mknod_mode).(FileMode_into_raw)
      ∧ is_u 32 op.(Mknod_rdev).(DeviceID_into_kernel_dev)
      ∧ (if config.(minor) <=? 11 then op.(Mknod_umask) = 0 else mask_ok op.(Mknod_umask))
  | Operation_Mkdir op =>
      node_ok op.(Mkdir_parent) ∧ name_ok op.(Mkdir_name)
      ∧ flags_ok FilePermissions_flags op.(Mkdir_permissions) ∧ mask_ok op.(Mkdir_umask)
  | Operation_Unlink op => node_ok op.(Unlink_parent) ∧ name_ok op.(Unlink_name)
  | Operation_Rmdir op => node_ok op.(Rmdir_parent) ∧ name_ok op.(Rmdir_name)
  | Operation_Rename op =>
      node_ok op.(Rename_parent) ∧ name_ok op.(Rename_name) ∧ node_ok op.(Rename_newparent)
      ∧ name_ok op.(Rename_newname) ∧ flags_ok RenameFlags_flags op.(Rename_flags)
  | Operation_Link op =>
      node_ok op.(Link_ino) ∧ node_ok op.(Link_newparent) ∧ name_ok op.(Link_newname)
  | Operation_Open op =>
      node_ok op.(Open_ino) ∧ options_ok op.(Open_options)
      ∧ flags_ok OpenInFlags_flags op.(Open_flags)
  | Operation_Read op =>
      node_ok op.(Read_ino) ∧ fh_ok op.(Read_fh) ∧ is_u 64 op.(Read_offset)
      ∧ is_u 32 op.(Read_size) ∧ options_ok op.(Read_options) ∧ opt_ok owner_ok op.(Read_lock_owner)
  | Operation_Write op =>
      node_ok op.(Write_ino) ∧ fh_ok op.(Write_fh) ∧ is_u 64 op.(Write_offset)
      ∧ is_u 32 op.(Write_size)
      ∧ (if config.(minor) <=? 8
         then op.(Write_options) = OpenOptions_from_raw 0 ∧ op.(Write_lock_owner) = None
              ∧ op.(Write_flags) = 0
         else options_ok op.(Write_options) ∧ opt_ok owner_ok op.(Write_lock_owner)
              ∧ flags_ok WriteInFlags_flags op.(Write_flags))
  | Operation_Release op =>
      node_ok op.(Release_ino) ∧ fh_ok op.(Release_fh) ∧ options_ok op.(Release_options)
      ∧ owner_ok op.(Release_lock_owner) ∧ flags_ok ReleaseFlags_flags op.(Release_flags)
  | Operation_Statfs op => node_ok op.(StatfsOp_ino)
  | Operation_Fsync op => node_ok op.(Fsync_ino) ∧ fh_ok op.(Fsync_fh)
  | Operation_Setxattr op =>
      node_ok op.(Setxattr_ino) ∧ name_ok op.(Setxattr_name)
      ∧ is_u 32 (Z.of_nat (length op.(Setxattr_value)))
      ∧ is_u 32 op.(Setxattr_flags)
      ∧ XattrFlags_from_bits_truncate op.(Setxattr_flags) = op.(Setxattr_flags)
      ∧ (if setxattr_is_compat then op.(Setxattr_extra_flags) = 0
         else flags_ok SetxattrInFlags_flags op.(Setxattr_extra_flags))
  | Operation_Getxattr op =>
      node_ok op.(Getxattr_ino) ∧ name_ok op.(Getxattr_name) ∧ is_u 32 op.(Getxattr_size)
  | Operation_Listxattr op => node_ok op.(Listxattr_ino) ∧ is_u 32 op.(Listxattr_size)
  | Operation_Removexattr op => node_ok op.(Removexattr_ino) ∧ name_ok op.(Removexattr_name)
  | Operation_Flush op =>
      node_ok op.(Flush_ino) ∧ fh_ok op.(Flush_fh) ∧ owner_ok op.(Flush_lock_owner)
  | Operation_Opendir op => node_ok op.(Opendir_ino) ∧ options_ok op.(Opendir_options)
  | Operation_Readdir op =>
      node_ok op.(Readdir_ino) ∧ fh_ok op.(Readdir_fh) ∧ is_u 64 op.(Readdir_offset)
      ∧ is_u 32 op.(Readdir_size)
  | Operation_Releasedir op =>
      node_ok op.(Releasedir_ino) ∧ fh_ok op.(Releasedir_fh) ∧ options_ok op.(Releasedir_options)
  | Operation_Fsyncdir op => node_ok op.(Fsyncdir_ino) ∧ fh_ok op.(Fsyncdir_fh)
  | Operation_Getlk op =>
      node_ok op.(Getlk_ino) ∧ fh_ok op.(Getlk_fh) ∧ owner_ok op.(Getlk_owner)
      ∧ lock_ok op.(Getlk_file_lock)
  | Operation_Setlk op =>
      node_ok op.(Setlk_ino) ∧ fh_ok op.(Setlk_fh) ∧ lock_ok op.(Setlk_file_lock)
  | Operation_Flock op => node_ok op.(Flock_ino) ∧ fh_ok op.(Flock_fh) ∧ owner_ok op.(Flock_owner)
  | Operation_Access op => node_ok op.(Access_ino) ∧ mask_ok op.(Access_mask)
  | Operation_Create op =>
      node_ok op.(Create_parent) ∧ name_ok op.(Create_name)
      ∧ is_u 32 op.(Create_mode).(FileMode_into_raw) ∧ mask_ok op.(Create_umask)
      ∧ options_ok op.(Create_open_options)
  | Operation_Bmap op =>
      node_ok op.(Bmap_ino) ∧ is_u 64 op.(Bmap_block) ∧ is_u 32 op.(Bmap_blocksize)
  | Operation_Fallocate op =>
      node_ok op.(Fallocate_ino) ∧ fh_ok op.(Fallocate_fh) ∧ is_u 64 op.(Fallocate_offset)
      ∧ is_u 64 op.(Fallocate_length) ∧ flags_ok FallocateFlags_flags op.(Fallocate_mode)
  | Operation_CopyFileRange op =>
      node_ok op.(CopyFileRange_ino_in) ∧ fh_ok op.(CopyFileRange_fh_in)
      ∧ is_u 64 op.(CopyFileRange_offset_in) ∧ node_ok op.(CopyFileRange_ino_out)
      ∧ fh_ok op.(CopyFileRange_fh_out) ∧ is_u 64 op.(CopyFileRange_offset_out)
      ∧ is_u 64 op.(CopyFileRange_length) ∧ is_u 64 op.(CopyFileRange_flags)
  | Operation_Poll op =>
      node_ok op.(Poll_ino) ∧ fh_ok op.(Poll_fh) ∧ flags_ok PollEvents_flags op.(Poll_events)
      ∧ opt_ok (λ kh, is_u 64 kh.(PollWakeupID_into_raw)) op.(Poll_kh)
  | Operation_Lseek op => node_ok op.(Lseek_ino) ∧ fh_ok op.(Lseek_fh) ∧ is_u 64 op.(Lseek_offset)
  | Operation_Forget (Forgets_Single f) =>
      pod_wf f.(Forget_raw) ∧ f.(Forget_raw).(forget_one_nodeid) ≠ 0
  | Operation_Forget (Forgets_Batch fs) =>
      Forall (λ f, pod_wf f.(Forget_raw)) fs ∧ is_u 32 (Z.of_nat (length fs))
  | Operation_Interrupt op =>
      is_u 64 op.(Interrupt_unique).(RequestID_into_raw)
      ∧ Z.testbit op.(Interrupt_unique).(RequestID_into_raw) 0 = false
  | Operation_NotifyReply op =>
      node_ok op.(NotifyReply_ino) ∧ is_u 64 op.(NotifyReply_offset) ∧ is_u 32 op.(NotifyReply_size)
  | Operation_Unsupported => True
  end.

(** ** The opcodes that carry an operation *)

Definition opcodes_of (o : Operation) : list fuse_opcode :=
  match o with
  | Operation_Lookup _ => [FUSE_LOOKUP]
  | Operation_Getattr _ => [FUSE_GETATTR]
  | Operation_Setattr _ => [FUSE_SETATTR]
  | Operation_Readlink _ => [FUSE_READLINK]
  | Operation_Symlink _ => [FUSE_SYMLINK]
  | Operation_Mknod _ => [FUSE_MKNOD]
  | Operation_Mkdir _ => [FUSE_MKDIR]
  | Operation_Unlink _ => [FUSE_UNLINK]
  | Operation_Rmdir _ => [FUSE_RMDIR]
  | Operation_Rename _ => [FUSE_RENAME; FUSE_RENAME2]
  | Operation_Link _ => [FUSE_LINK]
  | Operation_Open _ => [FUSE_OPEN]
  | Operation_Read _ => [FUSE_READ]
  | Operation_Write _ => [FUSE_WRITE]
  | Operation_Release _ => [FUSE_RELEASE]
  | Operation_Statfs _ => [FUSE_STATFS]
  | Operation_Fsync _ => [FUSE_FSYNC]
  | Operation_Setxattr _ => [FUSE_SETXATTR]
  | Operation_Getxattr _ => [FUSE_GETXATTR]
  | Operation_Listxattr _ => [FUSE_LISTXATTR]
  | Operation_Removexattr _ => [FUSE_REMOVEXATTR]
  | Operation_Flush _ => [FUSE_FLUSH]
  | Operation_Opendir _ => [FUSE_OPENDIR]
  | Operation_Readdir op =>
      match op.(Readdir_mode) with
      | ReaddirMode_Normal => [FUSE_READDIR]
      | ReaddirMode_Plus => [FUSE_READDIRPLUS]
      end
  | Operation_Releasedir _ => [FUSE_RELEASEDIR]
  | Operation_Fsyncdir _ => [FUSE_FSYNCDIR]
  | Operation_Getlk _ => [FUSE_GETLK]
  | Operation_Setlk op => if op.(Setlk_sleep) then [FUSE_SETLKW] else [FUSE_SETLK]
  | Operation_Flock op =>
      match op.(Flock_op) with
      | Shared | Exclusive => [FUSE_SETLKW]
      | SharedNonblock | ExclusiveNonblock => [FUSE_SETLK]
      | Unlock => [FUSE_SETLK; FUSE_SETLKW]
      end
  | Operation_Access _ => [FUSE_ACCESS]
  | Operation_Create _ => [FUSE_CREATE]
  | Operation_Bmap _ => [FUSE_BMAP]
  | Operation_Fallocate _ => [FUSE_FALLOCATE]
  | Operation_CopyFileRange _ => [FUSE_COPY_FILE_RANGE]
  | Operation_Poll _ => [FUSE_POLL]
  | Operation_Lseek _ => [FUSE_LSEEK]
  | Operation_Forget (Forgets_Single _) => [FUSE_FORGET]
  | Operation_Forget (Forgets_Batch _) => [FUSE_BATCH_FORGET]
  | Operation_Interrupt _ => [FUSE_INTERRUPT]
  | Operation_NotifyReply _ => [FUSE_NOTIFY_REPLY]
  | Operation_Unsupported =>
      [FUSE_IOCTL; FUSE_SETUPMAPPING; FUSE_REMOVEMAPPING; FUSE_SYNCFS; FUSE_TMPFILE; FUSE_STATX;
       CUSE_INIT]
  end.

(** ** The request message

What the kernel writes.  [rq_nodeid] and [rq_unique] are [None] where the
operation does not depend on the field. *)

Record request := {
  rq_opcode : fuse_opcode;
  rq_nodeid : option u64;
  rq_unique : option u64;
  rq_arg : list byte;
}.

Definition cstring (s : OsStr) : list byte := s ++ [Byte.x00].
Definition flag (b : bool) (m : u32) : u32 := if b then m else 0.
Definition is_some {A} (o : option A) : bool := match o with Some _ => true | None => false end.
Definition or0 {A} (f : A → Z) (o : option A) : Z := match o with Some a => f a | None => 0 end.

Definition mk (opcode : fuse_opcode) (n : NodeID) (arg : list byte) : request :=
  {| rq_opcode := opcode; rq_nodeid := Some n.(NodeID_into_raw); rq_unique := None; rq_arg := arg |}.

Definition settime (t : option SetAttrTime) : Duration :=
  match t with Some (Timespec t) => t | _ => Duration_ZERO end.
Definition settime_now (t : option SetAttrTime) : bool :=
  match t with Some Now => true | _ => false end.

Definition setattr_valid (op : Setattr) : u32 :=
  foldr Z.lor 0
    [ flag (is_some op.(Setattr_mode)) FATTR_MODE;
      flag (is_some op.(Setattr_uid)) FATTR_UID;
      flag (is_some op.(Setattr_gid)) FATTR_GID;
      flag (is_some op.(Setattr_size)) FATTR_SIZE;
      flag (is_some op.(Setattr_atime)) FATTR_ATIME;
      flag (is_some op.(Setattr_mtime)) FATTR_MTIME;
      flag (is_some op.(Setattr_fh)) FATTR_FH;
      flag (settime_now op.(Setattr_atime)) FATTR_ATIME_NOW;
      flag (settime_now op.(Setattr_mtime)) FATTR_MTIME_NOW;
      flag (is_some op.(Setattr_lock_owner)) FATTR_LOCKOWNER;
      flag (is_some op.(Setattr_ctime)) FATTR_CTIME;
      flag op.(Setattr_kill_suidgid) FATTR_KILL_SUIDGID ].

Definition setattr_arg (op : Setattr) : fuse_setattr_in := {|
  setattr_in_valid := setattr_valid op;
  setattr_in_padding := 0;
  setattr_in_fh := or0 FileID_into_raw op.(Setattr_fh);
  setattr_in_size := or0 id op.(Setattr_size);
  setattr_in_lock_owner := or0 LockOwnerID_value op.(Setattr_lock_owner);
  setattr_in_atime := (settime op.(Setattr_atime)).(as_secs);
  setattr_in_mtime := (settime op.(Setattr_mtime)).(as_secs);
  setattr_in_ctime := or0 as_secs op.(Setattr_ctime);
  setattr_in_atimensec := (settime op.(Setattr_atime)).(subsec_nanos);
  setattr_in_mtimensec := (settime op.(Setattr_mtime)).(subsec_nanos);
  setattr_in_ctimensec := or0 subsec_nanos op.(Setattr_ctime);
  setattr_in_mode := or0 FileMode_into_raw op.(Setattr_mode);
  setattr_in_unused4 := 0;
  setattr_in_uid := or0 id op.(Setattr_uid);
  setattr_in_gid := or0 id op.(Setattr_gid);
  setattr_in_unused5 := 0;
|}.

Definition lk_arg (fh owner : u64) (lk : FileLock) (lk_flags : u32) : fuse_lk_in := {|
  lk_in_fh := fh;
  lk_in_owner := owner;
  lk_in_lk := {|
    file_lock_start := lk.(FileLock_start);
    file_lock_end := lk.(FileLock_end);
    file_lock_typ := lk.(FileLock_typ);
    file_lock_pid := wrap_u 32 lk.(FileLock_pid) |};
  lk_in_lk_flags := lk_flags;
  lk_in_padding := 0;
|}.

(** The lock type of a [flock], and whether the caller waits. *)
Definition flock_typ (op : FlockOp) : i32 * bool :=
  match op with
  | Shared => (F_RDLCK, true)
  | SharedNonblock => (F_RDLCK, false)
  | Exclusive => (F_WRLCK, true)
  | ExclusiveNonblock => (F_WRLCK, false)
  | Unlock => (F_UNLCK, false)
  end.

Definition whence_raw (w : Whence) : i32 :=
  match w with
  | Whence_Set => SEEK_SET
  | Whence_Current => SEEK_CUR
  | Whence_End => SEEK_END
  | Whence_Data => SEEK_DATA
  | Whence_Hole => SEEK_HOLE
  end.

Definition setxattr_arg (op : Setxattr) : list byte :=
  let size := Z.of_nat (length op.(Setxattr_value)) in
  (if setxattr_is_compat
   then pod_encode {| setxattr_in_compat_32_size := size;
                      setxattr_in_compat_32_flags := op.(Setxattr_flags) |}
   else pod_encode {| setxattr_in_size := size;
                      setxattr_in_flags := op.(Setxattr_flags);
                      setxattr_in_setxattr_flags := op.(Setxattr_extra_flags);
                      setxattr_in_padding := 0 |})
  ++ cstring op.(Setxattr_name) ++ op.(Setxattr_value).

Definition mknod_arg (op : Mknod) : list byte :=
  (if config.(minor) <=? 11
   then pod_encode {| mknod_in_compat_11_mode := op.(Mknod_mode).(FileMode_into_raw);
                      mknod_in_compat_11_rdev := op.(Mknod_rdev).(DeviceID_into_kernel_dev) |}
   else pod_encode {| mknod_in_mode := op.(Mknod_mode).(FileMode_into_raw);
                      mknod_in_rdev := op.(Mknod_rdev).(DeviceID_into_kernel_dev);
                      mknod_in_umask := op.(Mknod_umask);
                      mknod_in_padding := 0 |})
  ++ cstring op.(Mknod_name).

Definition write_arg (op : Write) : list byte :=
  if config.(minor) <=? 8
  then pod_encode {| write_in_compat_8_fh := op.(Write_fh).(FileID_into_raw);
                     write_in_compat_8_offset := op.(Write_offset);
                     write_in_compat_8_size := op.(Write_size);
                     write_in_compat_8_write_flags := 0 |}
  else pod_encode {| write_in_fh := op.(Write_fh).(FileID_into_raw);
                     write_in_offset := op.(Write_offset);
                     write_in_size := op.(Write_size);
                     write_in_write_flags :=
                       Z.lor op.(Write_flags) (flag (is_some op.(Write_lock_owner)) FUSE_WRITE_LOCKOWNER);
                     write_in_lock_owner := or0 LockOwnerID_value op.(Write_lock_owner);
                     write_in_flags := op.(Write_options).(OpenOptions_raw);
                     write_in_padding := 0 |}.

(** A [rename] without flags is also sent as [FUSE_RENAME] ([rename1]). *)
Definition encode_op (rename1 : bool) (o : Operation) : option request :=
  match o with
  | Operation_Lookup op => Some (mk FUSE_LOOKUP op.(Lookup_parent) (cstring op.(Lookup_name)))
  | Operation_Getattr op => Some (mk FUSE_GETATTR op.(Getattr_ino) (pod_encode {|
      getattr_in_getattr_flags := flag (is_some op.(Getattr_fh)) FUSE_GETATTR_FH;
      getattr_in_dummy := 0;
      getattr_in_fh := or0 FileID_into_raw op.(Getattr_fh) |}))
  | Operation_Setattr op => Some (mk FUSE_SETATTR op.(Setattr_ino) (pod_encode (setattr_arg op)))
  | Operation_Readlink op => Some (mk FUSE_READLINK op.(Readlink_ino) [])
  | Operation_Symlink op =>
      Some (mk FUSE_SYMLINK op.(Symlink_parent)
        (cstring op.(Symlink_name) ++ cstring op.(Symlink_link)))
  | Operation_Mknod op => Some (mk FUSE_MKNOD op.(Mknod_parent) (mknod_arg op))
  | Operation_Mkdir op => Some (mk FUSE_MKDIR op.(Mkdir_parent) (pod_encode {|
      mkdir_in_mode := op.(Mkdir_permissions);
      mkdir_in_umask := op.(Mkdir_umask) |} ++ cstring op.(Mkdir_name)))
  | Operation_Unlink op => Some (mk FUSE_UNLINK op.(Unlink_parent) (cstring op.(Unlink_name)))
  | Operation_Rmdir op => Some (mk FUSE_RMDIR op.(Rmdir_parent) (cstring op.(Rmdir_name)))
  | Operation_Rename op =>
      let names := cstring op.(Rename_name) ++ cstring op.(Rename_newname) in
      let newdir := op.(Rename_newparent).(NodeID_into_raw) in
      if rename1 && (op.(Rename_flags) =? 0)
      then Some (mk FUSE_RENAME op.(Rename_parent)
                  (pod_encode {| rename_in_newdir := newdir |} ++ names))
      else Some (mk FUSE_RENAME2 op.(Rename_parent)
                  (pod_encode {| rename2_in_newdir := newdir;
                                 rename2_in_flags := op.(Rename_flags);
                                 rename2_in_padding := 0 |} ++ names))
  | Operation_Link op => Some (mk FUSE_LINK op.(Link_newparent)
      (pod_encode {| link_in_oldnodeid := op.(Link_ino).(NodeID_into_raw) |}
       ++ cstring op.(Link_newname)))
  | Operation_Open op => Some (mk FUSE_OPEN op.(Open_ino) (pod_encode {|
      open_in_flags := op.(Open_options).(OpenOptions_raw);
      open_in_open_flags := op.(Open_flags) |}))
  | Operation_Read op => Some (mk FUSE_READ op.(Read_ino) (pod_encode {|
      read_in_fh := op.(Read_fh).(FileID_into_raw);
      read_in_offset := op.(Read_offset);
      read_in_size := op.(Read_size);
      read_in_read_flags := flag (is_some op.(Read_lock_owner)) FUSE_READ_LOCKOWNER;
      read_in_lock_owner := or0 LockOwnerID_value op.(Read_lock_owner);
      read_in_flags := op.(Read_options).(OpenOptions_raw);
      read_in_padding := 0 |}))
  | Operation_Write op => Some (mk FUSE_WRITE op.(Write_ino) (write_arg op))
  | Operation_Release op => Some (mk FUSE_RELEASE op.(Release_ino) (pod_encode {|
      release_in_fh := op.(Release_fh).(FileID_into_raw);
      release_in_flags := op.(Release_options).(OpenOptions_raw);
      release_in_release_flags := op.(Release_flags);
      release_in_lock_owner := op.(Release_lock_owner).(LockOwnerID_value) |}))
  | Operation_Statfs op => Some (mk FUSE_STATFS op.(StatfsOp_ino) [])
  | Operation_Fsync op => Some (mk FUSE_FSYNC op.(Fsync_ino) (pod_encode {|
      fsync_in_fh := op.(Fsync_fh).(FileID_into_raw);
      fsync_in_fsync_flags := flag op.(Fsync_datasync) FUSE_FSYNC_FDATASYNC;
      fsync_in_padding := 0 |}))
  | Operation_Setxattr op => Some (mk FUSE_SETXATTR op.(Setxattr_ino) (setxattr_arg op))
  | Operation_Getxattr op => Some (mk FUSE_GETXATTR op.(Getxattr_ino) (pod_encode {|
      getxattr_in_size := op.(Getxattr_size);
      getxattr_in_padding := 0 |} ++ cstring op.(Getxattr_name)))
  | Operation_Listxattr op => Some (mk FUSE_LISTXATTR op.(Listxattr_ino) (pod_encode {|
      getxattr_in_size := op.(Listxattr_size);
      getxattr_in_padding := 0 |}))
  | Operation_Removexattr op =>
      Some (mk FUSE_REMOVEXATTR op.(Removexattr_ino) (cstring op.(Removexattr_name)))
  | Operation_Flush op => Some (mk FUSE_FLUSH op.(Flush_ino) (pod_encode {|
      flush_in_fh := op.(Flush_fh).(FileID_into_raw);
      flush_in_unused := 0;
      flush_in_padding := 0;
      flush_in_lock_owner := op.(Flush_lock_owner).(LockOwnerID_value) |}))
  | Operation_Opendir op => Some (mk FUSE_OPENDIR op.(Opendir_ino) (pod_encode {|
      open_in_flags := op.(Opendir_options).(OpenOptions_raw);
      open_in_open_flags := 0 |}))
  | Operation_Readdir op =>
      Some (mk (match op.(Readdir_mode) with
                | ReaddirMode_Normal => FUSE_READDIR
                | ReaddirMode_Plus => FUSE_READDIRPLUS
                end) op.(Readdir_ino) (pod_encode {|
      read_in_fh := op.(Readdir_fh).(FileID_into_raw);
      read_in_offset := op.(Readdir_offset);
      read_in_size := op.(Readdir_size);
      read_in_read_flags := 0;
      read_in_lock_owner := 0;
      read_in_flags := 0;
      read_in_padding := 0 |}))
  | Operation_Releasedir op => Some (mk FUSE_RELEASEDIR op.(Releasedir_ino) (pod_encode {|
      release_in_fh := op.(Releasedir_fh).(FileID_into_raw);
      release_in_flags := op.(Releasedir_options).(OpenOptions_raw);
      release_in_release_flags := 0;
      release_in_lock_owner := 0 |}))
  | Operation_Fsyncdir op => Some (mk FUSE_FSYNCDIR op.(Fsyncdir_ino) (pod_encode {|
      fsync_in_fh := op.(Fsyncdir_fh).(FileID_into_raw);
      fsync_in_fsync_flags := flag op.(Fsyncdir_datasync) FUSE_FSYNC_FDATASYNC;
      fsync_in_padding := 0 |}))
  | Operation_Getlk op => Some (mk FUSE_GETLK op.(Getlk_ino) (pod_encode
      (lk_arg op.(Getlk_fh).(FileID_into_raw) op.(Getlk_owner).(LockOwnerID_value)
         op.(Getlk_file_lock) 0)))
  | Operation_Setlk op =>
      Some (mk (if op.(Setlk_sleep) then FUSE_SETLKW else FUSE_SETLK) op.(Setlk_ino)
        (pod_encode (lk_arg op.(Setlk_fh).(FileID_into_raw) 0 op.(Setlk_file_lock) 0)))
  | Operation_Flock op =>
      let (typ, sleep) := flock_typ op.(Flock_op) in
      Some (mk (if sleep then FUSE_SETLKW else FUSE_SETLK) op.(Flock_ino)
        (pod_encode (lk_arg op.(Flock_fh).(FileID_into_raw) op.(Flock_owner).(LockOwnerID_value)
           {| FileLock_typ := typ; FileLock_start := 0; FileLock_end := 0; FileLock_pid := 0 |}
           FUSE_LK_FLOCK)))
  | Operation_Access op => Some (mk FUSE_ACCESS op.(Access_ino) (pod_encode {|
      access_in_mask := op.(Access_mask);
      access_in_padding := 0 |}))
  | Operation_Create op => Some (mk FUSE_CREATE op.(Create_parent) (pod_encode {|
      create_in_flags := op.(Create_open_options).(OpenOptions_raw);
      create_in_mode := op.(Create_mode).(FileMode_into_raw);
      create_in_umask := op.(Create_umask);
      create_in_open_flags := 0 |} ++ cstring op.(Create_name)))
  | Operation_Bmap op => Some (mk FUSE_BMAP op.(Bmap_ino) (pod_encode {|
      bmap_in_block := op.(Bmap_block);
      bmap_in_blocksize := op.(Bmap_blocksize);
      bmap_in_padding := 0 |}))
  | Operation_Fallocate op => Some (mk FUSE_FALLOCATE op.(Fallocate_ino) (pod_encode {|
      fallocate_in_fh := op.(Fallocate_fh).(FileID_into_raw);
      fallocate_in_offset := op.(Fallocate_offset);
      fallocate_in_length := op.(Fallocate_length);
      fallocate_in_mode := op.(Fallocate_mode);
      fallocate_in_padding := 0 |}))
  | Operation_CopyFileRange op =>
      Some (mk FUSE_COPY_FILE_RANGE op.(CopyFileRange_ino_in) (pod_encode {|
      copy_file_range_in_fh_in := op.(CopyFileRange_fh_in).(FileID_into_raw);
      copy_file_range_in_off_in := op.(CopyFileRange_offset_in);
      copy_file_range_in_nodeid_out := op.(CopyFileRange_ino_out).(NodeID_into_raw);
      copy_file_range_in_fh_out := op.(CopyFileRange_fh_out).(FileID_into_raw);
      copy_file_range_in_off_out := op.(CopyFileRange_offset_out);
      copy_file_range_in_len := op.(CopyFileRange_length);
      copy_file_range_in_flags := op.(CopyFileRange_flags) |}))
  | Operation_Poll op => Some (mk FUSE_POLL op.(Poll_ino) (pod_encode {|
      poll_in_fh := op.(Poll_fh).(FileID_into_raw);
      poll_in_kh := or0 PollWakeupID_into_raw op.(Poll_kh);
      poll_in_flags := flag (is_some op.(Poll_kh)) FUSE_POLL_SCHEDULE_NOTIFY;
      poll_in_events := op.(Poll_events) |}))
  | Operation_Lseek op => Some (mk FUSE_LSEEK op.(Lseek_ino) (pod_encode {|
      lseek_in_fh := op.(Lseek_fh).(FileID_into_raw);
      lseek_in_offset := op.(Lseek_offset);
      lseek_in_whence := wrap_u 32 (whence_raw op.(Lseek_whence));
      lseek_in_padding := 0 |}))
  | Operation_Forget (Forgets_Single f) => Some {|
      rq_opcode := FUSE_FORGET; rq_nodeid := Some f.(Forget_raw).(forget_one_nodeid);
      rq_unique := None;
      rq_arg := pod_encode {| forget_in_nlookup := f.(Forget_raw).(forget_one_nlookup) |} |}
  | Operation_Forget (Forgets_Batch fs) => Some {|
      rq_opcode := FUSE_BATCH_FORGET; rq_nodeid := None; rq_unique := None;
      rq_arg := pod_encode {| batch_forget_in_count := Z.of_nat (length fs);
                              batch_forget_in_dummy := 0 |}
                ++ mjoin (pod_encode <$> (Forget_raw <$> fs)) |}
  | Operation_Interrupt op => Some {|
      rq_opcode := FUSE_INTERRUPT; rq_nodeid := None; rq_unique := None;
      rq_arg := pod_encode {| interrupt_in_unique := op.(Interrupt_unique).(RequestID_into_raw) |} |}
  | Operation_NotifyReply op => Some {|
      rq_opcode := FUSE_NOTIFY_REPLY;
      rq_nodeid := Some op.(NotifyReply_ino).(NodeID_into_raw);
      rq_unique := Some op.(NotifyReply_unique).(NotifyID_into_raw);
      rq_arg := pod_encode {|
        notify_retrieve_in_dummy1 := 0;
        notify_retrieve_in_offset := op.(NotifyReply_offset);
        notify_retrieve_in_size := op.(NotifyReply_size);
        notify_retrieve_in_dummy2 := 0;
        notify_retrieve_in_dummy3 := 0;
        notify_retrieve_in_dummy4 := 0 |} |}
  | Operation_Unsupported => None
  end.

(** The header of a message that carries the request. *)
Definition header_of (rq : request) (h : InHeader) : Prop :=
  h.(raw).(in_header_opcode) = discr rq.(rq_opcode) ∧
  opt_ok (λ n, h.(raw).(in_header_nodeid) = n) rq.(rq_nodeid) ∧
  opt_ok (λ u, h.(raw).(in_header_unique) = u) rq.(rq_unique).

End wire.
