(* ===== verification/OpSpec.v ===== *)
(** * What [Operation::decode] guarantees

The decoder against the wire format of [OpWire]: it inverts the kernel's
encoding, everything it returns is well formed, and its failures are the ones
listed here. *)

From S2P Require Import Prelude Layout Kernel Crates Types Init Header Decoder Operation Op OpWire.
Local Open Scope Z_scope.

Create HintDb roundtrips.

(** ** Running the decoder monad *)

Lemma bind_ok {S E A B} (m : M S E A) (f : A → M S E B) s a s' :
  m s = (Ok a, s') → (m ≫= f) s = f a s'.
Proof. intros Hm. unfold mbind, M_bind. by rewrite Hm. Qed.

Lemma bind_err {S E A B} (m : M S E A) (f : A → M S E B) s e s' :
  m s = (Err e, s') → (m ≫= f) s = (Err e, s').
Proof. intros Hm. unfold mbind, M_bind. by rewrite Hm. Qed.

Lemma lift_ok {S E A} (a : A) (s : S) : lift (E:=E) (Ok a) s = (Ok a, s).
Proof. done. Qed.

Lemma aligned_to_divide addr a :
  aligned_to addr 8 = true → (0 < a)%nat → (8 mod a =? 0)%nat = true →
  aligned_to addr a = true.
Proof.
  unfold aligned_to. intros H8%Z.eqb_eq Ha Hd%Nat.eqb_eq. apply Z.eqb_eq.
  apply Z.mod_divide in H8; [|lia]. apply Z.mod_divide; [lia|].
  transitivity (Z.of_nat 8); [|done]. apply Nat.Lcm0.mod_divide in Hd as [k Hk].
  exists (Z.of_nat k). lia.
Qed.

Lemma aligned_to_add addr n :
  aligned_to addr 8 = true → n mod 8 = 0 → aligned_to (addr + n) 8 = true.
Proof.
  unfold aligned_to. intros Ha%Z.eqb_eq Hn. apply Z.eqb_eq. change (Z.of_nat 8) with 8 in *.
  by rewrite Z.add_mod, Ha, Hn by done.
Qed.

(** ** Newtypes are determined by their raw value *)

Lemma FileID_eta x : FileID_from_raw x.(FileID_into_raw) = x.
Proof. by destruct x. Qed.
Lemma LockOwnerID_eta x : LockOwnerID_from_raw x.(LockOwnerID_value) = x.
Proof. by destruct x. Qed.
Lemma NotifyID_eta x : NotifyID_from_raw x.(NotifyID_into_raw) = x.
Proof. by destruct x. Qed.
Lemma RequestID_eta x : RequestID_from_raw x.(RequestID_into_raw) = x.
Proof. by destruct x. Qed.
Lemma FileMode_eta x : FileMode_from_raw x.(FileMode_into_raw) = x.
Proof. by destruct x. Qed.
Lemma DeviceID_eta x : DeviceID_from_kernel_dev x.(DeviceID_into_kernel_dev) = x.
Proof. by destruct x. Qed.
Lemma OpenOptions_eta x : OpenOptions_from_raw x.(OpenOptions_raw) = x.
Proof. by destruct x. Qed.

Create Rewrite HintDb newtype.
#[export] Hint Rewrite FileID_eta LockOwnerID_eta NotifyID_eta RequestID_eta FileMode_eta
  DeviceID_eta OpenOptions_eta : newtype.

(** ** Bits *)

Lemma has_testbit a k : 0 ≤ k → has a (Z.shiftl 1 k) = Z.testbit a k.
Proof.
  intros Hk. unfold has. rewrite Z.shiftl_1_l.
  destruct (Z.testbit a k) eqn:Hb; [apply negb_true_iff|apply negb_false_iff].
  - apply Z.eqb_neq. intros H0. apply (f_equal (λ z, Z.testbit z k)) in H0.
    by rewrite Z.land_spec, Hb, Z.pow2_bits_true, Z.bits_0 in H0.
  - apply Z.eqb_eq. apply Z.bits_inj'. intros n Hn.
    rewrite Z.land_spec, Z.bits_0, Z.pow2_bits_eqb by done.
    destruct (Z.eqb_spec k n) as [->|]; [by rewrite Hb|by rewrite andb_false_r].
Qed.

Lemma testbit_flag b m k : Z.testbit (flag b m) k = b && Z.testbit m k.
Proof. destruct b; cbn; [done|apply Z.bits_0]. Qed.

Lemma has_of_flag b m : m ≠ 0 → has (flag b m) m = b.
Proof.
  intros Hm. unfold has. destruct b; cbn; [|done].
  by rewrite Z.land_diag, (proj2 (Z.eqb_neq _ _)).
Qed.

(** An optional field, sent as a flag and a value. *)
Lemma then_some_opt {A} (mk : Z → A) (un : A → Z) o :
  (∀ a, mk (un a) = a) → then_some (is_some o) (mk (or0 un o)) = o.
Proof. intros Hmk. destruct o as [a|]; cbn; [by rewrite Hmk|done]. Qed.

Lemma then_some_id (o : option Z) : then_some (is_some o) (or0 id o) = o.
Proof. by destruct o. Qed.

Lemma clear_bit0 u : is_u 64 u → Z.testbit u 0 = false → Z.land u (u64_not FUSE_INT_REQ_BIT) = u.
Proof.
  intros Hu H0. apply Z.bits_inj'. intros n Hn.
  rewrite Z.land_spec. unfold u64_not, FUSE_INT_REQ_BIT. rewrite Z.lxor_spec.
  change (2 ^ 64 - 1) with (Z.ones 64). destruct (decide (n < 64)) as [Hlt|Hge].
  - rewrite Z.ones_spec_low by lia. change 1 with (2 ^ 0). rewrite Z.pow2_bits_eqb by done.
    destruct (Z.eqb_spec 0 n) as [<-|]; [by rewrite H0|by rewrite andb_true_r].
  - rewrite (Z_testbit_high u 64 n) by (unfold is_u in *; lia). done.
Qed.

Lemma wrap_i_wrap_u p : is_i 32 p → wrap_i 32 (wrap_u 32 p) = p.
Proof.
  intros Hp. unfold wrap_i, wrap_u, is_i in *. change (2 ^ (32 - 1)) with 2147483648 in *.
  rewrite Zplus_mod_idemp_l, Z.mod_small by lia. lia.
Qed.

Lemma is_u_land_l w a b : 0 ≤ w → is_u w a → is_u w (Z.land a b).
Proof. intros. rewrite Z.land_comm. by apply is_u_land. Qed.

Lemma is_u_flag b m : is_u 32 m → is_u 32 (flag b m).
Proof. destruct b; [done|]. intros _. done. Qed.

Lemma is_u_0 w : 0 ≤ w → is_u w 0.
Proof. intros. split; [done|]. by apply Z.pow_pos_nonneg. Qed.

Lemma foldr_lor_range w l : 0 ≤ w → Forall (is_u w) l → is_u w (foldr Z.lor 0 l).
Proof. intros Hw. induction 1; cbn; [by apply is_u_0|by apply is_u_lor]. Qed.

Section facts.
Context `{BF : Bitflags} {HBF : BitflagsSpec} `{ZC : Zerocopy} {HZC : ZerocopySpec}.
Context `{RX : Rustix} {HRX : RustixSpec} `{L : Libc} {HL : LibcLinux L} `{PR : Profile}.
Variable config : KernelConfig.
Implicit Types h : InHeader.

Lemma truncate_id known fl : flags_ok known fl → bf_from_bits_truncate known fl = fl.
Proof. intros [_ H]. by rewrite bf_from_bits_truncate_spec. Qed.

Lemma truncate_ok known bits : is_u 32 bits → flags_ok known (bf_from_bits_truncate known bits).
Proof.
  intros Hb. rewrite bf_from_bits_truncate_spec. split; [by apply is_u_land_l|].
  by rewrite <- Z.land_assoc, Z.land_diag.
Qed.

(** The lock-owner bit of [write_flags] is not one of [WriteInFlags]. *)
Lemma write_flags_split fl b :
  flags_ok WriteInFlags_flags fl →
  let w := Z.lor fl (flag b FUSE_WRITE_LOCKOWNER) in
  has w FUSE_WRITE_LOCKOWNER = b ∧ bf_from_bits_truncate WriteInFlags_flags w = fl.
Proof.
  intros [_ Hfl] w. unfold w. rewrite bf_from_bits_truncate_spec. rewrite bf_all_spec in *.
  change (foldr Z.lor 0 WriteInFlags_flags) with 5 in *.
  split.
  - unfold FUSE_WRITE_LOCKOWNER.
    rewrite has_testbit, Z.lor_spec, testbit_flag, <- Hfl, Z.land_spec by done.
    cbn. by rewrite andb_false_r, andb_true_r.
  - rewrite Z.land_lor_distr_l, Hfl. destruct b; cbn; by rewrite Z.lor_0_r.
Qed.

Lemma permissions_mask_id fl : mask_ok fl → permissions_mask fl = fl.
Proof.
  intros [Hk Hm]. unfold permissions_mask, FilePermissions_from_bits_truncate.
  by rewrite truncate_id, bf_intersection_spec.
Qed.

Lemma permissions_mask_ok bits : is_u 32 bits → mask_ok (permissions_mask bits).
Proof.
  intros Hb. unfold permissions_mask. rewrite bf_intersection_spec.
  destruct (truncate_ok FilePermissions_flags bits Hb) as [Hu Hk].
  fold (FilePermissions_from_bits_truncate bits) in *.
  set (x := FilePermissions_from_bits_truncate bits) in *.
  split; [split; [by apply is_u_land_l|]|].
  - rewrite <- Z.land_assoc, (Z.land_comm FilePermissions_MASK), Z.land_assoc. by rewrite Hk.
  - by rewrite <- Z.land_assoc, Z.land_diag.
Qed.

Lemma NodeID_from_raw_ok n : node_ok n → NodeID_from_raw n.(NodeID_into_raw) = Some n.
Proof.
  intros [_ Hn]. unfold NodeID_from_raw, NodeID_wf in *. destruct n as [raw]. cbn in *.
  by rewrite (proj2 (Z.eqb_neq _ _)).
Qed.

Lemma node_ok_run raw n d :
  node_ok n → raw = n.(NodeID_into_raw) → node raw d = (Ok n, d).
Proof. intros Hn ->. unfold node, lift. by rewrite NodeID_from_raw_ok. Qed.

Lemma nodeid_run h n d :
  node_ok n → h.(Header.raw).(in_header_nodeid) = n.(NodeID_into_raw) →
  nodeid h d = (Ok n, d).
Proof.
  intros Hn Hh. unfold nodeid, InHeader_nodeid, lift. by rewrite Hh, NodeID_from_raw_ok.
Qed.

Lemma Duration_new_id {E} t :
  duration_ok t → Duration_new (E:=E) t.(as_secs) t.(subsec_nanos) = Ok t.
Proof.
  intros [_ Ht]. unfold Duration_new. rewrite (proj2 (Z.ltb_lt _ _)) by lia. by destruct t.
Qed.


(** ** Round trip *)

Lemma Operation_decode_known h opcode arg :
  h.(Header.raw).(in_header_opcode) = discr opcode →
  Operation_decode config h arg = fst (decode_opcode config h opcode (Decoder_new arg)).
Proof. intros Ho. unfold Operation_decode. by rewrite (proj2 (InHeader_opcode_Ok h opcode)). Qed.

Lemma wf_pid {E} p :
  is_i 32 p → 0 < p → Pid_from_raw (E:=E) (wrap_i 32 (wrap_u 32 p)) = Ok (Some p).
Proof. intros Hp Hn. by rewrite wrap_i_wrap_u, Pid_from_raw_pos by done. Qed.

Lemma file_lock_run lk d :
  lock_ok lk →
  decode_file_lock {|
    file_lock_start := lk.(FileLock_start);
    file_lock_end := lk.(FileLock_end);
    file_lock_typ := lk.(FileLock_typ);
    file_lock_pid := wrap_u 32 lk.(FileLock_pid) |} d = (Ok lk, d).
Proof.
  intros (_ & _ & _ & Hp & Hn). unfold decode_file_lock, mbind, M_bind, lift. cbn.
  rewrite wf_pid by done. by destruct lk.
Qed.

(** A structure written by the kernel is in range. *)
Ltac wire_range :=
  first [ assumption | exact I | by apply is_u_0 | by apply wrap_u_is_u
        | apply is_u_flag; done
        | apply is_u_lor; [done|wire_range..]
        | match goal with H : opt_ok _ ?o |- is_u _ (or0 _ ?o) => by destruct o end
        | match goal with H : flags_ok _ ?f |- is_u _ ?f => apply H end
        | match goal with H : mask_ok ?f |- is_u _ ?f => apply H end
        | match goal with H : lock_ok ?l |- is_u _ (_ ?l) => apply H end
        | match goal with H : node_ok ?n |- _ => apply H end
        | split; vm_compute; congruence ].
Ltac wire_wf := goal_pod_wf; split_fields; try wire_range.

Ltac aligned := by apply aligned_to_divide; [|vm_compute; lia|].

Ltac run_call :=
  erewrite bind_ok by
    first [ apply lift_ok
          | apply fetch_encode; [first [assumption | wire_wf; fail] | aligned]
          | apply fetch_str_app; done
          | eapply nodeid_run; [|eassumption]; eassumption
          | eapply node_ok_run; [|cbn; reflexivity]; eassumption
          | cbn [lk_in_lk]; eapply file_lock_run; eassumption ].

(** The decoder reads back the message written for [o], whatever follows it. *)
Definition roundtrips (o : Operation) : Prop :=
  ∀ rename1 rq h addr trailing,
    Operation_wf config o →
    encode_op config rename1 o = Some rq →
    header_of rq h →
    aligned_to addr 8 = true →
    Operation_decode config h {| s_addr := addr; s_bytes := rq.(rq_arg) ++ trailing |} = Ok o.

Ltac open_message :=
  let Hwf := fresh "Hwf" in let He := fresh "He" in let Hop := fresh "Hop" in
  intros rq h addr trailing Hwf He (Hop & Hn & Hu) Ha;
  cbn [Operation_wf] in Hwf; cbn [encode_op] in He;
  apply (inj Some) in He; subst rq;
  rewrite (Operation_decode_known _ _ _ Hop); cbn [rq_nodeid rq_unique opt_ok mk] in Hn, Hu;
  destruct_and? Hwf; cbn [rq_arg rq_opcode mk decode_opcode];
  unfold cstring, lk_arg; rewrite <- ?app_assoc; cbn [app].

Ltac start_roundtrip := intros rename1; open_message.

Ltac finish_roundtrip :=
  repeat run_call; unfold mret, M_ret; cbn;
  unfold FilePermissions_from_bits_truncate, PollEvents_from_bits_truncate;
  rewrite ?truncate_id, ?permissions_mask_id by assumption;
  try match goal with H : XattrFlags_from_bits_truncate _ = _ |- _ => rewrite H end;
  rewrite ?has_of_flag by (vm_compute; congruence);
  rewrite ?(then_some_opt FileID_from_raw), ?(then_some_opt LockOwnerID_from_raw),
    ?(then_some_opt PollWakeupID_from_raw) by (by intros []);
  autorewrite with newtype;
  match goal with |- Ok (_ ?r) = Ok (_ ?op) => by destruct op end.

Lemma roundtrip_lookup op : roundtrips (Operation_Lookup op).
Proof. start_roundtrip. unfold decode_lookup. finish_roundtrip. Qed.

Lemma roundtrip_getattr op : roundtrips (Operation_Getattr op).
Proof. start_roundtrip. unfold decode_getattr. finish_roundtrip. Qed.

Lemma roundtrip_readlink op : roundtrips (Operation_Readlink op).
Proof. start_roundtrip. unfold decode_readlink. finish_roundtrip. Qed.

Lemma roundtrip_symlink op : roundtrips (Operation_Symlink op).
Proof. start_roundtrip. unfold decode_symlink. finish_roundtrip. Qed.

Lemma roundtrip_mkdir op : roundtrips (Operation_Mkdir op).
Proof. start_roundtrip. unfold decode_mkdir. finish_roundtrip. Qed.

Lemma roundtrip_unlink op : roundtrips (Operation_Unlink op).
Proof. start_roundtrip. unfold decode_unlink. finish_roundtrip. Qed.

Lemma roundtrip_rmdir op : roundtrips (Operation_Rmdir op).
Proof. start_roundtrip. unfold decode_rmdir. finish_roundtrip. Qed.

Lemma roundtrip_link op : roundtrips (Operation_Link op).
Proof. start_roundtrip. unfold decode_link. finish_roundtrip. Qed.

Lemma roundtrip_open op : roundtrips (Operation_Open op).
Proof. start_roundtrip. unfold decode_open. finish_roundtrip. Qed.

Lemma roundtrip_read op : roundtrips (Operation_Read op).
Proof. start_roundtrip. unfold decode_read. finish_roundtrip. Qed.

Lemma roundtrip_release op : roundtrips (Operation_Release op).
Proof. start_roundtrip. unfold decode_release. finish_roundtrip. Qed.

Lemma roundtrip_statfs op : roundtrips (Operation_Statfs op).
Proof. start_roundtrip. unfold decode_statfs. finish_roundtrip. Qed.

Lemma roundtrip_fsync op : roundtrips (Operation_Fsync op).
Proof. start_roundtrip. unfold decode_fsync. finish_roundtrip. Qed.

Lemma roundtrip_getxattr op : roundtrips (Operation_Getxattr op).
Proof. start_roundtrip. unfold decode_getxattr. finish_roundtrip. Qed.

Lemma roundtrip_listxattr op : roundtrips (Operation_Listxattr op).
Proof. start_roundtrip. unfold decode_listxattr. finish_roundtrip. Qed.

Lemma roundtrip_removexattr op : roundtrips (Operation_Removexattr op).
Proof. start_roundtrip. unfold decode_removexattr. finish_roundtrip. Qed.

Lemma roundtrip_flush op : roundtrips (Operation_Flush op).
Proof. start_roundtrip. unfold decode_flush. finish_roundtrip. Qed.

Lemma roundtrip_opendir op : roundtrips (Operation_Opendir op).
Proof. start_roundtrip. unfold decode_opendir. finish_roundtrip. Qed.

Lemma roundtrip_releasedir op : roundtrips (Operation_Releasedir op).
Proof. start_roundtrip. unfold decode_releasedir. finish_roundtrip. Qed.

Lemma roundtrip_fsyncdir op : roundtrips (Operation_Fsyncdir op).
Proof. start_roundtrip. unfold decode_fsyncdir. finish_roundtrip. Qed.

Lemma roundtrip_getlk op : roundtrips (Operation_Getlk op).
Proof. start_roundtrip. unfold decode_getlk. finish_roundtrip. Qed.

Lemma roundtrip_access op : roundtrips (Operation_Access op).
Proof. start_roundtrip. unfold decode_access. finish_roundtrip. Qed.

Lemma roundtrip_create op : roundtrips (Operation_Create op).
Proof. start_roundtrip. unfold decode_create. finish_roundtrip. Qed.

Lemma roundtrip_bmap op : roundtrips (Operation_Bmap op).
Proof. start_roundtrip. unfold decode_bmap. finish_roundtrip. Qed.

Lemma roundtrip_fallocate op : roundtrips (Operation_Fallocate op).
Proof. start_roundtrip. unfold decode_fallocate. finish_roundtrip. Qed.

Lemma roundtrip_copy_file_range op : roundtrips (Operation_CopyFileRange op).
Proof. start_roundtrip. unfold decode_copy_file_range. finish_roundtrip. Qed.

Lemma roundtrip_poll op : roundtrips (Operation_Poll op).
Proof. start_roundtrip. unfold decode_poll. finish_roundtrip. Qed.

Lemma roundtrip_notify_reply op : roundtrips (Operation_NotifyReply op).
Proof.
  start_roundtrip. unfold decode_notify_reply. repeat run_call.
  unfold InHeader_unique. rewrite Hu. finish_roundtrip.
Qed.

Lemma roundtrip_mknod op : roundtrips (Operation_Mknod op).
Proof.
  start_roundtrip. unfold mknod_arg, cstring. destruct (minor config <=? 11).
  - rewrite <- !app_assoc. unfold decode_mknod_compat_11. repeat run_call.
    rewrite bf_empty_spec. match goal with H : Mknod_umask op = 0 |- _ => rewrite <- H end.
    finish_roundtrip.
  - rewrite <- !app_assoc. unfold decode_mknod. finish_roundtrip.
Qed.

Lemma roundtrip_write op : roundtrips (Operation_Write op).
Proof.
  start_roundtrip. unfold write_arg. destruct (minor config <=? 8).
  - unfold decode_write_compat_8. repeat run_call. destruct_and!.
    rewrite bf_empty_spec. unfold mret, M_ret. cbn. destruct op; cbn in *; subst.
    by autorewrite with newtype.
  - destruct_and!. unfold decode_write. repeat run_call. cbn [write_in_write_flags].
    destruct (write_flags_split (Write_flags op) (is_some (Write_lock_owner op))) as [-> ->]; [done|].
    finish_roundtrip.
Qed.

Lemma roundtrip_rename op : roundtrips (Operation_Rename op).
Proof.
  intros rename1. cbn [encode_op]. destruct (rename1 && (Rename_flags op =? 0)) eqn:Hf.
  - open_message. unfold decode_rename. repeat run_call.
    apply andb_true_iff in Hf as [_ Hf%Z.eqb_eq]. rewrite bf_empty_spec, <- Hf. finish_roundtrip.
  - open_message. unfold decode_rename2. finish_roundtrip.
Qed.

Lemma roundtrip_setxattr op : roundtrips (Operation_Setxattr op).
Proof.
  start_roundtrip. unfold setxattr_arg, cstring. fold (setxattr_is_compat config).
  destruct (setxattr_is_compat config).
  - rewrite <- !app_assoc. cbn [app]. unfold decode_setxattr_compat_32. repeat run_call.
    erewrite bind_ok by (by apply fetch_bytes_app). run_call.
    rewrite bf_empty_spec. match goal with H : Setxattr_extra_flags op = 0 |- _ => rewrite <- H end.
    finish_roundtrip.
  - rewrite <- !app_assoc. cbn [app]. unfold decode_setxattr. repeat run_call.
    erewrite bind_ok by (by apply fetch_bytes_app). finish_roundtrip.
Qed.

Lemma roundtrip_readdir op : roundtrips (Operation_Readdir op).
Proof.
  start_roundtrip. destruct (Readdir_mode op) eqn:Hm; cbn [decode_opcode]; unfold decode_readdir; repeat run_call;
    unfold mret, M_ret; cbn;  rewrite <- Hm; finish_roundtrip.
Qed.

Lemma roundtrip_setlk op : roundtrips (Operation_Setlk op).
Proof.
  start_roundtrip. destruct (Setlk_sleep op) eqn:Hs; cbn [decode_opcode]; unfold decode_setlk; run_call;
    change (has (lk_in_lk_flags _) FUSE_LK_FLOCK) with false; cbn [negb];
    repeat run_call; unfold mret, M_ret; cbn; rewrite <- Hs; finish_roundtrip.
Qed.

Lemma flock_op_typ op :
  is_u 32 (flock_typ op).1 ∧ flock_op (flock_typ op).2 (wrap_i 32 (flock_typ op).1) = Ok op.
Proof. unfold flock_op. rewrite HL. by destruct op. Qed.

Lemma lseek_whence_raw w : lseek_whence (wrap_i 32 (wrap_u 32 (whence_raw w))) = Ok w.
Proof. unfold lseek_whence. rewrite HL. by destruct w. Qed.

Lemma roundtrip_flock op : roundtrips (Operation_Flock op).
Proof.
  intros rename1. cbn [encode_op]. destruct (flock_op_typ (Flock_op op)) as [Ht Ho].
  destruct (flock_typ (Flock_op op)) as [typ []]; cbn [fst snd] in *; open_message;
    unfold decode_setlk; run_call;
    change (has (lk_in_lk_flags _) FUSE_LK_FLOCK) with true; cbn [negb];
    run_call; cbn [lk_in_lk file_lock_typ FileLock_typ]; rewrite Ho; finish_roundtrip.
Qed.

Lemma roundtrip_lseek op : roundtrips (Operation_Lseek op).
Proof.
  start_roundtrip. unfold decode_lseek. repeat run_call. cbn [lseek_in_whence].
  rewrite lseek_whence_raw. finish_roundtrip.
Qed.

Lemma roundtrip_interrupt op : roundtrips (Operation_Interrupt op).
Proof.
  start_roundtrip. unfold decode_interrupt. run_call. cbn [interrupt_in_unique].
  rewrite clear_bit0 by done. finish_roundtrip.
Qed.

Lemma forget_one_wf (f : fuse_forget_one) :
  pod_wf f → is_u 64 f.(forget_one_nodeid) ∧ is_u 64 f.(forget_one_nlookup).
Proof. intros Hf. simpl_pod_wf Hf. tauto. Qed.

Lemma roundtrip_forget fs : roundtrips (Operation_Forget fs).
Proof.
  destruct fs as [[f]|fs]; start_roundtrip; cbn [Forget_raw] in *.
  - destruct (forget_one_wf f) as [Hn1 Hn2]; [done|]. unfold decode_forget. run_call.
    erewrite bind_ok by (apply (nodeid_run h {| NodeID_into_raw := forget_one_nodeid f |}); done).
    by destruct f.
  - unfold decode_batch_forget. run_call. cbn [batch_forget_in_count].
    erewrite bind_ok by (apply fetch_array_encode;
      [vm_compute; lia|by apply aligned_to_add|by apply Forall_fmap|by rewrite length_fmap|
       unfold is_u in *; change (Z.of_nat (size_of fuse_forget_one)) with 16; lia]).
    cbn. rewrite <- list_fmap_compose, (list_fmap_ext _ id), list_fmap_id; [done|]. by intros ? [].
Qed.

(** The bits of [setattr_valid] are the fields that are present. *)
Lemma setattr_valid_bits op :
  let v := setattr_valid op in
  has v FATTR_MODE = is_some op.(Setattr_mode) ∧ has v FATTR_UID = is_some op.(Setattr_uid) ∧
  has v FATTR_GID = is_some op.(Setattr_gid) ∧ has v FATTR_SIZE = is_some op.(Setattr_size) ∧
  has v FATTR_ATIME = is_some op.(Setattr_atime) ∧ has v FATTR_MTIME = is_some op.(Setattr_mtime) ∧
  has v FATTR_FH = is_some op.(Setattr_fh) ∧
  has v FATTR_ATIME_NOW = settime_now op.(Setattr_atime) ∧
  has v FATTR_MTIME_NOW = settime_now op.(Setattr_mtime) ∧
  has v FATTR_LOCKOWNER = is_some op.(Setattr_lock_owner) ∧
  has v FATTR_CTIME = is_some op.(Setattr_ctime) ∧
  has v FATTR_KILL_SUIDGID = op.(Setattr_kill_suidgid).
Proof.
  intros v.
  assert (∀ k, 0 ≤ k → has v (Z.shiftl 1 k) = Z.testbit v k) as Hv by (intros; by apply has_testbit).
  unfold FATTR_MODE, FATTR_UID, FATTR_GID, FATTR_SIZE, FATTR_ATIME, FATTR_MTIME, FATTR_FH,
    FATTR_ATIME_NOW, FATTR_MTIME_NOW, FATTR_LOCKOWNER, FATTR_CTIME, FATTR_KILL_SUIDGID.
  rewrite !Hv by done. unfold v, setattr_valid, foldr. rewrite !Z.lor_spec, !testbit_flag.
  cbn. rewrite ?andb_false_r, ?andb_true_r, ?orb_false_r. done.
Qed.

Lemma settime_range t :
  opt_ok settime_ok t → is_u 64 (settime t).(as_secs) ∧ is_u 32 (settime t).(subsec_nanos).
Proof.
  destruct t as [[t|]|]; cbn; [|by intros _; split; apply is_u_0..].
  intros [Hs Hn]. split; [done|]. unfold is_u, NANOS_PER_SEC in *. lia.
Qed.

Lemma ctime_range t :
  opt_ok duration_ok t → is_u 64 (or0 as_secs t) ∧ is_u 32 (or0 subsec_nanos t).
Proof. destruct t as [t|]; [apply (settime_range (Some (Timespec t)))|apply (settime_range None)]. Qed.

Lemma setattr_valid_range op : is_u 32 (setattr_valid op).
Proof.
  unfold setattr_valid. apply foldr_lor_range; [done|]. repeat constructor; apply is_u_flag; done.
Qed.

Lemma setattr_arg_wf op : Operation_wf config (Operation_Setattr op) → pod_wf (setattr_arg op).
Proof.
  cbn [Operation_wf]. intros Hwf. destruct_and! Hwf. unfold setattr_arg.
  pose proof (setattr_valid_range op) as Hv.
  destruct (settime_range (Setattr_atime op)) as [Ha1 Ha2]; [done|].
  destruct (settime_range (Setattr_mtime op)) as [Hm1 Hm2]; [done|].
  generalize dependent (setattr_valid op). intros v Hv.
  destruct (ctime_range (Setattr_ctime op)) as [Hc1 Hc2]; [done|].
  goal_pod_wf. split_fields; wire_range.
Qed.

Lemma setattr_time_run t now :
  opt_ok settime_ok t → now = settime_now t →
  then_ (is_some t) (if now then Ok Now
    else d ← Duration_new (settime t).(as_secs) (settime t).(subsec_nanos); Ok (Timespec d))
  = Ok (E:=DecodeError) t.
Proof.
  intros Ht ->. destruct t as [[t|]|]; cbn; [|done..]. by rewrite Duration_new_id.
Qed.

Lemma ctime_run t :
  opt_ok duration_ok t →
  then_ (is_some t) (Duration_new (or0 as_secs t) (or0 subsec_nanos t)) = Ok (E:=DecodeError) t.
Proof. intros Ht. destruct t as [t|]; cbn; [|done]. by rewrite Duration_new_id. Qed.

Lemma roundtrip_setattr op : roundtrips (Operation_Setattr op).
Proof.
  intros rename1 rq h addr trailing Hwf. pose proof (setattr_arg_wf op Hwf) as Harg.
  revert rq h addr trailing Hwf. open_message. unfold decode_setattr. run_call.
  run_call. unfold setattr_time.
  cbn [setattr_arg setattr_in_valid setattr_in_fh setattr_in_size setattr_in_lock_owner
    setattr_in_atime setattr_in_mtime setattr_in_ctime setattr_in_atimensec setattr_in_mtimensec
    setattr_in_ctimensec setattr_in_mode setattr_in_uid setattr_in_gid].
  destruct (setattr_valid_bits op) as (-> & -> & -> & -> & -> & -> & -> & Hat & Hmt & -> & -> & ->).
  rewrite (setattr_time_run (Setattr_atime op)), (setattr_time_run (Setattr_mtime op)) by done.
  rewrite (ctime_run (Setattr_ctime op)) by done. repeat run_call.
  rewrite (then_some_opt FileID_from_raw), (then_some_opt FileMode_from_raw),
    (then_some_opt LockOwnerID_from_raw), !then_some_id by (by intros []).
  by destruct op.
Qed.

#[local] Hint Resolve
  roundtrip_lookup roundtrip_getattr roundtrip_readlink roundtrip_symlink roundtrip_mkdir
  roundtrip_unlink roundtrip_rmdir roundtrip_link roundtrip_open roundtrip_read
  roundtrip_release roundtrip_statfs roundtrip_fsync roundtrip_getxattr
  roundtrip_listxattr roundtrip_removexattr roundtrip_flush roundtrip_opendir
  roundtrip_releasedir roundtrip_fsyncdir roundtrip_getlk roundtrip_access
  roundtrip_create roundtrip_bmap roundtrip_fallocate roundtrip_copy_file_range
  roundtrip_poll roundtrip_notify_reply roundtrip_mknod roundtrip_write roundtrip_rename
  roundtrip_setxattr roundtrip_readdir roundtrip_setlk roundtrip_flock roundtrip_lseek
  roundtrip_interrupt roundtrip_forget roundtrip_setattr : roundtrips.

Lemma op_roundtrips o : roundtrips o.
Proof. destruct o; by auto with roundtrips. Qed.

(** C1: the decoder inverts the kernel's encoding.  Every well-formed operation,
written to a message as the protocol prescribes for the negotiated version
(with the short forms of MKNOD, WRITE and SETXATTR where they apply, and
RENAME or RENAME2), is read back unchanged, whatever bytes follow the
argument. *)
Theorem decode_encode_op rename1 o rq h addr trailing :
  Operation_wf config o →
  encode_op config rename1 o = Some rq →
  header_of rq h →
  aligned_to addr 8 = true →
  Operation_decode config h {| s_addr := addr; s_bytes := rq.(rq_arg) ++ trailing |} = Ok o.
Proof. apply op_roundtrips. Qed.

End facts.

(** ** Instances *)

(** A SETATTR of the size and of the modification time, followed by bytes that
do not belong to it. *)
Definition setattr_op : Operation := Operation_Setattr {|
  Setattr_ino := {| NodeID_into_raw := 7 |};
  Setattr_fh := None;
  Setattr_mode := None;
  Setattr_uid := None;
  Setattr_gid := None;
  Setattr_size := Some 4096;
  Setattr_atime := Some Now;
  Setattr_mtime := Some (Timespec {| as_secs := 1000; subsec_nanos := 500 |});
  Setattr_ctime := None;
  Setattr_lock_owner := None;
  Setattr_kill_suidgid := true |}.

Definition setattr_header : InHeader := {| Header.raw := {|
  in_header_len := 128;
  in_header_opcode := 4;
  in_header_unique := 2;
  in_header_nodeid := 7;
  in_header_uid := 0;
  in_header_gid := 0;
  in_header_pid := 0;
  in_header_total_extlen := 0;
  in_header_padding := 0 |} |}.

Lemma setattr_op_wf {BF : Bitflags} {RX : Rustix} {L : Libc} config :
  Operation_wf config setattr_op.
Proof. cbn. unfold node_ok, duration_ok, NodeID_wf, NANOS_PER_SEC, is_u. cbn. lia. Qed.

Lemma decode_encode_op_witness :
  let _ := ref_bitflags in let _ := ref_zerocopy in let _ := ref_rustix in
  let _ := linux_libc in let _ : Profile := true in
  ∃ rq, encode_op config_example false setattr_op = Some rq ∧
    Operation_decode config_example setattr_header
      {| s_addr := 4096; s_bytes := rq.(rq_arg) ++ [Byte.x01; Byte.x02] |} = Ok setattr_op.
Proof.
  intros BF ZC RX L PR.
  destruct (encode_op config_example false setattr_op) as [rq|] eqn:He; [|discriminate He].
  exists rq. split; [reflexivity|].
  refine (@decode_encode_op BF ref_bitflags_spec ZC ref_zerocopy_spec RX ref_rustix_spec L
    ref_libc_linux PR config_example false _ _ _ _ _ (setattr_op_wf _) He _ _).
  - injection He as <-. repeat split.
  - reflexivity.
Defined.
