(* ===== verification/OpTotal.v ===== *)
(** * Decoding is total

Whatever the argument bytes are, [Operation::decode] of an aligned argument
returns: a well-formed operation or one of the errors of [DecodeError] other
than [Unaligned].  The one exception is a POSIX lock whose owner is no process
([decode_lock_pid_panics]). *)

From S2P Require Import Prelude Layout Kernel Crates Types Init Header Decoder Operation Op OpWire OpSpec.
Local Open Scope Z_scope.

(** [m], run on [d], ends in [Q] or in an error that is not [Unaligned]. *)
Definition ends {A} (m : M Decoder DecodeError A) (d : Decoder) (Q : A → Decoder → Prop) : Prop :=
  match m d with
  | (Ok a, d') => Q a d'
  | (Err e, _) => e ≠ Unaligned
  | (Panic _, _) | (UB, _) => False
  end.

Create HintDb totals.

Section total.
Context `{BF : Bitflags} {HBF : BitflagsSpec} `{ZC : Zerocopy} {HZC : ZerocopySpec}.
Context `{RX : Rustix} {HRX : RustixSpec} `{L : Libc} {HL : LibcLinux L} `{PR : Profile}.

Lemma ends_bind {A B} (m : M Decoder DecodeError A) (f : A → M Decoder DecodeError B) d Q :
  ends m d (λ a d', ends (f a) d' Q) → ends (m ≫= f) d Q.
Proof. unfold ends, mbind, M_bind. by destruct (m d) as [[] ?]. Qed.

Lemma ends_ret {A} (a : A) d (Q : A → Decoder → Prop) : Q a d → ends (mret a) d Q.
Proof. done. Qed.

Lemma ends_ok_or {A} (o : option A) e d (Q : A → Decoder → Prop) :
  e ≠ Unaligned → (∀ a, o = Some a → Q a d) → ends (lift (ok_or o e)) d Q.
Proof. intros He HQ. unfold ends, lift. destruct o; cbn; [by apply HQ|done]. Qed.

Lemma ends_fetch {T} `{Pod T} d (Q : T → Decoder → Prop) :
  aligned_to d.(d_bytes).(s_addr) (align_of T) = true →
  (∀ x r, pod_wf x → d.(d_bytes).(s_bytes) = pod_encode x ++ r →
     Q x (at_addr (d.(d_bytes).(s_addr) + Z.of_nat (size_of T)) r)) →
  ends fetch d Q.
Proof.
  intros Ha HQ. unfold ends. destruct (fetch_cases (T:=T) d Ha) as [(x & r & Hwf & Hd & ->)|[_ ->]].
  - by apply HQ.
  - done.
Qed.

Lemma ends_fetch_str d (Q : OsStr → Decoder → Prop) :
  (∀ s d', name_ok s → Q s d') → ends fetch_str d Q.
Proof.
  intros HQ. unfold ends. destruct (fetch_str_cases d) as [(s & r & _ & Hs & ->)|[_ ->]]; [|done].
  by apply HQ.
Qed.

Lemma ends_fetch_bytes n d (Q : slice → Decoder → Prop) :
  0 ≤ n →
  (∀ s d', Z.of_nat (length s.(s_bytes)) = n → Q s d') → ends (fetch_bytes n) d Q.
Proof.
  intros Hn HQ. unfold ends.
  destruct (fetch_bytes_cases d n Hn) as [(a & r & _ & Hl & ->)|[_ ->]]; [|done].
  by apply HQ.
Qed.

Lemma ends_node raw d (Q : NodeID → Decoder → Prop) :
  is_u 64 raw → (∀ n, node_ok n → Q n d) → ends (node raw) d Q.
Proof.
  intros Hu HQ. apply ends_ok_or; [done|]. unfold NodeID_from_raw.
  destruct (Z.eqb_spec raw 0) as [|Hne]; [done|]. intros n [= <-]. by apply HQ.
Qed.

Lemma ends_nodeid h d (Q : NodeID → Decoder → Prop) :
  pod_wf h.(Header.raw) → (∀ n, node_ok n → Q n d) → ends (nodeid h) d Q.
Proof. intros Hh. apply ends_node. simpl_pod_wf Hh. tauto. Qed.

Lemma ends_file_lock lk d (Q : FileLock → Decoder → Prop) :
  pod_wf lk → lk.(file_lock_pid) < 2 ^ 31 → (∀ l, lock_ok l → Q l d) → ends (decode_file_lock lk) d Q.
Proof.
  intros Hlk Hlt HQ. unfold decode_file_lock. simpl_pod_wf Hlk. destruct_and? Hlk.
  assert (is_u 32 lk.(file_lock_pid)) as Hu by done.
  assert (wrap_i 32 lk.(file_lock_pid) = lk.(file_lock_pid)) as ->
    by (unfold wrap_i, is_u in *; rewrite Z.mod_small; lia).
  unfold is_u in Hu.
  apply ends_bind. unfold ends at 1, lift. destruct (decide (lk.(file_lock_pid) = 0)) as [->|Hne].
  - rewrite Pid_from_raw_0. by apply ends_bind, ends_ok_or.
  - rewrite Pid_from_raw_pos by lia. apply ends_bind, ends_ok_or; [done|]. intros pid [= <-].
    apply ends_ret, HQ. unfold lock_ok, is_i. cbn. split_fields; try done; lia.
Qed.

Lemma ends_fetch_array {T} `{Pod T} d count (Q : list T → Decoder → Prop) :
  (0 < size_of T)%nat → aligned_to d.(d_bytes).(s_addr) (align_of T) = true →
  0 ≤ count → Z.of_nat (size_of T) * count < 2 ^ 64 →
  (∀ xs d', Forall pod_wf xs → Z.of_nat (length xs) = count → Q xs d') →
  ends (fetch_array count) d Q.
Proof.
  intros Hs Ha Hc Hb HQ. unfold ends.
  destruct (fetch_array_cases (T:=T) d count Hs Ha Hc Hb) as [(xs & r & Hwf & Hl & _ & ->)|[_ ->]];
    [by apply HQ|done].
Qed.

Lemma ends_flock_op sleep typ d (Q : FlockOp → Decoder → Prop) :
  (∀ op, flock_op sleep typ = Ok op → Q op d) → ends (lift (flock_op sleep typ)) d Q.
Proof.
  unfold ends, lift, flock_op. intros HQ. repeat case_match; simplify_eq/=; done || by apply HQ.
Qed.

Lemma ends_lseek_whence whence d (Q : Whence → Decoder → Prop) :
  (∀ w, Q w d) → ends (lift (lseek_whence whence)) d Q.
Proof. intros HQ. unfold ends, lift, lseek_whence. repeat case_match; simplify_eq/=; done || apply HQ. Qed.

Lemma opt_ok_then_some {A} (P : A → Prop) b a : P a → opt_ok P (then_some b a).
Proof. by destruct b. Qed.

Lemma flags_ok_empty known : flags_ok known bf_empty.
Proof. rewrite bf_empty_spec. split; [by apply is_u_0|done]. Qed.

Variable config : KernelConfig.
Variable h : InHeader.
Hypothesis Hh : pod_wf h.(Header.raw).

(** The outcome of an arm on an aligned argument. *)
Definition arm_total (opcode : fuse_opcode) (arm : M Decoder DecodeError Operation) : Prop :=
  ∀ d, aligned_to d.(d_bytes).(s_addr) 8 = true →
  ends arm d (λ o _, Operation_wf config o ∧ In opcode (opcodes_of o)).

Ltac aligned := by apply aligned_to_divide; [|vm_compute; lia|].
Ltac arm_step :=
  match goal with
  | |- ends (_ ≫= _) _ _ => apply ends_bind
  | |- ends (mret _) _ _ => apply ends_ret
  | |- ends fetch _ _ =>
      let x := fresh "arg" in let Hx := fresh "Harg" in
      apply ends_fetch; [aligned|]; intros x r Hx _; destruct x; simpl_pod_wf Hx; destruct_and? Hx
  | |- ends fetch_str _ _ => apply ends_fetch_str; intros ? ? ?
  | |- ends (nodeid _) _ _ => apply ends_nodeid; [exact Hh|]; intros ? ?
  | |- ends (fetch_bytes ?n) _ _ =>
      let Hl := fresh "Hl" in
      apply ends_fetch_bytes; [match goal with H : is_u _ _ |- _ => by apply H end|];
      intros ? ? Hl; cbn in Hl
  | |- ends (decode_file_lock _) _ _ =>
      apply ends_file_lock;
        [by goal_pod_wf; split_fields; first [assumption|exact I]|by cbn in *|]; intros ? ?
  | |- ends (node _) _ _ => apply ends_node; [assumption|]; intros ? ?
  end.

Ltac arm_field :=
  first [ assumption | apply flags_ok_empty | apply bf_empty_spec | apply truncate_ok; assumption | apply permissions_mask_ok; assumption
        | apply opt_ok_then_some; assumption | by match goal with H : node_ok _ |- _ => apply H end ].
Ltac arm_wf := split; [cbn [Operation_wf]; split_fields; try arm_field|try by cbn; tauto].
Ltac solve_arm := intros d Ha; repeat arm_step; arm_wf.

Lemma total_forget : arm_total FUSE_FORGET (decode_forget h).
Proof.
  unfold decode_forget. solve_arm. goal_pod_wf. by split_fields; try arm_field.
Qed.

Lemma total_notify_reply : arm_total FUSE_NOTIFY_REPLY (decode_notify_reply h).
Proof. unfold decode_notify_reply. solve_arm. Qed.

Lemma total_lookup : arm_total FUSE_LOOKUP (decode_lookup h).
Proof. unfold decode_lookup. solve_arm. Qed.

Lemma total_getattr : arm_total FUSE_GETATTR (decode_getattr h).
Proof. unfold decode_getattr. solve_arm. Qed.

Lemma total_readlink : arm_total FUSE_READLINK (decode_readlink h).
Proof. unfold decode_readlink. solve_arm. Qed.

Lemma total_symlink : arm_total FUSE_SYMLINK (decode_symlink h).
Proof. unfold decode_symlink. solve_arm. Qed.

Lemma total_mkdir : arm_total FUSE_MKDIR (decode_mkdir h).
Proof. unfold decode_mkdir. solve_arm. Qed.

Lemma total_unlink : arm_total FUSE_UNLINK (decode_unlink h).
Proof. unfold decode_unlink. solve_arm. Qed.

Lemma total_rmdir : arm_total FUSE_RMDIR (decode_rmdir h).
Proof. unfold decode_rmdir. solve_arm. Qed.

Lemma total_rename : arm_total FUSE_RENAME (decode_rename h).
Proof. unfold decode_rename. solve_arm. Qed.

Lemma total_rename2 : arm_total FUSE_RENAME2 (decode_rename2 h).
Proof. unfold decode_rename2. solve_arm. Qed.

Lemma total_link : arm_total FUSE_LINK (decode_link h).
Proof. unfold decode_link. solve_arm. Qed.

Lemma total_open : arm_total FUSE_OPEN (decode_open h).
Proof. unfold decode_open. solve_arm. Qed.

Lemma total_read : arm_total FUSE_READ (decode_read h).
Proof. unfold decode_read. solve_arm. Qed.

Lemma total_release : arm_total FUSE_RELEASE (decode_release h).
Proof. unfold decode_release. solve_arm. Qed.

Lemma total_statfs : arm_total FUSE_STATFS (decode_statfs h).
Proof. unfold decode_statfs. solve_arm. Qed.

Lemma total_fsync : arm_total FUSE_FSYNC (decode_fsync h).
Proof. unfold decode_fsync. solve_arm. Qed.

Lemma total_getxattr : arm_total FUSE_GETXATTR (decode_getxattr h).
Proof. unfold decode_getxattr. solve_arm. Qed.

Lemma total_listxattr : arm_total FUSE_LISTXATTR (decode_listxattr h).
Proof. unfold decode_listxattr. solve_arm. Qed.

Lemma total_removexattr : arm_total FUSE_REMOVEXATTR (decode_removexattr h).
Proof. unfold decode_removexattr. solve_arm. Qed.

Lemma total_flush : arm_total FUSE_FLUSH (decode_flush h).
Proof. unfold decode_flush. solve_arm. Qed.

Lemma total_opendir : arm_total FUSE_OPENDIR (decode_opendir h).
Proof. unfold decode_opendir. solve_arm. Qed.

Lemma total_releasedir : arm_total FUSE_RELEASEDIR (decode_releasedir h).
Proof. unfold decode_releasedir. solve_arm. Qed.

Lemma total_fsyncdir : arm_total FUSE_FSYNCDIR (decode_fsyncdir h).
Proof. unfold decode_fsyncdir. solve_arm. Qed.

Lemma total_access : arm_total FUSE_ACCESS (decode_access h).
Proof. unfold decode_access. solve_arm. Qed.

Lemma total_create : arm_total FUSE_CREATE (decode_create h).
Proof. unfold decode_create. solve_arm. Qed.

Lemma total_bmap : arm_total FUSE_BMAP (decode_bmap h).
Proof. unfold decode_bmap. solve_arm. Qed.

Lemma total_fallocate : arm_total FUSE_FALLOCATE (decode_fallocate h).
Proof. unfold decode_fallocate. solve_arm. Qed.

Lemma total_copy_file_range : arm_total FUSE_COPY_FILE_RANGE (decode_copy_file_range h).
Proof. unfold decode_copy_file_range. solve_arm. Qed.

Lemma total_poll : arm_total FUSE_POLL (decode_poll h).
Proof. unfold decode_poll. solve_arm. Qed.

Lemma total_mknod_opcode :
  arm_total FUSE_MKNOD (if config.(minor) <=? 11 then decode_mknod_compat_11 h else decode_mknod h).
Proof.
  destruct (minor config <=? 11) eqn:Hm; [unfold decode_mknod_compat_11|unfold decode_mknod];
    solve_arm; rewrite Hm; arm_field.
Qed.

Lemma total_write_opcode :
  arm_total FUSE_WRITE (if config.(minor) <=? 8 then decode_write_compat_8 h else decode_write h).
Proof.
  destruct (minor config <=? 8) eqn:Hm; [unfold decode_write_compat_8|unfold decode_write];
    solve_arm; rewrite Hm; cbn; split_fields; by try arm_field.
Qed.

Lemma total_setxattr_opcode :
  arm_total FUSE_SETXATTR
    (if setxattr_is_compat config then decode_setxattr_compat_32 h else decode_setxattr h).
Proof.
  destruct (setxattr_is_compat config) eqn:Hm; [unfold decode_setxattr_compat_32|unfold decode_setxattr].
  all: solve_arm; rewrite ?Hm; try arm_field; cbn [Setxattr_value Setxattr_flags]; rewrite ?Hl;
    first [assumption|by apply XattrFlags_width|apply XattrFlags_truncated].
Qed.

Lemma total_batch_forget : arm_total FUSE_BATCH_FORGET decode_batch_forget.
Proof.
  unfold decode_batch_forget. intros d Ha. repeat arm_step.
  apply ends_fetch_array; [vm_compute; lia|by apply aligned_to_add|..].
  1,2: change (Z.of_nat (size_of fuse_forget_one)) with 16; unfold is_u in *; cbn; lia.
  intros xs d' Hxs Hl. apply ends_ret. cbn in *. rewrite length_fmap, Hl.
  split; [|tauto]. split; [|done]. by apply Forall_fmap.
Qed.

Lemma total_interrupt : arm_total FUSE_INTERRUPT decode_interrupt.
Proof.
  unfold decode_interrupt. solve_arm; [by apply is_u_land_l|].
  cbn [Interrupt_unique RequestID_into_raw]. rewrite Z.land_spec. apply andb_false_r.
Qed.

(** The owner of a lock is a process id that is not negative, as [Pid::from_raw] asks. *)
Definition lock_pid_ok (arg : list byte) : Prop :=
  (pod_decode (T:=fuse_lk_in) arg).(lk_in_lk).(file_lock_pid) < 2 ^ 31.

(** A lock request of [flock(2)] is decoded without a look at its owner. *)
Definition lock_is_flock (arg : list byte) : Prop :=
  has (pod_decode (T:=fuse_lk_in) arg).(lk_in_lk_flags) FUSE_LK_FLOCK = true.

Lemma total_getlk d :
  aligned_to d.(d_bytes).(s_addr) 8 = true → lock_pid_ok d.(d_bytes).(s_bytes) →
  ends (decode_getlk h) d (λ o _, Operation_wf config o ∧ In FUSE_GETLK (opcodes_of o)).
Proof.
  intros Ha Ht. unfold decode_getlk. apply ends_bind, ends_fetch; [aligned|].
  intros x r Hx Hd. unfold lock_pid_ok in Ht. rewrite Hd, pod_decode_encode in Ht by done.
  destruct x as [? ? [] ? ?]. simpl_pod_wf Hx. destruct_and? Hx. repeat arm_step. arm_wf.
Qed.

Lemma total_setlk (sleep : bool) d :
  aligned_to d.(d_bytes).(s_addr) 8 = true →
  lock_is_flock d.(d_bytes).(s_bytes) ∨ lock_pid_ok d.(d_bytes).(s_bytes) →
  ends (decode_setlk h sleep) d
    (λ o _, Operation_wf config o ∧ In (if sleep then FUSE_SETLKW else FUSE_SETLK) (opcodes_of o)).
Proof.
  intros Ha Ht. unfold decode_setlk. apply ends_bind, ends_fetch; [aligned|].
  intros x r Hx Hd. unfold lock_is_flock, lock_pid_ok in Ht.
  rewrite Hd, pod_decode_encode in Ht by done.
  destruct x as [? ? [] ? ?]. simpl_pod_wf Hx. destruct_and? Hx. cbn in Ht |- *.
  destruct (has _ _); cbn [negb].
  - repeat arm_step. apply ends_flock_op. intros op Hop. apply ends_ret. arm_wf.
    unfold flock_op in Hop. cbn. destruct sleep; repeat case_match; simplify_eq/=; tauto.
  - destruct Ht as [?|Ht]; [done|]. repeat arm_step. arm_wf. destruct sleep; cbn; tauto.
Qed.

Lemma total_lseek : arm_total FUSE_LSEEK (decode_lseek h).
Proof.
  unfold decode_lseek. intros d Ha. repeat arm_step. apply ends_lseek_whence. intros w.
  apply ends_ret. arm_wf.
Qed.

Lemma total_readdir (plus : bool) :
  arm_total (if plus then FUSE_READDIRPLUS else FUSE_READDIR) (decode_readdir h plus).
Proof. unfold decode_readdir. solve_arm. destruct plus; cbn; tauto. Qed.

(** *** SETATTR *)

(** The times of a [setattr] carry less than a second of nanoseconds. *)
Definition setattr_times_ok (arg : list byte) : Prop :=
  let x := pod_decode (T:=fuse_setattr_in) arg in
  x.(setattr_in_atimensec) < NANOS_PER_SEC ∧ x.(setattr_in_mtimensec) < NANOS_PER_SEC ∧
  x.(setattr_in_ctimensec) < NANOS_PER_SEC.

Lemma Duration_new_lt {E} secs nanos :
  nanos < NANOS_PER_SEC →
  Duration_new (E:=E) secs nanos = Ok {| as_secs := secs; subsec_nanos := nanos |}.
Proof. intros H. unfold Duration_new. by rewrite (proj2 (Z.ltb_lt _ _)). Qed.

Lemma ends_settime b valid now secs nanos d (Q : option SetAttrTime → Decoder → Prop) :
  is_u 64 secs → is_u 32 nanos → nanos < NANOS_PER_SEC →
  (∀ t, opt_ok settime_ok t → Q t d) →
  ends (lift (then_ b (setattr_time valid now secs nanos))) d Q.
Proof.
  intros Hs Hn Hlt HQ. unfold ends, lift, then_, setattr_time.
  destruct b; cbn; [|by apply HQ]. destruct (has valid now); cbn; [by apply HQ|].
  rewrite Duration_new_lt by done. cbn. apply HQ. split; [done|]. unfold is_u in *. cbn. lia.
Qed.

Lemma ends_ctime b secs nanos d (Q : option Duration → Decoder → Prop) :
  is_u 64 secs → is_u 32 nanos → nanos < NANOS_PER_SEC →
  (∀ t, opt_ok duration_ok t → Q t d) →
  ends (lift (then_ b (Duration_new secs nanos))) d Q.
Proof.
  intros Hs Hn Hlt HQ. unfold ends, lift, then_.
  destruct b; cbn; [|by apply HQ].
  rewrite Duration_new_lt by done. cbn. apply HQ. split; [done|]. unfold is_u in *. cbn. lia.
Qed.

Lemma total_setattr d :
  aligned_to d.(d_bytes).(s_addr) 8 = true → setattr_times_ok d.(d_bytes).(s_bytes) →
  ends (decode_setattr h) d (λ o _, Operation_wf config o ∧ In FUSE_SETATTR (opcodes_of o)).
Proof.
  intros Ha Ht. unfold decode_setattr. apply ends_bind, ends_fetch; [aligned|].
  intros x r Hx Hd. unfold setattr_times_ok in Ht. rewrite Hd, pod_decode_encode in Ht by done.
  simpl_pod_wf Hx. destruct_and? Hx. destruct_and? Ht. repeat arm_step.
  do 2 (apply ends_settime; [assumption..|]; intros ? ?; arm_step).
  apply ends_ctime; [assumption..|]. intros ? ?. arm_step. arm_wf.
Qed.

#[local] Hint Resolve
  total_forget total_batch_forget total_interrupt total_notify_reply total_lookup total_getattr
  total_readlink total_symlink total_mknod_opcode total_mkdir total_unlink total_rmdir total_rename
  total_rename2 total_link total_open total_read total_write_opcode total_release total_statfs
  total_fsync total_setxattr_opcode total_getxattr total_listxattr total_removexattr total_flush
  total_opendir total_readdir total_releasedir total_fsyncdir total_access
  total_create total_bmap total_fallocate total_copy_file_range total_poll total_lseek : totals.

(** What decoding asks of the argument: the times of a SETATTR are normalised, as
[Duration::new] needs, and the owner of a POSIX lock is not negative, as
[Pid::from_raw] needs. *)
Definition arg_ok (op : fuse_opcode) (arg : list byte) : Prop :=
  match op with
  | FUSE_SETATTR => setattr_times_ok arg
  | FUSE_GETLK => lock_pid_ok arg
  | FUSE_SETLK | FUSE_SETLKW => lock_is_flock arg ∨ lock_pid_ok arg
  | _ => True
  end.

Lemma decode_ends arg :
  aligned_to arg.(s_addr) 8 = true →
  h.(Header.raw).(in_header_opcode) ≠ discr FUSE_INIT →
  h.(Header.raw).(in_header_opcode) ≠ discr FUSE_DESTROY →
  (∀ op, InHeader_opcode h = Ok op → arg_ok op arg.(s_bytes)) →
  (∃ o, Operation_decode config h arg = Ok o ∧ Operation_wf config o ∧
     match InHeader_opcode h with Ok op => In op (opcodes_of o) | _ => o = Operation_Unsupported end) ∨
  (∃ e, Operation_decode config h arg = Err e ∧ e ≠ Unaligned).
Proof.
  intros Ha Hi Hd Hs. destruct (InHeader_opcode_cases h) as [(op & Ho & Hop)|Ho].
  - specialize (Hs op Ho). rewrite (Operation_decode_known _ _ _ _ Hop), Ho.
    assert (ends (decode_opcode config h op) (Decoder_new arg)
      (λ o _, Operation_wf config o ∧ In op (opcodes_of o))) as He.
    { rewrite Hop in Hi, Hd. destruct op; try congruence; try (by auto with totals); cbn in Hs;
        first [by apply total_setattr|by apply total_getlk|by apply (total_readdir false)|by apply (total_readdir true)
             |by apply (total_setlk false)|by apply (total_setlk true)|split; cbn; tauto]. }
    unfold ends in He. destruct (decode_opcode _ _ _ _) as [[o|e|w|] d']; cbn; [left|right|done..];
      [exists o|exists e]; tauto.
  - left. exists Operation_Unsupported. unfold Operation_decode. by rewrite Ho.
Qed.

(** C2: decoding is total and sound.  For any header and any argument bytes at
an 8-byte aligned address, [Operation::decode] returns a well-formed operation
(node ids non-zero, names without NUL, only known flags, values within their
widths, the short forms of old protocol versions respected) or an error other
than [Unaligned]; it never panics, provided the opcode is not INIT or DESTROY,
the times of a SETATTR are normalised, and the owner of a POSIX lock (GETLK, SETLK,
SETLKW without the flock flag) is not negative as a 32-bit integer: [Duration::new]
and [Pid::from_raw], to which these values go, may panic otherwise. *)
Theorem decode_total arg :
  aligned_to arg.(s_addr) 8 = true →
  h.(Header.raw).(in_header_opcode) ≠ discr FUSE_INIT →
  h.(Header.raw).(in_header_opcode) ≠ discr FUSE_DESTROY →
  (∀ op, InHeader_opcode h = Ok op → arg_ok op arg.(s_bytes)) →
  (∃ o, Operation_decode config h arg = Ok o ∧ Operation_wf config o ∧
     match InHeader_opcode h with Ok op => In op (opcodes_of o) | _ => o = Operation_Unsupported end) ∨
  (∃ e, Operation_decode config h arg = Err e ∧ e ≠ Unaligned).
Proof. apply decode_ends. Qed.

End total.

(** ** Instances *)

(** A LOOKUP of the name [a] in the root directory. *)
Definition lookup_header : InHeader := {| Header.raw := {|
  in_header_len := 42;
  in_header_opcode := 1;
  in_header_unique := 2;
  in_header_nodeid := 1;
  in_header_uid := 0;
  in_header_gid := 0;
  in_header_pid := 0;
  in_header_total_extlen := 0;
  in_header_padding := 0 |} |}.

Definition lookup_arg : slice :=
  {| s_addr := 4096; s_bytes := [Byte.x61; Byte.x00] |}.

Definition lookup_op : Operation :=
  Operation_Lookup {| Lookup_parent := NodeID_ROOT; Lookup_name := [Byte.x61] |}.

Lemma decode_total_witness :
  let _ := ref_bitflags in let _ := ref_zerocopy in let _ := ref_rustix in
  let _ := linux_libc in let _ : Profile := true in
  Operation_decode config_example lookup_header lookup_arg = Ok lookup_op ∧
  Operation_wf config_example lookup_op.
Proof.
  intros BF ZC RX L PR.
  destruct (@decode_total BF ref_bitflags_spec ZC ref_zerocopy_spec RX ref_rustix_spec L PR
    config_example lookup_header ltac:(repeat split; vm_compute; congruence) lookup_arg)
    as [(o & Ho & Hwf & _)|(e & He & _)];
    [reflexivity|vm_compute; congruence|vm_compute; congruence|by intros op [= <-]| |discriminate He].
  change (Ok (E:=DecodeError) lookup_op = Ok o) in Ho.
  assert (lookup_op = o) as <- by congruence. split; [reflexivity|exact Hwf].
Defined.

(** A GETLK whose owner is [u32::MAX], which is -1 as the [i32] that
[Pid::from_raw] gets: with the assertion of a debug build, decoding panics. *)
Definition getlk_header : InHeader := {| Header.raw := {|
  in_header_len := 88;
  in_header_opcode := 31;
  in_header_unique := 2;
  in_header_nodeid := 1;
  in_header_uid := 0;
  in_header_gid := 0;
  in_header_pid := 0;
  in_header_total_extlen := 0;
  in_header_padding := 0 |} |}.

Definition getlk_arg (pid : u32) : slice := {|
  s_addr := 4096;
  s_bytes := pod_encode {|
    lk_in_fh := 7;
    lk_in_owner := 1;
    lk_in_lk := {| file_lock_start := 0; file_lock_end := 9; file_lock_typ := 0; file_lock_pid := pid |};
    lk_in_lk_flags := 0;
    lk_in_padding := 0 |} |}.

Theorem decode_lock_pid_panics :
  let _ := ref_bitflags in let _ := ref_zerocopy in let _ := ref_rustix in
  let _ := linux_libc in let _ : Profile := true in
  Operation_decode config_example getlk_header (getlk_arg 0xffffffff)
    = Panic "assertion failed: raw >= 0" ∧
  Operation_decode config_example getlk_header (getlk_arg 41)
    = Ok (Operation_Getlk {|
        Getlk_ino := NodeID_ROOT;
        Getlk_fh := FileID_from_raw 7;
        Getlk_owner := LockOwnerID_from_raw 1;
        Getlk_file_lock :=
          {| FileLock_typ := 0; FileLock_start := 0; FileLock_end := 9; FileLock_pid := 41 |} |}).
Proof. intros BF ZC RX L PR. split; vm_compute; reflexivity. Qed.
