(* ===== verification/Reply.v ===== *)
(** * Replies: the trait [ReplySender] of [src/reply.rs]

The trait is the class [ReplySender]; its provided methods are definitions
over the class.  What a sender promises to the methods is the class
[ReplySenderLaw]: a reply depends on the chunks of its argument only. *)

From S2P Require Import Prelude Layout Kernel Crates Types Bytes Init.
Local Open Scope Z_scope.

Section attrs.

Definition to_fuse_attr (attr : FileAttr) : fuse_attr := {|
  attr_ino := attr.(FileAttr_ino).(NodeID_into_raw);
  attr_size := attr.(FileAttr_size);
  attr_blocks := attr.(FileAttr_blocks);
  attr_atime := attr.(FileAttr_atime).(as_secs);
  attr_mtime := attr.(FileAttr_mtime).(as_secs);
  attr_ctime := attr.(FileAttr_ctime).(as_secs);
  attr_atimensec := attr.(FileAttr_atime).(subsec_nanos);
  attr_mtimensec := attr.(FileAttr_mtime).(subsec_nanos);
  attr_ctimensec := attr.(FileAttr_ctime).(subsec_nanos);
  attr_mode := attr.(FileAttr_mode).(FileMode_into_raw);
  attr_nlink := attr.(FileAttr_nlink);
  attr_uid := attr.(FileAttr_uid);
  attr_gid := attr.(FileAttr_gid);
  attr_rdev := attr.(FileAttr_rdev).(DeviceID_into_kernel_dev);
  attr_blksize := attr.(FileAttr_blksize);
  attr_flags := 0;
|}.

Definition to_fuse_attr_compat_8 (attr : FileAttr) : fuse_attr_compat_8 := {|
  attr_compat_8_ino := attr.(FileAttr_ino).(NodeID_into_raw);
  attr_compat_8_size := attr.(FileAttr_size);
  attr_compat_8_blocks := attr.(FileAttr_blocks);
  attr_compat_8_atime := attr.(FileAttr_atime).(as_secs);
  attr_compat_8_mtime := attr.(FileAttr_mtime).(as_secs);
  attr_compat_8_ctime := attr.(FileAttr_ctime).(as_secs);
  attr_compat_8_atimensec := attr.(FileAttr_atime).(subsec_nanos);
  attr_compat_8_mtimensec := attr.(FileAttr_mtime).(subsec_nanos);
  attr_compat_8_ctimensec := attr.(FileAttr_ctime).(subsec_nanos);
  attr_compat_8_mode := attr.(FileAttr_mode).(FileMode_into_raw);
  attr_compat_8_nlink := attr.(FileAttr_nlink);
  attr_compat_8_uid := attr.(FileAttr_uid);
  attr_compat_8_gid := attr.(FileAttr_gid);
  attr_compat_8_rdev := attr.(FileAttr_rdev).(DeviceID_into_kernel_dev);
|}.

End attrs.

(** The constants of [OpenOutFlags], in order. *)
Definition OpenOutFlags_flags : list u32 :=
  [FOPEN_DIRECT_IO; FOPEN_KEEP_CACHE; FOPEN_NONSEEKABLE; FOPEN_CACHE_DIR; FOPEN_STREAM;
   FOPEN_NOFLUSH; FOPEN_PARALLEL_DIRECT_WRITES; FOPEN_PASSTHROUGH].

(** ** The trait *)

(** [W] is the state a reply acts on, [S] the sender, which a reply consumes. *)
Class ReplySender (S W : Type) := {
  rs_config : S → KernelConfig;
  reply_raw {T} (B : Bytes T) (self : S) (error : option Errno) (bytes : T) : M W io_error unit;
}.

Section reply.
Context `{BF : Bitflags} `{ZC : Zerocopy} {S W : Type} {RS : ReplySender S W}.

Definition PASSTHROUGH_MASK : u32 :=
  bf_union (bf_union (bf_union FOPEN_PASSTHROUGH FOPEN_DIRECT_IO) FOPEN_PARALLEL_DIRECT_WRITES)
    FOPEN_NOFLUSH.

Definition reply_bytes {T} (B : Bytes T) (self : S) (bytes : T) : M W io_error unit :=
  reply_raw B self None bytes.

Definition reply_error (self : S) (error : Errno) : M W io_error unit :=
  reply_raw unit_Bytes self (Some error) tt.

(** [Option::unwrap_or_default] *)
Definition unwrap_or_default (d : option Duration) : Duration := default Duration_ZERO d.

Definition reply_entry (self : S) (ino : option NodeID) (attr : FileAttr) (generation : u64)
    (attr_valid entry_valid : option Duration) : M W io_error unit :=
  let nodeid := match ino with Some ino => ino.(NodeID_into_raw) | None => 0 end in
  let entry_valid := unwrap_or_default entry_valid in
  let attr_valid := unwrap_or_default attr_valid in
  if (rs_config self).(minor) <=? 8 then
    reply_raw POD_Bytes self None (mkPOD {|
      entry_out_compat_8_nodeid := nodeid;
      entry_out_compat_8_generation := generation;
      entry_out_compat_8_entry_valid := entry_valid.(as_secs);
      entry_out_compat_8_attr_valid := attr_valid.(as_secs);
      entry_out_compat_8_entry_valid_nsec := entry_valid.(subsec_nanos);
      entry_out_compat_8_attr_valid_nsec := attr_valid.(subsec_nanos);
      entry_out_compat_8_attr := to_fuse_attr_compat_8 attr |})
  else
    reply_raw POD_Bytes self None (mkPOD {|
      entry_out_nodeid := nodeid;
      entry_out_generation := generation;
      entry_out_entry_valid := entry_valid.(as_secs);
      entry_out_attr_valid := attr_valid.(as_secs);
      entry_out_entry_valid_nsec := entry_valid.(subsec_nanos);
      entry_out_attr_valid_nsec := attr_valid.(subsec_nanos);
      entry_out_attr := to_fuse_attr attr |}).

Definition reply_attr (self : S) (attr : FileAttr) (valid : option Duration) : M W io_error unit :=
  let valid := unwrap_or_default valid in
  if (rs_config self).(minor) <=? 8 then
    reply_raw POD_Bytes self None (mkPOD {|
      attr_out_compat_8_attr_valid := valid.(as_secs);
      attr_out_compat_8_attr_valid_nsec := valid.(subsec_nanos);
      attr_out_compat_8_dummy := 0;
      attr_out_compat_8_attr := to_fuse_attr_compat_8 attr |})
  else
    reply_raw POD_Bytes self None (mkPOD {|
      attr_out_attr_valid := valid.(as_secs);
      attr_out_attr_valid_nsec := valid.(subsec_nanos);
      attr_out_dummy := 0;
      attr_out_attr := to_fuse_attr attr |}).

Definition reply_write (self : S) (size : u32) : M W io_error unit :=
  reply_raw POD_Bytes self None (mkPOD {| write_out_size := size; write_out_padding := 0 |}).

Definition enabled_passthrough (config : KernelConfig) : bool :=
  (40 <=? config.(minor)) && bf_contains config.(flags) FUSE_PASSTHROUGH.

Definition reply_open (self : S) (fh : FileID) (open_flags : u32) (backing_id : i32)
    : M W io_error unit :=
  reply_raw POD_Bytes self None (mkPOD {|
    open_out_fh := fh.(FileID_into_raw);
    open_out_open_flags := open_flags;
    open_out_backing_id := if enabled_passthrough (rs_config self) then backing_id else 0 |}).

Definition reply_statfs (self : S) (st : Statfs) : M W io_error unit :=
  if (rs_config self).(minor) <=? 3 then
    reply_raw POD_Bytes self None (mkPOD {| statfs_out_compat_3_st := {|
      kstatfs_compat_3_blocks := st.(Statfs_blocks);
      kstatfs_compat_3_bfree := st.(Statfs_bfree);
      kstatfs_compat_3_bavail := st.(Statfs_bavail);
      kstatfs_compat_3_files := st.(Statfs_files);
      kstatfs_compat_3_ffree := st.(Statfs_ffree);
      kstatfs_compat_3_bsize := st.(Statfs_bsize);
      kstatfs_compat_3_namelen := st.(Statfs_namelen) |} |})
  else
    reply_raw POD_Bytes self None (mkPOD {| statfs_out_st := {|
      kstatfs_blocks := st.(Statfs_blocks);
      kstatfs_bfree := st.(Statfs_bfree);
      kstatfs_bavail := st.(Statfs_bavail);
      kstatfs_files := st.(Statfs_files);
      kstatfs_ffree := st.(Statfs_ffree);
      kstatfs_bsize := st.(Statfs_bsize);
      kstatfs_namelen := st.(Statfs_namelen);
      kstatfs_frsize := st.(Statfs_frsize);
      kstatfs_padding := 0;
      kstatfs_spare := [0; 0; 0; 0; 0; 0] |} |}).

Definition reply_xattr (self : S) (size : u32) : M W io_error unit :=
  reply_raw POD_Bytes self None (mkPOD {| getxattr_out_size := size; getxattr_out_padding := 0 |}).

Definition reply_lock (self : S) (lk : FileLock) : M W io_error unit :=
  reply_raw POD_Bytes self None (mkPOD {| lk_out_lk := {|
    file_lock_start := lk.(FileLock_start);
    file_lock_end := lk.(FileLock_end);
    file_lock_typ := lk.(FileLock_typ);
    file_lock_pid := wrap_u 32 lk.(FileLock_pid) |} |}).

Definition reply_bmap (self : S) (block : u64) : M W io_error unit :=
  reply_raw POD_Bytes self None (mkPOD {| bmap_out_block := block |}).

Definition reply_poll (self : S) (revents : u32) : M W io_error unit :=
  reply_raw POD_Bytes self None (mkPOD {| poll_out_revents := revents; poll_out_padding := 0 |}).

Definition reply_lseek (self : S) (offset : u64) : M W io_error unit :=
  reply_raw POD_Bytes self None (mkPOD {| lseek_out_offset := offset |}).

End reply.

(** ** What a sender promises *)

(** An error number of the kernel. *)
Definition errno_ok (error : option Errno) : Prop :=
  match error with Some e => 0 < e < 2 ^ 31 | None => True end.

(** [emit] is the effect of a reply, as a function of the error and of the
chunks of the argument, for a sender in a good state. *)
Class ReplySenderLaw {S W} (RS : ReplySender S W) (ok : S → Prop)
    (emit : S → option Errno → list (list byte) → M W io_error unit) : Prop :=
  reply_raw_emit : ∀ T (B : Bytes T) s error (x : T) w,
    ok s → errno_ok error → bytes_ok B x →
    reply_raw B s error x w = emit s error (chunks B x) w.

(** A sender that records what it is given, with a fixed configuration: the
sender the unit tests use. *)
Definition recorder := list (option Errno * list byte).

Definition recorder_sender : ReplySender KernelConfig recorder := {|
  rs_config := id;
  reply_raw T B self error bytes := λ w, (Ok tt, w ++ [(error, content B bytes)]);
|}.

Lemma recorder_sender_law :
  ReplySenderLaw recorder_sender (λ _, True) (λ _ error cs w, (Ok tt, w ++ [(error, concat cs)])).
Proof. intros T B s error x w _ _ Hx. done. Qed.

(** ** The reply as the kernel reads it *)

Definition attr_of_fuse (a : fuse_attr) : FileAttr := {|
  FileAttr_ino := NodeID_from_raw_unchecked a.(attr_ino);
  FileAttr_size := a.(attr_size);
  FileAttr_mode := FileMode_from_raw a.(attr_mode);
  FileAttr_nlink := a.(attr_nlink);
  FileAttr_uid := a.(attr_uid);
  FileAttr_gid := a.(attr_gid);
  FileAttr_rdev := DeviceID_from_kernel_dev a.(attr_rdev);
  FileAttr_blksize := a.(attr_blksize);
  FileAttr_blocks := a.(attr_blocks);
  FileAttr_atime := {| as_secs := a.(attr_atime); subsec_nanos := a.(attr_atimensec) |};
  FileAttr_mtime := {| as_secs := a.(attr_mtime); subsec_nanos := a.(attr_mtimensec) |};
  FileAttr_ctime := {| as_secs := a.(attr_ctime); subsec_nanos := a.(attr_ctimensec) |};
|}.

(** The old structure has no block size: the kernel reads zero. *)
Definition attr_of_fuse_compat_8 (a : fuse_attr_compat_8) : FileAttr := {|
  FileAttr_ino := NodeID_from_raw_unchecked a.(attr_compat_8_ino);
  FileAttr_size := a.(attr_compat_8_size);
  FileAttr_mode := FileMode_from_raw a.(attr_compat_8_mode);
  FileAttr_nlink := a.(attr_compat_8_nlink);
  FileAttr_uid := a.(attr_compat_8_uid);
  FileAttr_gid := a.(attr_compat_8_gid);
  FileAttr_rdev := DeviceID_from_kernel_dev a.(attr_compat_8_rdev);
  FileAttr_blksize := 0;
  FileAttr_blocks := a.(attr_compat_8_blocks);
  FileAttr_atime := {| as_secs := a.(attr_compat_8_atime); subsec_nanos := a.(attr_compat_8_atimensec) |};
  FileAttr_mtime := {| as_secs := a.(attr_compat_8_mtime); subsec_nanos := a.(attr_compat_8_mtimensec) |};
  FileAttr_ctime := {| as_secs := a.(attr_compat_8_ctime); subsec_nanos := a.(attr_compat_8_ctimensec) |};
|}.

Record entry_view := {
  ev_nodeid : u64;
  ev_generation : u64;
  ev_entry_valid : Duration;
  ev_attr_valid : Duration;
  ev_attr : FileAttr;
}.

(** The payload of an entry reply: its size and its reading, by version. *)
Definition entry_size (m : u32) : Z := if m <=? 8 then FUSE_COMPAT_ENTRY_OUT_SIZE else 128.
Definition attr_size_of (m : u32) : Z := if m <=? 8 then FUSE_COMPAT_ATTR_OUT_SIZE else 104.

Definition read_entry (m : u32) (bs : list byte) : entry_view :=
  if m <=? 8 then
    let e := pod_decode (T:=fuse_entry_out_compat_8) bs in {|
      ev_nodeid := e.(entry_out_compat_8_nodeid);
      ev_generation := e.(entry_out_compat_8_generation);
      ev_entry_valid := {| as_secs := e.(entry_out_compat_8_entry_valid);
                           subsec_nanos := e.(entry_out_compat_8_entry_valid_nsec) |};
      ev_attr_valid := {| as_secs := e.(entry_out_compat_8_attr_valid);
                          subsec_nanos := e.(entry_out_compat_8_attr_valid_nsec) |};
      ev_attr := attr_of_fuse_compat_8 e.(entry_out_compat_8_attr) |}
  else
    let e := pod_decode (T:=fuse_entry_out) bs in {|
      ev_nodeid := e.(entry_out_nodeid);
      ev_generation := e.(entry_out_generation);
      ev_entry_valid := {| as_secs := e.(entry_out_entry_valid);
                           subsec_nanos := e.(entry_out_entry_valid_nsec) |};
      ev_attr_valid := {| as_secs := e.(entry_out_attr_valid);
                          subsec_nanos := e.(entry_out_attr_valid_nsec) |};
      ev_attr := attr_of_fuse e.(entry_out_attr) |}.

Definition read_attr (m : u32) (bs : list byte) : Duration * FileAttr :=
  if m <=? 8 then
    let a := pod_decode (T:=fuse_attr_out_compat_8) bs in
    ({| as_secs := a.(attr_out_compat_8_attr_valid);
        subsec_nanos := a.(attr_out_compat_8_attr_valid_nsec) |},
     attr_of_fuse_compat_8 a.(attr_out_compat_8_attr))
  else
    let a := pod_decode (T:=fuse_attr_out) bs in
    ({| as_secs := a.(attr_out_attr_valid); subsec_nanos := a.(attr_out_attr_valid_nsec) |},
     attr_of_fuse a.(attr_out_attr)).

(** What a version of the protocol transports of the attributes. *)
Definition attr_sent (m : u32) (a : FileAttr) : FileAttr :=
  if m <=? 8 then {|
    FileAttr_ino := a.(FileAttr_ino);
    FileAttr_size := a.(FileAttr_size);
    FileAttr_mode := a.(FileAttr_mode);
    FileAttr_nlink := a.(FileAttr_nlink);
    FileAttr_uid := a.(FileAttr_uid);
    FileAttr_gid := a.(FileAttr_gid);
    FileAttr_rdev := a.(FileAttr_rdev);
    FileAttr_blksize := 0;
    FileAttr_blocks := a.(FileAttr_blocks);
    FileAttr_atime := a.(FileAttr_atime);
    FileAttr_mtime := a.(FileAttr_mtime);
    FileAttr_ctime := a.(FileAttr_ctime) |}
  else a.

Definition time_wf (t : Duration) : Prop := is_u 64 t.(as_secs) ∧ is_u 32 t.(subsec_nanos).

Record attr_wf (a : FileAttr) : Prop := {
  aw_ino : is_u 64 a.(FileAttr_ino).(NodeID_into_raw);
  aw_size : is_u 64 a.(FileAttr_size);
  aw_mode : is_u 32 a.(FileAttr_mode).(FileMode_into_raw);
  aw_nlink : is_u 32 a.(FileAttr_nlink);
  aw_uid : is_u 32 a.(FileAttr_uid);
  aw_gid : is_u 32 a.(FileAttr_gid);
  aw_rdev : is_u 32 a.(FileAttr_rdev).(DeviceID_into_kernel_dev);
  aw_blksize : is_u 32 a.(FileAttr_blksize);
  aw_blocks : is_u 64 a.(FileAttr_blocks);
  aw_atime : time_wf a.(FileAttr_atime);
  aw_mtime : time_wf a.(FileAttr_mtime);
  aw_ctime : time_wf a.(FileAttr_ctime);
}.

Definition opt_time_wf (t : option Duration) : Prop := time_wf (unwrap_or_default t).

Record statfs_wf (st : Statfs) : Prop := {
  sw_bsize : is_u 32 st.(Statfs_bsize);
  sw_frsize : is_u 32 st.(Statfs_frsize);
  sw_blocks : is_u 64 st.(Statfs_blocks);
  sw_bfree : is_u 64 st.(Statfs_bfree);
  sw_bavail : is_u 64 st.(Statfs_bavail);
  sw_files : is_u 64 st.(Statfs_files);
  sw_ffree : is_u 64 st.(Statfs_ffree);
  sw_namelen : is_u 32 st.(Statfs_namelen);
}.

Definition read_statfs (m : u32) (bs : list byte) : Statfs :=
  if m <=? 3 then
    let st := (pod_decode (T:=fuse_statfs_out_compat_3) bs).(statfs_out_compat_3_st) in {|
      Statfs_bsize := st.(kstatfs_compat_3_bsize);
      Statfs_frsize := 0;
      Statfs_blocks := st.(kstatfs_compat_3_blocks);
      Statfs_bfree := st.(kstatfs_compat_3_bfree);
      Statfs_bavail := st.(kstatfs_compat_3_bavail);
      Statfs_files := st.(kstatfs_compat_3_files);
      Statfs_ffree := st.(kstatfs_compat_3_ffree);
      Statfs_namelen := st.(kstatfs_compat_3_namelen) |}
  else
    let st := (pod_decode (T:=fuse_statfs_out) bs).(statfs_out_st) in {|
      Statfs_bsize := st.(kstatfs_bsize);
      Statfs_frsize := st.(kstatfs_frsize);
      Statfs_blocks := st.(kstatfs_blocks);
      Statfs_bfree := st.(kstatfs_bfree);
      Statfs_bavail := st.(kstatfs_bavail);
      Statfs_files := st.(kstatfs_files);
      Statfs_ffree := st.(kstatfs_ffree);
      Statfs_namelen := st.(kstatfs_namelen) |}.

Definition statfs_sent (m : u32) (st : Statfs) : Statfs :=
  if m <=? 3 then {|
    Statfs_bsize := st.(Statfs_bsize);
    Statfs_frsize := 0;
    Statfs_blocks := st.(Statfs_blocks);
    Statfs_bfree := st.(Statfs_bfree);
    Statfs_bavail := st.(Statfs_bavail);
    Statfs_files := st.(Statfs_files);
    Statfs_ffree := st.(Statfs_ffree);
    Statfs_namelen := st.(Statfs_namelen) |}
  else st.

(** The payloads of the replies that carry attributes, by version. *)
Definition raw_nodeid (ino : option NodeID) : u64 :=
  match ino with Some n => n.(NodeID_into_raw) | None => 0 end.

Definition entry_payload (m : u32) (ino : option NodeID) (attr : FileAttr) (generation : u64)
    (attr_valid entry_valid : option Duration) : list byte :=
  let ev := unwrap_or_default entry_valid in
  let av := unwrap_or_default attr_valid in
  if m <=? 8 then pod_encode {|
    entry_out_compat_8_nodeid := raw_nodeid ino;
    entry_out_compat_8_generation := generation;
    entry_out_compat_8_entry_valid := ev.(as_secs);
    entry_out_compat_8_attr_valid := av.(as_secs);
    entry_out_compat_8_entry_valid_nsec := ev.(subsec_nanos);
    entry_out_compat_8_attr_valid_nsec := av.(subsec_nanos);
    entry_out_compat_8_attr := to_fuse_attr_compat_8 attr |}
  else pod_encode {|
    entry_out_nodeid := raw_nodeid ino;
    entry_out_generation := generation;
    entry_out_entry_valid := ev.(as_secs);
    entry_out_attr_valid := av.(as_secs);
    entry_out_entry_valid_nsec := ev.(subsec_nanos);
    entry_out_attr_valid_nsec := av.(subsec_nanos);
    entry_out_attr := to_fuse_attr attr |}.

Definition attr_payload (m : u32) (attr : FileAttr) (valid : option Duration) : list byte :=
  let v := unwrap_or_default valid in
  if m <=? 8 then pod_encode {|
    attr_out_compat_8_attr_valid := v.(as_secs);
    attr_out_compat_8_attr_valid_nsec := v.(subsec_nanos);
    attr_out_compat_8_dummy := 0;
    attr_out_compat_8_attr := to_fuse_attr_compat_8 attr |}
  else pod_encode {|
    attr_out_attr_valid := v.(as_secs);
    attr_out_attr_valid_nsec := v.(subsec_nanos);
    attr_out_dummy := 0;
    attr_out_attr := to_fuse_attr attr |}.

Section reply_facts.
Context `{BF : Bitflags} {HBF : BitflagsSpec} `{ZC : Zerocopy} {HZC : ZerocopySpec}.
Context {S W : Type} {RS : ReplySender S W} {sender_ok : S → Prop}.
Context {emit : S → option Errno → list (list byte) → M W io_error unit}.
Context {HRS : ReplySenderLaw RS sender_ok emit}.

(** A structure is sent as one chunk, its image in memory. *)
Lemma reply_pod {T} `{Pod T} s (x : T) w :
  sender_ok s → reply_raw POD_Bytes s None (mkPOD x) w = emit s None [pod_encode x] w.
Proof.
  intros Hs. rewrite (reply_raw_emit _ POD_Bytes) by (done || apply POD_chunks).
  by rewrite (proj2 (POD_chunks _)), zc_as_bytes_spec.
Qed.

Lemma attr_of_to_fuse a : attr_of_fuse (to_fuse_attr a) = a.
Proof. by destruct a as [[] ? [] ? ? ? [] ? ? [] [] []]. Qed.

Lemma attr_of_to_fuse_compat_8 a m :
  (m <=? 8) = true → attr_of_fuse_compat_8 (to_fuse_attr_compat_8 a) = attr_sent m a.
Proof. intros Hm. unfold attr_sent. rewrite Hm. by destruct a as [[] ? [] ? ? ? [] ? ? [] [] []]. Qed.

Lemma duration_eta t : {| as_secs := t.(as_secs); subsec_nanos := t.(subsec_nanos) |} = t.
Proof. by destruct t. Qed.

Ltac reply_wf :=
  goal_pod_wf; split_fields; first [assumption|exact I|by split|by repeat constructor].

Lemma raw_nodeid_width ino :
  match ino with Some n => is_u 64 n.(NodeID_into_raw) | None => True end → is_u 64 (raw_nodeid ino).
Proof. destruct ino; [done|]. by split. Qed.

Lemma reply_entry_emit s ino attr generation attr_valid entry_valid w :
  sender_ok s →
  reply_entry s ino attr generation attr_valid entry_valid w =
    emit s None [entry_payload (rs_config s).(minor) ino attr generation attr_valid entry_valid] w.
Proof. intros Hs. unfold reply_entry, entry_payload. by destruct (_ <=? 8); rewrite reply_pod. Qed.

Lemma reply_attr_emit s attr valid w :
  sender_ok s →
  reply_attr s attr valid w = emit s None [attr_payload (rs_config s).(minor) attr valid] w.
Proof. intros Hs. unfold reply_attr, attr_payload. by destruct (_ <=? 8); rewrite reply_pod. Qed.

(** The kernel reads the payloads back. *)
Lemma read_entry_payload m ino attr generation attr_valid entry_valid :
  attr_wf attr → is_u 64 generation → opt_time_wf attr_valid → opt_time_wf entry_valid →
  match ino with Some n => is_u 64 n.(NodeID_into_raw) | None => True end →
  let payload := entry_payload m ino attr generation attr_valid entry_valid in
  Z.of_nat (length payload) = entry_size m ∧
  read_entry m payload = {|
    ev_nodeid := raw_nodeid ino;
    ev_generation := generation;
    ev_entry_valid := unwrap_or_default entry_valid;
    ev_attr_valid := unwrap_or_default attr_valid;
    ev_attr := attr_sent m attr |}.
Proof.
  intros [? ? ? ? ? ? ? ? ? [] [] []] Hg [Hav1 Hav2] [Hev1 Hev2] Hn%raw_nodeid_width.
  unfold entry_payload, entry_size, read_entry. destruct (m <=? 8) eqn:Hm.
  - rewrite length_pod_encode by (unfold to_fuse_attr_compat_8; reply_wf). split; [done|].
    rewrite <- (app_nil_r (pod_encode _)), pod_decode_encode by (unfold to_fuse_attr_compat_8; reply_wf).
    cbn [entry_out_compat_8_attr entry_out_compat_8_nodeid entry_out_compat_8_generation
      entry_out_compat_8_entry_valid entry_out_compat_8_attr_valid
      entry_out_compat_8_entry_valid_nsec entry_out_compat_8_attr_valid_nsec].
    by rewrite (attr_of_to_fuse_compat_8 _ m), !duration_eta.
  - rewrite length_pod_encode by (unfold to_fuse_attr; reply_wf). split; [done|].
    rewrite <- (app_nil_r (pod_encode _)), pod_decode_encode by (unfold to_fuse_attr; reply_wf).
    cbn [entry_out_attr entry_out_nodeid entry_out_generation entry_out_entry_valid
      entry_out_attr_valid entry_out_entry_valid_nsec entry_out_attr_valid_nsec].
    unfold attr_sent. by rewrite Hm, attr_of_to_fuse, !duration_eta.
Qed.

Lemma read_attr_payload m attr valid :
  attr_wf attr → opt_time_wf valid →
  let payload := attr_payload m attr valid in
  Z.of_nat (length payload) = attr_size_of m ∧
  read_attr m payload = (unwrap_or_default valid, attr_sent m attr).
Proof.
  intros [? ? ? ? ? ? ? ? ? [] [] []] [Hv1 Hv2].
  unfold attr_payload, attr_size_of, read_attr. destruct (m <=? 8) eqn:Hm.
  - rewrite length_pod_encode by (unfold to_fuse_attr_compat_8; reply_wf). split; [done|].
    rewrite <- (app_nil_r (pod_encode _)), pod_decode_encode by (unfold to_fuse_attr_compat_8; reply_wf).
    cbn [attr_out_compat_8_attr attr_out_compat_8_attr_valid attr_out_compat_8_attr_valid_nsec].
    by rewrite (attr_of_to_fuse_compat_8 _ m), !duration_eta.
  - rewrite length_pod_encode by (unfold to_fuse_attr; reply_wf). split; [done|].
    rewrite <- (app_nil_r (pod_encode _)), pod_decode_encode by (unfold to_fuse_attr; reply_wf).
    cbn [attr_out_attr attr_out_attr_valid attr_out_attr_valid_nsec].
    unfold attr_sent. by rewrite Hm, attr_of_to_fuse, !duration_eta.
Qed.

(** C31: an entry reply is one successful reply whose payload has the size the
negotiated version prescribes (120 bytes up to 7.8, 128 bytes later) and from
which the kernel reads the node id (zero for a negative entry), the generation,
the two timeouts and the attributes (without the block size up to 7.8). *)
Theorem reply_entry_wire s ino attr generation attr_valid entry_valid w :
  sender_ok s →
  attr_wf attr → is_u 64 generation → opt_time_wf attr_valid → opt_time_wf entry_valid →
  match ino with Some n => is_u 64 n.(NodeID_into_raw) | None => True end →
  let m := (rs_config s).(minor) in
  ∃ payload,
    reply_entry s ino attr generation attr_valid entry_valid w = emit s None [payload] w ∧
    Z.of_nat (length payload) = entry_size m ∧
    read_entry m payload = {|
      ev_nodeid := match ino with Some n => n.(NodeID_into_raw) | None => 0 end;
      ev_generation := generation;
      ev_entry_valid := unwrap_or_default entry_valid;
      ev_attr_valid := unwrap_or_default attr_valid;
      ev_attr := attr_sent m attr |}.
Proof.
  intros Hs Ha Hg Hav Hev Hn m. eexists. split; [by apply reply_entry_emit|].
  by apply read_entry_payload.
Qed.

(** An attribute reply is one successful reply whose payload has the size
the negotiated version prescribes (96 bytes up to 7.8, 104 bytes later) and
from which the kernel reads the timeout and the attributes. *)
Lemma reply_attr_wire s attr valid w :
  sender_ok s →
  attr_wf attr → opt_time_wf valid →
  let m := (rs_config s).(minor) in
  ∃ payload,
    reply_attr s attr valid w = emit s None [payload] w ∧
    Z.of_nat (length payload) = attr_size_of m ∧
    read_attr m payload = (unwrap_or_default valid, attr_sent m attr).
Proof.
  intros Hs Ha Hv m. eexists. split; [by apply reply_attr_emit|]. by apply read_attr_payload.
Qed.

(** A statistics reply has the size the negotiated version prescribes (48
bytes up to 7.3, 80 bytes later) and the kernel reads the statistics from it
(without the fragment size up to 7.3). *)
Lemma reply_statfs_wire s st w :
  sender_ok s →
  statfs_wf st →
  let m := (rs_config s).(minor) in
  ∃ payload,
    reply_statfs s st w = emit s None [payload] w ∧
    Z.of_nat (length payload) = (if m <=? 3 then FUSE_COMPAT_STATFS_SIZE else 80) ∧
    read_statfs m payload = statfs_sent m st.
Proof.
  intros Hs [? ? ? ? ? ? ? ?] m. unfold reply_statfs, read_statfs, statfs_sent. fold m.
  destruct (m <=? 3) eqn:Hm; eexists; (split; [by rewrite reply_pod|]).
  - rewrite length_pod_encode by reply_wf. split; [done|].
    by rewrite <- (app_nil_r (pod_encode _)), pod_decode_encode by reply_wf.
  - rewrite length_pod_encode by reply_wf. split; [done|].
    rewrite <- (app_nil_r (pod_encode _)), pod_decode_encode by reply_wf. by destruct st.
Qed.

(** An open reply carries the file handle, the flags and the backing id,
and the backing id is sent only when passthrough was negotiated (protocol 7.40
or later and the PASSTHROUGH flag). *)
Lemma reply_open_wire s fh open_flags backing_id w :
  sender_ok s →
  is_u 64 fh.(FileID_into_raw) → is_u 32 open_flags → is_i 32 backing_id →
  let c := rs_config s in
  ∃ payload,
    reply_open s fh open_flags backing_id w = emit s None [payload] w ∧
    length payload = 16%nat ∧
    let o := pod_decode (T:=fuse_open_out) payload in
    o.(open_out_fh) = fh.(FileID_into_raw) ∧ o.(open_out_open_flags) = open_flags ∧
    (40 ≤ c.(minor) ∧ Z.land c.(flags) FUSE_PASSTHROUGH = FUSE_PASSTHROUGH →
       o.(open_out_backing_id) = backing_id) ∧
    (c.(minor) < 40 ∨ Z.land c.(flags) FUSE_PASSTHROUGH ≠ FUSE_PASSTHROUGH →
       o.(open_out_backing_id) = 0).
Proof.
  intros Hs Hf Ho Hb c. unfold reply_open, enabled_passthrough. fold c. rewrite bf_contains_spec.
  eexists. split; [by rewrite reply_pod|].
  assert (is_i 32 (if (40 <=? minor c) && (Z.land (flags c) FUSE_PASSTHROUGH =? FUSE_PASSTHROUGH)
    then backing_id else 0)) by (destruct (_ && _); [done|by split]).
  rewrite length_pod_encode by reply_wf. split; [done|].
  rewrite <- (app_nil_r (pod_encode _)), pod_decode_encode by reply_wf. cbn.
  split_and!; [done..| |].
  - intros [Hm Hp]. by rewrite (proj2 (Z.leb_le _ _) Hm), (proj2 (Z.eqb_eq _ _) Hp).
  - intros [Hm|Hp]; [by rewrite (proj2 (Z.leb_gt _ _) Hm)|].
    by rewrite (proj2 (Z.eqb_neq _ _) Hp), andb_false_r.
Qed.

End reply_facts.

(** ** Instances *)

Definition attr_example : FileAttr := {|
  FileAttr_ino := NodeID_from_raw_unchecked 9876;
  FileAttr_size := 4096;
  FileAttr_mode := FileMode_from_raw 33188;
  FileAttr_nlink := 1;
  FileAttr_uid := 1000;
  FileAttr_gid := 100;
  FileAttr_rdev := DeviceID_from_kernel_dev 0;
  FileAttr_blksize := 512;
  FileAttr_blocks := 8;
  FileAttr_atime := {| as_secs := 22; subsec_nanos := 19 |};
  FileAttr_mtime := {| as_secs := 23; subsec_nanos := 20 |};
  FileAttr_ctime := {| as_secs := 24; subsec_nanos := 21 |};
|}.

Lemma attr_example_wf : attr_wf attr_example.
Proof. by repeat split. Qed.

Lemma reply_entry_wire_witness :
  let _ := ref_zerocopy in
  let c := set_version 7 5 config_example in
  ∃ payload,
    @reply_entry _ KernelConfig recorder recorder_sender c (Some (NodeID_from_raw_unchecked 9876))
      attr_example 42 (Some {| as_secs := 22; subsec_nanos := 19 |}) None [] = (Ok tt, [(None, payload)]) ∧
    length payload = 120%nat ∧ (read_entry 5 payload).(ev_nodeid) = 9876.
Proof.
  intros ZC c.
  destruct (@reply_entry_wire ZC ref_zerocopy_spec _ _ recorder_sender _ _ recorder_sender_law c
    (Some (NodeID_from_raw_unchecked 9876)) attr_example 42
    (Some {| as_secs := 22; subsec_nanos := 19 |}) None [] I attr_example_wf
    ltac:(by split) ltac:(by repeat split) ltac:(by repeat split) ltac:(by split))
    as (payload & -> & Hl & Hr).
  exists payload. cbn [concat app]. rewrite app_nil_r. split; [reflexivity|].
  split; [apply Nat2Z.inj; exact Hl|]. change (minor (rs_config c)) with 5 in Hr.
  rewrite Hr. reflexivity.
Defined.

Lemma reply_attr_wire_witness :
  let _ := ref_zerocopy in
  ∃ payload,
    @reply_attr _ KernelConfig recorder recorder_sender config_example attr_example None [] =
      (Ok tt, [(None, payload)]) ∧
    length payload = 104%nat ∧ (read_attr 44 payload).2 = attr_example.
Proof.
  intros ZC.
  destruct (@reply_attr_wire ZC ref_zerocopy_spec _ _ recorder_sender _ _ recorder_sender_law
    config_example attr_example None [] I attr_example_wf ltac:(by repeat split))
    as (payload & -> & Hl & Hr).
  exists payload. cbn [concat app]. rewrite app_nil_r. split; [reflexivity|].
  split; [apply Nat2Z.inj; exact Hl|]. change (minor (rs_config config_example)) with 44 in Hr.
  rewrite Hr. reflexivity.
Defined.

Definition statfs_example : Statfs := {|
  Statfs_bsize := 4096; Statfs_frsize := 512; Statfs_blocks := 1000; Statfs_bfree := 500;
  Statfs_bavail := 400; Statfs_files := 10; Statfs_ffree := 3; Statfs_namelen := 255 |}.

Lemma reply_statfs_wire_witness :
  let _ := ref_zerocopy in
  ∃ payload,
    @reply_statfs _ KernelConfig recorder recorder_sender config_example statfs_example [] =
      (Ok tt, [(None, payload)]) ∧
    length payload = 80%nat ∧ read_statfs 44 payload = statfs_example.
Proof.
  intros ZC.
  destruct (@reply_statfs_wire ZC ref_zerocopy_spec _ _ recorder_sender _ _ recorder_sender_law
    config_example statfs_example [] I ltac:(by repeat split)) as (payload & -> & Hl & Hr).
  exists payload. cbn [concat app]. rewrite app_nil_r. split; [reflexivity|].
  split; [apply Nat2Z.inj; exact Hl|exact Hr].
Defined.

Lemma reply_open_wire_witness :
  let _ := ref_bitflags in let _ := ref_zerocopy in
  ∃ payload,
    @reply_open _ _ KernelConfig recorder recorder_sender config_example (FileID_from_raw 22)
      FOPEN_DIRECT_IO 2 [] = (Ok tt, [(None, payload)]) ∧
    (pod_decode (T:=fuse_open_out) payload).(open_out_backing_id) = 0.
Proof.
  intros BF ZC.
  destruct (@reply_open_wire BF ref_bitflags_spec ZC ref_zerocopy_spec _ _ recorder_sender _ _
    recorder_sender_law config_example (FileID_from_raw 22) FOPEN_DIRECT_IO 2 [] I
    ltac:(by split) ltac:(by split) ltac:(by split))
    as (payload & -> & _ & _ & _ & _ & H0).
  exists payload. cbn [concat app]. rewrite app_nil_r. split; [reflexivity|].
  apply H0. right. vm_compute. congruence.
Defined.
