(* ===== verification/Dirent.v ===== *)
(** * Directory streams: [DirEntryBuf] of [src/reply.rs]

The buffer a filesystem fills in answer to a READDIR, as a vector with its
capacity, and the stream the kernel parses from it. *)

From S2P Require Import Prelude Layout Kernel Crates Types Bytes Reply Operation.
Local Open Scope Z_scope.

(** ** [Vec<u8>] *)

Record Vec := { vec_capacity : usize; vec_bytes : list byte }.

Definition vec_len (v : Vec) : usize := Z.of_nat (length v.(vec_bytes)).

(** [Vec::with_capacity] may allocate more than it is asked for. *)
Class Alloc := alloc_capacity : usize → usize.
Class AllocSpec `{Alloc} : Prop := {
  alloc_capacity_spec n : n ≤ alloc_capacity n;
  (** an allocation has at most [isize::MAX] bytes *)
  alloc_capacity_max n : n < 2 ^ 63 → alloc_capacity n < 2 ^ 63;
}.

Definition with_capacity `{Alloc} (capacity : usize) : Vec :=
  {| vec_capacity := alloc_capacity capacity; vec_bytes := [] |}.

(** The vector grows when the bytes do not fit. *)
Definition extend_from_slice (v : Vec) (bs : list byte) : Vec := {|
  vec_capacity := Z.max v.(vec_capacity) (vec_len v + Z.of_nat (length bs));
  vec_bytes := v.(vec_bytes) ++ bs;
|}.

Definition resize (v : Vec) (new_len : usize) (value : byte) : Vec := {|
  vec_capacity := Z.max v.(vec_capacity) new_len;
  vec_bytes := take (Z.to_nat new_len) v.(vec_bytes)
               ++ replicate (Z.to_nat (new_len - vec_len v)) value;
|}.

(** ** The buffer *)

Record DirEntryBuf := { deb_buf : Vec }.

Definition DirEntryBuf_new `{Alloc} (capacity : usize) : DirEntryBuf :=
  {| deb_buf := with_capacity capacity |}.

Definition usize_not (x : usize) : usize := Z.lxor x (2 ^ 64 - 1).

Section dirent.
Context `{ZC : Zerocopy} `{L : Libc} `{PR : Profile}.

Definition aligned {E} (len : usize) : outcome E usize :=
  n ← arith_u 64 (len + 8);
  n ← arith_u 64 (n - 1);
  Ok (Z.land n (usize_not (8 - 1))).

Definition dirent_type (typ : option FileType) : u8 :=
  match typ with
  | Some BlockDevice => DT_BLK
  | Some CharacterDevice => DT_CHR
  | Some Directory => DT_DIR
  | Some Fifo => DT_FIFO
  | Some SymbolicLink => DT_LNK
  | Some Regular => DT_REG
  | Some Socket => DT_SOCK
  | None => DT_UNKNOWN
  end.

(** [true] means that the buffer is full and the entry was not added. *)
Definition push_entry (name : OsStr) (ino : NodeID) (typ : option FileType) (offset : u64)
    : M DirEntryBuf Empty_set bool :=
  self ← get;
  let buf := self.(deb_buf) in
  let name_len := Z.of_nat (length name) in
  remaining ← lift (arith_u 64 (buf.(vec_capacity) - vec_len buf));
  entry_size ← lift (arith_u 64 (Z.of_nat (size_of fuse_dirent) + name_len));
  aligned_entry_size ← lift (aligned entry_size);
  if remaining <? aligned_entry_size then mret true
  else
    let typ := dirent_type typ in
    namelen ← lift (if name_len <? 2 ^ 32 then Ok name_len else Panic "name length is too long");
    let dirent := {|
      dirent_ino := ino.(NodeID_into_raw);
      dirent_off := offset;
      dirent_namelen := namelen;
      dirent_typ := typ;
      dirent_name := [] |} in
    let lenbefore := vec_len buf in
    let buf := extend_from_slice buf (zc_as_bytes dirent) in
    let buf := extend_from_slice buf name in
    new_len ← lift (arith_u 64 (lenbefore + aligned_entry_size));
    let buf := resize buf new_len Byte.x00 in
    _ ← put {| deb_buf := buf |};
    mret false.

Definition reply_dir {S W} {RS : ReplySender S W} (self : S) (out : DirEntryBuf)
    : M W io_error unit :=
  reply_raw (pointer_Bytes u8_slice_Bytes) self None out.(deb_buf).(vec_bytes).

End dirent.

(** ** What the kernel reads *)

Record entry := {
  e_name : OsStr;
  e_ino : NodeID;
  e_typ : option FileType;
  e_off : u64;
}.

(** A name of a directory entry is far shorter than [2 ^ 32] bytes. *)
Definition entry_wf (e : entry) : Prop :=
  Z.of_nat (length e.(e_name)) < 2 ^ 32 ∧ is_u 64 e.(e_ino).(NodeID_into_raw) ∧ is_u 64 e.(e_off).

(** The room an entry takes: header and name, padded to eight bytes. *)
Definition padded (n : Z) : Z := (n + 7) / 8 * 8.
Definition entry_len (e : entry) : Z := padded (24 + Z.of_nat (length e.(e_name))).

(** The invariant of the buffer. *)
Record deb_wf (d : DirEntryBuf) : Prop := {
  deb_within : vec_len d.(deb_buf) ≤ d.(deb_buf).(vec_capacity);
  deb_capacity : d.(deb_buf).(vec_capacity) < 2 ^ 63;
  deb_aligned : vec_len d.(deb_buf) mod 8 = 0;
}.

Section stream.
Context `{L : Libc}.

Definition entry_dirent (e : entry) : fuse_dirent := {|
  dirent_ino := e.(e_ino).(NodeID_into_raw);
  dirent_off := e.(e_off);
  dirent_namelen := Z.of_nat (length e.(e_name));
  dirent_typ := dirent_type e.(e_typ);
  dirent_name := [];
|}.

Definition entry_bytes (e : entry) : list byte :=
  pod_encode (entry_dirent e) ++ e.(e_name)
  ++ replicate (Z.to_nat (entry_len e) - (24 + length e.(e_name))) Byte.x00.

(** The kernel's walk over the stream: it stops when less than a header is left
or the name would run past the end. *)
Fixpoint parse_dirents (fuel : nat) (bs : list byte) : list entry :=
  match fuel with
  | O => []
  | S fuel =>
      if (length bs <? 24)%nat then []
      else
        let d := pod_decode (T:=fuse_dirent) bs in
        let n := Z.to_nat d.(dirent_namelen) in
        let reclen := Z.to_nat (padded (24 + d.(dirent_namelen))) in
        if (length bs <? reclen)%nat then []
        else {| e_name := take n (drop 24 bs);
                e_ino := NodeID_from_raw_unchecked d.(dirent_ino);
                e_typ := FileType_from_dirent_type d.(dirent_typ);
                e_off := d.(dirent_off) |} :: parse_dirents fuel (drop reclen bs)
  end.

End stream.

Lemma padded_bounds n : 0 ≤ n → n ≤ padded n < n + 8 ∧ padded n mod 8 = 0.
Proof.
  intros Hn. unfold padded. split; [|by apply Z.mod_mul].
  pose proof (Z.div_mod (n + 7) 8). pose proof (Z.mod_pos_bound (n + 7) 8). lia.
Qed.

Lemma land_not_7 n : is_u 64 n → Z.land n (usize_not (8 - 1)) = n / 8 * 8.
Proof.
  intros Hn. replace (Z.land n (usize_not (8 - 1))) with (Z.ldiff n (Z.ones 3)).
  - rewrite Z.ldiff_ones_r, Z.shiftr_div_pow2, Z.shiftl_mul_pow2 by done. done.
  - apply Z.bits_inj'. intros k Hk. rewrite Z.ldiff_spec, Z.land_spec. unfold usize_not.
    rewrite Z.lxor_spec. change (8 - 1) with (Z.ones 3). change (2 ^ 64 - 1) with (Z.ones 64).
    destruct (decide (k < 64)) as [Hlt|Hge].
    + rewrite (Z.ones_spec_low 64) by lia. by destruct (Z.testbit n k), (Z.testbit (Z.ones 3) k).
    + by rewrite (Z_testbit_high n 64 k) by (unfold is_u in Hn; lia).
Qed.

Section facts.
Context `{ZC : Zerocopy} {HZC : ZerocopySpec} `{L : Libc} {HL : LibcLinux L} `{PR : Profile}.

Lemma aligned_spec {E} n : 0 ≤ n < 2 ^ 63 → aligned (E:=E) n = Ok (padded n).
Proof.
  intros Hn. unfold aligned, mbind, outcome_mbind, outcome_bind.
  rewrite !arith_u_ok by (unfold is_u; lia). rewrite land_not_7 by (unfold is_u; lia).
  unfold padded. do 3 f_equal. lia.
Qed.

Lemma entry_dirent_wf e : entry_wf e → pod_wf (entry_dirent e).
Proof.
  intros (Hn & Hi & Ho). unfold entry_dirent. goal_pod_wf. split_fields; try done.
  - unfold is_u. lia.
  - rewrite HL. by destruct (e_typ e) as [[]|].
Qed.

Lemma length_entry_bytes e : entry_wf e → Z.of_nat (length (entry_bytes e)) = entry_len e.
Proof.
  intros He. unfold entry_bytes. rewrite !length_app, length_replicate, length_pod_encode
    by by apply entry_dirent_wf.
  change (size_of fuse_dirent) with 24%nat. unfold entry_len.
  destruct (padded_bounds (24 + Z.of_nat (length (e_name e)))); lia.
Qed.

Lemma push_entry_run e d :
  entry_wf e → deb_wf d →
  push_entry e.(e_name) e.(e_ino) e.(e_typ) e.(e_off) d =
    if d.(deb_buf).(vec_capacity) - vec_len d.(deb_buf) <? entry_len e then (Ok true, d)
    else (Ok false, {| deb_buf := {|
      vec_capacity := d.(deb_buf).(vec_capacity);
      vec_bytes := d.(deb_buf).(vec_bytes) ++ entry_bytes e |} |}).
Proof.
  intros He [Hin Hcap Hal]. pose proof He as (Hn & Hi & Ho).
  pose proof (length_entry_bytes e He) as Hlen.
  destruct d as [[cap bs]]. unfold vec_len in *. cbn in *.
  unfold push_entry, mbind, M_bind, get, lift, put. cbn [deb_buf vec_capacity vec_bytes].
  unfold vec_len. cbn [vec_bytes]. change (Z.of_nat (size_of fuse_dirent)) with 24.
  rewrite !arith_u_ok by (unfold is_u; lia).
  rewrite aligned_spec by lia. fold (entry_len e).
  destruct (cap - Z.of_nat (length bs) <? entry_len e) eqn:Hfull; [done|].
  apply Z.ltb_ge in Hfull. rewrite (proj2 (Z.ltb_lt _ _) Hn).
  rewrite arith_u_ok by (unfold is_u; lia). unfold mret, M_ret. do 3 f_equal.
  fold (entry_dirent e). rewrite zc_as_bytes_spec. unfold extend_from_slice, resize, vec_len.
  cbn [vec_capacity vec_bytes].
  pose proof (length_pod_encode (entry_dirent e) (entry_dirent_wf e He)) as Hd.
  change (size_of fuse_dirent) with 24%nat in Hd.
  assert (24 + Z.of_nat (length (e_name e)) ≤ entry_len e)
    by (unfold entry_len; destruct (padded_bounds (24 + Z.of_nat (length (e_name e)))); lia).
  rewrite !length_app, Hd. f_equal; [lia|].
  rewrite take_ge by (rewrite !length_app, Hd; lia). unfold entry_bytes.
  rewrite <- !app_assoc. do 4 f_equal. lia.
Qed.

Lemma push_entry_ok e d :
  entry_wf e → deb_wf d →
  ∃ full d', push_entry e.(e_name) e.(e_ino) e.(e_typ) e.(e_off) d = (Ok full, d') ∧
    deb_wf d' ∧ d'.(deb_buf).(vec_capacity) = d.(deb_buf).(vec_capacity) ∧
    (full = true ↔ d.(deb_buf).(vec_capacity) < vec_len d.(deb_buf) + entry_len e) ∧
    d'.(deb_buf).(vec_bytes) =
      (if full then d.(deb_buf).(vec_bytes) else d.(deb_buf).(vec_bytes) ++ entry_bytes e).
Proof.
  intros He Hd. rewrite push_entry_run by done. destruct Hd as [Hin Hcap Hal].
  pose proof (length_entry_bytes e He) as Hl.
  destruct (Z.ltb_spec (vec_capacity (deb_buf d) - vec_len (deb_buf d)) (entry_len e)) as [Hf|Hf].
  - exists true, d. split_and!; [done|by split|done|split; [lia|done]|done].
  - eexists false, _. split_and!; [done| |done|split; [done|lia]|done].
    split; cbn in *; unfold vec_len in *; cbn; rewrite ?length_app; [lia|lia|].
    rewrite Nat2Z.inj_add, Hl, Z.add_mod, Hal by done. unfold entry_len.
    by rewrite (proj2 (padded_bounds (24 + Z.of_nat (length (e_name e))) ltac:(lia))).
Qed.

(** [push_entry] adds an entry or reports that the buffer is full.  It
reports full, and leaves the buffer alone, exactly when the padded entry does
not fit in the capacity that is left; otherwise it appends the entry's record.
It never panics, never reallocates, and keeps the length a multiple of eight
within the capacity. *)
Lemma push_entry_spec e d :
  entry_wf e → deb_wf d →
  ∃ full d', push_entry e.(e_name) e.(e_ino) e.(e_typ) e.(e_off) d = (Ok full, d') ∧
    deb_wf d' ∧ d'.(deb_buf).(vec_capacity) = d.(deb_buf).(vec_capacity) ∧
    (full = true ↔ d.(deb_buf).(vec_capacity) < vec_len d.(deb_buf) + entry_len e) ∧
    d'.(deb_buf).(vec_bytes) =
      (if full then d.(deb_buf).(vec_bytes) else d.(deb_buf).(vec_bytes) ++ entry_bytes e).
Proof. apply push_entry_ok. Qed.

(** ** The whole stream *)

Lemma FileType_dirent_roundtrip typ : FileType_from_dirent_type (dirent_type typ) = typ.
Proof. rewrite HL. by destruct typ as [[]|]. Qed.

Lemma parse_dirents_cons fuel e rest :
  entry_wf e →
  parse_dirents (S fuel) (entry_bytes e ++ rest) = e :: parse_dirents fuel rest.
Proof.
  intros He. pose proof (length_entry_bytes e He) as Hl.
  pose proof (entry_dirent_wf e He) as Hw. pose proof (length_pod_encode _ Hw) as Hd.
  change (size_of fuse_dirent) with 24%nat in Hd.
  assert (24 + Z.of_nat (length (e_name e)) ≤ entry_len e)
    by (unfold entry_len; destruct (padded_bounds (24 + Z.of_nat (length (e_name e)))); lia).
  cbn [parse_dirents].
  rewrite (proj2 (Nat.ltb_ge _ _)) by (rewrite length_app; lia).
  assert (pod_decode (entry_bytes e ++ rest) = entry_dirent e) as ->
    by (unfold entry_bytes; rewrite <- !app_assoc; by apply pod_decode_encode).
  cbn [dirent_namelen entry_dirent dirent_ino dirent_typ dirent_off].
  fold (entry_len e). rewrite (proj2 (Nat.ltb_ge _ _)) by (rewrite length_app; lia).
  f_equal.
  - rewrite FileType_dirent_roundtrip, Nat2Z.id. unfold entry_bytes. rewrite <- !app_assoc.
    rewrite drop_app_length', take_app_length by done. by destruct e as [? []].
  - rewrite drop_app_length' by lia. done.
Qed.

(** The entries a sequence of pushes added, in order. *)
Fixpoint push_all (es : list entry) (d : DirEntryBuf) : outcome Empty_set (list entry) * DirEntryBuf :=
  match es with
  | [] => (Ok [], d)
  | e :: es =>
      match push_entry e.(e_name) e.(e_ino) e.(e_typ) e.(e_off) d with
      | (Ok full, d') =>
          match push_all es d' with
          | (Ok added, d'') => (Ok (if full : bool then added else e :: added), d'')
          | r => r
          end
      | (Err w, d') => (Err w, d')
      | (Panic w, d') => (Panic w, d')
      | (UB, d') => (UB, d')
      end
  end.

Lemma push_all_run es d :
  Forall entry_wf es → deb_wf d →
  ∃ added d', push_all es d = (Ok added, d') ∧ deb_wf d' ∧ Forall entry_wf added ∧
    added `sublist_of` es ∧ d'.(deb_buf).(vec_capacity) = d.(deb_buf).(vec_capacity) ∧
    d'.(deb_buf).(vec_bytes) = d.(deb_buf).(vec_bytes) ++ concat (entry_bytes <$> added).
Proof.
  intros Hes. revert d. induction Hes as [|e es He Hes IH]; intros d Hd; cbn [push_all].
  - exists [], d. split_and!; [done..|cbn; by rewrite app_nil_r].
  - rewrite push_entry_run by done.
    destruct (push_entry_ok e d He Hd) as (full & d' & Hrun & Hd' & Hcap & _ & Hbs).
    rewrite push_entry_run in Hrun by done. rewrite Hrun.
    destruct (IH d' Hd') as (added & d'' & -> & Hd'' & Hwf & Hsub & Hcap' & Hbs').
    destruct full.
    + exists added, d''. split_and!; [done..|by constructor|congruence|congruence].
    + exists (e :: added), d''. split_and!; [done|done|by constructor|by constructor|congruence|].
      rewrite Hbs', Hbs. cbn. by rewrite app_assoc.
Qed.

Lemma parse_dirents_concat es fuel :
  Forall entry_wf es → (length es ≤ fuel)%nat →
  parse_dirents fuel (concat (entry_bytes <$> es)) = es.
Proof.
  intros Hes. revert fuel. induction Hes as [|e es He Hes IH]; intros fuel Hf.
  - by destruct fuel.
  - destruct fuel as [|fuel]; cbn [length] in Hf; [lia|].
    change (concat _) with (entry_bytes e ++ concat (entry_bytes <$> es)).
    rewrite parse_dirents_cons, IH by (done || lia). done.
Qed.

(** Entries added until the buffer is full: the ones that fit in the room. *)
Fixpoint fitting (room : Z) (es : list entry) : list entry :=
  match es with
  | [] => []
  | e :: es => if room <? entry_len e then [] else e :: fitting (room - entry_len e) es
  end.

Fixpoint push_until_full (es : list entry) : M DirEntryBuf Empty_set unit :=
  match es with
  | [] => mret tt
  | e :: es =>
      full ← push_entry e.(e_name) e.(e_ino) e.(e_typ) e.(e_off);
      if full : bool then mret tt else push_until_full es
  end.

Lemma fitting_wf room es : Forall entry_wf es → Forall entry_wf (fitting room es).
Proof.
  intros Hes. revert room. induction Hes as [|e es He Hes IH]; intros room; cbn; [done|].
  case_match; [done|]. by constructor.
Qed.

(** The entries that fit take no more than the room, and no more than all of them. *)
Definition total_len (es : list entry) : Z := foldr (λ e n, entry_len e + n) 0 es.

Lemma entry_len_pos e : 0 ≤ entry_len e.
Proof. unfold entry_len. destruct (padded_bounds (24 + Z.of_nat (length (e_name e)))); lia. Qed.

Lemma total_len_nonneg es : 0 ≤ total_len es.
Proof.
  unfold total_len. induction es as [|e es IH]; cbn; [done|]. pose proof (entry_len_pos e). lia.
Qed.

Lemma length_fitting room es :
  Forall entry_wf es → 0 ≤ room →
  Z.of_nat (length (concat (entry_bytes <$> fitting room es))) ≤ Z.min room (total_len es).
Proof.
  intros Hes. revert room. induction Hes as [|e es He Hes IH]; intros room Hr; [cbn; lia|].
  pose proof (entry_len_pos e).
  pose proof (total_len_nonneg es).
  change (total_len (e :: es)) with (entry_len e + total_len es). cbn [fitting].
  destruct (Z.ltb_spec room (entry_len e)) as [Hlt|Hge]; [cbn; lia|].
  rewrite fmap_cons. cbn [concat].
  rewrite length_app, Nat2Z.inj_add, length_entry_bytes by done.
  specialize (IH (room - entry_len e) ltac:(lia)). lia.
Qed.

Lemma parse_fitting room es :
  Forall entry_wf es →
  let bs := concat (entry_bytes <$> fitting room es) in
  parse_dirents (length bs) bs = fitting room es.
Proof.
  intros Hes%(fitting_wf room). apply parse_dirents_concat; [done|].
  induction Hes as [|e l He Hl IH]; cbn; [done|]. rewrite length_app.
  pose proof (length_entry_bytes e He). unfold entry_len in *.
  destruct (padded_bounds (24 + Z.of_nat (length (e_name e)))); lia.
Qed.

Lemma push_until_full_run es d :
  Forall entry_wf es → deb_wf d →
  let added := fitting (d.(deb_buf).(vec_capacity) - vec_len d.(deb_buf)) es in
  ∃ d', push_until_full es d = (Ok tt, d') ∧ deb_wf d' ∧
    d'.(deb_buf).(vec_bytes) = d.(deb_buf).(vec_bytes) ++ concat (entry_bytes <$> added).
Proof.
  intros Hes. revert d. induction Hes as [|e es He Hes IH]; intros d Hd; cbn [push_until_full fitting].
  - exists d. split_and!; [done|done|]. by rewrite app_nil_r.
  - destruct (push_entry_ok e d He Hd) as (full & d' & Hrun & Hd' & Hcap & Hfull & Hbs).
    rewrite (M_bind_Ok _ _ _ _ _ Hrun). destruct full.
    + exists d. rewrite (proj2 (Z.ltb_lt _ _)) by (pose proof (proj1 Hfull eq_refl); lia).
      rewrite push_entry_run in Hrun by done.
      assert (d' = d) as -> by (repeat case_match; simplify_eq; done).
      split_and!; [done|done|]. by rewrite app_nil_r.
    + assert (vec_len d'.(deb_buf) = vec_len d.(deb_buf) + entry_len e) as Hl.
      { unfold vec_len. rewrite Hbs, length_app, Nat2Z.inj_add, length_entry_bytes by done. lia. }
      destruct (Z.ltb_spec (vec_capacity (deb_buf d) - vec_len (deb_buf d)) (entry_len e)).
      { exfalso. assert (false = true) by (apply Hfull; lia). done. }
      destruct (IH d' Hd') as (d'' & -> & Hd'' & Hbs''). exists d''. split_and!; [done|done|].
      rewrite Hbs'', Hbs, Hcap, Hl, Z.sub_add_distr. cbn [fmap list_fmap concat]. by rewrite app_assoc.
Qed.

(** C20: a directory stream is read back.  Whatever entries are pushed into a
fresh buffer, no push panics, the buffer never exceeds its capacity, and the
kernel's walk over the reply finds exactly the entries that were not refused,
in the order of the pushes, with name, node id, type and offset. *)
Theorem directory_stream_roundtrip `{AllocSpec} capacity es fuel :
  0 ≤ capacity → alloc_capacity capacity < 2 ^ 63 →
  Forall entry_wf es → (length es ≤ fuel)%nat →
  ∃ added d, push_all es (DirEntryBuf_new capacity) = (Ok added, d) ∧
    added `sublist_of` es ∧ deb_wf d ∧
    d.(deb_buf).(vec_capacity) = alloc_capacity capacity ∧
    parse_dirents fuel d.(deb_buf).(vec_bytes) = added.
Proof.
  intros Hc Ha Hes Hf.
  destruct (push_all_run es (DirEntryBuf_new capacity)) as (added & d & Hrun & Hd & Hwf & Hsub & Hcap & Hbs);
    [done| |].
  { split; unfold vec_len; cbn; [pose proof (alloc_capacity_spec capacity); lia|done|done]. }
  exists added, d. split_and!; [done..|]. rewrite Hbs. apply parse_dirents_concat; [done|].
  apply sublist_length in Hsub. lia.
Qed.

End facts.

(** ** Instances *)

#[export] Instance exact_alloc : Alloc := λ n, n.
#[export] Instance exact_alloc_spec : AllocSpec.
Proof. split; unfold alloc_capacity, exact_alloc; lia. Qed.

Definition gitignore : entry := {|
  e_name := [Byte.x2e; Byte.x67; Byte.x69; Byte.x74];
  e_ino := NodeID_from_raw_unchecked 9;
  e_typ := Some Regular;
  e_off := 2 |}.

Lemma push_entry_spec_witness :
  let _ := ref_zerocopy in let _ := linux_libc in let _ : Profile := true in
  ∃ d', push_entry gitignore.(e_name) gitignore.(e_ino) gitignore.(e_typ) gitignore.(e_off)
          (DirEntryBuf_new 40) = (Ok false, d') ∧ vec_len d'.(deb_buf) = 32.
Proof.
  intros ZC L PR.
  destruct (@push_entry_spec ZC ref_zerocopy_spec L ref_libc_linux PR gitignore (DirEntryBuf_new 40))
    as (full & d' & Hrun & _ & _ & Hfull & Hbs).
  - repeat split; vm_compute; congruence.
  - split; vm_compute; congruence.
  - destruct full.
    + exfalso. apply proj1 in Hfull. specialize (Hfull eq_refl). vm_compute in Hfull. discriminate.
    + exists d'. split; [exact Hrun|]. unfold vec_len. rewrite Hbs. reflexivity.
Defined.

(** Three entries of 32 bytes in a buffer of 80: the third does not fit. *)
Lemma directory_stream_roundtrip_witness :
  let _ := ref_zerocopy in let _ := linux_libc in let _ : Profile := true in
  ∃ d, push_all [gitignore; gitignore; gitignore] (DirEntryBuf_new 80) =
         (Ok [gitignore; gitignore], d) ∧
    parse_dirents 3 d.(deb_buf).(vec_bytes) = [gitignore; gitignore].
Proof.
  intros ZC L PR.
  destruct (@directory_stream_roundtrip ZC ref_zerocopy_spec L ref_libc_linux PR _ _ 80
    [gitignore; gitignore; gitignore] 3) as (added & d & Hrun & _ & _ & _ & Hp).
  - lia.
  - vm_compute. congruence.
  - repeat constructor; vm_compute; congruence.
  - cbn. lia.
  - exists d. rewrite Hp.
    assert (fst (push_all [gitignore; gitignore; gitignore] (DirEntryBuf_new 80))
            = Ok [gitignore; gitignore]) as Ha by reflexivity.
    rewrite Hrun in Ha. cbn in Ha. assert (added = [gitignore; gitignore]) as -> by congruence.
    split; [exact Hrun|reflexivity].
Defined.
