(* ===== verification/Io.v ===== *)
(** * Pipes and splicing: [src/io.rs], and the device of [src/device.rs]

A [Pipe] owns both ends of an anonymous pipe and counts the bytes that should
be in it.  The operating system's calls are parameters; a world [W] stands for
everything outside the process.  The bytes the kernel holds for a pipe are the
field [pipe_data], which only the calls change. *)

From stdpp Require Import relations.
From S2P Require Import Prelude Layout Kernel Crates.
Local Open Scope Z_scope.

Record Pipe := { pipe_data : list byte; pipe_len : usize }.

(** ** The calls on pipes ([rustix::pipe], [rustix::io])

Each call takes the bytes in the pipe and returns those that are in it
afterwards; a failed call leaves the pipe alone.  [pipe_max] is the capacity of the
largest pipe. *)

Class OsPipe (W : Type) := {
  os_pipe_with : M W Errno unit;
  os_readv (n : usize) (data : list byte) : M W Errno (list byte * list byte);
  os_writev (bufs : list (list byte)) (data : list byte) : M W Errno (usize * list byte);
  os_splice (src dst : list byte) (len : usize) : M W Errno (usize * list byte * list byte);
  pipe_max : Z;
}.

(** A connection that can be read and spliced from: the trait [SpliceRead].  A
vectored read gets the sizes of the buffers and returns the bytes read, which
fill the buffers in order. *)
Class SpliceRead (W : Type) := {
  conn_read_vectored (sizes : list usize) : M W io_error (list byte);
  conn_splice_read (len : usize) : M (Pipe * W) io_error usize;
}.

(** An [Errno] as an [io::Error]. *)
Definition io_err {W A} (m : M W Errno A) : M W io_error A := λ w,
  let (r, w') := m w in (map_err Os r, w').

(** [usize::saturating_sub] *)
Definition saturating_sub (a b : usize) : usize := Z.max 0 (a - b).

Section pipe.
Context {W : Type} `{OS : OsPipe W} `{PR : Profile}.

(** A call on the world, from a method of the pipe. *)
Definition on_world {S A} (m : M W io_error A) : M (S * W) io_error A := λ '(s, w),
  let (r, w') := m w in (r, (s, w')).

Definition Pipe_new : M W io_error Pipe :=
  _ ← io_err os_pipe_with;
  mret {| pipe_data := []; pipe_len := 0 |}.

Definition Pipe_is_empty (self : Pipe) : bool := self.(pipe_len) =? 0.

(** [self.len = self.len.saturating_sub(amount)] and [self.len += amount], with
the bytes the call left in the pipe. *)
Definition consumed (amount : usize) (data : list byte) : M (Pipe * W) io_error unit :=
  modify (λ '(p, w), ({| pipe_data := data; pipe_len := saturating_sub p.(pipe_len) amount |}, w)).

Definition produced (amount : usize) (data : list byte) : M (Pipe * W) io_error unit := λ '(p, w),
  match arith_u 64 (p.(pipe_len) + amount) with
  | Ok len => (Ok tt, ({| pipe_data := data; pipe_len := len |}, w))
  | Panic why => (Panic why, ({| pipe_data := data; pipe_len := p.(pipe_len) |}, w))
  | Err e => (Err e, (p, w))
  | UB => (UB, (p, w))
  end.

Definition this_pipe : M (Pipe * W) io_error Pipe := λ '(p, w), (Ok p, (p, w)).

(** [read_vectored], into buffers of the given total size. *)
Definition Pipe_read_vectored (n : usize) : M (Pipe * W) io_error (list byte) :=
  self ← this_pipe;
  '(bs, data) ← on_world (io_err (os_readv n self.(pipe_data)));
  _ ← consumed (Z.of_nat (length bs)) data;
  mret bs.

Definition Pipe_read (n : usize) : M (Pipe * W) io_error (list byte) := Pipe_read_vectored n.

Definition Pipe_write_vectored (bufs : list (list byte)) : M (Pipe * W) io_error usize :=
  self ← this_pipe;
  '(amount, data) ← on_world (io_err (os_writev bufs self.(pipe_data)));
  _ ← produced amount data;
  mret amount.

Definition Pipe_write (buf : list byte) : M (Pipe * W) io_error usize := Pipe_write_vectored [buf].

(** [splice_to] and [splice_from] with the other end of the transfer given as a
call: what it takes from, or adds to, the pipe. *)
Definition Pipe_splice_to (sink : list byte → M W Errno (usize * list byte))
    : M (Pipe * W) io_error usize :=
  self ← this_pipe;
  '(amount, data) ← on_world (io_err (sink self.(pipe_data)));
  _ ← consumed amount data;
  mret amount.

Definition Pipe_splice_from (source : list byte → M W Errno (usize * list byte))
    : M (Pipe * W) io_error usize :=
  self ← this_pipe;
  '(amount, data) ← on_world (io_err (source self.(pipe_data)));
  _ ← produced amount data;
  mret amount.

(** [<Pipe as SpliceRead>::splice_read]: from this pipe into [dst].  The call
runs in [dst.splice_from], which counts the bytes there; then they are counted
here. *)
Definition Pipe_splice_read (len : usize) : M (Pipe * (Pipe * W)) io_error usize :=
  λ '(self, (dst, w)),
  match os_splice self.(pipe_data) dst.(pipe_data) len w with
  | (Ok (amount, data, data'), w') =>
      match produced amount data' (dst, w') with
      | (Ok tt, (dst', w'')) =>
          (Ok amount, ({| pipe_data := data; pipe_len := saturating_sub self.(pipe_len) amount |},
                       (dst', w'')))
      | (Err e, (dst', w'')) => (Err e, ({| pipe_data := data; pipe_len := self.(pipe_len) |}, (dst', w'')))
      | (Panic why, (dst', w'')) =>
          (Panic why, ({| pipe_data := data; pipe_len := self.(pipe_len) |}, (dst', w'')))
      | (UB, (dst', w'')) => (UB, ({| pipe_data := data; pipe_len := self.(pipe_len) |}, (dst', w'')))
      end
  | (Err e, w') => (Err (Os e), (self, (dst, w')))
  | (Panic why, w') => (Panic why, (self, (dst, w')))
  | (UB, w') => (UB, (self, (dst, w')))
  end.

(** [<Pipe as SpliceWrite>::splice_write]: from [src] into this pipe. *)
Definition Pipe_splice_write (len : usize) : M (Pipe * (Pipe * W)) io_error usize :=
  λ '(self, (src, w)),
  match os_splice src.(pipe_data) self.(pipe_data) len w with
  | (Ok (amount, data, data'), w') =>
      let src' := {| pipe_data := data; pipe_len := saturating_sub src.(pipe_len) amount |} in
      match produced amount data' (self, w') with
      | (Ok tt, (self', w'')) => (Ok amount, (self', (src', w'')))
      | (Err e, (self', w'')) => (Err e, (self', (src', w'')))
      | (Panic why, (self', w'')) => (Panic why, (self', (src', w'')))
      | (UB, (self', w'')) => (UB, (self', (src', w'')))
      end
  | (Err e, w') => (Err (Os e), (self, (src, w')))
  | (Panic why, w') => (Panic why, (self, (src, w')))
  | (UB, w') => (UB, (self, (src, w')))
  end.

(** [io::Read::read_exact], the provided method: read until the buffer is full;
an interrupted read is tried again, an empty one ends the loop.  The buffer is
[done ++ todo]: the bytes read so far, and the old content of the rest.  Every
turn that reads takes at least one byte; [fuel] bounds the turns. *)
Fixpoint read_exact_loop `{RX : Rustix} (fuel : nat) (done todo : list byte) (s : Pipe * W)
    : outcome io_error unit * list byte * (Pipe * W) :=
  match todo with
  | [] => (Ok tt, done, s)
  | _ :: _ =>
      match fuel with
      | O => (Panic "read_exact did not end", done ++ todo, s)
      | S fuel =>
          match Pipe_read (Z.of_nat (length todo)) s with
          | (Ok [], s') =>
              (Err (Custom UnexpectedEof "failed to fill whole buffer"), done ++ todo, s')
          | (Ok bs, s') => read_exact_loop fuel (done ++ bs) (drop (length bs) todo) s'
          | (Err e, s') =>
              if decide (Errno_from_io_error e = Some Errno_INTR)
              then read_exact_loop fuel done todo s'
              else (Err e, done ++ todo, s')
          | (Panic why, s') => (Panic why, done ++ todo, s')
          | (UB, s') => (UB, done ++ todo, s')
          end
      end
  end.

Definition read_exact `{RX : Rustix} (buf : list byte) (s : Pipe * W)
    : outcome io_error unit * list byte * (Pipe * W) :=
  read_exact_loop (S (length buf)) [] buf s.

End pipe.

(** ** What the calls promise

The behaviour POSIX documents for pipes: bytes leave in the order they came
in, a transfer moves a prefix of what the source holds, a read of a pipe that
holds bytes returns some of them, a read of an empty non-blocking pipe answers
[EAGAIN], and a pipe has a bounded capacity. *)

Class OsPipeSpec {W} (OS : OsPipe W) : Prop := {
  pipe_max_bound : 0 ≤ pipe_max < 2 ^ 63;
  os_pipe_ends w : ∃ w', os_pipe_with w = (Ok tt, w') ∨ ∃ e, os_pipe_with w = (Err e, w');
  os_readv_ok n data w bs rest w' :
    os_readv n data w = (Ok (bs, rest), w') → data = bs ++ rest ∧ Z.of_nat (length bs) ≤ n;
  os_readv_available n data w :
    0 < n → data ≠ [] → ∃ b bs rest w', os_readv n data w = (Ok (b :: bs, rest), w');
  os_readv_empty n w : 0 < n → ∃ w', os_readv n [] w = (Err 11, w');
  os_writev_ok bufs data w amount data' w' :
    os_writev bufs data w = (Ok (amount, data'), w') →
    0 ≤ amount ≤ Z.of_nat (length (concat bufs)) ∧
    data' = data ++ take (Z.to_nat amount) (concat bufs) ∧ Z.of_nat (length data') ≤ pipe_max;
  os_splice_ok src dst len w amount src' dst' w' :
    os_splice src dst len w = (Ok (amount, src', dst'), w') →
    ∃ moved, Z.of_nat (length moved) = amount ∧ amount ≤ len ∧ src = moved ++ src' ∧
      dst' = dst ++ moved ∧ Z.of_nat (length dst') ≤ pipe_max;
}.

Section facts.
Context {W : Type} {OS : OsPipe W} {HOS : OsPipeSpec OS} `{PR : Profile} `{RX : Rustix}.

(** The counter agrees with the kernel. *)
Definition pipe_ok (p : Pipe) : Prop :=
  p.(pipe_len) = Z.of_nat (length p.(pipe_data)) ∧ Z.of_nat (length p.(pipe_data)) ≤ pipe_max.

(** A connection answers with bytes or with an error; a vectored read returns no
more than the buffers hold, a splice adds the bytes it counts to the pipe. *)
Class SpliceReadSpec (CN : SpliceRead W) : Prop := {
  conn_read_ok sizes w :
    match conn_read_vectored sizes w with
    | (Ok bs, _) => Z.of_nat (length bs) ≤ foldr Z.add 0 sizes
    | (Err _, _) => True
    | _ => False
    end;
  conn_splice_ok len p w :
    pipe_ok p →
    match conn_splice_read len (p, w) with
    | (Ok n, (p', _)) => pipe_ok p' ∧ ∃ got, p'.(pipe_data) = p.(pipe_data) ++ got ∧
                                             n = Z.of_nat (length got)
    | (Err _, (p', _)) => pipe_ok p'
    | _ => False
    end;
}.

(** A transfer out of, or into, a pipe by another descriptor. *)
Definition sink_ok (sink : list byte → M W Errno (usize * list byte)) : Prop :=
  ∀ data w amount data' w', sink data w = (Ok (amount, data'), w') →
    ∃ moved, Z.of_nat (length moved) = amount ∧ data = moved ++ data'.
Definition source_ok (source : list byte → M W Errno (usize * list byte)) : Prop :=
  ∀ data w amount data' w', source data w = (Ok (amount, data'), w') →
    ∃ moved, Z.of_nat (length moved) = amount ∧ data' = data ++ moved ∧
      Z.of_nat (length data') ≤ pipe_max.

Lemma consumed_ok p bs rest :
  pipe_ok p → p.(pipe_data) = bs ++ rest →
  pipe_ok {| pipe_data := rest; pipe_len := saturating_sub p.(pipe_len) (Z.of_nat (length bs)) |}.
Proof.
  intros [Hl Hm] Hd. unfold pipe_ok, saturating_sub. cbn. rewrite Hl, Hd, length_app in *. lia.
Qed.

Lemma produced_run p (w : W) moved :
  pipe_ok p → Z.of_nat (length (p.(pipe_data) ++ moved)) ≤ pipe_max →
  produced (Z.of_nat (length moved)) (p.(pipe_data) ++ moved) (p, w) =
    (Ok tt, ({| pipe_data := p.(pipe_data) ++ moved;
                pipe_len := p.(pipe_len) + Z.of_nat (length moved) |}, w)) ∧
  pipe_ok {| pipe_data := p.(pipe_data) ++ moved;
             pipe_len := p.(pipe_len) + Z.of_nat (length moved) |}.
Proof.
  intros [Hl Hm] Hb. pose proof pipe_max_bound. unfold produced, pipe_ok. cbn.
  rewrite Hl, length_app in *. rewrite arith_u_ok by (unfold is_u; lia). split; [done|lia].
Qed.

(** One operation on a pipe, whatever its outcome. *)
Inductive pipe_step : Pipe → Pipe → Prop :=
  | step_read n p w r p' w' : Pipe_read_vectored n (p, w) = (r, (p', w')) → pipe_step p p'
  | step_write bufs p w r p' w' : Pipe_write_vectored bufs (p, w) = (r, (p', w')) → pipe_step p p'
  | step_splice_to sink p w r p' w' :
      sink_ok sink → Pipe_splice_to sink (p, w) = (r, (p', w')) → pipe_step p p'
  | step_splice_from source p w r p' w' :
      source_ok source → Pipe_splice_from source (p, w) = (r, (p', w')) → pipe_step p p'
  | step_splice_read_src len p q w r p' q' w' :
      pipe_ok q → Pipe_splice_read len (p, (q, w)) = (r, (p', (q', w'))) → pipe_step p p'
  | step_splice_read_dst len p q w r p' q' w' :
      pipe_ok q → Pipe_splice_read len (q, (p, w)) = (r, (q', (p', w'))) → pipe_step p p'
  | step_splice_write_dst len p q w r p' q' w' :
      pipe_ok q → Pipe_splice_write len (p, (q, w)) = (r, (p', (q', w'))) → pipe_step p p'
  | step_splice_write_src len p q w r p' q' w' :
      pipe_ok q → Pipe_splice_write len (q, (p, w)) = (r, (q', (p', w'))) → pipe_step p p'.

(** Runs a method whose call is [m]. *)
Lemma on_world_run {A} (m : M W io_error A) (p : Pipe) w :
  on_world m (p, w) = ((m w).1, (p, (m w).2)).
Proof. unfold on_world. by destruct (m w). Qed.

Lemma Pipe_read_step n p w :
  pipe_ok p →
  let '(r, (p', _)) := Pipe_read_vectored n (p, w) in
  pipe_ok p' ∧
  match r with
  | Ok bs => p.(pipe_data) = bs ++ p'.(pipe_data) ∧ Z.of_nat (length bs) ≤ n
  | _ => p' = p
  end.
Proof.
  intros Hp. unfold Pipe_read_vectored, this_pipe, mbind, M_bind. rewrite on_world_run.
  unfold io_err. destruct (os_readv n (pipe_data p) w) as [[[bs rest]|e|why|] w'] eqn:Hr; cbn; try done.
  apply os_readv_ok in Hr as [Hd Hn]. split; [by apply consumed_ok|done].
Qed.

Lemma Pipe_write_step bufs p w :
  pipe_ok p →
  let '(r, (p', _)) := Pipe_write_vectored bufs (p, w) in
  pipe_ok p' ∧
  match r with
  | Ok amount => p'.(pipe_data) = p.(pipe_data) ++ take (Z.to_nat amount) (concat bufs)
  | Err _ => p' = p
  | _ => True
  end.
Proof.
  intros Hp. unfold Pipe_write_vectored, this_pipe, mbind, M_bind. rewrite on_world_run.
  unfold io_err. destruct (os_writev bufs (pipe_data p) w) as [[[amount data]|e|why|] w'] eqn:Hr;
    cbn [map_err fst snd]; try done.
  apply os_writev_ok in Hr as (Ha & -> & Hm). set (moved := take _ _) in *.
  assert (amount = Z.of_nat (length moved)) as Hamt by (unfold moved; rewrite length_take; lia).
  destruct (produced_run p w' moved Hp Hm) as [Hrun Hok].
  rewrite <- Hamt in Hrun, Hok. by rewrite Hrun.
Qed.

Lemma Pipe_splice_to_step sink p w :
  sink_ok sink → pipe_ok p → pipe_ok (Pipe_splice_to sink (p, w)).2.1.
Proof.
  intros Hs Hp. unfold Pipe_splice_to, this_pipe, mbind, M_bind. rewrite on_world_run.
  unfold io_err. destruct (sink (pipe_data p) w) as [[[amount data]|e|why|] w'] eqn:Hr; cbn; try done.
  apply Hs in Hr as (moved & <- & Hd). exact (consumed_ok p moved data Hp Hd).
Qed.

Lemma Pipe_splice_from_step source p w :
  source_ok source → pipe_ok p → pipe_ok (Pipe_splice_from source (p, w)).2.1.
Proof.
  intros Hs Hp. unfold Pipe_splice_from, this_pipe, mbind, M_bind. rewrite on_world_run.
  unfold io_err. destruct (source (pipe_data p) w) as [[[amount data]|e|why|] w'] eqn:Hr;
    cbn [map_err fst snd]; try done.
  apply Hs in Hr as (moved & <- & -> & Hm).
  destruct (produced_run p w' moved Hp Hm) as [Hrun Hok]. by rewrite Hrun.
Qed.

Lemma Pipe_splice_read_step len p q w :
  pipe_ok p → pipe_ok q →
  let '(_, (p', (q', _))) := Pipe_splice_read len (p, (q, w)) in
  pipe_ok p' ∧ pipe_ok q' ∧
  p.(pipe_data) ++ q.(pipe_data) ≡ₚ p'.(pipe_data) ++ q'.(pipe_data).
Proof.
  intros Hp Hq. unfold Pipe_splice_read.
  destruct (os_splice (pipe_data p) (pipe_data q) len w) as [[[[amount data] data']|e|why|] w'] eqn:Hr;
    cbn [map_err fst snd]; try done.
  apply os_splice_ok in Hr as (moved & <- & Hle & Hsrc & -> & Hm).
  destruct (produced_run q w' moved Hq Hm) as [Hrun Hok]. rewrite Hrun.
  split; [by apply consumed_ok|]. split; [done|]. cbn. rewrite Hsrc, <- app_assoc.
  rewrite (Permutation_app_comm (pipe_data q)), !app_assoc. by rewrite (Permutation_app_comm moved).
Qed.

Lemma Pipe_splice_write_step len p q w :
  pipe_ok p → pipe_ok q →
  let '(_, (p', (q', _))) := Pipe_splice_write len (p, (q, w)) in
  pipe_ok p' ∧ pipe_ok q' ∧
  q.(pipe_data) ++ p.(pipe_data) ≡ₚ q'.(pipe_data) ++ p'.(pipe_data).
Proof.
  intros Hp Hq. unfold Pipe_splice_write.
  destruct (os_splice (pipe_data q) (pipe_data p) len w) as [[[[amount data] data']|e|why|] w'] eqn:Hr;
    cbn [map_err fst snd]; try done.
  apply os_splice_ok in Hr as (moved & <- & Hle & Hsrc & -> & Hm).
  destruct (produced_run p w' moved Hp Hm) as [Hrun Hok]. rewrite Hrun.
  split; [done|]. split; [by apply consumed_ok|]. cbn. rewrite Hsrc, <- app_assoc.
  rewrite (Permutation_app_comm (pipe_data p)), !app_assoc. by rewrite (Permutation_app_comm moved).
Qed.

Lemma pipe_step_ok p p' : pipe_ok p → pipe_step p p' → pipe_ok p'.
Proof.
  intros Hp Hs. destruct Hs as [n p w r p' w' Hr|bufs p w r p' w' Hr|sink p w r p' w' Hk Hr
    |source p w r p' w' Hk Hr|len p q w r p' q' w' Hq Hr|len p q w r p' q' w' Hq Hr
    |len p q w r p' q' w' Hq Hr|len p q w r p' q' w' Hq Hr].
  - pose proof (Pipe_read_step n p w Hp) as H. rewrite Hr in H. tauto.
  - pose proof (Pipe_write_step bufs p w Hp) as H. rewrite Hr in H. tauto.
  - pose proof (Pipe_splice_to_step sink p w Hk Hp) as H. by rewrite Hr in H.
  - pose proof (Pipe_splice_from_step source p w Hk Hp) as H. by rewrite Hr in H.
  - pose proof (Pipe_splice_read_step len p q w Hp Hq) as H. rewrite Hr in H. tauto.
  - pose proof (Pipe_splice_read_step len q p w Hq Hp) as H. rewrite Hr in H. tauto.
  - pose proof (Pipe_splice_write_step len p q w Hp Hq) as H. rewrite Hr in H. tauto.
  - pose proof (Pipe_splice_write_step len q p w Hq Hp) as H. rewrite Hr in H. tauto.
Qed.

(** The length a [Pipe] reports is the number of bytes the kernel holds for
it, after any sequence of reads, writes and splices in either direction,
successful or not. *)
Lemma Pipe_len_tracks w p p' w' :
  Pipe_new w = (Ok p, w') → rtc pipe_step p p' →
  p'.(pipe_len) = Z.of_nat (length p'.(pipe_data)).
Proof.
  intros Hn Hs. cut (pipe_ok p'); [by intros []|].
  assert (pipe_ok p) as Hp.
  { unfold Pipe_new, mbind, M_bind, mret, M_ret, io_err in Hn.
    destruct (os_pipe_with w) as [[[]|?|?|] ?]; cbn in Hn; simplify_eq.
    pose proof pipe_max_bound. split; cbn; [done|lia]. }
  clear Hn. induction Hs as [|p p1 p2 Hstep Hrest IH]; [done|].
  apply IH. by eapply pipe_step_ok.
Qed.

(** ** [read_exact] *)

Lemma read_exact_loop_ok fuel done todo p w :
  pipe_ok p → (length todo ≤ length p.(pipe_data))%nat → (length todo < fuel)%nat →
  ∃ w', read_exact_loop fuel done todo (p, w) =
    (Ok tt, done ++ take (length todo) p.(pipe_data),
     ({| pipe_data := drop (length todo) p.(pipe_data);
         pipe_len := p.(pipe_len) - Z.of_nat (length todo) |}, w')).
Proof.
  revert done todo p w. induction fuel as [|fuel IH]; intros done todo p w Hp Hl Hf; [lia|].
  destruct todo as [|t todo]; cbn [read_exact_loop].
  { exists w. cbn [length]. rewrite take_0, drop_0, app_nil_r, Z.sub_0_r. by destruct p. }
  set (buf := t :: todo) in *.
  destruct (os_readv_available (Z.of_nat (length buf)) (pipe_data p) w) as (b & bs & rest & w1 & Hr);
    [unfold buf; cbn; lia|by destruct (pipe_data p); unfold buf in Hl; cbn in Hl; [lia|]|].
  pose proof (Pipe_read_step (Z.of_nat (length buf)) p w Hp) as Hstep.
  unfold Pipe_read. unfold Pipe_read_vectored, this_pipe, mbind, M_bind in *.
  rewrite on_world_run in *. unfold io_err in *. rewrite Hr in *. cbn [map_err fst snd consumed modify] in *.
  unfold modify, mret, M_ret in *. destruct Hstep as (Hp' & Hd & Hn). cbn [pipe_data] in Hd.
  set (got := b :: bs) in *. assert (length got ≤ length buf)%nat by lia.
  edestruct (IH (done ++ got) (drop (length got) buf)) as [w' Hrun]; [exact Hp'|..].
  - cbn [pipe_data]. rewrite length_drop. rewrite Hd, length_app in Hl. lia.
  - rewrite length_drop. unfold got, buf in *. cbn [length] in *. lia.
  - exists w'. rewrite Hrun. cbn [pipe_data pipe_len]. rewrite length_drop.
    rewrite <- app_assoc, Hd. rewrite take_app, drop_app.
    rewrite (take_ge got), (drop_ge got) by done. cbn [app].
    assert (saturating_sub (pipe_len p) (Z.of_nat (length got)) - Z.of_nat (length buf - length got)
      = pipe_len p - Z.of_nat (length buf)) as ->; [|done].
    unfold saturating_sub. destruct Hp as [Hpl _]. rewrite Hpl, Hd, length_app in *. lia.
Qed.

(** A pipe that holds too little is drained and the read fails. *)
Lemma read_exact_loop_short {HRX : RustixSpec} fuel done todo p w :
  pipe_ok p → (length p.(pipe_data) < length todo)%nat → (length p.(pipe_data) < fuel)%nat →
  ∃ w', read_exact_loop fuel done todo (p, w) =
    (Err (Os 11), done ++ p.(pipe_data) ++ drop (length p.(pipe_data)) todo,
     ({| pipe_data := []; pipe_len := 0 |}, w')).
Proof.
  revert done todo p w. induction fuel as [|fuel IH]; intros done todo p w Hp Hl Hf; [lia|].
  destruct todo as [|t todo]; cbn [read_exact_loop]; [cbn in Hl; lia|].
  set (buf := t :: todo) in *. assert (0 < Z.of_nat (length buf)) by (unfold buf; cbn; lia).
  unfold Pipe_read. pose proof (Pipe_read_step (Z.of_nat (length buf)) p w Hp) as Hstep.
  unfold Pipe_read_vectored, this_pipe, mbind, M_bind in *.
  rewrite on_world_run in *. unfold io_err in *.
  destruct (pipe_data p) as [|d data] eqn:Hdata.
  - destruct (os_readv_empty (Z.of_nat (length buf)) w) as [w1 Hr]; [done|].
    rewrite Hr. cbn [map_err fst snd]. rewrite Errno_from_io_error_os.
    pose proof Errno_values as Hv. rewrite decide_False by congruence.
    exists w1. cbn [length drop app]. destruct p as [pd pl], Hp as [Hpl _]. cbn in *. subst. done.
  - destruct (os_readv_available (Z.of_nat (length buf)) (pipe_data p) w) as (b & bs & rest & w1 & Hr);
      [done|by rewrite Hdata|].
    rewrite Hdata in Hr. rewrite Hr in *. cbn [map_err fst snd consumed modify] in *.
    unfold modify, mret, M_ret in *. destruct Hstep as (Hp' & Hd & Hn). cbn [pipe_data] in Hd.
    set (got := b :: bs) in *. set (all := d :: data) in *.
    assert (length all = length got + length rest)%nat as Hal by (by rewrite Hd, length_app).
    edestruct (IH (done ++ got) (drop (length got) buf)) as [w' Hrun]; [exact Hp'|..].
    + cbn [pipe_data]. rewrite length_drop. lia.
    + cbn [pipe_data]. unfold got in *. cbn [length] in *. lia.
    + exists w'. rewrite Hrun. cbn [pipe_data]. rewrite <- app_assoc, drop_drop, Hal.
      rewrite Hd, <- app_assoc. done.
Qed.

Lemma read_exact_short {HRX : RustixSpec} buf p w :
  pipe_ok p → (length p.(pipe_data) < length buf)%nat →
  ∃ w', read_exact buf (p, w) =
    (Err (Os 11), p.(pipe_data) ++ drop (length p.(pipe_data)) buf,
     ({| pipe_data := []; pipe_len := 0 |}, w')).
Proof. intros Hp Hl. apply read_exact_loop_short; [done|done|lia]. Qed.

Lemma read_exact_ok buf p w :
  pipe_ok p → (length buf ≤ length p.(pipe_data))%nat →
  ∃ w', read_exact buf (p, w) =
    (Ok tt, take (length buf) p.(pipe_data),
     ({| pipe_data := drop (length buf) p.(pipe_data);
         pipe_len := p.(pipe_len) - Z.of_nat (length buf) |}, w')).
Proof. intros Hp Hl. apply read_exact_loop_ok; [done|done|lia]. Qed.

(** C36: [read_exact] on a non-blocking pipe always ends.  When the pipe holds
enough bytes it fills the whole buffer with the oldest ones, in order, and
leaves the rest in the pipe; otherwise it drains the pipe and fails with
[EAGAIN]. *)
Theorem read_exact_spec {HRX : RustixSpec} buf p w :
  pipe_ok p →
  ∃ w', read_exact buf (p, w) =
    if (length buf <=? length p.(pipe_data))%nat then
      (Ok tt, take (length buf) p.(pipe_data),
       ({| pipe_data := drop (length buf) p.(pipe_data);
           pipe_len := p.(pipe_len) - Z.of_nat (length buf) |}, w'))
    else
      (Err (Os 11), p.(pipe_data) ++ drop (length p.(pipe_data)) buf,
       ({| pipe_data := []; pipe_len := 0 |}, w')).
Proof.
  intros Hp. destruct (Nat.leb_spec (length buf) (length (pipe_data p))) as [Hl|Hl].
  - by apply read_exact_ok.
  - by apply read_exact_short.
Qed.

End facts.

(** ** A reference pipe

A pipe of 64 KiB: a transfer moves as much as there is and fits; an empty or a
full pipe answers [EAGAIN]. *)

Definition ref_capacity : Z := 65536.

Definition ref_os {W} : OsPipe W := {|
  os_pipe_with := mret tt;
  os_readv n data := λ w,
    if bool_decide (data = []) || (n <? 0) then (Err 11, w)
    else (Ok (take (Z.to_nat n) data, drop (Z.to_nat n) data), w);
  os_writev bufs data := λ w,
    let room := ref_capacity - Z.of_nat (length data) in
    if room <=? 0 then (Err 11, w)
    else let amount := Z.min (Z.of_nat (length (concat bufs))) room in
         (Ok (amount, data ++ take (Z.to_nat amount) (concat bufs)), w);
  os_splice src dst len := λ w,
    let room := ref_capacity - Z.of_nat (length dst) in
    if (room <=? 0) || (len <? 0) then (Err 11, w)
    else let n := Z.min len (Z.min (Z.of_nat (length src)) room) in
         (Ok (n, drop (Z.to_nat n) src, dst ++ take (Z.to_nat n) src), w);
  pipe_max := ref_capacity;
|}.

Lemma ref_os_spec {W} : OsPipeSpec (@ref_os W).
Proof.
  split.
  - by vm_compute.
  - intros w. exists w. by left.
  - intros n data w bs rest w'. cbn. destruct (Z.ltb_spec n 0); rewrite ?orb_true_r, ?orb_false_r; [done|].
    case_bool_decide; [done|]. intros [= <- <- _].
    rewrite take_drop, length_take. split; [done|lia].
  - intros n data w Hn Hd. cbn. rewrite bool_decide_eq_false_2 by done.
    destruct (Z.ltb_spec n 0); [lia|]. cbn.
    destruct data as [|b data]; [done|]. destruct (Z.to_nat n) as [|m] eqn:Hm; [lia|].
    cbn. by eexists _, _, _, _.
  - intros n w Hn. by exists w.
  - intros bufs data w amount data' w'. cbn. destruct (Z.leb_spec (ref_capacity - Z.of_nat (length data)) 0); [done|].
    intros [= <- <- _]. change pipe_max with ref_capacity.
    split; [lia|]. split; [done|]. rewrite length_app, length_take. lia.
  - intros src dst len w amount src' dst' w'. cbn.
    destruct (Z.leb_spec (ref_capacity - Z.of_nat (length dst)) 0), (Z.ltb_spec len 0); cbn; try done.
    intros [= <- <- <- _]. set (n := Z.min _ _).
    change pipe_max with ref_capacity. exists (take (Z.to_nat n) src).
    rewrite take_drop, length_app, length_take. split; [lia|]. split; [lia|]. split; [done|]. split; [done|lia].
Qed.

Definition hello : list byte := [Byte.x68; Byte.x65; Byte.x6c; Byte.x6c; Byte.x6f].

Lemma Pipe_len_tracks_witness :
  let _ := @ref_os unit in let _ : Profile := true in
  ∃ p, (Pipe_write_vectored [hello] ({| pipe_data := []; pipe_len := 0 |}, tt)).2.1 = p ∧
    p.(pipe_len) = Z.of_nat (length p.(pipe_data)).
Proof.
  intros OS PR. eexists. split; [reflexivity|].
  apply (@Pipe_len_tracks unit OS ref_os_spec PR tt {| pipe_data := []; pipe_len := 0 |} _ tt).
  - reflexivity.
  - eapply rtc_l; [|apply rtc_refl]. apply (step_write [hello] _ tt (Ok 5) _ tt). reflexivity.
Defined.

Lemma read_exact_spec_witness :
  let _ := @ref_os unit in let _ := ref_rustix in
  ∃ w', read_exact [Byte.x00; Byte.x00] ({| pipe_data := hello; pipe_len := 5 |}, tt) =
    (Ok tt, [Byte.x68; Byte.x65],
     ({| pipe_data := [Byte.x6c; Byte.x6c; Byte.x6f]; pipe_len := 3 |}, w')).
Proof.
  intros OS RX.
  apply (@read_exact_spec unit OS ref_os_spec RX ref_rustix_spec [Byte.x00; Byte.x00]
    {| pipe_data := hello; pipe_len := 5 |} tt).
  split; vm_compute; congruence.
Defined.
