(* ===== verification/Device.v ===== *)
(** * The FUSE device: [src/device.rs]

The calls on the device's descriptor are parameters; the device is the
connection ([SpliceRead]) and the writer ([IoWrite]) the rest of the library
works with. *)

From S2P Require Import Prelude Layout Kernel Crates Bytes Io.
Local Open Scope Z_scope.

Definition Fd := Z.

Record Device := { dev_fd : Fd }.

Definition Device_from_fd (fd : Fd) : Device := {| dev_fd := fd |}.

(** [rustix::io::{read, readv, write, writev}], [rustix::pipe::splice] between
the descriptor and a pipe (which holds [data]), [open] of the device node and
[ioctl(FUSE_DEV_IOC_CLONE)]. *)
Class OsDevice (W : Type) := {
  fd_read (fd : Fd) (n : usize) : M W Errno (list byte);
  fd_readv (fd : Fd) (sizes : list usize) : M W Errno (list byte);
  fd_write (fd : Fd) (buf : list byte) : M W Errno nat;
  fd_writev (fd : Fd) (bufs : list (list byte)) : M W Errno nat;
  fd_splice_in (fd : Fd) (len : usize) (data : list byte) : M W Errno (usize * list byte);
  fd_splice_out (fd : Fd) (len : usize) (data : list byte) : M W Errno (usize * list byte);
  open_fuse_dev : M W Errno Fd;
  ioc_clone (newfd fd : Fd) : M W Errno unit;
}.

Section device.
Context {W : Type} `{OD : OsDevice W} `{PR : Profile}.

Definition try_ioc_clone (self : Device) : M W io_error Device :=
  newfd ← io_err open_fuse_dev;
  _ ← io_err (ioc_clone newfd self.(dev_fd));
  mret {| dev_fd := newfd |}.

Definition Device_read (self : Device) (n : usize) : M W io_error (list byte) :=
  io_err (fd_read self.(dev_fd) n).

Definition Device_read_vectored (self : Device) (sizes : list usize) : M W io_error (list byte) :=
  io_err (fd_readv self.(dev_fd) sizes).

Definition Device_write (self : Device) (buf : list byte) : M W io_error nat :=
  io_err (fd_write self.(dev_fd) buf).

Definition Device_write_vectored (self : Device) (bufs : list (list byte)) : M W io_error nat :=
  io_err (fd_writev self.(dev_fd) bufs).

Definition Device_splice_read (self : Device) (len : usize) : M (Pipe * W) io_error usize :=
  Pipe_splice_from (fd_splice_in self.(dev_fd) len).

Definition Device_splice_write (self : Device) (len : usize) : M (Pipe * W) io_error usize :=
  Pipe_splice_to (fd_splice_out self.(dev_fd) len).

Definition Device_SpliceRead (self : Device) : SpliceRead W := {|
  conn_read_vectored := Device_read_vectored self;
  conn_splice_read := Device_splice_read self;
|}.

Definition Device_IoWrite (self : Device) : IoWrite W := Device_write_vectored self.

End device.

(** The calls on the descriptor end with a value or an error, and move what they
count. *)
Class OsDeviceSpec {W} {OS : OsPipe W} (OD : OsDevice W) : Prop := {
  fd_readv_ok fd sizes w :
    match fd_readv fd sizes w with
    | (Ok bs, _) => Z.of_nat (length bs) ≤ foldr Z.add 0 sizes
    | (Err _, _) => True
    | _ => False
    end;
  fd_splice_in_ok fd len : source_ok (fd_splice_in fd len);
  fd_splice_in_ends fd len data w :
    match fd_splice_in fd len data w with (Ok _, _) | (Err _, _) => True | _ => False end;
}.

Section facts.
Context {W : Type} {OS : OsPipe W} {HOS : OsPipeSpec OS} {OD : OsDevice W} {HOD : OsDeviceSpec OD}.
Context `{PR : Profile}.

(** The device is a connection. *)
Lemma Device_SpliceRead_spec d : SpliceReadSpec (Device_SpliceRead d).
Proof.
  split.
  - intros sizes w. cbn. unfold Device_read_vectored, io_err.
    pose proof (fd_readv_ok d.(dev_fd) sizes w) as H. by destruct (fd_readv _ _ w) as [[] ?].
  - intros len p w Hp. cbn. unfold Device_splice_read, Pipe_splice_from, this_pipe, mbind, M_bind.
    rewrite on_world_run. unfold io_err.
    pose proof (fd_splice_in_ends d.(dev_fd) len (pipe_data p) w) as He.
    destruct (fd_splice_in _ len (pipe_data p) w) as [[[amount data]|e|why|] w'] eqn:Hr;
      cbn [map_err fst snd]; try done.
    apply fd_splice_in_ok in Hr as (moved & <- & -> & Hm).
    destruct (produced_run p w' moved Hp Hm) as [Hrun Hok]. rewrite Hrun.
    split; [done|]. by exists moved.
Qed.

End facts.
