(* ===== verification/Sim.v ===== *)
(** * A reference world

A kernel that hands out a given list of messages and records what it is sent.
It shows that the assumptions on the operating system can be met together, and
lets the model run on concrete requests. *)

From S2P Require Import Prelude Layout Kernel Crates Bytes Io Device.
Local Open Scope Z_scope.

Record World := { incoming : list (list byte); outgoing : list (list byte) }.

(** Reading takes one message, or fails: [EIO] when the message does not fit, and
[ENODEV] once there is none, as after an unmount. *)
Definition take_message (room : Z) : M World Errno (list byte) := λ w,
  match w.(incoming) with
  | [] => (Err 19, w)
  | msg :: rest =>
      (if room <? Z.of_nat (length msg) then Err 5 else Ok msg,
       {| incoming := rest; outgoing := w.(outgoing) |})
  end.

Definition send_message (bs : list byte) : M World Errno nat := λ w,
  (Ok (length bs), {| incoming := w.(incoming); outgoing := w.(outgoing) ++ [bs] |}).

#[export] Instance sim_os : OsPipe World := ref_os.

#[export] Instance sim_device : OsDevice World := {
  fd_read fd n := take_message n;
  fd_readv fd sizes := take_message (foldr Z.add 0 sizes);
  fd_write fd buf := send_message buf;
  fd_writev fd bufs := send_message (concat bufs);
  fd_splice_in fd len data := λ w,
    let room := Z.min len (ref_capacity - Z.of_nat (length data)) in
    let (r, w') := take_message room w in
    (msg ← r; Ok (Z.of_nat (length msg), data ++ msg), w');
  fd_splice_out fd len data := λ w,
    let bs := take (Z.to_nat len) data in
    (Ok (Z.of_nat (length bs), drop (Z.to_nat len) data),
     {| incoming := w.(incoming); outgoing := w.(outgoing) ++ [bs] |});
  open_fuse_dev := mret 3;
  ioc_clone newfd fd := mret tt;
}.

#[export] Instance sim_os_spec : OsPipeSpec sim_os := ref_os_spec.

#[export] Instance sim_device_spec : OsDeviceSpec sim_device.
Proof.
  split.
  - intros fd sizes [[|msg rest] out]; cbn; [done|].
    destruct (Z.ltb_spec (foldr Z.add 0 sizes) (Z.of_nat (length msg))); [done|lia].
  - intros fd len data w amount data' w'. cbn. unfold take_message.
    destruct (incoming w) as [|msg rest]; cbn; [done|].
    case_match eqn:Hr; cbn; [done|]. intros [= <- <- _]. exists msg. split; [done|]. split; [done|].
    change pipe_max with ref_capacity. rewrite length_app. apply Z.ltb_ge in Hr. lia.
  - intros fd len data [[|msg rest] out]; cbn; [done|]. by destruct (_ <? _).
Qed.

Definition sim_fd : Device := Device_from_fd 3.
#[export] Instance sim_conn `{Profile} : SpliceRead World := Device_SpliceRead sim_fd.
#[export] Instance sim_conn_spec `{Profile} : SpliceReadSpec sim_conn :=
  Device_SpliceRead_spec sim_fd.
#[export] Instance sim_write : IoWrite World := Device_IoWrite sim_fd.
