(* ===== verification/Buf.v ===== *)
(** * Request buffers: [src/buf.rs]

A buffer receives one request message: through a pipe ([PipeBuf]) when the
session may splice, or into memory ([VecBuf]). *)

From S2P Require Import Prelude Layout Kernel Crates Types Header Io Device Sim.
Local Open Scope Z_scope.

Record PipeBuf := { pb_arg : list byte; pb_pipe : Pipe; pb_bufsize : usize }.

Record VecBuf := { vb_arg : list byte; vb_pos : usize }.

Inductive BufKind := BufPipe (buf : PipeBuf) | BufVec (buf : VecBuf).

Record RequestBuf := { rb_header : InHeader; rb_kind : BufKind }.

Inductive RemainingData := RemainingPipe (remains : Pipe) | RemainingVec (remains : list byte).

Definition invalid_data (source : string) : io_error := Custom InvalidData source.

(** Writing [new] over the front of [old]. *)
Definition overlay (old new : list byte) : list byte := new ++ drop (length new) old.

(** [header.raw.as_mut_bytes()] after bytes were written through it. *)
Definition set_header_bytes (bs : list byte) : InHeader := {| raw := pod_decode bs |}.

(** [Vec::resize(n, 0)] on the argument. *)
Definition resize_zero (v : list byte) (n : usize) : list byte :=
  take (Z.to_nat n) v ++ replicate (Z.to_nat n - length v) Byte.x00.

Section buf.
Context {W : Type} `{OS : OsPipe W} `{CN : SpliceRead W}.
Context `{ZC : Zerocopy} `{RX : Rustix} `{PR : Profile}.

Definition header_zeroed : InHeader := {| raw := zc_new_zeroed |}.

Definition RequestBuf_new_pipe (bufsize : usize) : M W io_error RequestBuf :=
  pipe ← Pipe_new;
  mret {| rb_header := header_zeroed;
          rb_kind := BufPipe {| pb_arg := []; pb_pipe := pipe; pb_bufsize := bufsize |} |}.

Definition RequestBuf_new_vec {E} (bufsize : usize) : outcome E RequestBuf :=
  n ← arith_u 64 (bufsize - Z.of_nat (size_of fuse_in_header));
  Ok {| rb_header := header_zeroed;
        rb_kind := BufVec {| vb_arg := replicate (Z.to_nat n) Byte.x00; vb_pos := 0 |} |}.

(** A call on the pipe of the buffer. *)
Definition on_pipe {A} (m : M (Pipe * W) io_error A)
    : M (InHeader * PipeBuf * W) io_error A := λ '(h, b, w),
  let '(r, (p, w')) := m (b.(pb_pipe), w) in
  (r, (h, {| pb_arg := b.(pb_arg); pb_pipe := p; pb_bufsize := b.(pb_bufsize) |}, w')).

Definition PipeBuf_reset : M (InHeader * PipeBuf * W) io_error unit := λ '(h, b, w),
  if negb (Pipe_is_empty b.(pb_pipe)) then
    let (r, w') := Pipe_new w in
    match r with
    | Ok pipe => (Ok tt, (h, {| pb_arg := []; pb_pipe := pipe; pb_bufsize := b.(pb_bufsize) |}, w'))
    | Err e =>
        (Err e, (h, {| pb_arg := []; pb_pipe := b.(pb_pipe); pb_bufsize := b.(pb_bufsize) |}, w'))
    | Panic why =>
        (Panic why, (h, {| pb_arg := []; pb_pipe := b.(pb_pipe); pb_bufsize := b.(pb_bufsize) |}, w'))
    | UB => (UB, (h, {| pb_arg := []; pb_pipe := b.(pb_pipe); pb_bufsize := b.(pb_bufsize) |}, w'))
    end
  else (Ok tt, (h, {| pb_arg := []; pb_pipe := b.(pb_pipe); pb_bufsize := b.(pb_bufsize) |}, w)).

(** [self.pipe.read_exact(header.raw.as_mut_bytes())] *)
Definition read_header : M (InHeader * PipeBuf * W) io_error unit := λ '(h, b, w),
  let '(r, bs, (p, w')) := read_exact (zc_as_bytes h.(raw)) (b.(pb_pipe), w) in
  (r, (set_header_bytes bs,
       {| pb_arg := b.(pb_arg); pb_pipe := p; pb_bufsize := b.(pb_bufsize) |}, w')).

(** [self.pipe.read_exact(&mut self.arg[..])] *)
Definition read_arg : M (InHeader * PipeBuf * W) io_error unit := λ '(h, b, w),
  let '(r, bs, (p, w')) := read_exact b.(pb_arg) (b.(pb_pipe), w) in
  (r, (h, {| pb_arg := bs; pb_pipe := p; pb_bufsize := b.(pb_bufsize) |}, w')).

Definition PipeBuf_try_receive : M (InHeader * PipeBuf * W) io_error unit :=
  _ ← PipeBuf_reset;
  '(_, b, _) ← get;
  len ← on_pipe (conn_splice_read b.(pb_bufsize));
  _ ← (if len <? Z.of_nat (size_of fuse_in_header)
       then lift (Err (invalid_data "dequeued request message is too short"))
       else mret tt);
  _ ← read_header;
  '(h, _, _) ← get;
  _ ← (if negb (len =? h.(raw).(in_header_len))
       then lift (Err (invalid_data
         "The value in_header.len is mismatched to the result of splice(2)"))
       else mret tt);
  _ ← modify (λ '(h, b, w),
        (h, {| pb_arg := resize_zero b.(pb_arg) (arg_len h); pb_pipe := b.(pb_pipe);
               pb_bufsize := b.(pb_bufsize) |}, w));
  read_arg.

(** [conn.read_vectored] into the header and the argument. *)
Definition read_message : M (InHeader * VecBuf * W) io_error usize := λ '(h, b, w),
  let n := Z.of_nat (size_of fuse_in_header) in
  let (r, w') := conn_read_vectored [n; Z.of_nat (length b.(vb_arg))] w in
  match r with
  | Ok bs =>
      (Ok (Z.of_nat (length bs)),
       (set_header_bytes (overlay (zc_as_bytes h.(raw)) (take (size_of fuse_in_header) bs)),
        {| vb_arg := overlay b.(vb_arg) (drop (size_of fuse_in_header) bs); vb_pos := b.(vb_pos) |},
        w'))
  | Err e => (Err e, (h, b, w'))
  | Panic why => (Panic why, (h, b, w'))
  | UB => (UB, (h, b, w'))
  end.

Definition VecBuf_try_receive : M (InHeader * VecBuf * W) io_error unit :=
  _ ← modify (λ '(h, b, w), (h, {| vb_arg := b.(vb_arg); vb_pos := 0 |}, w));
  len ← read_message;
  '(h, _, _) ← get;
  _ ← (if negb (len =? h.(raw).(in_header_len))
       then lift (Err (invalid_data
         "The value in_header.len is mismatched to the result of readv(2)"))
       else mret tt);
  modify (λ '(h, b, w), (h, {| vb_arg := b.(vb_arg); vb_pos := arg_len h |}, w)).

Definition RequestBuf_try_receive : M (RequestBuf * W) io_error unit := λ '(self, w),
  match self.(rb_kind) with
  | BufPipe buf =>
      let '(r, (h, buf', w')) := PipeBuf_try_receive (self.(rb_header), buf, w) in
      (r, ({| rb_header := h; rb_kind := BufPipe buf' |}, w'))
  | BufVec buf =>
      let '(r, (h, buf', w')) := VecBuf_try_receive (self.(rb_header), buf, w) in
      (r, ({| rb_header := h; rb_kind := BufVec buf' |}, w'))
  end.

(** The header, the argument and the data that follows it.  [split_at] panics
when the position is past the end. *)
Definition to_parts {E} (self : RequestBuf) : outcome E (InHeader * list byte * RemainingData) :=
  match self.(rb_kind) with
  | BufPipe buf => Ok (self.(rb_header), buf.(pb_arg), RemainingPipe buf.(pb_pipe))
  | BufVec buf =>
      if Z.of_nat (length buf.(vb_arg)) <? buf.(vb_pos) then Panic "mid > len"
      else Ok (self.(rb_header), take (Z.to_nat buf.(vb_pos)) buf.(vb_arg),
               RemainingVec (drop (Z.to_nat buf.(vb_pos)) buf.(vb_arg)))
  end.

(** [io::Read] of the remaining data; reading from a slice takes its front. *)
Definition RemainingData_read (n : usize) : M (RemainingData * W) io_error (list byte) := λ '(self, w),
  match self with
  | RemainingPipe remains =>
      let '(r, (p, w')) := Pipe_read n (remains, w) in (r, (RemainingPipe p, w'))
  | RemainingVec remains =>
      let k := Nat.min (Z.to_nat n) (length remains) in
      (Ok (take k remains), (RemainingVec (drop k remains), w))
  end.

End buf.

(** ** Receiving a message *)

Section facts.
Context {W : Type} {OS : OsPipe W} {HOS : OsPipeSpec OS} {CN : SpliceRead W}.
Context `{ZC : Zerocopy} {HZC : ZerocopySpec} `{RX : Rustix} `{PR : Profile}.

Definition empty_pipe : Pipe := {| pipe_data := []; pipe_len := 0 |}.
Definition pipe_of (data : list byte) : Pipe :=
  {| pipe_data := data; pipe_len := Z.of_nat (length data) |}.

(** The invariant of a buffer: the counter of the pipe is right; the argument in
memory has room for the fixed part of any request. *)
Definition buf_wf (b : RequestBuf) : Prop :=
  pod_wf b.(rb_header).(raw) ∧
  match b.(rb_kind) with
  | BufPipe pb => pipe_ok pb.(pb_pipe)
  | BufVec vb => 0 ≤ vb.(vb_pos) ≤ Z.of_nat (length vb.(vb_arg)) ∧ 40 ≤ Z.of_nat (length vb.(vb_arg))
  end.

(** The world delivers [msg] to the buffer: for a pipe, after a new one was made
if the old one still holds data. *)
Definition delivers (b : RequestBuf) (w : W) (msg : list byte) (w2 : W) : Prop :=
  match b.(rb_kind) with
  | BufPipe pb => ∃ w1,
      (if Pipe_is_empty pb.(pb_pipe) then w1 = w else os_pipe_with w = (Ok tt, w1)) ∧
      conn_splice_read pb.(pb_bufsize) (empty_pipe, w1) =
        (Ok (Z.of_nat (length msg)), (pipe_of msg, w2)) ∧
      Z.of_nat (length msg) ≤ pipe_max
  | BufVec vb =>
      conn_read_vectored [40; Z.of_nat (length vb.(vb_arg))] w = (Ok msg, w2) ∧
      Z.of_nat (length msg) ≤ 40 + Z.of_nat (length vb.(vb_arg))
  end.

(** The data that is left after the first [n] bytes of [body], which [b] has just
received.  A pipe holds exactly the rest of the body.  The remaining data of a buffer
in memory is the rest of the buffer: the rest of the body, then the bytes the buffer
held beyond the length of the body before, which do not belong to the message. *)
Definition remaining_after (b : RequestBuf) (body : list byte) (n : nat) : RemainingData :=
  match b.(rb_kind) with
  | BufPipe _ => RemainingPipe (pipe_of (drop n body))
  | BufVec vb => RemainingVec (drop n body ++ drop (length body) vb.(vb_arg))
  end.

Lemma set_header_encode x : pod_wf x → set_header_bytes (pod_encode x) = {| raw := x |}.
Proof.
  intros Hx. unfold set_header_bytes. rewrite <- (app_nil_r (pod_encode x)).
  by rewrite pod_decode_encode.
Qed.

Lemma PipeBuf_reset_ok h b w w1 :
  pipe_ok b.(pb_pipe) →
  (if Pipe_is_empty b.(pb_pipe) then w1 = w else os_pipe_with w = (Ok tt, w1)) →
  PipeBuf_reset (h, b, w) =
    (Ok tt, (h, {| pb_arg := []; pb_pipe := empty_pipe; pb_bufsize := b.(pb_bufsize) |}, w1)).
Proof.
  intros [Hl _] Hw. unfold PipeBuf_reset, Pipe_is_empty in *.
  destruct (Z.eqb_spec (pipe_len (pb_pipe b)) 0) as [H0|H0]; cbn [negb].
  - subst w1. destruct b as [arg [data len] size]. cbn in *. subst len.
    destruct data; [done|cbn in H0; lia].
  - unfold Pipe_new, mbind, M_bind, io_err. by rewrite Hw.
Qed.

Lemma read_header_ok h b w x rest :
  pod_wf h.(raw) → pod_wf x → b.(pb_pipe) = pipe_of (pod_encode x ++ rest) →
  Z.of_nat (length (pod_encode x ++ rest)) ≤ pipe_max →
  ∃ w', read_header (h, b, w) =
    (Ok tt, ({| raw := x |}, {| pb_arg := b.(pb_arg); pb_pipe := pipe_of rest;
                                pb_bufsize := b.(pb_bufsize) |}, w')).
Proof.
  intros Hh Hx Hp Hm. unfold read_header. rewrite zc_as_bytes_spec, Hp.
  pose proof (length_pod_encode _ Hh) as Hlh. pose proof (length_pod_encode _ Hx) as Hlx.
  destruct (read_exact_ok (pod_encode (raw h)) (pipe_of (pod_encode x ++ rest)) w) as [w' Hr].
  - by split.
  - cbn. rewrite length_app. lia.
  - exists w'. rewrite Hr, Hlh, <- Hlx. cbn [pipe_of pipe_data pipe_len].
    rewrite take_app_length, drop_app_length, set_header_encode by done.
    unfold pipe_of. rewrite length_app. do 6 f_equal. lia.
Qed.

Lemma read_arg_ok h b w rest :
  b.(pb_pipe) = pipe_of rest → (length b.(pb_arg) ≤ length rest)%nat →
  Z.of_nat (length rest) ≤ pipe_max →
  ∃ w', read_arg (h, b, w) =
    (Ok tt, (h, {| pb_arg := take (length b.(pb_arg)) rest;
                   pb_pipe := pipe_of (drop (length b.(pb_arg)) rest);
                   pb_bufsize := b.(pb_bufsize) |}, w')).
Proof.
  intros Hp Hl Hm. unfold read_arg. rewrite Hp.
  destruct (read_exact_ok (pb_arg b) (pipe_of rest) w) as [w' Hr]; [by split|done|].
  exists w'. rewrite Hr. cbn [pipe_of pipe_data pipe_len]. unfold pipe_of. rewrite length_drop.
  do 6 f_equal. lia.
Qed.

Lemma length_resize_zero n : length (resize_zero [] n) = Z.to_nat n.
Proof. unfold resize_zero. rewrite take_nil, app_nil_l, length_replicate. cbn. lia. Qed.

Lemma PipeBuf_receive h b w w1 w2 x body :
  pod_wf h.(raw) → pipe_ok b.(pb_pipe) → pod_wf x →
  (if Pipe_is_empty b.(pb_pipe) then w1 = w else os_pipe_with w = (Ok tt, w1)) →
  let msg := pod_encode x ++ body in
  conn_splice_read b.(pb_bufsize) (empty_pipe, w1) =
    (Ok (Z.of_nat (length msg)), (pipe_of msg, w2)) →
  Z.of_nat (length msg) ≤ pipe_max →
  x.(in_header_len) = Z.of_nat (length msg) →
  0 ≤ arg_len {| raw := x |} ≤ Z.of_nat (length body) →
  ∃ w', PipeBuf_try_receive (h, b, w) =
    (Ok tt, ({| raw := x |},
      {| pb_arg := take (Z.to_nat (arg_len {| raw := x |})) body;
         pb_pipe := pipe_of (drop (Z.to_nat (arg_len {| raw := x |})) body);
         pb_bufsize := b.(pb_bufsize) |}, w')).
Proof.
  intros Hh Hp Hx Hw msg Hc Hm Hlen Ha. unfold PipeBuf_try_receive, mbind, M_bind, get.
  rewrite (PipeBuf_reset_ok _ _ _ _ Hp Hw). cbn [pb_bufsize].
  unfold on_pipe at 1. cbn [pb_pipe pb_bufsize pb_arg]. rewrite Hc.
  assert ((Z.of_nat (length msg) <? Z.of_nat (size_of fuse_in_header)) = false) as ->.
  { apply Z.ltb_ge. unfold msg. rewrite length_app, length_pod_encode by done. lia. }
  unfold mret, M_ret.
  edestruct (read_header_ok h {| pb_arg := []; pb_pipe := pipe_of msg; pb_bufsize := pb_bufsize b |} w2 x body)
    as [w3 ->]; [done..|].
  cbn [raw]. rewrite Hlen, Z.eqb_refl. cbn [negb]. unfold modify. cbn [pb_arg pb_pipe pb_bufsize].
  set (n := arg_len {| raw := x |}) in *.
  edestruct (read_arg_ok {| raw := x |} {| pb_arg := resize_zero [] n; pb_pipe := pipe_of body;
    pb_bufsize := pb_bufsize b |} w3 body) as [w4 ->]; cbn [pb_arg]; [done|..].
  - rewrite length_resize_zero. lia.
  - unfold msg in Hm. rewrite length_app in Hm. lia.
  - rewrite length_resize_zero. by exists w4.
Qed.

Lemma overlay_full old new : (length old ≤ length new)%nat → overlay old new = new.
Proof. intros. unfold overlay. by rewrite drop_ge, app_nil_r. Qed.

Lemma length_overlay old new :
  (length new ≤ length old)%nat → length (overlay old new) = length old.
Proof. intros. unfold overlay. rewrite length_app, length_drop. lia. Qed.

Lemma VecBuf_receive h b w w2 x body :
  pod_wf h.(raw) → pod_wf x →
  let msg := pod_encode x ++ body in
  conn_read_vectored [40; Z.of_nat (length b.(vb_arg))] w = (Ok msg, w2) →
  Z.of_nat (length msg) ≤ 40 + Z.of_nat (length b.(vb_arg)) →
  x.(in_header_len) = Z.of_nat (length msg) →
  VecBuf_try_receive (h, b, w) =
    (Ok tt, ({| raw := x |}, {| vb_arg := overlay b.(vb_arg) body;
                                vb_pos := arg_len {| raw := x |} |}, w2)).
Proof.
  intros Hh Hx msg Hc Hm Hlen. pose proof (length_pod_encode _ Hx) as Hlx.
  pose proof (length_pod_encode _ Hh) as Hlh.
  unfold VecBuf_try_receive, mbind, M_bind, get, modify, read_message.
  cbn [vb_arg]. change (Z.of_nat (size_of fuse_in_header)) with 40. rewrite Hc.
  unfold msg. rewrite <- Hlx, take_app_length, drop_app_length, zc_as_bytes_spec.
  rewrite overlay_full by lia. rewrite set_header_encode by done. cbn [raw]. fold msg.
  rewrite Hlen, Z.eqb_refl. done.
Qed.

Lemma try_receive_delivered b w w2 x body :
  buf_wf b → pod_wf x →
  let h := {| raw := x |} in
  let msg := pod_encode x ++ body in
  delivers b w msg w2 →
  x.(in_header_len) = Z.of_nat (length msg) →
  arg_len h ≤ Z.of_nat (length body) →
  let n := Z.to_nat (arg_len h) in
  ∃ b' w',
    RequestBuf_try_receive (b, w) = (Ok tt, (b', w')) ∧ buf_wf b' ∧
    to_parts (E:=Empty_set) b' = Ok (h, take n body, remaining_after b body n).
Proof.
  intros [Hh Hb] Hx h msg Hd Hlen Ha n.
  assert (0 ≤ arg_len h) as Ha0 by (simpl_pod_wf Hx; apply arg_len_bounds; tauto).
  unfold RequestBuf_try_receive, delivers, to_parts, buf_wf, remaining_after in *.
  destruct (rb_kind b) as [pb|vb].
  - destruct Hd as (w1 & Hw & Hc & Hm).
    destruct (PipeBuf_receive (rb_header b) pb w w1 w2 x body) as [w' ->]; [done..|].
    eexists _, w'. split_and!; [done|done| |done]. cbn. split; [done|]. cbn.
    unfold msg in Hm. rewrite length_app in Hm. rewrite length_drop. lia.
  - destruct Hd as [Hc Hm]. rewrite (VecBuf_receive _ _ _ w2 x body) by done.
    unfold msg in Hm. rewrite length_app, length_pod_encode in Hm by done.
    change (size_of fuse_in_header) with 40%nat in Hm.
    assert (length body ≤ length (vb_arg vb))%nat as Hbl by lia.
    eexists {| rb_header := h; rb_kind := BufVec {| vb_arg := overlay (vb_arg vb) body;
      vb_pos := arg_len h |} |}, w2. cbn [rb_header rb_kind vb_arg vb_pos].
    rewrite length_overlay, (proj2 (Z.ltb_ge _ _)) by lia.
    split_and!; [done|done|lia|lia|lia|].
    unfold overlay. by rewrite take_app_le, drop_app_le by (subst n; lia).
Qed.

(** A buffer in memory keeps its kind and its size. *)
Lemma vec_receive_delivered h vb w w2 x body :
  buf_wf {| rb_header := h; rb_kind := BufVec vb |} → pod_wf x →
  let msg := pod_encode x ++ body in
  conn_read_vectored [40; Z.of_nat (length vb.(vb_arg))] w = (Ok msg, w2) →
  Z.of_nat (length msg) ≤ 40 + Z.of_nat (length vb.(vb_arg)) →
  x.(in_header_len) = Z.of_nat (length msg) →
  arg_len {| raw := x |} ≤ Z.of_nat (length body) →
  ∃ vb' rem,
    let b' := {| rb_header := {| raw := x |}; rb_kind := BufVec vb' |} in
    RequestBuf_try_receive ({| rb_header := h; rb_kind := BufVec vb |}, w) = (Ok tt, (b', w2)) ∧
    buf_wf b' ∧ length vb'.(vb_arg) = length vb.(vb_arg) ∧
    ∀ E, to_parts (E:=E) b' = Ok ({| raw := x |}, take (Z.to_nat (arg_len {| raw := x |})) body, rem).
Proof.
  intros [Hh Hb] Hx msg Hc Hm Hlen Ha. cbn in Hh, Hb.
  assert (0 ≤ arg_len {| raw := x |}) as Ha0 by (simpl_pod_wf Hx; apply arg_len_bounds; tauto).
  unfold RequestBuf_try_receive. cbn [rb_kind rb_header].
  rewrite (VecBuf_receive _ _ _ w2 x body) by done.
  unfold msg in Hm. rewrite length_app, length_pod_encode in Hm by done.
  change (size_of fuse_in_header) with 40%nat in Hm.
  assert (length body ≤ length (vb_arg vb))%nat as Hbl by lia.
  eexists {| vb_arg := overlay (vb_arg vb) body; vb_pos := arg_len {| raw := x |} |}, _.
  split; [done|]. unfold buf_wf, to_parts. cbn [rb_header rb_kind vb_arg vb_pos].
  rewrite length_overlay, (proj2 (Z.ltb_ge _ _)) by lia.
  split_and!; [done|lia|lia|lia|done|]. intros E. unfold overlay. by rewrite take_app_le by lia.
Qed.

(** C6: a request arrives intact.  When the connection delivers a message whose
header states its length and whose body holds the fixed part of the request,
[try_receive] succeeds, whatever an earlier request left in the buffer, and the
buffer then gives that header, the argument, and the remaining data: with a pipe,
exactly the rest of the body; with a buffer in memory, the rest of the body followed
by the bytes that the buffer held beyond the length of this body before. *)
Theorem try_receive_message b w w2 x body :
  buf_wf b → pod_wf x →
  let h := {| raw := x |} in
  let msg := pod_encode x ++ body in
  delivers b w msg w2 →
  x.(in_header_len) = Z.of_nat (length msg) →
  arg_len h ≤ Z.of_nat (length body) →
  let n := Z.to_nat (arg_len h) in
  ∃ b' w',
    RequestBuf_try_receive (b, w) = (Ok tt, (b', w')) ∧ buf_wf b' ∧
    to_parts (E:=Empty_set) b' = Ok (h, take n body, remaining_after b body n).
Proof. apply try_receive_delivered. Qed.

(** What a successful reception establishes: the parts can be taken, and the
argument has the length the header asks for. *)
Definition received (b : RequestBuf) : Prop :=
  ∃ arg rem, to_parts (E:=Empty_set) b = Ok (b.(rb_header), arg, rem) ∧
    Z.of_nat (length arg) = arg_len b.(rb_header).

(** A reception ends in a success or in an error, and keeps the invariant. *)
Definition reception_ok (o : outcome io_error unit * (RequestBuf * W)) : Prop :=
  buf_wf o.2.1 ∧ match o.1 with Ok _ => received o.2.1 | Err _ => True | _ => False end.

Lemma set_header_bytes_wf bs : length bs = 40%nat → pod_wf (set_header_bytes bs).(raw).
Proof. intros Hl. apply pod_decode_wf. by rewrite Hl. Qed.

Lemma arg_len_nonneg h : pod_wf h.(raw) → 0 ≤ arg_len h.
Proof. intros Hh. simpl_pod_wf Hh. apply arg_len_bounds. tauto. Qed.

Lemma read_exact_any {HRX : RustixSpec} buf p w :
  pipe_ok p →
  let '(r, bs, (p', _)) := read_exact buf (p, w) in
  length bs = length buf ∧ pipe_ok p' ∧ match r with Ok _ | Err _ => True | _ => False end.
Proof.
  intros Hp. pose proof pipe_max_bound.
  destruct (decide (length buf ≤ length (pipe_data p))%nat) as [Hl|Hl].
  - destruct (read_exact_ok buf p w Hp Hl) as [w' ->]. rewrite length_take.
    destruct Hp as [Hp1 Hp2]. unfold pipe_ok. cbn. rewrite length_drop. lia.
  - destruct (read_exact_short buf p w Hp) as [w' ->]; [lia|].
    rewrite length_app, length_drop. unfold pipe_ok. cbn. lia.
Qed.

Lemma VecBuf_reception `{!SpliceReadSpec CN} h vb w :
  buf_wf {| rb_header := h; rb_kind := BufVec vb |} →
  reception_ok (RequestBuf_try_receive ({| rb_header := h; rb_kind := BufVec vb |}, w)).
Proof.
  intros [Hh [Hpos H40]]. cbn in Hh, Hpos, H40. unfold RequestBuf_try_receive, reception_ok.
  cbn [rb_kind rb_header].
  unfold VecBuf_try_receive, mbind, M_bind, get, modify, read_message, lift, mret, M_ret.
  cbn [vb_arg vb_pos]. change (Z.of_nat (size_of fuse_in_header)) with 40.
  pose proof (conn_read_ok [40; Z.of_nat (length (vb_arg vb))] w) as Hr.
  destruct (conn_read_vectored _ w) as [[bs|e|why|] w']; cbn [fst snd]; try done.
  - cbn in Hr. set (h' := set_header_bytes _).
    assert (pod_wf (raw h')) as Hh'.
    { apply set_header_bytes_wf. rewrite zc_as_bytes_spec, length_overlay;
        rewrite length_pod_encode by done; [done|].
      change (size_of fuse_in_header) with 40%nat. rewrite length_take. lia. }
    set (arg := overlay (vb_arg vb) _).
    assert (length arg = length (vb_arg vb)) as Hla.
    { apply length_overlay. change (size_of fuse_in_header) with 40%nat. rewrite length_drop. lia. }
    pose proof (arg_len_nonneg h' Hh').
    destruct (Z.eqb_spec (Z.of_nat (length bs)) (in_header_len (raw h'))) as [Heq|Hne]; cbn [negb fst snd].
    + assert (arg_len h' ≤ Z.of_nat (length arg)) as Hal.
      { simpl_pod_wf Hh'. pose proof (arg_len_bounds h') as Hb.
        assert (is_u 32 (in_header_len (raw h'))) as Hu by tauto. specialize (Hb Hu). lia. }
      split; [split; [done|]; cbn; lia|].
      unfold received, to_parts. cbn [rb_kind rb_header vb_arg vb_pos].
      rewrite (proj2 (Z.ltb_ge _ _)) by done. eexists _, _. split; [done|]. rewrite length_take. lia.
    + split; [|done]. split; [done|]. cbn. lia.
  - split; [|done]. split; [done|]. cbn. lia.
Qed.

(** The state of a pipe buffer between the steps of a reception. *)
Definition pipe_state_ok (s : InHeader * PipeBuf * W) : Prop :=
  pod_wf s.1.1.(raw) ∧ pipe_ok s.1.2.(pb_pipe).

Lemma PipeBuf_reset_any s :
  pipe_state_ok s →
  let '(r, s') := PipeBuf_reset s in
  pipe_state_ok s' ∧
  match r with
  | Ok _ => s'.1.2.(pb_pipe).(pipe_data) = [] ∧ s'.1.2.(pb_arg) = []
  | Err _ => True
  | _ => False
  end.
Proof.
  destruct s as [[h b] w]. intros [Hh Hp]. unfold PipeBuf_reset, Pipe_is_empty. cbn in Hh, Hp.
  pose proof pipe_max_bound. pose proof Hp as [Hl Hm].
  destruct (Z.eqb_spec (pipe_len (pb_pipe b)) 0) as [H0|H0]; cbn [negb].
  - split; [done|]. split; [|done]. cbn. apply nil_length_inv. lia.
  - unfold Pipe_new, mbind, M_bind, io_err.
    destruct (os_pipe_ends w) as [w1 [Hw|[e Hw]]]; rewrite Hw; cbn; [|done].
    split; [|done]. split; [done|]. by split; cbn; [|lia].
Qed.

Lemma read_header_any {HRX : RustixSpec} s :
  pipe_state_ok s →
  let '(r, s') := read_header s in
  pipe_state_ok s' ∧ s'.1.2.(pb_arg) = s.1.2.(pb_arg) ∧
  match r with Ok _ | Err _ => True | _ => False end.
Proof.
  destruct s as [[h b] w]. intros [Hh Hp]. unfold read_header. cbn in Hh, Hp.
  pose proof (read_exact_any (zc_as_bytes (raw h)) (pb_pipe b) w Hp) as Hr.
  destruct (read_exact _ _) as [[r bs] [p' w']]. destruct Hr as (Hl & Hp' & Hr).
  split; [|done]. split; [|done]. apply set_header_bytes_wf.
  by rewrite Hl, zc_as_bytes_spec, length_pod_encode.
Qed.

Lemma PipeBuf_reception {HRX : RustixSpec} `{!SpliceReadSpec CN} h pb w :
  buf_wf {| rb_header := h; rb_kind := BufPipe pb |} →
  reception_ok (RequestBuf_try_receive ({| rb_header := h; rb_kind := BufPipe pb |}, w)).
Proof.
  intros Hb. unfold RequestBuf_try_receive, reception_ok. cbn [rb_kind rb_header].
  unfold PipeBuf_try_receive, mbind, M_bind, get, modify, lift, mret, M_ret.
  pose proof (PipeBuf_reset_any (h, pb, w) Hb) as H1.
  destruct (PipeBuf_reset _) as [[[]|e|why|] [[h1 b1] w1]]; cbn [fst snd] in *;
    destruct H1 as [H1 H1r]; try done.
  unfold on_pipe. pose proof (conn_splice_ok b1.(pb_bufsize) b1.(pb_pipe) w1 (proj2 H1)) as H2.
  destruct (conn_splice_read _ _) as [[n|e|why|] [p2 w2]]; cbn [fst snd] in *; try done;
    [|split; [split; [apply H1|done]|done]].
  destruct H2 as [Hp2 _].
  destruct (n <? Z.of_nat (size_of fuse_in_header)); cbn [fst snd]; [split; [split; [apply H1|done]|done]|].
  assert (pipe_state_ok (h1, {| pb_arg := pb_arg b1; pb_pipe := p2; pb_bufsize := pb_bufsize b1 |}, w2))
    as H3 by (split; [apply H1|done]).
  apply read_header_any in H3. destruct (read_header _) as [[[]|e|why|] [[h4 b4] w4]];
    cbn [fst snd] in *; destruct H3 as (H3 & Harg & H3r); try done.
  destruct (negb _); cbn [fst snd]; [done|].
  unfold read_arg. cbn [pb_pipe pb_arg pb_bufsize].
  rewrite Harg. cbn [pb_arg]. rewrite (proj2 H1r).
  pose proof (read_exact_any (resize_zero [] (arg_len h4)) (pb_pipe b4) w4 (proj2 H3)) as H5.
  destruct (read_exact _ _) as [[r5 bs5] [p5 w5]]. destruct H5 as (Hl5 & Hp5 & Hr5). cbn [fst snd].
  split; [split; [apply H3|done]|]. destruct r5; try done.
  eexists _, _. split; [done|]. cbn [pb_arg]. rewrite Hl5, length_resize_zero.
  cbn [rb_header]. pose proof (arg_len_nonneg h4 (proj1 H3)). lia.
Qed.

Lemma try_receive_reception {HRX : RustixSpec} `{!SpliceReadSpec CN} b w :
  buf_wf b → reception_ok (RequestBuf_try_receive (b, w)).
Proof. destruct b as [h [pb|vb]]; [apply PipeBuf_reception|apply VecBuf_reception]. Qed.

(** The longest message that a buffer can take: a pipe takes what its capacity allows,
whatever length is asked for; a buffer in memory takes a header and its argument. *)
Definition room (b : RequestBuf) : Z :=
  match b.(rb_kind) with
  | BufPipe _ => pipe_max
  | BufVec vb => 40 + Z.of_nat (length vb.(vb_arg))
  end.

Lemma PipeBuf_room {HRX : RustixSpec} `{!SpliceReadSpec CN} h pb w s' :
  buf_wf {| rb_header := h; rb_kind := BufPipe pb |} →
  PipeBuf_try_receive (h, pb, w) = (Ok tt, s') →
  s'.1.1.(raw).(in_header_len) ≤ pipe_max.
Proof.
  intros Hb. unfold PipeBuf_try_receive, mbind, M_bind, get, modify, lift, mret, M_ret.
  pose proof (PipeBuf_reset_any (h, pb, w) Hb) as H1.
  destruct (PipeBuf_reset _) as [[[]|e|why|] [[h1 b1] w1]]; try done. destruct H1 as [H1 [Hd _]].
  unfold on_pipe. pose proof (conn_splice_ok b1.(pb_bufsize) b1.(pb_pipe) w1 (proj2 H1)) as H2.
  destruct (conn_splice_read _ _) as [[n|e|why|] [p2 w2]]; try done.
  destruct H2 as ([_ Hmax] & got & Hgot & ->). cbn in Hd. rewrite Hgot, Hd in Hmax.
  destruct (_ <? _); [done|]. destruct (read_header _) as [[[]|e|why|] [[h4 b4] w4]]; try done.
  destruct (Z.eqb_spec (Z.of_nat (length got)) (in_header_len (raw h4))) as [Heq|]; cbn [negb]; [|done].
  unfold read_arg. destruct (read_exact _ _) as [[r5 bs5] [p5 w5]]. intros [= _ <-].
  cbn in *. lia.
Qed.

(** What was received is no longer than the buffer can take, and the buffer takes as
much as before. *)
Lemma try_receive_room {HRX : RustixSpec} `{!SpliceReadSpec CN} b w b' w' :
  buf_wf b → RequestBuf_try_receive (b, w) = (Ok tt, (b', w')) →
  b'.(rb_header).(raw).(in_header_len) ≤ room b ∧ room b' = room b.
Proof.
  destruct b as [h [pb|vb]]; intros Hb; unfold RequestBuf_try_receive, room; cbn [rb_kind rb_header].
  - destruct (PipeBuf_try_receive _) as [r [[h1 b1] w1]] eqn:Hr. intros [= -> <- <-].
    apply PipeBuf_room in Hr; [|done]. by split.
  - unfold VecBuf_try_receive, mbind, M_bind, get, modify, read_message, lift, mret, M_ret.
    cbn [vb_arg vb_pos]. change (Z.of_nat (size_of fuse_in_header)) with 40.
    pose proof (conn_read_ok [40; Z.of_nat (length (vb_arg vb))] w) as Hr.
    destruct (conn_read_vectored _ w) as [[bs|e|why|] w1]; try done. cbn in Hr.
    set (h' := set_header_bytes _).
    destruct (Z.eqb_spec (Z.of_nat (length bs)) (in_header_len (raw h'))) as [Heq|Hne];
      cbn [negb]; [|done].
    intros [= <- <-]. cbn [rb_header rb_kind vb_arg]. split; [lia|].
    rewrite length_overlay; [done|]. change (size_of fuse_in_header) with 40%nat.
    rewrite length_drop. lia.
Qed.

(** C28: a reception never panics and never leaves the buffer in a bad state.
Whatever the connection delivers, [try_receive] returns; after a success the
parts of the request can be taken and the argument has exactly the length the
header asks for; after an error the buffer can be used again. *)
Theorem try_receive_total {HRX : RustixSpec} `{!SpliceReadSpec CN} b w :
  buf_wf b →
  let o := RequestBuf_try_receive (b, w) in
  buf_wf o.2.1 ∧
  ((o.1 = Ok tt ∧ received o.2.1) ∨ ∃ e, o.1 = Err e).
Proof.
  intros Hb o. destruct (try_receive_reception b w Hb) as [Hw Ho]. fold o in Hw, Ho.
  split; [done|]. destruct (o.1) as [[]|e|?|]; [by left|right; by exists e|done..].
Qed.

End facts.

(** ** Instances *)

Definition header_example (opcode len : u32) : fuse_in_header := {|
  in_header_len := len;
  in_header_opcode := opcode;
  in_header_unique := 2;
  in_header_nodeid := 1;
  in_header_uid := 0;
  in_header_gid := 0;
  in_header_pid := 0;
  in_header_total_extlen := 0;
  in_header_padding := 0;
|}.

Definition name_example : list byte := [Byte.x61; Byte.x62; Byte.x00].

(** A LOOKUP message, and a buffer in memory of 200 bytes. *)
Definition lookup_message : list byte := pod_encode (header_example 1 43) ++ name_example.

Definition vec_example : RequestBuf := {|
  rb_header := {| raw := header_example 0 0 |};
  rb_kind := BufVec {| vb_arg := replicate 160 Byte.xff; vb_pos := 0 |} |}.

Definition pipe_example : RequestBuf := {|
  rb_header := {| raw := header_example 0 0 |};
  rb_kind := BufPipe {| pb_arg := []; pb_pipe := pipe_of [Byte.xff]; pb_bufsize := 8192 |} |}.

Definition world_example : World := {| incoming := [lookup_message]; outgoing := [] |}.

Lemma vec_example_wf : buf_wf vec_example.
Proof. repeat split; vm_compute; congruence. Qed.

Lemma pipe_example_wf : buf_wf pipe_example.
Proof. repeat split; vm_compute; congruence. Qed.

Lemma try_receive_message_witness :
  let _ := ref_zerocopy in let _ := ref_rustix in let _ : Profile := true in
  (∃ b' w',
    RequestBuf_try_receive (pipe_example, world_example) = (Ok tt, (b', w')) ∧
    to_parts (E:=Empty_set) b' =
      Ok ({| raw := header_example 1 43 |}, name_example, RemainingPipe (pipe_of []))) ∧
  (∃ b' w',
    RequestBuf_try_receive (vec_example, world_example) = (Ok tt, (b', w')) ∧
    to_parts (E:=Empty_set) b' =
      Ok ({| raw := header_example 1 43 |}, name_example, RemainingVec (replicate 157 Byte.xff))).
Proof.
  intros ZC RX PR.
  assert (∀ b, buf_wf b → delivers b world_example lookup_message {| incoming := []; outgoing := [] |} →
    ∃ b' w', RequestBuf_try_receive (b, world_example) = (Ok tt, (b', w')) ∧ buf_wf b' ∧
      to_parts (E:=Empty_set) b' =
        Ok ({| raw := header_example 1 43 |}, name_example, remaining_after b name_example 3)) as H.
  { intros b Hb Hd.
    apply (@try_receive_message World _ _ _ ZC ref_zerocopy_spec RX b world_example
      {| incoming := []; outgoing := [] |} (header_example 1 43) name_example);
      [exact Hb|repeat split; vm_compute; congruence|exact Hd|reflexivity|vm_compute; congruence]. }
  split; [destruct (H pipe_example) as (b' & w' & Hr & _ & Hp)|destruct (H vec_example) as (b' & w' & Hr & _ & Hp)].
  - exact pipe_example_wf.
  - exists world_example. split; [reflexivity|]. split; [reflexivity|]. vm_compute. congruence.
  - exists b', w'. split; [exact Hr|exact Hp].
  - exact vec_example_wf.
  - split; [reflexivity|]. vm_compute. congruence.
  - exists b', w'. split; [exact Hr|exact Hp].
Defined.

Lemma try_receive_total_witness :
  let _ := ref_zerocopy in let _ := ref_rustix in let _ : Profile := true in
  let o := RequestBuf_try_receive (vec_example, world_example) in
  buf_wf o.2.1 ∧ ((o.1 = Ok tt ∧ received o.2.1) ∨ ∃ e, o.1 = Err e).
Proof.
  intros ZC RX PR o.
  exact (@try_receive_total World _ _ _ ZC ref_zerocopy_spec RX ref_rustix_spec _ vec_example
    world_example vec_example_wf).
Defined.

(** In a buffer in memory the remaining data does not end with the message.
After a message of 43 bytes, whose argument is read whole, the remaining data
holds the 157 bytes an earlier request left in the buffer, where the pipe buffer
is empty. *)
Theorem vec_remaining_is_stale :
  let _ := ref_zerocopy in let _ := ref_rustix in let _ : Profile := true in
  let after b := (RequestBuf_try_receive (b, world_example)).2.1 in
  to_parts (E:=Empty_set) (after vec_example) =
    Ok ({| raw := header_example 1 43 |}, name_example, RemainingVec (replicate 157 Byte.xff)) ∧
  to_parts (E:=Empty_set) (after pipe_example) =
    Ok ({| raw := header_example 1 43 |}, name_example, RemainingPipe (pipe_of [])).
Proof. split; vm_compute; reflexivity. Qed.
