(* ===== verification/Session.v ===== *)
(** * Sessions: [src/session.rs]

Receiving and decoding requests, replying, notifying the kernel.  The two
atomics of a session are shared by every request and notifier: they are the
fields of [Session] that operations change. *)

From stdpp Require Import relations.
From S2P Require Import Prelude Layout Kernel Crates Types Bytes Init Msg Header Decoder.
From S2P Require Import Operation Op OpWire OpSpec OpTotal Reply Io Device Sim Buf.
Local Open Scope Z_scope.

Record Session := {
  s_config : KernelConfig;
  s_exited : bool;
  s_notify_unique : u64;
}.

Definition Session_new (config : KernelConfig) : Session :=
  {| s_config := config; s_exited := false; s_notify_unique := 0 |}.

Definition Session_exit (s : Session) : Session :=
  {| s_config := s.(s_config); s_exited := true; s_notify_unique := s.(s_notify_unique) |}.

(** [fetch_add(1)] on the counter of notifications, which wraps around. *)
Definition next_notify_unique (s : Session) : u64 * Session :=
  (s.(s_notify_unique),
   {| s_config := s.(s_config); s_exited := s.(s_exited);
      s_notify_unique := wrap_u 64 (s.(s_notify_unique) + 1) |}).

(** A request that was decoded: the session's configuration and its header. *)
Record Request := { req_config : KernelConfig; req_header : InHeader }.

Section session.
Context {W : Type} `{OS : OsPipe W} `{CN : SpliceRead W} `{IW : IoWrite W}.
Context `{BF : Bitflags} `{ZC : Zerocopy} `{RX : Rustix} `{L : Libc} `{PR : Profile}.

Definition request_buffer_size (s : Session) : usize :=
  Z.of_nat (size_of fuse_in_header) + Z.of_nat (size_of fuse_write_in) + s.(s_config).(max_write).

Definition new_request_buffer (s : Session) : M W io_error RequestBuf :=
  if bf_contains s.(s_config).(flags) FUSE_SPLICE_READ
  then RequestBuf_new_pipe (request_buffer_size s)
  else lift (RequestBuf_new_vec (request_buffer_size s)).

Definition is_errno (err : io_error) (e : Errno) : bool :=
  bool_decide (Errno_from_io_error err = Some e).

Definition recv_request : M (Session * RequestBuf * W) io_error bool := λ '(s, b, w),
  if s.(s_exited) then (Ok false, (s, b, w))
  else
    let '(r, (b', w')) := RequestBuf_try_receive (b, w) in
    match r with
    | Err err =>
        if is_errno err Errno_NODEV then (Ok false, (Session_exit s, b', w'))
        else (Err err, (s, b', w'))
    | Ok tt =>
        match InHeader_opcode b'.(rb_header) with
        | Ok FUSE_INIT => (Err (Os Errno_PROTO), (s, b', w'))
        | Ok FUSE_DESTROY => (Ok false, (Session_exit s, b', w'))
        | _ => (Ok true, (s, b', w'))
        end
    | Panic why => (Panic why, (s, b', w'))
    | UB => (UB, (s, b', w'))
    end.

(** [addr] is the address of the argument in the buffer. *)
Definition Session_decode (addr : Z) (s : Session) (b : RequestBuf)
    : outcome DecodeError (Request * Operation * RemainingData) :=
  '(header, arg, remains) ← to_parts b;
  op ← Operation_decode s.(s_config) header {| s_addr := addr; s_bytes := arg |};
  Ok ({| req_config := s.(s_config); req_header := header |}, op, remains).

Definition handle_reply_error (err : io_error) : M Session io_error unit := λ s,
  if is_errno err Errno_NODEV then (Ok tt, Session_exit s)
  else if is_errno err Errno_NOENT then (Ok tt, s)
  else (Err err, s).

(** [send_msg(..).or_else(|err| self.session.handle_reply_error(err))] *)
Definition or_handle_reply_error (m : M W io_error unit) : M (Session * W) io_error unit :=
  λ '(s, w),
  match m w with
  | (Err err, w') => let (r, s') := handle_reply_error err s in (r, (s', w'))
  | (r, w') => (r, (s, w'))
  end.

Definition Request_ReplySender : ReplySender Request (Session * W) := {|
  rs_config self := self.(req_config);
  reply_raw T B self error arg :=
    or_handle_reply_error (send_msg (Reply (InHeader_unique self.(req_header)) error) B arg);
|}.

(** ** [Notifier] *)

Definition notifier_send {T} (code : fuse_notify_code) (B : Bytes T) (arg : T)
    : M (Session * W) io_error unit :=
  or_handle_reply_error (send_msg (Notify code) B arg).

Definition inval_inode (ino : NodeID) (off len : i64) : M (Session * W) io_error unit :=
  notifier_send FUSE_NOTIFY_INVAL_INODE POD_Bytes (mkPOD {|
    notify_inval_inode_out_ino := ino.(NodeID_into_raw);
    notify_inval_inode_out_off := off;
    notify_inval_inode_out_len := len |}).

Definition inval_entry (parent : NodeID) (name : OsStr) : M (Session * W) io_error unit :=
  notifier_send FUSE_NOTIFY_INVAL_ENTRY
    (tuple3_Bytes POD_Bytes u8_slice_Bytes u8_slice_Bytes)
    (mkPOD {|
        notify_inval_entry_out_parent := parent.(NodeID_into_raw);
        notify_inval_entry_out_namelen := wrap_u 32 (Z.of_nat (length name));
        notify_inval_entry_out_flags := 0 |}, name, [Byte.x00]).

Definition notify_delete (parent child : NodeID) (name : OsStr) : M (Session * W) io_error unit :=
  notifier_send FUSE_NOTIFY_DELETE
    (tuple3_Bytes POD_Bytes u8_slice_Bytes u8_slice_Bytes)
    (mkPOD {|
        notify_delete_out_parent := parent.(NodeID_into_raw);
        notify_delete_out_child := child.(NodeID_into_raw);
        notify_delete_out_namelen := wrap_u 32 (Z.of_nat (length name));
        notify_delete_out_padding := 0 |}, name, [Byte.x00]).

Definition notify_store {T} (B : Bytes T) (ino : NodeID) (offset : u64) (content : T)
    : M (Session * W) io_error unit :=
  let size := Z.of_nat (bytes_size content) in
  notifier_send FUSE_NOTIFY_STORE (tuple2_Bytes POD_Bytes B)
    (mkPOD {|
        notify_store_out_nodeid := ino.(NodeID_into_raw);
        notify_store_out_offset := offset;
        notify_store_out_size := wrap_u 32 size;
        notify_store_out_padding := 0 |}, content).

Definition retrieve (ino : NodeID) (offset : u64) (size : u32) : M (Session * W) io_error NotifyID :=
  notify_unique ← (λ '(s, w), let (u, s') := next_notify_unique s in (Ok u, (s', w)));
  _ ← notifier_send FUSE_NOTIFY_RETRIEVE POD_Bytes (mkPOD {|
    notify_retrieve_out_notify_unique := notify_unique;
    notify_retrieve_out_nodeid := ino.(NodeID_into_raw);
    notify_retrieve_out_offset := offset;
    notify_retrieve_out_size := size;
    notify_retrieve_out_padding := 0 |});
  mret (NotifyID_from_raw notify_unique).

Definition poll_wakeup (kh : PollWakeupID) : M (Session * W) io_error unit :=
  notifier_send FUSE_NOTIFY_POLL POD_Bytes (mkPOD {|
    notify_poll_wakeup_out_kh := kh.(PollWakeupID_into_raw) |}).

End session.

(** ** Receiving and decoding *)

Section facts.
Context {W : Type} {OS : OsPipe W} {HOS : OsPipeSpec OS} {CN : SpliceRead W} {HCN : SpliceReadSpec CN}.
Context {IW : IoWrite W}.
Context `{BF : Bitflags} {HBF : BitflagsSpec} `{ZC : Zerocopy} {HZC : ZerocopySpec}.
Context `{RX : Rustix} {HRX : RustixSpec} `{L : Libc} {HL : LibcLinux L} `{PR : Profile}.

(** Where a call of [recv_request] may end. *)
Lemma recv_request_inv s b w r s' b' w' :
  buf_wf b → recv_request (s, b, w) = (r, (s', b', w')) →
  buf_wf b' ∧
  ((s.(s_exited) = true ∧ r = Ok false ∧ s' = s ∧ b' = b ∧ w' = w) ∨
   (s.(s_exited) = false ∧
    ((r = Ok true ∧ s' = s ∧ received b' ∧
        InHeader_opcode b'.(rb_header) ≠ Ok FUSE_INIT ∧
        InHeader_opcode b'.(rb_header) ≠ Ok FUSE_DESTROY) ∨
     (r = Ok false ∧ s' = Session_exit s) ∨
     (∃ e, r = Err e ∧ s' = s)))).
Proof.
  intros Hb. unfold recv_request. destruct (s_exited s).
  - intros [= <- <- <- <-]. split; [done|]. by left.
  - pose proof (try_receive_reception b w Hb) as Hr.
    destruct (RequestBuf_try_receive (b, w)) as [[[]|e|why|] [b1 w1]]; destruct Hr as [Hw Hr];
      cbn in Hw, Hr; try done.
    + destruct (InHeader_opcode (rb_header b1)) as [op|e|why|] eqn:Ho;
        [destruct op|..]; intros [= <- <- <- <-]; (split; [done|]); right; (split; [done|]);
        first [left; split_and!; [done|done|done|congruence|congruence] | eauto 10].
    + case_match; intros [= <- <- <- <-]; (split; [done|]); right; (split; [done|]); eauto 10.
Qed.

(** C3: once a request was received it can be decoded.  After [recv_request]
returned [true], [decode] on the same buffer does not reach the arms it calls
unreachable: it returns the request with a well-formed operation and the
remaining data, or an error other than [Unaligned] (given an aligned buffer,
normalised times in a SETATTR and an owner that is not negative in a POSIX lock
request). *)
Theorem recv_then_decode s b w s' b' w' addr :
  buf_wf b →
  recv_request (s, b, w) = (Ok true, (s', b', w')) →
  aligned_to addr 8 = true →
  (∀ arg rem, to_parts (E:=Empty_set) b' = Ok (b'.(rb_header), arg, rem) →
     ∀ op, InHeader_opcode b'.(rb_header) = Ok op → arg_ok op arg) →
  (∃ op rem, Session_decode addr s' b' =
     Ok ({| req_config := s'.(s_config); req_header := b'.(rb_header) |}, op, rem) ∧
     Operation_wf s'.(s_config) op) ∨
  (∃ e, Session_decode addr s' b' = Err e ∧ e ≠ Unaligned).
Proof.
  intros Hb Hr Ha Ht. apply recv_request_inv in Hr as (Hb' & [(_ & ? & _)|(_ & Hr)]); [done| |done].
  destruct Hr as [(_ & _ & (arg & rem & Hp & Hl) & Hi & Hd)|[[? _]|(e & ? & _)]]; [|done..].
  rewrite InHeader_opcode_Ok in Hi, Hd.
  destruct (decode_ends s'.(s_config) b'.(rb_header) (proj1 Hb') {| s_addr := addr; s_bytes := arg |})
    as [(o & Ho & Hwf & _)|(e & He & Hne)]; [done..| |left|right].
  - by apply (Ht arg rem Hp).
  - exists o, rem. split; [|done]. unfold Session_decode, to_parts in *.
    destruct (rb_kind b') as [pb|vb]; [|case_match; [done|]]; simplify_eq/=;
      unfold mbind, outcome_mbind, outcome_bind; by rewrite Ho.
  - exists e. split; [|done]. unfold Session_decode, to_parts in *.
    destruct (rb_kind b') as [pb|vb]; [|case_match; [done|]]; simplify_eq/=;
      unfold mbind, outcome_mbind, outcome_bind; by rewrite He.
Qed.

(** [recv_request] follows the state of the session.  On a session that has
ended it returns [false] and reads nothing.  Otherwise it returns [true] only
with a whole request that is neither INIT nor DESTROY and leaves the session as
it is; when it returns [false] the session has ended; an error leaves the
session as it is.  It never panics. *)
Theorem recv_request_spec s b w r s' b' w' :
  buf_wf b → recv_request (s, b, w) = (r, (s', b', w')) →
  buf_wf b' ∧
  match r with
  | Ok true => s.(s_exited) = false ∧ s' = s ∧ received b' ∧
      InHeader_opcode b'.(rb_header) ≠ Ok FUSE_INIT ∧
      InHeader_opcode b'.(rb_header) ≠ Ok FUSE_DESTROY
  | Ok false => s'.(s_exited) = true ∧ s'.(s_config) = s.(s_config) ∧
      (s.(s_exited) = true → b' = b ∧ w' = w)
  | Err _ => s.(s_exited) = false ∧ s' = s
  | _ => False
  end.
Proof.
  intros Hb Hr. apply recv_request_inv in Hr as (Hb' & Hr); [|done]. split; [done|].
  destruct Hr as [(He & -> & -> & -> & ->)|(He & [(-> & -> & Hr)|[[-> ->]|(e & -> & ->)]])]; [done|done| |done].
  cbn. split; [done|]. split; [done|]. by rewrite He.
Qed.

(** ** Replying *)

Definition request_ok (self : Request) : Prop := pod_wf self.(req_header).(raw).

(** The header of a reply whose argument has the given chunks. *)
Definition reply_header (self : Request) (error : option Errno) (cs : list (list byte))
    : fuse_out_header := {|
  out_header_len := 16 + Z.of_nat (length (concat cs));
  out_header_error := match error with Some e => - e | None => 0 end;
  out_header_unique := self.(req_header).(raw).(in_header_unique);
|}.

(** The effect of a reply: one write of the header and the chunks. *)
Definition write_reply (self : Request) (error : option Errno) (cs : list (list byte))
    : M W io_error unit := λ w,
  let len := 16 + Z.of_nat (length (concat cs)) in
  if len <? 2 ^ 32 then
    match write_vectored (pod_encode (reply_header self error cs) :: cs) w with
    | (Ok n, w') =>
        (if Z.of_nat n <? len then Err (Custom Other "written data is too short") else Ok tt, w')
    | (Err e, w') => (Err e, w')
    | (Panic why, w') => (Panic why, w')
    | (UB, w') => (UB, w')
    end
  else (Err (Os Errno_INVAL), w).

Definition request_emit (self : Request) (error : option Errno) (cs : list (list byte))
    : M (Session * W) io_error unit := or_handle_reply_error (write_reply self error cs).

Lemma send_reply {T} (B : Bytes T) self error (x : T) w :
  request_ok self → errno_ok error → bytes_ok B x →
  send_msg (Reply (InHeader_unique self.(req_header)) error) B x w =
    write_reply self error (chunks B x) w.
Proof.
  intros Hs He Hx. unfold write_reply.
  assert (message_wf (Reply (InHeader_unique self.(req_header)) error)) as Hk.
  { unfold request_ok in Hs. simpl_pod_wf Hs. split; [cbn; tauto|done]. }
  destruct (Z.ltb_spec (16 + Z.of_nat (length (concat (chunks B x)))) (2 ^ 32)) as [Hf|Hf].
  - by rewrite send_msg_write by done.
  - apply send_msg_too_long; [done|]. unfold fits, content. lia.
Qed.

Lemma request_emit_law : ReplySenderLaw Request_ReplySender request_ok request_emit.
Proof.
  intros T B self error x [s w] Hs He Hx. cbn. unfold request_emit, or_handle_reply_error.
  by rewrite send_reply.
Qed.

(** A request answers through the interface the reply methods rely on: a
reply is a function of the error number and of the chunks of its argument,
namely one write of an out header with the request's identifier, followed by
the chunks. *)
Lemma request_sender_law : ReplySenderLaw Request_ReplySender request_ok request_emit.
Proof. exact request_emit_law. Qed.

(** C21: what a reply does with the answer of the kernel.  A reply whose message
was accepted whole succeeds and leaves the session as it is; when the connection
is gone ([ENODEV]) the reply succeeds and ends the session; when the request was
interrupted ([ENOENT]) the reply succeeds; any other error of the write is
returned, and an over-long message is refused without a write. *)
Theorem request_reply_outcome {T} (B : Bytes T) self error (x : T) s w :
  request_ok self → errno_ok error → bytes_ok B x →
  let '(r, (s', w')) := @reply_raw _ _ Request_ReplySender T B self error x (s, w) in
  let cs := chunks B x in
  if decide (fits B x) then
    let '(written, w1) := write_vectored (pod_encode (reply_header self error cs) :: cs) w in
    w' = w1 ∧
    match written with
    | Ok n => s' = s ∧ (r = Ok tt ↔ 16 + Z.of_nat (length (content B x)) ≤ Z.of_nat n)
    | Err (Os code) =>
        if code =? 19 then r = Ok tt ∧ s' = Session_exit s
        else if code =? 2 then r = Ok tt ∧ s' = s
        else r = Err (Os code) ∧ s' = s
    | Err e => r = Err e ∧ s' = s
    | _ => s' = s
    end
  else r = Err (Os 22) ∧ s' = s ∧ w' = w.
Proof.
  intros Hs He Hx. rewrite (request_emit_law T B self error x (s, w)) by done.
  unfold request_emit, or_handle_reply_error, write_reply.
  pose proof Errno_values as Hv. injection Hv as _ Hnoent _ _ Hnodev Hinval _.
  unfold handle_reply_error, is_errno. rewrite Hnodev, Hnoent, Hinval.
  unfold fits. fold (content B x).
  destruct (decide (16 + Z.of_nat (length (content B x)) < 2 ^ 32)) as [Hf|Hf].
  - rewrite (proj2 (Z.ltb_lt _ _) Hf).
    destruct (write_vectored _ w) as [[n|[code|kind msg]|why|] w1]; [| |by rewrite Errno_from_io_error_custom|done..].
    + destruct (Z.ltb_spec (Z.of_nat n) (16 + Z.of_nat (length (content B x)))).
      * rewrite Errno_from_io_error_custom. cbn. split_and!; [done..|]. split; [done|lia].
      * split_and!; [done..|]. split; [intros _; lia|done].
    + rewrite Errno_from_io_error_os.
      destruct (Z.eqb_spec code 19) as [->|H19]; [done|].
      rewrite bool_decide_eq_false_2 by congruence.
      destruct (Z.eqb_spec code 2) as [->|H2]; [done|].
      by rewrite bool_decide_eq_false_2 by congruence.
  - rewrite (proj2 (Z.ltb_ge _ _)) by lia. rewrite Errno_from_io_error_os. done.
Qed.

(** ** Notifications *)

(** One write that must accept everything. *)
Definition write_all (cs : list (list byte)) : M W io_error unit := λ w,
  match write_vectored cs w with
  | (Ok n, w') =>
      (if Z.of_nat n <? Z.of_nat (length (concat cs))
       then Err (Custom Other "written data is too short") else Ok tt, w')
  | (Err e, w') => (Err e, w')
  | (Panic why, w') => (Panic why, w')
  | (UB, w') => (UB, w')
  end.

(** The notification [code] with the payload [body] is sent by [m], with one
write. *)
Definition sends (code : fuse_notify_code) (body : list byte) (m : M (Session * W) io_error unit) : Prop :=
  ∃ h cs, concat cs = pod_encode h ++ body ∧
    h = {| out_header_len := 16 + Z.of_nat (length body); out_header_error := discr code;
           out_header_unique := 0 |} ∧
    pod_wf h ∧ ∀ sw, m sw = or_handle_reply_error (write_all cs) sw.

Lemma notifier_sends {T} code (B : Bytes T) arg :
  bytes_ok B arg → fits B arg → sends code (content B arg) (notifier_send code B arg).
Proof.
  intros Hb Hf. pose proof (message_header_wf (Notify code) B arg I Hf) as Hw.
  exists (message_header (Notify code) B arg), (pod_encode (message_header (Notify code) B arg) :: chunks B arg).
  split_and!; [done| |done|].
  - unfold message_header. cbn. rewrite zc_transmute_i32_spec. by destruct code.
  - intros [s w]. unfold notifier_send, or_handle_reply_error. rewrite send_msg_write by done.
    unfold write_all. cbn [concat]. rewrite length_app, length_pod_encode by done.
    change (size_of fuse_out_header) with 16%nat. fold (content B arg).
    assert (Z.of_nat (16 + length (content B arg)) = 16 + Z.of_nat (length (content B arg))) as -> by lia.
    done.
Qed.

(** The kernel's reading of a payload that ends in a name: the fixed structure,
the name, whose length it states, and a NUL; nothing else. *)
Definition read_named {T} `{Pod T} (namelen : T → u32) (body : list byte) : option (T * OsStr) :=
  let x := pod_decode (T:=T) body in
  let name := take (Z.to_nat (namelen x)) (drop (size_of T) body) in
  if bool_decide (body = take (size_of T) body ++ name ++ [Byte.x00] ∧
                  Z.of_nat (length name) = namelen x)
  then Some (x, name) else None.

Lemma read_named_ok {T} `{Pod T} (namelen : T → u32) (x : T) name :
  pod_wf x → namelen x = Z.of_nat (length name) →
  read_named namelen (pod_encode x ++ name ++ [Byte.x00]) = Some (x, name).
Proof.
  intros Hx Hn. unfold read_named. rewrite pod_decode_encode by done.
  rewrite <- (length_pod_encode x) by done.
  rewrite take_app_length, drop_app_length, Hn, Nat2Z.id, take_app_length.
  by rewrite bool_decide_eq_true_2.
Qed.

Lemma named_content {T} `{Pod T} (x : T) (name : OsStr) :
  let B := tuple3_Bytes POD_Bytes u8_slice_Bytes u8_slice_Bytes in
  bytes_ok B (mkPOD x, name, [Byte.x00]) ∧
  content B (mkPOD x, name, [Byte.x00]) = pod_encode x ++ name ++ [Byte.x00].
Proof.
  intros B. destruct (tuple3_chunks POD_Bytes u8_slice_Bytes u8_slice_Bytes (mkPOD x) name [Byte.x00])
    as [Hb Hc]; [apply POD_chunks|apply u8_slice_chunks..|].
  split; [done|]. etransitivity; [exact (f_equal (@concat byte) Hc)|].
  rewrite (proj2 (POD_chunks _)), zc_as_bytes_spec, !concat_app. fold (content u8_slice_Bytes name) (content u8_slice_Bytes [Byte.x00]).
  rewrite !(proj2 (u8_slice_chunks _)). cbn [concat pod_inner]. by rewrite app_nil_r.
Qed.

(** The payload of an invalidation of an entry. *)
Definition inval_entry_body (parent : NodeID) (name : OsStr) : list byte :=
  pod_encode {|
    notify_inval_entry_out_parent := parent.(NodeID_into_raw);
    notify_inval_entry_out_namelen := wrap_u 32 (Z.of_nat (length name));
    notify_inval_entry_out_flags := 0 |} ++ name ++ [Byte.x00].

Lemma inval_entry_sends parent name :
  is_u 64 parent.(NodeID_into_raw) → 33 + Z.of_nat (length name) < 2 ^ 32 →
  sends FUSE_NOTIFY_INVAL_ENTRY (inval_entry_body parent name) (inval_entry parent name) ∧
  ∃ out, read_named notify_inval_entry_out_namelen (inval_entry_body parent name) = Some (out, name) ∧
    out.(notify_inval_entry_out_parent) = parent.(NodeID_into_raw).
Proof.
  intros Hp Hl. unfold inval_entry, inval_entry_body. set (out := {| notify_inval_entry_out_parent := _ |}).
  assert (pod_wf out) as Hout by (unfold out; out_wf).
  destruct (named_content out name) as [Hb Hcon]. split.
  - rewrite <- Hcon. apply notifier_sends; [done|]. unfold fits.
    rewrite Hcon, !length_app, length_pod_encode by done.
    change (size_of fuse_notify_inval_entry_out) with 16%nat. cbn. lia.
  - exists out. split; [|done]. apply read_named_ok; [done|]. apply wrap_u_id. unfold is_u. lia.
Qed.

(** The notifications that carry a name are read back.  Unless the message is
too long to be sent (and then nothing is written), [inval_entry] and [delete]
send one message whose header has the notification's code and a zero identifier,
and from whose payload the kernel reads the node ids and the whole name: the
length field is never truncated. *)
Theorem notify_name_roundtrip parent child name :
  node_ok parent → node_ok child →
  let len := Z.of_nat (length name) in
  (33 + len < 2 ^ 32 →
     ∃ body, sends FUSE_NOTIFY_INVAL_ENTRY body (inval_entry parent name) ∧
       ∃ out, read_named notify_inval_entry_out_namelen body = Some (out, name) ∧
         out.(notify_inval_entry_out_parent) = parent.(NodeID_into_raw)) ∧
  (41 + len < 2 ^ 32 →
     ∃ body, sends FUSE_NOTIFY_DELETE body (notify_delete parent child name) ∧
       ∃ out, read_named notify_delete_out_namelen body = Some (out, name) ∧
         out.(notify_delete_out_parent) = parent.(NodeID_into_raw) ∧
         out.(notify_delete_out_child) = child.(NodeID_into_raw)) ∧
  (2 ^ 32 ≤ 33 + len → ∀ s w, inval_entry parent name (s, w) = (Err (Os Errno_INVAL), (s, w))).
Proof.
  intros [Hp _] [Hc _] len. split_and!.
  - intros Hl. eexists. by apply inval_entry_sends.
  - intros Hl. unfold notify_delete. set (out := {| notify_delete_out_parent := _ |}).
    assert (pod_wf out) as Hout by (unfold out; out_wf).
    destruct (named_content out name) as [Hb Hcon].
    exists (pod_encode out ++ name ++ [Byte.x00]). split.
    + rewrite <- Hcon. apply notifier_sends; [done|]. unfold fits.
      rewrite Hcon, !length_app, length_pod_encode by done.
      change (size_of fuse_notify_delete_out) with 24%nat. cbn. lia.
    + exists out. split; [|done]. apply read_named_ok; [done|].
      apply wrap_u_id. unfold is_u. lia.
  - intros Hl s w. unfold inval_entry. set (out := {| notify_inval_entry_out_parent := _ |}).
    assert (pod_wf out) as Hout by (unfold out; out_wf).
    destruct (named_content out name) as [Hb Hcon].
    unfold notifier_send, or_handle_reply_error. rewrite send_msg_too_long; [| done |].
    + unfold handle_reply_error, is_errno. rewrite Errno_from_io_error_os.
      pose proof Errno_values as Hv. injection Hv as _ Hnoent _ _ Hnodev Hinval _.
      rewrite Hnodev, Hnoent, Hinval. done.
    + unfold fits. rewrite Hcon, !length_app, length_pod_encode by done.
      change (size_of fuse_notify_inval_entry_out) with 16%nat. cbn. lia.
Qed.

(** [store] tells the kernel how much data follows.  The payload of the
notification is the fixed structure, with the node id, the offset and the exact
size of the content, followed by the content. *)
Lemma notify_store_wire {T} (B : Bytes T) ino offset (x : T) :
  node_ok ino → is_u 64 offset → bytes_ok B x →
  40 + Z.of_nat (length (content B x)) < 2 ^ 32 →
  ∃ body, sends FUSE_NOTIFY_STORE body (notify_store B ino offset x) ∧
    let out := pod_decode (T:=fuse_notify_store_out) body in
    out.(notify_store_out_nodeid) = ino.(NodeID_into_raw) ∧
    out.(notify_store_out_offset) = offset ∧
    out.(notify_store_out_size) = Z.of_nat (length (content B x)) ∧
    drop 24 body = content B x.
Proof.
  intros [Hi _] Ho Hx Hl. unfold notify_store. set (out := {| notify_store_out_nodeid := _ |}).
  assert (pod_wf out) as Hout by (unfold out; out_wf).
  destruct (tuple2_chunks POD_Bytes B (mkPOD out) x) as [Hb Hc]; [apply POD_chunks|done|].
  assert (content (tuple2_Bytes POD_Bytes B) (mkPOD out, x) = pod_encode out ++ content B x) as Hcon.
  { unfold content. by rewrite Hc, (proj2 (POD_chunks _)), zc_as_bytes_spec. }
  exists (pod_encode out ++ content B x). split.
  - rewrite <- Hcon. apply notifier_sends; [done|]. unfold fits.
    rewrite Hcon, length_app, length_pod_encode by done.
    change (size_of fuse_notify_store_out) with 24%nat. lia.
  - rewrite pod_decode_encode by done. cbn. split_and!; [done..| |].
    + rewrite (bytes_ok_size _ _ Hx). apply wrap_u_id. unfold is_u. fold (content B x). lia.
    + apply drop_app_length'. by rewrite length_pod_encode.
Qed.

(** ** The atomics of a session

Requests and notifiers share a session between threads; they only touch it by
loading [exited], storing [true] to it, and taking a number from the counter.
An execution of any number of threads is a sequence of such accesses. *)

Inductive session_event := EvLoad (exited : bool) | EvExit | EvFetch (id : u64).

Inductive session_runs : list session_event → Session → Session → Prop :=
  | runs_nil s : session_runs [] s s
  | runs_load s evs s' :
      session_runs evs s s' → session_runs (EvLoad s.(s_exited) :: evs) s s'
  | runs_exit s evs s' :
      session_runs evs (Session_exit s) s' → session_runs (EvExit :: evs) s s'
  | runs_fetch s evs s' :
      session_runs evs (next_notify_unique s).2 s' →
      session_runs (EvFetch (next_notify_unique s).1 :: evs) s s'.

Definition fetched (evs : list session_event) : list u64 :=
  omap (λ ev, match ev with EvFetch id => Some id | _ => None end) evs.

Lemma session_runs_fetched evs s s' i :
  session_runs evs s s' → s.(s_notify_unique) = wrap_u 64 i →
  fetched evs = (λ k, wrap_u 64 k) <$> seqZ i (Z.of_nat (length (fetched evs))).
Proof.
  intros Hr. revert i. induction Hr as [s|s evs s' Hr IH|s evs s' Hr IH|s evs s' Hr IH]; intros i Hi;
    [done|by apply IH|by apply IH|].
  cbn [fetched omap list_omap length next_notify_unique fst]. fold (fetched evs).
  rewrite Nat2Z.inj_succ, seqZ_cons by lia. rewrite Z.pred_succ. cbn [fmap list_fmap]. rewrite Hi.
  f_equal. apply IH. cbn. rewrite Hi. unfold wrap_u. by rewrite Zplus_mod_idemp_l.
Qed.

(** The identifiers of retrieve notifications are unique.  In any
interleaving of the threads that share a session, the numbers taken from its
counter are pairwise distinct, until [2^64] of them have been taken. *)
Theorem notify_ids_distinct config evs s' :
  session_runs evs (Session_new config) s' →
  Z.of_nat (length (fetched evs)) ≤ 2 ^ 64 →
  NoDup (fetched evs).
Proof.
  intros Hr Hn. rewrite (session_runs_fetched _ _ _ 0 Hr) by done.
  apply NoDup_fmap_2_strong; [|apply NoDup_seqZ].
  intros x y Hx Hy Heq. apply elem_of_seqZ in Hx, Hy.
  unfold wrap_u in Heq. rewrite !Z.mod_small in Heq by lia. done.
Qed.

Lemma session_runs_exited evs s s' :
  session_runs evs s s' → s.(s_exited) = true →
  s'.(s_exited) = true ∧ (∀ b, EvLoad b ∈ evs → b = true).
Proof.
  induction 1 as [s|s evs s' Hr IH|s evs s' Hr IH|s evs s' Hr IH]; intros He.
  - split; [done|]. intros b Hb. by apply not_elem_of_nil in Hb.
  - destruct (IH He) as [Hs Hl]. split; [done|]. intros b [Hb|Hb]%elem_of_cons; [congruence|auto].
  - destruct (IH eq_refl) as [Hs Hl]. split; [done|]. intros b [Hb|Hb]%elem_of_cons; [done|auto].
  - destruct (IH He) as [Hs Hl]. split; [done|]. intros b [Hb|Hb]%elem_of_cons; [done|auto].
Qed.

Lemma session_runs_app evs1 evs2 s s' :
  session_runs (evs1 ++ evs2) s s' ↔ ∃ s1, session_runs evs1 s s1 ∧ session_runs evs2 s1 s'.
Proof.
  split.
  - revert s. induction evs1 as [|ev evs1 IH]; intros s Hr; cbn in Hr; [by exists s; split; [constructor|]|].
    inversion Hr; subst; edestruct IH as (s1 & H1 & H2); try eassumption;
      exists s1; (split; [by constructor|done]).
  - intros (s1 & H1 & H2). induction H1; cbn; [done|constructor; auto..].
Qed.

(** A session that has ended stays ended.  In any interleaving, once some
thread has ended the session every later check of [exited] finds it ended. *)
Lemma session_exit_is_final evs evs' s s' :
  session_runs (evs ++ EvExit :: evs') s s' →
  s'.(s_exited) = true ∧ (∀ b, EvLoad b ∈ evs' → b = true).
Proof.
  intros (s1 & _ & H2)%session_runs_app. inversion H2; subst. by eapply session_runs_exited.
Qed.

Lemma or_handle_runs (m : M W io_error unit) s w r s' w' :
  or_handle_reply_error m (s, w) = (r, (s', w')) →
  ∃ evs, session_runs evs s s' ∧ fetched evs = [].
Proof.
  unfold or_handle_reply_error, handle_reply_error.
  intros H. repeat case_match; simplify_eq;
    solve [exists []; split; [constructor|done] | exists [EvExit]; split; [repeat constructor|done]].
Qed.

(** The operations touch a session only through its atomics.  Receiving and
replying take no number from the counter; [retrieve] takes exactly one, and that
is the identifier it returns. *)
Lemma session_operations_run s b w :
  buf_wf b →
  (∀ r s' b' w', recv_request (s, b, w) = (r, (s', b', w')) →
     ∃ evs, session_runs (EvLoad s.(s_exited) :: evs) s s' ∧ fetched evs = []) ∧
  (∀ T (B : Bytes T) self error x r s' w',
     @reply_raw _ _ Request_ReplySender T B self error x (s, w) = (r, (s', w')) →
     ∃ evs, session_runs evs s s' ∧ fetched evs = []) ∧
  (∀ ino offset size r s' w', retrieve ino offset size (s, w) = (r, (s', w')) →
     ∃ evs, session_runs (EvFetch s.(s_notify_unique) :: evs) s s' ∧ fetched evs = [] ∧
       ∀ id, r = Ok id → id.(NotifyID_into_raw) = s.(s_notify_unique)).
Proof.
  intros Hb. split_and!.
  - intros r s' b' w' Hr. apply recv_request_inv in Hr as (_ & Hr); [|done].
    destruct Hr as [(_ & _ & -> & _)|(_ & [(_ & -> & _)|[[_ ->]|(e & _ & ->)]])];
      solve [exists []; split; [repeat constructor|done]
            |exists [EvExit]; split; [repeat constructor|done]].
  - intros T B self error x r s' w' Hr. by apply or_handle_runs in Hr.
  - intros ino offset size r s' w' Hr. unfold retrieve, mbind, M_bind in Hr.
    cbn [next_notify_unique] in Hr.
    destruct (notifier_send _ _ _ _) as [o [s1 w1]] eqn:Hs.
    apply or_handle_runs in Hs as (evs & Hev & Hf). exists evs.
    destruct o; unfold mret, M_ret in Hr; simplify_eq/=;
      (split; [by apply (runs_fetch s)|]); (split; [done|]); intros id Hid; by simplify_eq.
Qed.

(** ** Buffers of a session *)

(** A new buffer: with SPLICE_READ an empty pipe, from which [request_buffer_size] bytes
will be asked for and which can hold what the system gives a new pipe; without it as much
memory as [request_buffer_size]. *)
Definition fresh_buffer (s : Session) (b : RequestBuf) : Prop :=
  buf_wf b ∧
  if has_flag s.(s_config).(flags) FUSE_SPLICE_READ
  then room b = pipe_max ∧ ∃ arg, b.(rb_kind) = BufPipe
    {| pb_arg := arg; pb_pipe := pipe_of []; pb_bufsize := request_buffer_size s |}
  else room b = request_buffer_size s ∧ ∃ arg, b.(rb_kind) = BufVec {| vb_arg := arg; vb_pos := 0 |}.

(** What a new buffer is, when it can be made. *)
Lemma new_request_buffer_made s w r w' :
  config_wf s.(s_config) → MIN_MAX_WRITE ≤ s.(s_config).(max_write) →
  new_request_buffer s w = (r, w') →
  match r with Ok b => fresh_buffer s b | Err _ => True | _ => False end.
Proof.
  intros Hc Hm Hr. destruct Hc. unfold new_request_buffer, fresh_buffer, room, request_buffer_size in *.
  change (Z.of_nat (size_of fuse_in_header)) with 40 in *.
  change (Z.of_nat (size_of fuse_write_in)) with 40 in *.
  change MIN_MAX_WRITE with 8112 in *. unfold is_u in *.
  assert (pod_wf (raw header_zeroed)) as Hz.
  { cbn. rewrite zc_new_zeroed_spec. apply pod_decode_wf. by rewrite length_replicate. }
  pose proof pipe_max_bound. unfold has_flag. rewrite bf_contains_spec in Hr. destruct (_ =? _).
  - unfold RequestBuf_new_pipe, Pipe_new, mbind, M_bind, io_err, mret, M_ret in Hr.
    destruct (os_pipe_ends w) as [w1 [Hw|[e Hw]]]; rewrite Hw in Hr; cbn in Hr; simplify_eq; [|done].
    cbn. split; [split; [done|split; cbn; [done|lia]]|]. split; [done|]. by eexists.
  - unfold RequestBuf_new_vec, lift, mbind, outcome_mbind, outcome_bind in Hr.
    change (Z.of_nat (size_of fuse_in_header)) with 40 in *.
    rewrite arith_u_ok in Hr by (unfold is_u; lia). cbv zeta in Hr. simplify_eq.
    cbn [rb_kind vb_arg]. rewrite length_replicate. split; [|split; [lia|by eexists]]. split; [done|].
    cbn [rb_kind vb_arg vb_pos]. rewrite length_replicate. lia.
Qed.

(** C37: what the buffers of a session can take.  With a negotiated configuration a new
buffer is in a good state, and the length the session asks for holds the headers and a
write of the negotiated size and is at least the size the kernel insists on.  Without
SPLICE_READ the buffer has as much memory as that, and takes in any message up to that
length which the connection delivers.  With SPLICE_READ the length is only what is asked
for: the buffer is an empty pipe of the capacity the system gives, and no message longer
than that capacity is ever received into it, whatever was negotiated. *)
Theorem new_request_buffer_spec s w r w' :
  config_wf s.(s_config) → MIN_MAX_WRITE ≤ s.(s_config).(max_write) →
  new_request_buffer s w = (r, w') →
  FUSE_MIN_READ_BUFFER ≤ request_buffer_size s ∧
  request_buffer_size s = 40 + 40 + s.(s_config).(max_write) ∧
  match r with
  | Ok b => fresh_buffer s b ∧
      if has_flag s.(s_config).(flags) FUSE_SPLICE_READ
      then ∀ w1 b1 w2, RequestBuf_try_receive (b, w1) = (Ok tt, (b1, w2)) →
        b1.(rb_header).(raw).(in_header_len) ≤ pipe_max
      else ∀ w1 w2 x body, pod_wf x →
        conn_read_vectored [40; request_buffer_size s - 40] w1 = (Ok (pod_encode x ++ body), w2) →
        x.(in_header_len) = Z.of_nat (length (pod_encode x ++ body)) →
        x.(in_header_len) ≤ request_buffer_size s →
        arg_len {| raw := x |} ≤ Z.of_nat (length body) →
        ∃ b1 rem, RequestBuf_try_receive (b, w1) = (Ok tt, (b1, w2)) ∧
          to_parts (E:=Empty_set) b1 =
            Ok ({| raw := x |}, take (Z.to_nat (arg_len {| raw := x |})) body, rem)
  | Err _ => True
  | _ => False
  end.
Proof.
  intros Hc Hm Hr. pose proof (new_request_buffer_made _ _ _ _ Hc Hm Hr) as Hb.
  split; [|split; [done|]].
  - unfold request_buffer_size, FUSE_MIN_READ_BUFFER. change MIN_MAX_WRITE with 8112 in Hm.
    change (Z.of_nat (size_of fuse_in_header)) with 40. change (Z.of_nat (size_of fuse_write_in)) with 40. lia.
  - destruct r as [b|e|why|]; try done. split; [done|]. destruct Hb as [Hw Hk].
    destruct (has_flag _ _); destruct Hk as (Hroom & arg & Hk).
    + intros w1 b1 w2 Ht. apply try_receive_room in Ht; [|done]. rewrite Hroom in Ht. apply Ht.
    + intros w1 w2 x body Hx Hread Hlen Hfit Ha. destruct b as [h k]. cbn in Hk. subst k.
      unfold room in Hroom. cbn in Hroom.
      replace (request_buffer_size s - 40) with (Z.of_nat (length arg)) in Hread by lia.
      destruct (vec_receive_delivered h {| vb_arg := arg; vb_pos := 0 |} w1 w2 x body)
        as (vb1 & rem & Ht & _ & _ & Hp); [done|done|done|cbn; lia|done|done|].
      eexists _, rem. split; [exact Ht|apply Hp].
Qed.

(** Under protocol 7.8 and older the head of the written data is lost.  The
argument of a WRITE is taken to be as long as the current structure (40 bytes),
but the structure decoded for these versions has 24: the first 16 bytes of the
data are in the argument, which nobody reads, and the remaining data starts
after them. *)
Theorem write_compat_8_drops_data config b w w2 x arg data :
  config.(minor) ≤ 8 →
  buf_wf b → pod_wf x → pod_wf arg →
  x.(in_header_opcode) = discr FUSE_WRITE → x.(in_header_nodeid) ≠ 0 →
  let body := pod_encode (T:=fuse_write_in_compat_8) arg ++ data in
  let msg := pod_encode x ++ body in
  delivers b w msg w2 → x.(in_header_len) = Z.of_nat (length msg) → (16 ≤ length data)%nat →
  ∃ b' w',
    RequestBuf_try_receive (b, w) = (Ok tt, (b', w')) ∧
    to_parts (E:=Empty_set) b' = Ok ({| raw := x |}, pod_encode arg ++ take 16 data,
      match b.(rb_kind) with
      | BufPipe _ => RemainingPipe (pipe_of (drop 16 data))
      | BufVec vb => RemainingVec (drop 16 data ++ drop (24 + length data) vb.(vb_arg))
      end) ∧
    ∀ addr, aligned_to addr 8 = true →
      ∃ op, Operation_decode config {| raw := x |}
              {| s_addr := addr; s_bytes := pod_encode arg ++ take 16 data |} = Ok (Operation_Write op) ∧
        op.(Write_size) = arg.(write_in_compat_8_size).
Proof.
  intros Hm Hb Hx Harg Hop Hn body msg Hd Hlen Hdata.
  assert (arg_len {| raw := x |} = 40) as Hal.
  { unfold arg_len. by rewrite (proj2 (InHeader_opcode_Ok {| raw := x |} FUSE_WRITE) Hop). }
  pose proof (length_pod_encode _ Harg) as Hla.
  change (size_of fuse_write_in_compat_8) with 24%nat in Hla.
  destruct (try_receive_delivered b w w2 x body) as (b' & w' & Hr & _ & Hp);
    [done..|rewrite Hal; unfold body; rewrite length_app; lia|].
  rewrite Hal in Hp. unfold remaining_after, body in Hp. change (Z.to_nat 40) with 40%nat in *.
  rewrite take_app, drop_app, length_app, Hla in Hp. rewrite (take_ge (pod_encode arg)) in Hp by lia.
  rewrite (drop_ge (pod_encode arg)) in Hp by lia.
  exists b', w'. split_and!; [done|done|]. intros addr Ha.
  rewrite (Operation_decode_known config {| raw := x |} FUSE_WRITE _ Hop). cbn [decode_opcode].
  rewrite (proj2 (Z.leb_le _ _) Hm). unfold decode_write_compat_8.
  erewrite bind_ok by (by apply fetch_encode; [|apply aligned_to_divide; [|vm_compute; lia|]]).
  erewrite bind_ok by (apply (nodeid_run _ {| NodeID_into_raw := x.(in_header_nodeid) |});
    [split; [simpl_pod_wf Hx; cbn; tauto|done]|done]).
  by eexists.
Qed.

End facts.

(** ** Instances: the reference world *)

Section instances.
#[local] Instance inst_bf : Bitflags := ref_bitflags.
#[local] Instance inst_bf_spec : BitflagsSpec := ref_bitflags_spec.
#[local] Instance inst_zc : Zerocopy := ref_zerocopy.
#[local] Instance inst_zc_spec : ZerocopySpec := ref_zerocopy_spec.
#[local] Instance inst_rx : Rustix := ref_rustix.
#[local] Instance inst_rx_spec : RustixSpec := ref_rustix_spec.
#[local] Instance inst_libc : Libc := linux_libc.
#[local] Instance inst_libc_linux : LibcLinux linux_libc := ref_libc_linux.
#[local] Instance inst_profile : Profile := true.

Definition session_example : Session := Session_new config_example.
Definition request_example : Request :=
  {| req_config := config_example; req_header := {| raw := header_example 1 43 |} |}.
Definition idle_world : World := {| incoming := []; outgoing := [] |}.

Definition lookup_op_ab : Operation :=
  Operation_Lookup {| Lookup_parent := NodeID_ROOT; Lookup_name := [Byte.x61; Byte.x62] |}.

Lemma request_example_ok : request_ok request_example.
Proof. repeat split; vm_compute; congruence. Qed.

Lemma recv_then_decode_witness :
  let '(r, (s', b', _)) := recv_request (session_example, pipe_example, world_example) in
  r = Ok true ∧ ∃ req rem, Session_decode 4096 s' b' = Ok (req, lookup_op_ab, rem).
Proof.
  destruct (recv_request (session_example, pipe_example, world_example)) as [r [[s' b'] w']] eqn:Hr.
  assert (r = Ok true) as -> by (vm_compute in Hr; congruence). split; [reflexivity|].
  destruct (recv_then_decode session_example pipe_example world_example s' b' w' 4096
    pipe_example_wf Hr eq_refl) as [(op & rem & Hd & _)|(e & He & _)].
  - intros arg rem _ op Ho. vm_compute in Hr. injection Hr as <- <- <-.
    vm_compute in Ho. injection Ho as <-. exact I.
  - eexists _, rem. rewrite Hd. do 2 f_equal. vm_compute in Hr. injection Hr as <- <- <-.
    vm_compute in Hd. injection Hd as <- _. reflexivity.
  - exfalso. vm_compute in Hr. injection Hr as <- <- <-. vm_compute in He. discriminate.
Defined.

Lemma recv_request_spec_witness :
  let '(r, (s', b', w')) := recv_request (session_example, vec_example, world_example) in
  r = Ok true ∧ s' = session_example ∧ received b'.
Proof.
  destruct (recv_request (session_example, vec_example, world_example)) as [r [[s' b'] w']] eqn:Hr.
  destruct (recv_request_spec _ _ _ _ _ _ _ vec_example_wf Hr) as [_ Hs].
  assert (r = Ok true) as -> by (vm_compute in Hr; congruence).
  destruct Hs as (_ & -> & Hb & _). split; [reflexivity|]. split; [reflexivity|exact Hb].
Defined.

(** An error reply of [ENOENT], as the kernel sees it. *)
Definition error_reply_example : list byte :=
  pod_encode {| out_header_len := 16; out_header_error := -2; out_header_unique := 2 |}.

Lemma request_sender_law_witness :
  @reply_error _ (Session * World) Request_ReplySender request_example 2 (session_example, idle_world) =
    (Ok tt, (session_example, {| incoming := []; outgoing := [error_reply_example] |})).
Proof.
  etransitivity.
  - exact (request_sender_law unit unit_Bytes request_example (Some 2) tt
      (session_example, idle_world) request_example_ok ltac:(vm_compute; intuition congruence)
      (proj1 (unit_chunks tt))).
  - vm_compute. reflexivity.
Defined.

Lemma request_reply_outcome_witness :
  let '(r, (s', w')) := @reply_raw _ _ Request_ReplySender _ u8_slice_Bytes request_example None
    name_example (session_example, idle_world) in
  r = Ok tt ∧ s' = session_example ∧ length (concat w'.(outgoing)) = 19%nat.
Proof.
  pose proof (request_reply_outcome u8_slice_Bytes request_example None name_example session_example
    idle_world request_example_ok I (proj1 (u8_slice_chunks _))) as H.
  destruct (@reply_raw _ _ Request_ReplySender _ u8_slice_Bytes request_example None name_example
    (session_example, idle_world)) as [r [s' w']].
  destruct (decide _) as [Hf|Hf]; [|exfalso; apply Hf; vm_compute; reflexivity].
  destruct H as (-> & -> & Hr). split; [apply Hr; vm_compute; congruence|].
  split; [reflexivity|]. vm_compute. reflexivity.
Defined.

Lemma notify_name_roundtrip_witness :
  ∃ body, sends FUSE_NOTIFY_DELETE body
      (notify_delete NodeID_ROOT (NodeID_from_raw_unchecked 5) [Byte.x61; Byte.x62]) ∧
    ∃ out, read_named notify_delete_out_namelen body = Some (out, [Byte.x61; Byte.x62]).
Proof.
  destruct (notify_name_roundtrip NodeID_ROOT (NodeID_from_raw_unchecked 5) [Byte.x61; Byte.x62]
    ltac:(by repeat split) ltac:(by repeat split)) as (_ & Hd & _).
  destruct (Hd ltac:(by vm_compute)) as (body & Hs & out & Hr & _).
  exists body. split; [exact Hs|]. exists out. exact Hr.
Defined.

Lemma notify_store_wire_witness :
  ∃ body, sends FUSE_NOTIFY_STORE body (notify_store u8_slice_Bytes NodeID_ROOT 4096 name_example) ∧
    (pod_decode (T:=fuse_notify_store_out) body).(notify_store_out_size) = 3.
Proof.
  destruct (notify_store_wire u8_slice_Bytes NodeID_ROOT 4096 name_example ltac:(by repeat split)
    ltac:(by split) (proj1 (u8_slice_chunks _)) ltac:(by vm_compute)) as (body & Hs & _ & _ & Hz & _).
  exists body. split; [exact Hs|]. exact Hz.
Defined.

Definition events_example : list session_event := [EvFetch 0; EvLoad false; EvFetch 1; EvExit; EvLoad true].

Definition session_after : Session :=
  {| s_config := config_example; s_exited := true; s_notify_unique := 2 |}.

Lemma events_example_run : session_runs events_example session_example session_after.
Proof.
  apply (runs_fetch session_example). apply (runs_load (next_notify_unique session_example).2).
  apply (runs_fetch (next_notify_unique session_example).2). apply runs_exit.
  apply (runs_load session_after). apply runs_nil.
Qed.

Lemma notify_ids_distinct_witness : NoDup (fetched events_example) ∧ length (fetched events_example) = 2%nat.
Proof.
  split; [|reflexivity].
  apply (notify_ids_distinct config_example events_example session_after events_example_run).
  vm_compute. congruence.
Defined.

Lemma session_exit_is_final_witness : session_after.(s_exited) = true.
Proof.
  exact (proj1 (session_exit_is_final [EvFetch 0; EvLoad false; EvFetch 1] [EvLoad true]
    session_example session_after events_example_run)).
Defined.

Lemma session_operations_run_witness :
  ∃ evs s' w', retrieve NodeID_ROOT 0 4096 (session_example, idle_world) =
      (Ok (NotifyID_from_raw 0), (s', w')) ∧
    session_runs (EvFetch 0 :: evs) session_example s'.
Proof.
  destruct (session_operations_run session_example vec_example idle_world vec_example_wf) as (_ & _ & H).
  destruct (retrieve NodeID_ROOT 0 4096 (session_example, idle_world)) as [r [s' w']] eqn:Hr.
  destruct (H _ _ _ _ _ _ Hr) as (evs & Hev & _).
  exists evs, s', w'. split; [|exact Hev]. f_equal. vm_compute in Hr. congruence.
Defined.

(** A session that negotiated writes of 1 MiB, with and without SPLICE_READ. *)
Definition large_session (splice : bool) : Session :=
  Session_new (set_flags (if splice then FUSE_SPLICE_READ else 0) (set_max_write 1048576 config_example)).

Lemma large_session_wf splice : config_wf (large_session splice).(s_config).
Proof. destruct splice; split; vm_compute; done. Qed.

(** With SPLICE_READ a write of 1 MiB is asked for, but nothing above 64 KiB arrives;
without, the LOOKUP of the example arrives in a buffer that has room for the write. *)
Lemma new_request_buffer_spec_witness :
  (∃ b, (new_request_buffer (large_session true) world_example).1 = Ok b ∧
    request_buffer_size (large_session true) = 1048656 ∧
    ∀ w1 b1 w2, RequestBuf_try_receive (b, w1) = (Ok tt, (b1, w2)) →
      b1.(rb_header).(raw).(in_header_len) ≤ 65536) ∧
  (∃ b b1 rem, (new_request_buffer (large_session false) world_example).1 = Ok b ∧
    room b = 1048656 ∧
    RequestBuf_try_receive (b, world_example) = (Ok tt, (b1, idle_world)) ∧
    to_parts (E:=Empty_set) b1 = Ok ({| raw := header_example 1 43 |}, name_example, rem)).
Proof.
  split.
  - destruct (new_request_buffer (large_session true) world_example) as [r w'] eqn:Hr.
    destruct (new_request_buffer_spec _ _ r w' (large_session_wf true) ltac:(by vm_compute) Hr)
      as (_ & _ & Hb).
    destruct r as [b|e|why|]; [|vm_compute in Hr; discriminate|destruct Hb..].
    exists b. split; [reflexivity|]. split; [reflexivity|]. exact (proj2 Hb).
  - destruct (new_request_buffer (large_session false) world_example) as [r w'] eqn:Hr.
    destruct (new_request_buffer_spec _ _ r w' (large_session_wf false) ltac:(by vm_compute) Hr)
      as (_ & _ & Hb).
    destruct r as [b|e|why|]; [|discriminate Hr|destruct Hb..].
    destruct Hb as [[_ [Hroom _]] Hb].
    destruct (Hb world_example idle_world (header_example 1 43) name_example)
      as (b1 & rem & Ht & Hp);
      [repeat split; vm_compute; congruence|reflexivity|reflexivity|vm_compute; congruence
      |vm_compute; congruence|].
    exists b, b1, rem. split; [reflexivity|]. split; [exact Hroom|]. split; [exact Ht|exact Hp].
Defined.

Definition write_arg_example : fuse_write_in_compat_8 := {|
  write_in_compat_8_fh := 1; write_in_compat_8_offset := 0; write_in_compat_8_size := 20;
  write_in_compat_8_write_flags := 0 |}.
Definition write_data_example : list byte := replicate 16 Byte.x61 ++ replicate 4 Byte.x62.

Lemma write_compat_8_drops_data_witness :
  let msg := pod_encode (header_example 16 84) ++ pod_encode write_arg_example ++ write_data_example in
  ∃ b' w',
    RequestBuf_try_receive (pipe_example, {| incoming := [msg]; outgoing := [] |}) = (Ok tt, (b', w')) ∧
    to_parts (E:=Empty_set) b' = Ok ({| raw := header_example 16 84 |},
      pod_encode write_arg_example ++ replicate 16 Byte.x61,
      RemainingPipe (pipe_of (replicate 4 Byte.x62))).
Proof.
  intros msg.
  destruct (write_compat_8_drops_data (set_version 7 8 config_example) pipe_example
    {| incoming := [msg]; outgoing := [] |} {| incoming := []; outgoing := [] |}
    (header_example 16 84) write_arg_example write_data_example)
    as (b' & w' & Hr & Hp & _).
  - vm_compute. congruence.
  - exact pipe_example_wf.
  - repeat split; vm_compute; congruence.
  - repeat split; vm_compute; congruence.
  - reflexivity.
  - vm_compute. congruence.
  - exists {| incoming := [msg]; outgoing := [] |}. split; [reflexivity|]. split; [reflexivity|].
    vm_compute. congruence.
  - reflexivity.
  - vm_compute. lia.
  - exists b', w'. split; [exact Hr|exact Hp].
Defined.

End instances.
