(* ===== verification/MountOpts.v ===== *)
(** * Mount options: [MountOptions] of [src/mount.rs], [src/util.rs]

The option strings given to [mount(2)] and to [fusermount].  A [str] is the list
of its characters. *)

From S2P Require Import Prelude Layout Kernel Crates Types.
Local Open Scope Z_scope.

(** ** Strings of the standard library *)

Definition str := list Z.

Definition lit (s : string) : str := (λ a, Z.of_N (Ascii.N_of_ascii a)) <$> String.list_ascii_of_string s.

(** [char::is_whitespace]: the characters with the property [White_Space]. *)
Definition is_whitespace (c : Z) : bool :=
  ((9 <=? c) && (c <=? 13)) || (c =? 0x20) || (c =? 0x85) || (c =? 0xa0) || (c =? 0x1680)
  || ((0x2000 <=? c) && (c <=? 0x200a)) || (c =? 0x2028) || (c =? 0x2029) || (c =? 0x202f)
  || (c =? 0x205f) || (c =? 0x3000).

Fixpoint trim_start (s : str) : str :=
  match s with
  | c :: s' => if is_whitespace c then trim_start s' else s
  | [] => []
  end.

Definition trim_end (s : str) : str := reverse (trim_start (reverse s)).

(** [str::trim] *)
Definition trim (s : str) : str := trim_end (trim_start s).

(** [Display] ([base] 10) and [Octal] ([base] 8) of a number that is not
negative; a digit takes at least one bit. *)
Fixpoint digits (fuel : nat) (base n : Z) : str :=
  match fuel with
  | O => []
  | S fuel => if n <? base then [48 + n] else digits fuel base (n / base) ++ [48 + n mod base]
  end.

Definition format (base n : Z) : str := digits (S (Z.to_nat (Z.log2 n))) base n.

(** ** [IteratorJoinExt::join] *)

Definition join_step (sep : str) (st : nat * str) (elem : str) : nat * str :=
  let (i, acc) := st in
  (S i, (if (0 <? i)%nat then acc ++ sep else acc) ++ trim elem).

Definition join (sep : str) (items : list str) : str := (foldl (join_step sep) (0%nat, []) items).2.

(** ** Flags

[MountFlags] is declared by [rustix]; iterating over a set of flags gives the
declared flags it contains. *)

Class MountFlagsApi := {
  RDONLY : u32; NOSUID : u32; NODEV : u32; NOEXEC : u32; SYNCHRONOUS : u32; DIRSYNC : u32;
  NOATIME : u32;
  MountFlags_iter (flags : u32) : list u32;
  (** [Flags::iter] of [bitflags], for a type with the declared flags *)
  bf_iter (declared : list u32) (flags : u32) : list u32;
}.

Definition named_mount_flags `{MountFlagsApi} : list u32 :=
  [RDONLY; NOSUID; NODEV; NOEXEC; SYNCHRONOUS; DIRSYNC; NOATIME].

Definition single_bit (f : u32) : Prop := ∃ k, 0 ≤ k ∧ f = 2 ^ k.

Class MountFlagsSpec `{MountFlagsApi} : Prop := {
  mount_flag_values : named_mount_flags = [1; 2; 4; 8; 16; 128; 1024];
  MountFlags_iter_NoDup flags : NoDup (MountFlags_iter flags);
  MountFlags_iter_elem flags f :
    f ∈ named_mount_flags → f ∈ MountFlags_iter flags ↔ Z.land flags f = f;
  bf_iter_NoDup declared flags : Forall single_bit declared → NoDup declared → NoDup (bf_iter declared flags);
  bf_iter_elem declared flags f :
    Forall single_bit declared → f ∈ declared → f ∈ bf_iter declared flags ↔ Z.land flags f = f;
}.

Definition DEFAULT_PERMISSIONS : u32 := Z.shiftl 1 0.
Definition ALLOW_OTHER : u32 := Z.shiftl 1 1.
Definition AUTO_UNMOUNT : u32 := Z.shiftl 1 2.
Definition BLKDEV : u32 := Z.shiftl 1 3.

Definition FuseFlags_flags : list u32 := [DEFAULT_PERMISSIONS; ALLOW_OTHER; AUTO_UNMOUNT; BLKDEV].

Definition FuseFlags_new : u32 := AUTO_UNMOUNT.

Record MountOptions := {
  mount_flags : u32;
  fuse_flags : u32;
  blksize : option u32;
  max_read : option u32;
  subtype : option str;
  fsname : option str;
  fusermount_path : option (list byte);
}.

Definition MountOptions_new : MountOptions := {|
  mount_flags := 0;
  fuse_flags := FuseFlags_new;
  blksize := None;
  max_read := None;
  subtype := None;
  fsname := None;
  fusermount_path := None;
|}.

Section opts.
Context `{BF : Bitflags} `{MF : MountFlagsApi} `{L : Libc}.

Definition ALLOWED_MOUNT_FLAGS : u32 :=
  bf_union (bf_union (bf_union (bf_union (bf_union (bf_union (bf_union bf_empty RDONLY) NOSUID) NODEV)
    NOEXEC) SYNCHRONOUS) DIRSYNC) NOATIME.

Definition mount_flag_name (flag : u32) : option str :=
  if flag =? RDONLY then Some (lit "ro")
  else if flag =? NOSUID then Some (lit "nosuid")
  else if flag =? NODEV then Some (lit "nodev")
  else if flag =? NOEXEC then Some (lit "noexec")
  else if flag =? SYNCHRONOUS then Some (lit "sync")
  else if flag =? DIRSYNC then Some (lit "dirsync")
  else if flag =? NOATIME then Some (lit "noatime")
  else None.

Definition fuse_flag_name (unpriv : bool) (flag : u32) : option str :=
  if flag =? DEFAULT_PERMISSIONS then Some (lit "default_permissions")
  else if flag =? ALLOW_OTHER then Some (lit "allow_other")
  else if flag =? AUTO_UNMOUNT then if unpriv then Some (lit "auto_unmount") else None
  else if flag =? BLKDEV then if unpriv then Some (lit "blkdev") else None
  else None.

Definition iter_flags (self : MountOptions) (unpriv : bool) : list str :=
  omap mount_flag_name (MountFlags_iter self.(mount_flags)) ++
  omap (fuse_flag_name unpriv) (bf_iter FuseFlags_flags self.(fuse_flags)).

Definition iter_common_opts (self : MountOptions) : list str :=
  option_list ((λ n, lit "blksize=" ++ format 10 n) <$> self.(blksize)) ++
  option_list ((λ n, lit "max_read=" ++ format 10 n) <$> self.(max_read)).

(** The privileged side: [mount/priv_mount.rs]. *)

Definition prefix (fd : i32) (mode : u32) (uid : Uid) (gid : Gid) : str :=
  let root_mode := Z.land mode S_IFMT in
  lit "fd=" ++ format 10 fd ++ lit ",rootmode=" ++ format 8 root_mode ++
  lit ",user_id=" ++ format 10 uid ++ lit ",group_id=" ++ format 10 gid.

Record PrivilegedOptions := { fstype : str; po_opts : str }.

Definition encode_priv_options (opts : MountOptions) (prefix : option str) : PrivilegedOptions := {|
  fstype :=
    let fstype := if bf_contains opts.(fuse_flags) BLKDEV then lit "fuseblk" else lit "fuse" in
    match opts.(subtype) with
    | Some subtype => fstype ++ lit "." ++ trim subtype
    | None => fstype
    end;
  po_opts := join (lit ",") (option_list prefix ++ iter_flags opts false ++ iter_common_opts opts);
|}.

(** The unprivileged side: [mount/unpriv_mount.rs]. *)

Definition encode_unpriv_options (opts : MountOptions) : str :=
  join (lit ",")
    (iter_flags opts true ++ iter_common_opts opts ++
     option_list ((λ s, lit "subtype=" ++ s) <$> opts.(subtype)) ++
     option_list ((λ s, lit "fsname=" ++ s) <$> opts.(fsname))).

End opts.

(** ** Joining and splitting *)

Fixpoint commas (items : list str) : str :=
  match items with
  | [] => []
  | [x] => x
  | x :: rest => x ++ 44 :: commas rest
  end.

Fixpoint split_on (sep : Z) (s : str) : list str :=
  match s with
  | [] => [[]]
  | c :: s' =>
      if c =? sep then [] :: split_on sep s'
      else match split_on sep s' with w :: ws => (c :: w) :: ws | [] => [[c]] end
  end.

Lemma commas_cons x rest : rest ≠ [] → commas (x :: rest) = x ++ 44 :: commas rest.
Proof. by destruct rest. Qed.

Lemma join_from sep i acc items :
  foldl (join_step sep) (S i, acc) items =
    ((S i + length items)%nat, acc ++ concat ((λ e, sep ++ trim e) <$> items)).
Proof.
  revert i acc. induction items as [|x items IH]; intros i acc; cbn; [by rewrite app_nil_r, Nat.add_0_r|].
  rewrite IH. f_equal; [cbn; lia|]. by rewrite <- !app_assoc.
Qed.

Lemma join_commas items :
  Forall (λ e, trim e = e) items → join (lit ",") items = commas items.
Proof.
  intros Hall. destruct items as [|x items]; [done|]. unfold join. cbn [foldl join_step Nat.ltb Nat.leb app].
  rewrite join_from. cbn [snd]. apply Forall_cons in Hall as [Hx Hall]. rewrite Hx. clear Hx. revert x.
  induction Hall as [|y items Hy Hall IH]; intros x; [by rewrite app_nil_r|].
  cbn [fmap list_fmap concat]. rewrite Hy, commas_cons by done. rewrite <- IH. by rewrite <- !app_assoc.
Qed.

Lemma split_on_app sep e rest :
  Forall (λ c, c ≠ sep) e →
  split_on sep (e ++ rest) =
    match split_on sep rest with w :: ws => (e ++ w) :: ws | [] => [e] end.
Proof.
  induction 1 as [|c e Hc He IH]; cbn.
  - by destruct rest; cbn; repeat case_match.
  - rewrite (proj2 (Z.eqb_neq _ _)), IH by done. by destruct (split_on sep rest).
Qed.

Lemma split_commas items :
  items ≠ [] → Forall (Forall (λ c, c ≠ 44)) items → split_on 44 (commas items) = items.
Proof.
  intros Hne Hall. destruct items as [|x items]; [done|]. clear Hne. revert x Hall.
  induction items as [|y items IH]; intros x [Hx Hall]%Forall_cons.
  - cbn. rewrite <- (app_nil_r x) at 1. rewrite split_on_app by done. cbn. by rewrite app_nil_r.
  - rewrite commas_cons, split_on_app by done. cbn [split_on Z.eqb Pos.eqb]. by rewrite IH, app_nil_r.
Qed.

Lemma commas_flat x xs items :
  commas (commas (x :: xs) :: items) = commas ((x :: xs) ++ items).
Proof.
  destruct items as [|y items]; [by rewrite app_nil_r|].
  rewrite (commas_cons (commas _)) by done. revert x. induction xs as [|z xs IH]; intros x; [done|].
  rewrite (commas_cons x (z :: xs)) by done. rewrite <- (app_comm_cons (z :: xs)).
  rewrite (commas_cons x) by done. rewrite <- app_assoc, <- app_comm_cons. by rewrite IH.
Qed.

(** ** Numbers *)

Definition value (base : Z) (s : str) : Z := foldl (λ acc c, acc * base + (c - 48)) 0 s.

Definition is_digit (base c : Z) : bool := (48 <=? c) && (c <? 48 + base).

Definition read_num (base : Z) (s : str) : option Z :=
  if forallb (is_digit base) s && negb (bool_decide (s = [])) then Some (value base s) else None.

Lemma digits_value fuel base n :
  2 ≤ base → 0 ≤ n < 2 ^ Z.of_nat fuel → value base (digits fuel base n) = n.
Proof.
  intros Hb. revert n. induction fuel as [|fuel IH]; intros n Hn; [cbn in *; lia|].
  cbn [digits]. destruct (Z.ltb_spec n base).
  - unfold value. cbn. lia.
  - unfold value. rewrite foldl_app. fold (value base (digits fuel base (n / base))). rewrite IH.
    + cbn. pose proof (Z.div_mod n base). lia.
    + split; [apply Z.div_pos; lia|]. apply Z.div_lt_upper_bound; [lia|].
      rewrite Nat2Z.inj_succ, Z.pow_succ_r in Hn by lia. nia.
Qed.

Lemma digits_digits fuel base n :
  2 ≤ base → 0 ≤ n → Forall (λ c, 48 ≤ c < 48 + base) (digits fuel base n).
Proof.
  intros Hb. revert n. induction fuel as [|fuel IH]; intros n Hn; [by constructor|].
  cbn [digits]. destruct (Z.ltb_spec n base).
  - apply Forall_singleton. lia.
  - apply Forall_app. split; [apply IH; apply Z.div_pos; lia|]. apply Forall_singleton.
    pose proof (Z.mod_pos_bound n base). lia.
Qed.

Lemma format_digits base n : 2 ≤ base → 0 ≤ n → Forall (λ c, 48 ≤ c < 48 + base) (format base n).
Proof. apply digits_digits. Qed.

Lemma format_nonempty base n : format base n ≠ [].
Proof. unfold format. cbn [digits]. case_match; [done|]. by intros []%app_nil. Qed.

(** Printing a number and reading it back. *)
Lemma read_format base n : 2 ≤ base → 0 ≤ n → read_num base (format base n) = Some n.
Proof.
  intros Hb Hn. unfold read_num. rewrite bool_decide_eq_false_2 by apply format_nonempty.
  assert (forallb (is_digit base) (format base n) = true) as ->.
  { apply forallb_forall. intros c Hc%list_elem_of_In.
    pose proof (proj1 (Forall_forall _ _) (format_digits base n Hb Hn) c Hc) as Hd.
    unfold is_digit. cbn in Hd. apply andb_true_iff. lia. }
  cbn [andb negb]. f_equal. apply digits_value; [done|].
  destruct (decide (n = 0)) as [->|]; [done|].
  pose proof (Z.log2_spec n). pose proof (Z.log2_nonneg n).
  rewrite Nat2Z.inj_succ, Z2Nat.id by lia. lia.
Qed.

(** ** Trimming *)

Lemma trim_start_id s : (∀ c, head s = Some c → is_whitespace c = false) → trim_start s = s.
Proof. destruct s as [|c s]; [done|]. intros Hc. cbn. by rewrite (Hc c). Qed.

Lemma trim_id s :
  (∀ c, head s = Some c → is_whitespace c = false) →
  (∀ c, last s = Some c → is_whitespace c = false) → trim s = s.
Proof.
  intros Hh Hl. unfold trim, trim_end. rewrite (trim_start_id s Hh), trim_start_id.
  - apply reverse_involutive.
  - intros c Hc. apply Hl. by rewrite head_reverse in Hc.
Qed.

(** ** The options as [fusermount] and the kernel read them *)

Inductive mount_option :=
  | Ro | NoSuid | NoDev | NoExec | Sync | DirSync | NoAtime
  | DefaultPermissions | AllowOther | AutoUnmount | BlkDev
  | BlkSize (n : Z) | MaxRead (n : Z) | Subtype (s : str) | FsName (s : str)
  | FdOpt (n : Z) | RootMode (n : Z) | UserId (n : Z) | GroupId (n : Z).

#[export] Instance mount_option_eq_dec : EqDecision mount_option.
Proof. solve_decision. Defined.

Definition flag_options : list (str * mount_option) :=
  [(lit "ro", Ro); (lit "nosuid", NoSuid); (lit "nodev", NoDev); (lit "noexec", NoExec);
   (lit "sync", Sync); (lit "dirsync", DirSync); (lit "noatime", NoAtime);
   (lit "default_permissions", DefaultPermissions); (lit "allow_other", AllowOther);
   (lit "auto_unmount", AutoUnmount); (lit "blkdev", BlkDev)].

Definition keyed_options : list (str * (str → option mount_option)) :=
  [(lit "blksize=", λ s, BlkSize <$> read_num 10 s); (lit "max_read=", λ s, MaxRead <$> read_num 10 s);
   (lit "subtype=", λ s, Some (Subtype s)); (lit "fsname=", λ s, Some (FsName s));
   (lit "fd=", λ s, FdOpt <$> read_num 10 s); (lit "rootmode=", λ s, RootMode <$> read_num 8 s);
   (lit "user_id=", λ s, UserId <$> read_num 10 s); (lit "group_id=", λ s, GroupId <$> read_num 10 s)].

Fixpoint read_keyed (table : list (str * (str → option mount_option))) (s : str) : option mount_option :=
  match table with
  | [] => None
  | (key, f) :: table =>
      if bool_decide (take (length key) s = key) then f (drop (length key) s) else read_keyed table s
  end.

Fixpoint read_flag (table : list (str * mount_option)) (s : str) : option mount_option :=
  match table with
  | [] => None
  | (name, o) :: table => if bool_decide (s = name) then Some o else read_flag table s
  end.

(** One option; names first, then [key=value]. *)
Definition read_option (s : str) : option mount_option :=
  match read_flag flag_options s with
  | Some o => Some o
  | None => read_keyed keyed_options s
  end.

Definition print_option (o : mount_option) : str :=
  match o with
  | Ro => lit "ro" | NoSuid => lit "nosuid" | NoDev => lit "nodev" | NoExec => lit "noexec"
  | Sync => lit "sync" | DirSync => lit "dirsync" | NoAtime => lit "noatime"
  | DefaultPermissions => lit "default_permissions" | AllowOther => lit "allow_other"
  | AutoUnmount => lit "auto_unmount" | BlkDev => lit "blkdev"
  | BlkSize n => lit "blksize=" ++ format 10 n
  | MaxRead n => lit "max_read=" ++ format 10 n
  | Subtype s => lit "subtype=" ++ s
  | FsName s => lit "fsname=" ++ s
  | FdOpt n => lit "fd=" ++ format 10 n
  | RootMode n => lit "rootmode=" ++ format 8 n
  | UserId n => lit "user_id=" ++ format 10 n
  | GroupId n => lit "group_id=" ++ format 10 n
  end.

(** A name that survives the joining: no comma, no white space at its end. *)
Definition plain (s : str) : Prop :=
  Forall (λ c, c ≠ 44) s ∧ (∀ c, last s = Some c → is_whitespace c = false).

Definition option_ok (o : mount_option) : Prop :=
  match o with
  | BlkSize n | MaxRead n | FdOpt n | RootMode n | UserId n | GroupId n => 0 ≤ n
  | Subtype s | FsName s => plain s
  | _ => True
  end.

Lemma read_print o : option_ok o → read_option (print_option o) = Some o.
Proof.
  destruct o as [ | | | | | | | | | | |n|n|s|s|n|n|n|n]; intros Ho; try reflexivity; cbn [option_ok] in Ho.
  - transitivity (BlkSize <$> read_num 10 (format 10 n)); [done|by rewrite read_format].
  - transitivity (MaxRead <$> read_num 10 (format 10 n)); [done|by rewrite read_format].
  - transitivity (FdOpt <$> read_num 10 (format 10 n)); [done|by rewrite read_format].
  - transitivity (RootMode <$> read_num 8 (format 8 n)); [done|by rewrite read_format].
  - transitivity (UserId <$> read_num 10 (format 10 n)); [done|by rewrite read_format].
  - transitivity (GroupId <$> read_num 10 (format 10 n)); [done|by rewrite read_format].
Qed.

Lemma format_plain base n : 2 ≤ base ≤ 10 → 0 ≤ n → plain (format base n).
Proof.
  intros Hb Hn. pose proof (format_digits base n) as Hd. rewrite Forall_forall in Hd. split.
  - apply Forall_forall. intros c Hc. specialize (Hd ltac:(lia) Hn c Hc). cbn in Hd. lia.
  - intros c Hc. assert (c ∈ format base n) as Hin.
    { rewrite last_lookup in Hc. by eapply list_elem_of_lookup_2. }
    specialize (Hd ltac:(lia) Hn c Hin). cbn in Hd. unfold is_whitespace.
    repeat (apply orb_false_iff; split); lia.
Qed.

(** A key followed by a plain value is an item that joining keeps. *)
Lemma keyed_item key s :
  Forall (λ c, c ≠ 44 ∧ is_whitespace c = false) key → key ≠ [] → plain s →
  trim (key ++ s) = key ++ s ∧ Forall (λ c, c ≠ 44) (key ++ s).
Proof.
  intros Hk Hne [Hs Hl]. split.
  - apply trim_id.
    + destruct key as [|k key]; [done|]. intros c [= <-]. by apply Forall_cons in Hk as [[_ ?] _].
    + intros c Hc. rewrite last_app in Hc. destruct (last s) as [c'|] eqn:Hls; [simplify_eq; by apply Hl|].
      rewrite Forall_forall in Hk. apply Hk. rewrite last_lookup in Hc. by eapply list_elem_of_lookup_2.
  - apply Forall_app. split; [|done]. eapply Forall_impl; [done|]. by intros c [].
Qed.

Lemma plain_nil : plain [].
Proof. by split; [constructor|]. Qed.

Lemma print_option_ok o :
  option_ok o → trim (print_option o) = print_option o ∧ Forall (λ c, c ≠ 44) (print_option o).
Proof.
  intros Ho. assert (∃ key s, print_option o = key ++ s ∧ key ≠ [] ∧ plain s ∧
    forallb (λ c, negb (c =? 44) && negb (is_whitespace c)) key = true) as (key & s & -> & Hne & Hs & Hk).
  { destruct o; cbn [print_option option_ok] in *;
      first [ by eexists _, _; split; [reflexivity|]; split; [|split; [apply format_plain; lia|]]
            | by eexists _, _; split; [reflexivity|]; split; [|split; [exact Ho|]]
            | by eexists _, []; split; [symmetry; apply app_nil_r|]; split; [|split; [apply plain_nil|]] ]. }
  apply keyed_item; [|done|done]. apply Forall_forall. intros c Hc.
  rewrite forallb_forall in Hk. specialize (Hk c (proj1 (list_elem_of_In _ _) Hc)).
  apply andb_true_iff in Hk as [H1 H2]. split; [by apply Z.eqb_neq, negb_true_iff|by apply negb_true_iff].
Qed.

(** ** What is asked for, and what is sent *)

Section facts.
Context `{BF : Bitflags} {HBF : BitflagsSpec} `{MF : MountFlagsApi} {HMF : MountFlagsSpec}.
Context `{L : Libc} {HL : LibcLinux L}.

(** The flag behind an option. *)
Definition mount_flag_of (o : mount_option) : option u32 :=
  match o with
  | Ro => Some 1 | NoSuid => Some 2 | NoDev => Some 4 | NoExec => Some 8 | Sync => Some 16
  | DirSync => Some 128 | NoAtime => Some 1024 | _ => None
  end.

Definition fuse_flag_of (unpriv : bool) (o : mount_option) : option u32 :=
  match o with
  | DefaultPermissions => Some DEFAULT_PERMISSIONS
  | AllowOther => Some ALLOW_OTHER
  | AutoUnmount => if unpriv then Some AUTO_UNMOUNT else None
  | BlkDev => if unpriv then Some BLKDEV else None
  | _ => None
  end.

(** The options a caller asks for.  The privileged mount does not pass the
flags that are [fusermount]'s own, nor the names, which are separate arguments
of [mount(2)]. *)
Definition requested (unpriv : bool) (opts : MountOptions) (o : mount_option) : Prop :=
  (∃ f, mount_flag_of o = Some f ∧ Z.land opts.(mount_flags) f = f) ∨
  (∃ f, fuse_flag_of unpriv o = Some f ∧ Z.land opts.(fuse_flags) f = f) ∨
  (∃ n, o = BlkSize n ∧ opts.(blksize) = Some n) ∨
  (∃ n, o = MaxRead n ∧ opts.(max_read) = Some n) ∨
  (unpriv = true ∧ ∃ s, o = Subtype s ∧ opts.(subtype) = Some s) ∨
  (unpriv = true ∧ ∃ s, o = FsName s ∧ opts.(fsname) = Some s).

Definition numbers_ok (opts : MountOptions) : Prop :=
  (∀ n, opts.(blksize) = Some n → 0 ≤ n) ∧ (∀ n, opts.(max_read) = Some n → 0 ≤ n).

Definition names_ok (opts : MountOptions) : Prop :=
  (∀ s, opts.(subtype) = Some s → plain s) ∧ (∀ s, opts.(fsname) = Some s → plain s).

(** The option a flag is printed as. *)
Definition option_for (name : u32 → option str) (f : u32) : option mount_option :=
  name f ≫= read_option.

Lemma flag_values :
  RDONLY = 1 ∧ NOSUID = 2 ∧ NODEV = 4 ∧ NOEXEC = 8 ∧ SYNCHRONOUS = 16 ∧ DIRSYNC = 128 ∧ NOATIME = 1024.
Proof. pose proof mount_flag_values as Hv. unfold named_mount_flags in Hv. by injection Hv. Qed.

Local Ltac case_eqb :=
  match goal with |- context [?f =? ?k] => destruct (Z.eqb_spec f k) as [->|] end.

Lemma mount_flag_name_spec f o :
  option_for mount_flag_name f = Some o ↔ mount_flag_of o = Some f.
Proof.
  unfold option_for, mount_flag_name. destruct flag_values as (-> & -> & -> & -> & -> & -> & ->).
  split.
  - repeat (case_eqb; [by intros Ho; vm_compute in Ho; injection Ho as <-|]).
    cbn. discriminate.
  - destruct o; intros [= <-]; reflexivity.
Qed.

Lemma fuse_flag_name_spec unpriv f o :
  option_for (fuse_flag_name unpriv) f = Some o ↔ fuse_flag_of unpriv o = Some f.
Proof.
  unfold option_for, fuse_flag_name. split.
  - repeat (case_eqb;
      [destruct unpriv; intros Ho; vm_compute in Ho; by simplify_eq|]). cbn. discriminate.
  - destruct o; try done; [by intros [= <-]..| |]; destruct unpriv; by intros [= <-].
Qed.

Lemma flag_name_prints name f s :
  name = mount_flag_name ∨ (∃ unpriv, name = fuse_flag_name unpriv) →
  name f = Some s → ∃ o, option_for name f = Some o ∧ print_option o = s ∧ option_ok o.
Proof.
  unfold option_for. intros [->|[unpriv ->]] Hs; rewrite Hs; cbn [mbind option_bind];
    [unfold mount_flag_name in Hs|unfold fuse_flag_name in Hs];
    repeat case_match; simplify_eq; eexists; (split; [reflexivity|]); by split.
Qed.

Lemma omap_prints name l :
  name = mount_flag_name ∨ (∃ unpriv, name = fuse_flag_name unpriv) →
  omap name l = print_option <$> omap (option_for name) l ∧
  Forall option_ok (omap (option_for name) l).
Proof.
  intros Hn. induction l as [|f l [IH1 IH2]]; [by split|]. cbn. destruct (name f) as [s|] eqn:Hs.
  - destruct (flag_name_prints name f s Hn Hs) as (o & Ho & Hp & Hok).
    rewrite Ho. cbn. rewrite Hp. split; [exact (f_equal (cons s) IH1)|by constructor].
  - assert (option_for name f = None) as -> by (unfold option_for; by rewrite Hs). by split.
Qed.

Lemma NoDup_omap {A B} (g : A → option B) l :
  (∀ x y o, g x = Some o → g y = Some o → x = y) → NoDup l → NoDup (omap g l).
Proof.
  intros Hinj. induction 1 as [|x l Hx Hl IH]; [constructor|]. cbn. destruct (g x) as [o|] eqn:Hg; [|done].
  constructor; [|done]. intros (y & Hy & Hgy)%list_elem_of_omap. apply Hx. by rewrite (Hinj x y o).
Qed.

Lemma fuse_single_bits : Forall single_bit FuseFlags_flags ∧ NoDup FuseFlags_flags.
Proof.
  split; [|apply (bool_decide_unpack _); by vm_compute].
  repeat constructor; [by exists 0|by exists 1|by exists 2|by exists 3].
Qed.

Definition flag_list (unpriv : bool) (opts : MountOptions) : list mount_option :=
  omap (option_for mount_flag_name) (MountFlags_iter opts.(mount_flags)) ++
  omap (option_for (fuse_flag_name unpriv)) (bf_iter FuseFlags_flags opts.(fuse_flags)).

Definition common_list (opts : MountOptions) : list mount_option :=
  option_list (BlkSize <$> opts.(blksize)) ++ option_list (MaxRead <$> opts.(max_read)).

Definition name_list (opts : MountOptions) : list mount_option :=
  option_list (Subtype <$> opts.(subtype)) ++ option_list (FsName <$> opts.(fsname)).

Lemma elem_of_mount_flags opts o :
  o ∈ omap (option_for mount_flag_name) (MountFlags_iter opts.(mount_flags)) ↔
  ∃ f, mount_flag_of o = Some f ∧ Z.land opts.(mount_flags) f = f.
Proof.
  rewrite list_elem_of_omap. setoid_rewrite mount_flag_name_spec.
  assert (∀ f, mount_flag_of o = Some f → f ∈ named_mount_flags) as Hn.
  { rewrite mount_flag_values. intros f. destruct o; intros [= <-]; apply list_elem_of_In; cbn; auto 10. }
  split.
  - intros (f & Hf & Ho). exists f. split; [done|]. apply MountFlags_iter_elem; auto.
  - intros (f & Ho & Hf). exists f. split; [|done]. apply MountFlags_iter_elem; auto.
Qed.

Lemma elem_of_fuse_flags unpriv opts o :
  o ∈ omap (option_for (fuse_flag_name unpriv)) (bf_iter FuseFlags_flags opts.(fuse_flags)) ↔
  ∃ f, fuse_flag_of unpriv o = Some f ∧ Z.land opts.(fuse_flags) f = f.
Proof.
  rewrite list_elem_of_omap. setoid_rewrite fuse_flag_name_spec. destruct fuse_single_bits as [Hb _].
  assert (∀ f, fuse_flag_of unpriv o = Some f → f ∈ FuseFlags_flags) as Hn.
  { intros f. unfold FuseFlags_flags. destruct o; try done; [intros [= <-]; apply list_elem_of_In; cbn; auto 10..| |];
      (destruct unpriv; [intros [= <-]; apply list_elem_of_In; cbn; auto 10|done]). }
  split.
  - intros (f & Hf & Ho). exists f. split; [done|]. apply bf_iter_elem in Hf; auto.
  - intros (f & Ho & Hf). exists f. split; [|done]. apply bf_iter_elem; auto.
Qed.

Lemma flag_list_spec unpriv opts :
  iter_flags opts unpriv = print_option <$> flag_list unpriv opts ∧
  Forall option_ok (flag_list unpriv opts) ∧ NoDup (flag_list unpriv opts).
Proof.
  unfold iter_flags, flag_list. destruct fuse_single_bits as [Hb Hn].
  destruct (omap_prints mount_flag_name (MountFlags_iter opts.(mount_flags))) as [H1 H1']; [by left|].
  destruct (omap_prints (fuse_flag_name unpriv) (bf_iter FuseFlags_flags opts.(fuse_flags)))
    as [H2 H2']; [right; by exists unpriv|].
  rewrite fmap_app, H1, H2. split; [done|]. split; [by apply Forall_app|]. apply NoDup_app. split_and!.
  - apply NoDup_omap; [|apply MountFlags_iter_NoDup]. intros x y o Hx%mount_flag_name_spec Hy%mount_flag_name_spec.
    congruence.
  - intros o (f & Hf & _)%elem_of_mount_flags (f' & Hf' & _)%elem_of_fuse_flags. by destruct o.
  - apply NoDup_omap; [|by apply bf_iter_NoDup]. intros x y o Hx%fuse_flag_name_spec Hy%fuse_flag_name_spec.
    congruence.
Qed.

Lemma elem_of_option_list {A} (o : option A) x : x ∈ option_list o ↔ o = Some x.
Proof. destruct o as [y|]; cbn; [rewrite list_elem_of_singleton; naive_solver|by rewrite elem_of_nil]. Qed.

Lemma elem_of_keyed {A} (K : A → mount_option) (v : option A) o :
  o ∈ option_list (K <$> v) ↔ ∃ x, o = K x ∧ v = Some x.
Proof. rewrite elem_of_option_list. destruct v; cbn; naive_solver. Qed.

Lemma common_list_spec opts :
  numbers_ok opts →
  iter_common_opts opts = print_option <$> common_list opts ∧ Forall option_ok (common_list opts).
Proof.
  intros (H1 & H2). unfold iter_common_opts, common_list.
  destruct (blksize opts) as [n|], (max_read opts) as [m|]; cbn;
    (split; [done|]); repeat (apply Forall_cons; split); cbn; auto.
Qed.

Lemma name_list_spec opts :
  names_ok opts →
  option_list ((λ s : str, lit "subtype=" ++ s) <$> opts.(subtype)) ++
    option_list ((λ s : str, lit "fsname=" ++ s) <$> opts.(fsname)) = print_option <$> name_list opts ∧
  Forall option_ok (name_list opts).
Proof.
  intros (H1 & H2). unfold name_list.
  destruct (subtype opts) as [n|], (fsname opts) as [m|]; cbn;
    (split; [done|]); repeat (apply Forall_cons; split); cbn; auto.
Qed.

Lemma keyed_NoDup {A B} (K : A → mount_option) (K' : B → mount_option) v v' :
  (∀ x y, K x ≠ K' y) → NoDup (option_list (K <$> v) ++ option_list (K' <$> v')).
Proof.
  intros Hne. destruct v as [x|], v' as [y|]; cbn; repeat constructor;
    rewrite ?list_elem_of_singleton, ?elem_of_nil; by auto.
Qed.

(** Joining printed options and reading them back. *)
Lemma read_joined os :
  os ≠ [] → Forall option_ok os →
  read_option <$> split_on 44 (join (lit ",") (print_option <$> os)) = Some <$> os.
Proof.
  intros Hne Hok. rewrite join_commas, split_commas.
  - rewrite <- list_fmap_compose. apply list_fmap_ext. intros i o Ho%list_elem_of_lookup_2.
    apply read_print. by eapply Forall_forall in Hok.
  - by destruct os.
  - apply Forall_fmap. eapply Forall_impl; [done|]. intros o Ho. by apply print_option_ok.
  - apply Forall_fmap. eapply Forall_impl; [done|]. intros o Ho. by apply print_option_ok.
Qed.

Lemma requested_elem unpriv opts o :
  requested unpriv opts o ↔
  o ∈ flag_list unpriv opts ++ common_list opts ++ (if unpriv then name_list opts else []).
Proof.
  unfold requested, flag_list, common_list, name_list.
  rewrite !elem_of_app, elem_of_mount_flags, elem_of_fuse_flags, !elem_of_keyed.
  destruct unpriv; [rewrite elem_of_app, !elem_of_keyed|rewrite elem_of_nil]; naive_solver.
Qed.

Lemma sent_NoDup unpriv opts :
  NoDup (flag_list unpriv opts ++ common_list opts ++ (if unpriv then name_list opts else [])).
Proof.
  apply NoDup_app. split_and!; [apply flag_list_spec| |].
  - intros o Hf Hr. unfold flag_list in Hf. unfold common_list, name_list in Hr.
    rewrite !elem_of_app, elem_of_mount_flags, elem_of_fuse_flags in Hf.
    rewrite !elem_of_app, !elem_of_keyed in Hr.
    destruct unpriv; [rewrite elem_of_app, !elem_of_keyed in Hr|rewrite elem_of_nil in Hr]; naive_solver.
  - apply NoDup_app. split_and!; [by apply keyed_NoDup| |].
    + intros o Hc Hr. unfold common_list in Hc. unfold name_list in Hr.
      rewrite !elem_of_app, !elem_of_keyed in Hc.
      destruct unpriv; [rewrite elem_of_app, !elem_of_keyed in Hr|rewrite elem_of_nil in Hr]; naive_solver.
    + destruct unpriv; [by apply keyed_NoDup|constructor].
Qed.

(** C38: [fusermount] gets exactly the options that were asked for.  When the
names hold no comma and do not end in white space, splitting the argument of
[-o] at the commas gives each requested option once and nothing else, with its
number or name; the argument is empty exactly when nothing was requested. *)
Theorem unpriv_options_roundtrip opts :
  numbers_ok opts → names_ok opts →
  if decide (encode_unpriv_options opts = []) then ∀ o, ¬ requested true opts o
  else ∃ os, read_option <$> split_on 44 (encode_unpriv_options opts) = Some <$> os ∧
    NoDup os ∧ ∀ o, o ∈ os ↔ requested true opts o.
Proof.
  intros Hok Hnames. set (os := flag_list true opts ++ common_list opts ++ name_list opts).
  assert (encode_unpriv_options opts = join (lit ",") (print_option <$> os) ∧ Forall option_ok os)
    as [-> Hall].
  { destruct (flag_list_spec true opts) as (H1 & H1' & _). destruct (common_list_spec opts Hok) as (H2 & H2').
    destruct (name_list_spec opts Hnames) as (H3 & H3'). unfold encode_unpriv_options, os.
    rewrite !fmap_app, <- H1, <- H2, <- H3. split; [done|]. rewrite !Forall_app. done. }
  destruct (decide (os = [])) as [He|Hne].
  - rewrite He, decide_True by done. intros o Ho%requested_elem. change (o ∈ os) in Ho. rewrite He in Ho.
    by apply elem_of_nil in Ho.
  - rewrite decide_False.
    + exists os. split; [by apply read_joined|]. split; [apply (sent_NoDup true)|].
      intros o. by rewrite (requested_elem true).
    + intros Hj. pose proof (read_joined os Hne Hall) as Hr. rewrite Hj in Hr.
      by destruct os as [|o [|]]; simplify_eq.
Qed.

(** The options of the privileged mount are numbers and names without a NUL. *)
Definition no_name (o : mount_option) : Prop := match o with Subtype _ | FsName _ => False | _ => True end.

Lemma print_no_nul o : option_ok o → no_name o → Forall (λ c, 0 < c) (print_option o).
Proof.
  intros Ho Hn. assert (∃ key base n, (print_option o = key ∨ print_option o = key ++ format base n) ∧
    2 ≤ base ∧ 0 ≤ n ∧ forallb (λ c, 0 <? c) key = true) as (key & base & n & Hp & Hb & H0 & Hk).
  { destruct o; cbn [print_option option_ok no_name] in *; try done;
      solve [ eexists _, 10, 0; split; [left; reflexivity|]; split; [lia|by split]
            | eexists _, _, _; split; [right; reflexivity|]; split; [lia|by split] ]. }
  assert (Forall (λ c, 0 < c) key) as Hkey.
  { apply Forall_forall. intros c Hc%list_elem_of_In. rewrite forallb_forall in Hk. specialize (Hk c Hc). lia. }
  destruct Hp as [->| ->]; [done|]. apply Forall_app. split; [done|].
  eapply Forall_impl; [by apply format_digits|]. cbn. lia.
Qed.

Lemma commas_no_nul items : Forall (Forall (λ c, 0 < c)) items → Forall (λ c, 0 < c) (commas items).
Proof.
  induction 1 as [|x items Hx Hall IH]; [constructor|]. destruct items as [|y items]; [done|].
  rewrite commas_cons by done. apply Forall_app. split; [done|]. by apply Forall_cons.
Qed.

Definition prefix_options (fd : i32) (mode : u32) (uid : Uid) (gid : Gid) : list mount_option :=
  [FdOpt fd; RootMode (Z.land mode S_IFMT); UserId uid; GroupId gid].

Lemma prefix_commas fd mode uid gid :
  prefix fd mode uid gid = commas (print_option <$> prefix_options fd mode uid gid).
Proof. unfold prefix, prefix_options. cbn [fmap list_fmap commas print_option]. by rewrite <- !app_assoc. Qed.

Lemma prefix_trim fd mode uid gid : 0 ≤ gid → trim (prefix fd mode uid gid) = prefix fd mode uid gid.
Proof.
  intros Hg. destruct (format_plain 10 gid) as [_ Hl]; [lia|done|].
  apply trim_id; [by intros c [= <-]|]. intros c Hc. apply Hl. unfold prefix in Hc.
  rewrite !last_app in Hc. pose proof (format_nonempty 10 gid) as Hne.
  destruct (last (format 10 gid)) eqn:Hlast; [done|]. by apply last_None in Hlast.
Qed.

Lemma priv_options_spec opts fd mode uid gid :
  numbers_ok opts → 0 ≤ fd → 0 ≤ mode → 0 ≤ uid → 0 ≤ gid →
  let data := (encode_priv_options opts (Some (prefix fd mode uid gid))).(po_opts) in
  (∃ os, read_option <$> split_on 44 data = Some <$> prefix_options fd mode uid gid ++ os ∧
     NoDup os ∧ ∀ o, o ∈ os ↔ requested false opts o) ∧
  Forall (λ c, c ≠ 0) data.
Proof.
  intros Hok Hfd Hmode Huid Hgid data. set (os := flag_list false opts ++ common_list opts ++ []).
  destruct (flag_list_spec false opts) as (H1 & H1' & _). destruct (common_list_spec opts Hok) as (H2 & H2').
  assert (Forall option_ok os) as Hall by (unfold os; rewrite !Forall_app; done).
  assert (Forall option_ok (prefix_options fd mode uid gid)) as Hpre.
  { repeat (apply Forall_cons; split); cbn; try done. by apply Z.land_nonneg; left. }
  assert (data = commas (print_option <$> prefix_options fd mode uid gid ++ os)) as Hd.
  { unfold data, encode_priv_options. cbn [po_opts option_list app]. unfold os.
    rewrite app_nil_r, H1, H2, <- fmap_app, join_commas.
    - rewrite prefix_commas, (fmap_app _ (prefix_options _ _ _ _)). apply (commas_flat _ [_; _; _]).
    - apply Forall_cons. split; [by apply prefix_trim|]. apply Forall_fmap, Forall_app. split.
      + eapply Forall_impl; [exact H1'|]. intros o Ho. by apply print_option_ok.
      + eapply Forall_impl; [exact H2'|]. intros o Ho. by apply print_option_ok. }
  split.
  - exists os. split; [|split; [apply (sent_NoDup false)|intros o; by rewrite (requested_elem false)]].
    rewrite Hd, <- join_commas; [apply read_joined; [done|by apply Forall_app]|].
    apply Forall_fmap. eapply Forall_impl; [by apply Forall_app|]. intros o Ho. by apply print_option_ok.
  - rewrite Hd. eapply Forall_impl; [apply commas_no_nul|cbn; lia]. apply Forall_fmap, Forall_forall.
    intros o Ho. apply print_no_nul.
    + eapply Forall_forall; [|exact Ho]. by apply Forall_app.
    + apply elem_of_app in Ho as [Ho|Ho].
      { do 4 (apply elem_of_cons in Ho as [->|Ho]; [done|]). by apply elem_of_nil in Ho. }
      apply (requested_elem false) in Ho. destruct o; try done; unfold requested in Ho; naive_solver.
Qed.

(** The kernel gets exactly the options that were asked for.  The data of a
privileged [mount(2)] starts with the device's descriptor, the type of the root
in octal and the caller's ids, and holds each other requested option once and
nothing else; it has no NUL, so making a C string of it does not panic. *)
Theorem priv_options_roundtrip opts fd mode uid gid :
  numbers_ok opts → 0 ≤ fd → 0 ≤ mode → 0 ≤ uid → 0 ≤ gid →
  let data := (encode_priv_options opts (Some (prefix fd mode uid gid))).(po_opts) in
  (∃ os, read_option <$> split_on 44 data = Some <$> prefix_options fd mode uid gid ++ os ∧
     NoDup os ∧ ∀ o, o ∈ os ↔ requested false opts o) ∧
  Forall (λ c, c ≠ 0) data.
Proof. apply priv_options_spec. Qed.

End facts.

(** ** Instances *)

Definition declared_mount_flags : list u32 :=
  [4096; 128; 33554432; 64; 1024; 4; 2048; 8; 2; 1; 2097152; 32768; 16777216; 16].

Definition contained (declared : list u32) (flags : u32) : list u32 :=
  filter (λ f, Z.land flags f = f) declared.

#[export] Instance ref_mount_flags : MountFlagsApi := {|
  RDONLY := 1; NOSUID := 2; NODEV := 4; NOEXEC := 8; SYNCHRONOUS := 16; DIRSYNC := 128; NOATIME := 1024;
  MountFlags_iter := contained declared_mount_flags;
  bf_iter := contained;
|}.

#[export] Instance ref_mount_flags_spec : MountFlagsSpec.
Proof.
  split.
  - done.
  - intros flags. apply NoDup_filter. by apply (bool_decide_unpack _); vm_compute.
  - intros flags f Hf. change (f ∈ contained declared_mount_flags flags ↔ Z.land flags f = f).
    unfold contained. rewrite list_elem_of_filter. split; [tauto|]. intros Hl.
    split; [done|]. revert Hf. rewrite !list_elem_of_In. cbn. tauto.
  - intros declared flags _ Hn. by apply NoDup_filter.
  - intros declared flags f _ Hf. change (f ∈ contained declared flags ↔ Z.land flags f = f).
    unfold contained. rewrite list_elem_of_filter. tauto.
Qed.

Definition opts_example : MountOptions := {|
  mount_flags := 1 + 1024; fuse_flags := Z.lor AUTO_UNMOUNT ALLOW_OTHER; blksize := Some 512;
  max_read := None; subtype := Some (lit "myfs"); fsname := Some (lit "bradbury"); fusermount_path := None;
|}.

Lemma unpriv_options_roundtrip_witness :
  encode_unpriv_options opts_example =
    lit "noatime,ro,allow_other,auto_unmount,blksize=512,subtype=myfs,fsname=bradbury" ∧
  ∃ os, read_option <$> split_on 44 (encode_unpriv_options opts_example) = Some <$> os ∧ FsName (lit "bradbury") ∈ os.
Proof.
  split; [reflexivity|].
  assert (numbers_ok opts_example) as Hn by (split; intros n [= <-]; lia).
  assert (names_ok opts_example) as Hm.
  { split; intros s [= <-]; (split; [by apply (bool_decide_unpack _); vm_compute|intros c [= <-]; reflexivity]). }
  pose proof (unpriv_options_roundtrip opts_example Hn Hm) as H.
  destruct (decide (encode_unpriv_options opts_example = [])) as [He|_]; [discriminate He|].
  destruct H as (os & Hr & _ & Hin). exists os. split; [exact Hr|].
  apply Hin. do 5 right. split; [reflexivity|]. by eexists.
Defined.

Lemma priv_options_roundtrip_witness :
  let _ := ref_bitflags in let _ := linux_libc in
  let data := (encode_priv_options opts_example (Some (prefix 42 0x41ed 1001 422))).(po_opts) in
  data = lit "fd=42,rootmode=40000,user_id=1001,group_id=422,noatime,ro,allow_other,blksize=512" ∧
  Forall (λ c, c ≠ 0) data.
Proof.
  intros BF LC data. split; [reflexivity|].
  apply (@priv_options_roundtrip BF ref_mount_flags ref_mount_flags_spec LC opts_example 42 0x41ed 1001 422);
    [split; intros n [= <-]; lia|lia..].
Defined.

(** ** Names *)

Lemma split_last sep s t : Forall (λ c, c ≠ sep) t → last (split_on sep (s ++ sep :: t)) = Some t.
Proof.
  intros Ht. assert (split_on sep t = [t]) as Hs.
  { rewrite <- (app_nil_r t) at 1. rewrite split_on_app by done. cbn. by rewrite app_nil_r. }
  induction s as [|c s IH]; cbn.
  - by rewrite Z.eqb_refl, Hs.
  - destruct (c =? sep); [|destruct (split_on sep (s ++ sep :: t)) as [|w [|w' ws]] eqn:He].
    + rewrite last_cons, IH. done.
    + done.
    + exfalso. clear IH. revert w He. induction s as [|d s IHs]; intros w; cbn.
      * rewrite Z.eqb_refl, Hs. done.
      * destruct (d =? sep); [intros [= _ Hn]; by destruct s; cbn in Hn; repeat case_match|].
        destruct (split_on sep (s ++ sep :: t)) as [|u [|u' us]] eqn:Hu; [by destruct s; cbn in Hu; repeat case_match| |done].
        intros _. by apply (IHs u).
    + rewrite last_cons_cons in *. done.
Qed.

Lemma join_snoc sep items z : ∃ pre, join sep (items ++ [z]) = pre ++ trim z.
Proof.
  unfold join. rewrite foldl_app. cbn. destruct (foldl _ _ items) as [i acc]. cbn. by eexists.
Qed.

(** Names are not escaped.  A comma in the name of the filesystem starts a
new option: a caller who passes on a name it was given asks [fusermount] for
whatever option that name ends with. *)
Theorem fsname_injects_options `{MF : MountFlagsApi} opts name :
  opts.(fsname) = Some (name ++ lit ",allow_other") →
  last (split_on 44 (encode_unpriv_options opts)) = Some (print_option AllowOther).
Proof.
  intros Hn. set (z := lit "fsname=" ++ name ++ lit ",allow_other" : str).
  assert (∃ items : list str, encode_unpriv_options opts = join (lit ",") (items ++ [z])) as [items ->].
  { exists (iter_flags opts true ++ iter_common_opts opts ++
      option_list ((λ s, lit "subtype=" ++ s) <$> opts.(subtype))).
    unfold encode_unpriv_options. rewrite Hn, <- !app_assoc. done. }
  destruct (join_snoc (lit ",") items z) as [pre ->]. subst z. rewrite trim_id.
  - rewrite !app_assoc. apply split_last. by apply (bool_decide_unpack _); vm_compute.
  - by intros c [= <-].
  - intros c. rewrite !last_app. by intros [= <-].
Qed.

Lemma fsname_injects_options_witness :
  last (split_on 44 (encode_unpriv_options {| mount_flags := 0; fuse_flags := 0; blksize := None;
    max_read := None; subtype := None; fsname := Some (lit "a,allow_other"); fusermount_path := None |})) =
  Some (lit "allow_other").
Proof. by apply (fsname_injects_options _ (lit "a")). Defined.
