(* ===== verification/Mount.v ===== *)
(** * Mounting: [src/mount.rs] and [src/mount/]

The filesystem is mounted with [mount(2)] when the process may, and through
[fusermount] otherwise.  The calls on the system are parameters; ownership is
written out: a descriptor or a child that the source drops is dropped here. *)

From stdpp Require Import gmap.
From S2P Require Import Prelude Layout Kernel Crates Types Io Device MountOpts.
Local Open Scope Z_scope.

Definition Path := list byte.

Inductive arg := ArgStr (s : str) | ArgPath (p : Path).

Inductive Stdio := StdioNull | StdioPiped.

(** [std::process::Command], with the descriptor that [pre_exec] lets the child
inherit. *)
Record Command := {
  cmd_program : Path;
  cmd_args : list arg;
  cmd_env : list (str * str);
  cmd_stdin : Stdio;
  cmd_stdout : Stdio;
  cmd_stderr : Stdio;
  cmd_inherits : option Fd;
}.

Record Child := { child_id : Z; child_pipes : list Fd }.

(** [rustix::thread::capabilities] (the effective set), [stat] (the mode),
[getuid], [getgid], [mount(2)], [umount2(2)], [UnixStream::pair],
[Command::spawn], [Command::status], [Child::wait], [Child::wait_with_output]
(whether the child succeeded), [recvmsg] (the first descriptor passed with
[SCM_RIGHTS]), [fcntl(F_SETFD, FD_CLOEXEC)], and dropping a descriptor. *)
Class MountOs (W : Type) := {
  SYS_ADMIN : u64;
  UNMOUNT_DETACH : u32;
  path_exists (p : Path) (w : W) : bool;
  capabilities : M W Errno u64;
  fs_stat (p : Path) : M W Errno u32;
  getuid (w : W) : Uid;
  getgid (w : W) : Gid;
  sys_mount (source : str) (target : Path) (fstype : str) (flags : u32) (data : str) : M W Errno unit;
  sys_unmount (target : Path) (flags : u32) : M W Errno unit;
  socket_pair : M W io_error (Fd * Fd);
  spawn (c : Command) : M W io_error Child;
  command_status (c : Command) : M W io_error bool;
  child_wait (c : Child) : M W io_error bool;
  child_output (c : Child) : M W io_error bool;
  recvmsg (socket : Fd) : M W Errno (option Fd);
  set_cloexec (fd : Fd) : M W Errno unit;
  close (fd : Fd) (w : W) : W;
}.

Inductive UmountMode := Implicit (child : Child) (input : Fd) | Explicit.

Inductive MountKind := KindPriv | KindUnpriv (mode : UmountMode) | KindGone.

Record Mount := { m_kind : MountKind; m_mountpoint : Path; m_mountopts : MountOptions }.

Section mount.
Context {W : Type} `{MO : MountOs W} `{OD : OsDevice W}.
Context `{BF : Bitflags} `{MF : MountFlagsApi} `{RX : Rustix} `{L : Libc}.

(** A value that is moved out when [m] succeeds and dropped otherwise. *)
Definition owning {E A} (drop : W → W) (m : M W E A) : M W E A := λ w,
  match m w with
  | (Ok a, w') => (Ok a, w')
  | (Err e, w') => (Err e, drop w')
  | (Panic why, w') => (Panic why, drop w')
  | (UB, w') => (UB, w')
  end.

Definition drop_child (c : Child) (w : W) : W := foldr close w c.(child_pipes).

Definition FUSE_DEV_NAME : str := lit "/dev/fuse".

(** [CString::new(opts).expect("invalid opts")] *)
Definition c_string {E} (s : str) : outcome E str :=
  if existsb (Z.eqb 0) s then Panic "invalid opts" else Ok s.

Definition PrivMount_mount (mountpoint : Path) (mountopts : MountOptions) : M W io_error Fd :=
  caps ← io_err capabilities;
  if negb (bf_contains caps SYS_ADMIN) then lift (Err (Os Errno_PERM)) else
  mode ← io_err (fs_stat mountpoint);
  fd ← io_err open_fuse_dev;
  owning (close fd) (
    w ← get;
    let po := encode_priv_options mountopts (Some (prefix fd mode (getuid w) (getgid w))) in
    let source := match mountopts.(fsname) with
                  | Some s => s
                  | None => match mountopts.(subtype) with Some s => s | None => FUSE_DEV_NAME end
                  end in
    data ← lift (c_string po.(po_opts));
    _ ← io_err (sys_mount source mountpoint po.(fstype) mountopts.(mount_flags) data);
    mret fd).

Definition PrivMount_unmount (mountpoint : Path) : M W io_error unit :=
  io_err (sys_unmount mountpoint UNMOUNT_DETACH).

(** ** [fusermount] *)

Definition FUSERMOUNT_PROG : Path :=
  [Byte.x2f; Byte.x75; Byte.x73; Byte.x72; Byte.x2f; Byte.x62; Byte.x69; Byte.x6e; Byte.x2f; Byte.x66;
   Byte.x75; Byte.x73; Byte.x65; Byte.x72; Byte.x6d; Byte.x6f; Byte.x75; Byte.x6e; Byte.x74].

Definition FUSE_COMMFD_ENV : str := lit "_FUSE_COMMFD".

Definition the_fusermount_path (opts : MountOptions) : Path := default FUSERMOUNT_PROG opts.(fusermount_path).

Definition umount (mountpoint fusermount : Path) : M W io_error unit :=
  _ ← command_status {| cmd_program := fusermount;
         cmd_args := [ArgStr (lit "-u"); ArgStr (lit "-q"); ArgStr (lit "-z"); ArgStr (lit "--");
                      ArgPath mountpoint];
         cmd_env := []; cmd_stdin := StdioNull; cmd_stdout := StdioNull; cmd_stderr := StdioNull;
         cmd_inherits := None |};
  mret tt.

Definition receive_fd (reader : Fd) : M W io_error Fd :=
  got ← io_err (recvmsg reader);
  fd ← lift (ok_or got (Custom Other "recv_fd"));
  owning (close fd) (_ ← io_err (set_cloexec fd); mret fd).

Definition fusermount_command (mountpoint : Path) (mountopts : MountOptions) (output : Fd) : Command :=
  let opts := encode_unpriv_options mountopts in {|
    cmd_program := the_fusermount_path mountopts;
    cmd_args :=
      (if bool_decide (opts = []) then [] else [ArgStr (lit "-o"); ArgStr opts]) ++
      [ArgStr (lit "--"); ArgPath mountpoint];
    cmd_env := [(FUSE_COMMFD_ENV, format 10 output)];
    cmd_stdin := StdioNull; cmd_stdout := StdioPiped; cmd_stderr := StdioPiped;
    cmd_inherits := Some output |}.

(** [output] is in a [ManuallyDrop]: nothing closes it. *)
Definition UnprivMount_mount (mountpoint : Path) (mountopts : MountOptions)
    : M W io_error (Fd * UmountMode) :=
  '(input, output) ← socket_pair;
  owning (close input) (
    child ← spawn (fusermount_command mountpoint mountopts output);
    fd ← owning (drop_child child) (receive_fd input);
    if bf_contains mountopts.(fuse_flags) AUTO_UNMOUNT then mret (fd, Implicit child input)
    else owning (close fd) (
      success ← child_output child;
      if negb success then
        _ ← umount mountpoint (the_fusermount_path mountopts);
        lift (Err (Os Errno_INVAL))
      else
        _ ← modify (close input);
        mret (fd, Explicit))).

Definition UnprivMount_unmount (mode : UmountMode) (mountpoint : Path) (mountopts : MountOptions)
    : M W io_error unit :=
  match mode with
  | Implicit child input =>
      _ ← modify (close input);
      _ ← owning (drop_child child) (child_wait child);
      modify (drop_child child)
  | Explicit => umount mountpoint (the_fusermount_path mountopts)
  end.

(** ** [Mount] *)

Definition is_priviledged (self : Mount) : bool := match self.(m_kind) with KindPriv => true | _ => false end.

Definition unmount_ : M (Mount * W) io_error unit := λ '(self, w),
  let gone := {| m_kind := KindGone; m_mountpoint := self.(m_mountpoint);
                 m_mountopts := self.(m_mountopts) |} in
  match self.(m_kind) with
  | KindPriv => let (r, w') := PrivMount_unmount self.(m_mountpoint) w in (r, (gone, w'))
  | KindUnpriv mode =>
      let (r, w') := UnprivMount_unmount mode self.(m_mountpoint) self.(m_mountopts) w in (r, (gone, w'))
  | KindGone => (Ok tt, (gone, w))
  end.

(** [Drop for Mount] *)
Definition Mount_drop (self : Mount) (w : W) : W := (unmount_ (self, w)).2.2.

(** [Mount::unmount] takes the mount, which is dropped at its end. *)
Definition Mount_unmount (self : Mount) : M W io_error unit := λ w,
  let '(r, (self', w')) := unmount_ (self, w) in (r, Mount_drop self' w').

Definition restrict_flags (opts : MountOptions) : MountOptions := {|
  mount_flags := bf_intersection opts.(mount_flags) ALLOWED_MOUNT_FLAGS;
  fuse_flags := opts.(fuse_flags); blksize := opts.(blksize); max_read := opts.(max_read);
  subtype := opts.(subtype); fsname := opts.(fsname); fusermount_path := opts.(fusermount_path);
|}.

Definition mount (mountpoint : Path) (mountopts : MountOptions) : M W io_error (Fd * Mount) :=
  let mountopts := restrict_flags mountopts in
  w ← get;
  if negb (path_exists mountpoint w)
  then lift (Err (Custom NotFound "The specified mountpoint does not exist")) else
  r ← attempt (PrivMount_mount mountpoint mountopts);
  match r with
  | inl fd => mret (fd, {| m_kind := KindPriv; m_mountpoint := mountpoint; m_mountopts := mountopts |})
  | inr err =>
      if bool_decide (Errno_from_io_error err = Some Errno_PERM) then
        '(fd, mode) ← UnprivMount_mount mountpoint mountopts;
        mret (fd, {| m_kind := KindUnpriv mode; m_mountpoint := mountpoint; m_mountopts := mountopts |})
      else lift (Err err)
  end.

End mount.

(** ** Descriptors

[open_fds] is the set of descriptors the process has open.  The calls open and
close what their documentation says; only the pipes of a spawned child come with
the child. *)

Section facts.
Context {W : Type} `{MO : MountOs W} `{OD : OsDevice W} (open_fds : W → gset Fd).
Context `{BF : Bitflags} {HBF : BitflagsSpec} `{MF : MountFlagsApi} {HMF : MountFlagsSpec}.
Context `{RX : Rustix} {HRX : RustixSpec} `{L : Libc} {HL : LibcLinux L}.

Definition keeps {E A} (m : M W E A) : Prop := ∀ w,
  match m w with
  | (Ok _, w') | (Err _, w') => open_fds w' = open_fds w
  | _ => False
  end.

(** On success, the descriptors [new] of the result are open in addition. *)
Definition opens {E A} (m : M W E A) (new : A → gset Fd) : Prop := ∀ w,
  match m w with
  | (Ok a, w') => new a ## open_fds w ∧ open_fds w' = new a ∪ open_fds w
  | (Err _, w') => open_fds w' = open_fds w
  | _ => False
  end.

Definition child_fds (c : Child) : gset Fd := list_to_set c.(child_pipes).

Class MountOsSpec : Prop := {
  os_close fd w : open_fds (close fd w) = open_fds w ∖ {[fd]};
  os_capabilities : keeps capabilities;
  os_stat p : keeps (fs_stat p);
  os_stat_mode p w mode w' : fs_stat p w = (Ok mode, w') → is_u 32 mode;
  os_uid w : is_u 32 (getuid w);
  os_gid w : is_u 32 (getgid w);
  os_mount source target fstype flags data : keeps (sys_mount source target fstype flags data);
  os_unmount target flags : keeps (sys_unmount target flags);
  os_status c : keeps (command_status c);
  os_set_cloexec fd : keeps (set_cloexec fd);
  os_wait c : keeps (child_wait c);
  os_open_dev : opens open_fuse_dev (λ fd, {[fd]});
  os_open_dev_fd w fd w' : open_fuse_dev w = (Ok fd, w') → 0 ≤ fd;
  os_pair : opens socket_pair (λ p, {[p.1; p.2]});
  os_pair_distinct w p w' : socket_pair w = (Ok p, w') → p.1 ≠ p.2;
  os_spawn c : opens (spawn c) child_fds;
  os_recvmsg s : opens (recvmsg s) (λ got, match got with Some fd => {[fd]} | None => ∅ end);
  os_output c w : match child_output c w with
    | (Ok _, w') | (Err _, w') => open_fds w' = open_fds w ∖ child_fds c
    | _ => False
    end;
}.

Context {HMO : MountOsSpec}.

Lemma drop_child_fds c w : open_fds (drop_child c w) = open_fds w ∖ child_fds c.
Proof.
  unfold drop_child, child_fds. destruct c as [id pipes]. cbn.
  induction pipes as [|fd pipes IH]; cbn; [set_solver|]. rewrite os_close, IH. set_solver.
Qed.

Lemma io_err_keeps {A} (m : M W Errno A) : keeps m → keeps (io_err m).
Proof. intros Hm w. specialize (Hm w). unfold io_err. by destruct (m w) as [[]]. Qed.

Lemma io_err_opens {A} (m : M W Errno A) new : opens m new → opens (io_err m) new.
Proof. intros Hm w. specialize (Hm w). unfold io_err. by destruct (m w) as [[]]. Qed.

Lemma c_string_ok {E} s : Forall (λ c, c ≠ 0) s → c_string (E:=E) s = Ok s.
Proof.
  intros Hs. unfold c_string. assert (existsb (Z.eqb 0) s = false) as ->; [|done].
  induction Hs as [|c s Hc Hs IH]; [done|]. cbn [existsb]. rewrite IH, orb_false_r.
  apply Z.eqb_neq. lia.
Qed.

Lemma prefix_data_ok opts fd mode w :
  numbers_ok opts → 0 ≤ fd → 0 ≤ mode →
  ∀ E, c_string (E:=E)
    (po_opts (encode_priv_options opts (Some (prefix fd mode (getuid w) (getgid w))))) =
    Ok (po_opts (encode_priv_options opts (Some (prefix fd mode (getuid w) (getgid w))))).
Proof.
  intros Hn Hfd Hm E. apply c_string_ok.
  pose proof (os_uid w) as [Hu _]. pose proof (os_gid w) as [Hg _].
  by destruct (priv_options_spec opts fd mode (getuid w) (getgid w)) as [_ H].
Qed.

(** Undoing an opening. *)
Lemma drop_new (new old : gset Fd) : new ## old → (new ∪ old) ∖ new = old.
Proof. set_solver. Qed.

Lemma PrivMount_opens mountpoint opts :
  numbers_ok opts → opens (PrivMount_mount mountpoint opts) (λ fd, {[fd]}).
Proof.
  intros Hn w. unfold PrivMount_mount, mbind, M_bind.
  pose proof (io_err_keeps _ os_capabilities w) as H1.
  destruct (io_err capabilities w) as [[caps|e|why|] w1]; try done.
  destruct (negb _); [done|].
  pose proof (io_err_keeps _ (os_stat mountpoint) w1) as H2.
  pose proof (os_stat_mode mountpoint w1) as Hmode. unfold io_err at 1 in H2. unfold io_err at 1.
  destruct (fs_stat mountpoint w1) as [[mode|e|why|] w2]; cbn [map_err] in H2 |- *; try done; [|congruence].
  destruct (Hmode mode w2 eq_refl) as [Hm _].
  pose proof (io_err_opens _ _ os_open_dev w2) as H3.
  pose proof (os_open_dev_fd w2) as Hfd. unfold io_err at 1 in H3. unfold io_err at 1.
  destruct (open_fuse_dev w2) as [[fd|e|why|] w3]; cbn [map_err] in H3 |- *; try done; [|congruence].
  destruct H3 as [Hd H3]. specialize (Hfd fd w3 eq_refl).
  unfold owning, get, lift. cbv zeta. rewrite prefix_data_ok by done.
  match goal with |- context [sys_mount ?a ?b ?c ?d ?e] => pose proof (io_err_keeps _ (os_mount a b c d e) w3) as H4;
    destruct (io_err (sys_mount a b c d e) w3) as [[[]|e'|why|] w4] end; try done.
  - rewrite <- H1, <- H2. split; [done|]. congruence.
  - rewrite os_close, H4, H3, drop_new by done. congruence.
Qed.

Lemma receive_fd_opens s : opens (receive_fd s) (λ fd, {[fd]}).
Proof.
  intros w. unfold receive_fd, mbind, M_bind.
  pose proof (io_err_opens _ _ (os_recvmsg s) w) as H1.
  destruct (io_err (recvmsg s) w) as [[[fd|]|e|why|] w1]; cbn; try done.
  - destruct H1 as [Hd H1]. unfold owning.
    pose proof (io_err_keeps _ (os_set_cloexec fd) w1) as H2.
    destruct (io_err (set_cloexec fd) w1) as [[u|e|why|] w2]; cbn; try done.
    + split; [done|congruence].
    + by rewrite os_close, H2, H1, drop_new.
  - destruct H1 as [_ ->]. set_solver.
Qed.

Lemma umount_keeps mountpoint path : keeps (umount mountpoint path).
Proof.
  intros w. unfold umount, mbind, M_bind. match goal with |- context [command_status ?c] =>
    pose proof (os_status c w) as H; destruct (command_status c w) as [[b|e|why|] w1] end; done.
Qed.

(** A privileged mount fails, with the given error, and leaves no descriptor open. *)
Definition priv_refused (mountpoint : Path) (opts : MountOptions) (w : W) (e : io_error) (w1 : W) : Prop :=
  PrivMount_mount mountpoint (restrict_flags opts) w = (Err e, w1) ∧ open_fds w1 = open_fds w.

(** The process may not mount, and the socket for [fusermount] is made: [leaked] is the
end that the child inherits. *)
Definition fusermount_socket (mountpoint : Path) (opts : MountOptions) (w : W) (leaked : Fd) : Prop :=
  ∃ e w1 input w2, priv_refused mountpoint opts w e w1 ∧
    Errno_from_io_error e = Some Errno_PERM ∧ socket_pair w1 = (Ok (input, leaked), w2).

(** The descriptors a mount keeps until it is unmounted. *)
Definition mode_fds (mode : UmountMode) : gset Fd :=
  match mode with Implicit child input => {[input]} ∪ child_fds child | Explicit => ∅ end.

Lemma UnprivMount_fds mountpoint opts w :
  match UnprivMount_mount mountpoint opts w with
  | (Ok (fd, mode), w') => ∃ input output w1, socket_pair w = (Ok (input, output), w1) ∧
      fd ∉ open_fds w ∧ output ∉ open_fds w ∧ mode_fds mode ## open_fds w ∧
      fd ≠ output ∧ output ∉ mode_fds mode ∧ open_fds w' = {[fd; output]} ∪ mode_fds mode ∪ open_fds w
  | (Err e, w') => (socket_pair w = (Err e, w') ∧ open_fds w' = open_fds w) ∨
      ∃ input output w1, socket_pair w = (Ok (input, output), w1) ∧
        output ∉ open_fds w ∧ open_fds w' = {[output]} ∪ open_fds w
  | _ => False
  end.
Proof.
  unfold UnprivMount_mount, mbind, M_bind. pose proof (os_pair w) as H1. pose proof (os_pair_distinct w) as Hne.
  destruct (socket_pair w) as [[[input output]|e|why|] w1]; try done; [|by left].
  destruct H1 as [Hd1 H1]. specialize (Hne _ _ eq_refl). cbn in Hd1, H1, Hne. unfold owning at 1.
  assert (output ∉ open_fds w) as Hout by set_solver.
  match goal with |- context [spawn ?c] => pose proof (os_spawn c w1) as H2; destruct (spawn c w1) as [[child|e|why|] w2] end;
    try done; [|right; exists input, output, w1; split; [done|]; split; [done|]; rewrite os_close, H2, H1; set_solver].
  destruct H2 as [Hd2 H2]. unfold owning at 1.
  pose proof (receive_fd_opens input w2) as H3.
  destruct (receive_fd input w2) as [[fd|e|why|] w3]; try done;
    [|right; exists input, output, w1; split; [done|]; split; [done|];
      rewrite os_close, drop_child_fds, H3, H2, H1; set_solver].
  destruct H3 as [Hd3 H3]. destruct (bf_contains _ _).
  - exists input, output, w1. cbn. rewrite H3, H2, H1. set_solver.
  - unfold owning. pose proof (os_output child w3) as H4.
    destruct (child_output child w3) as [[ok|e|why|] w4]; cbn; try done;
      [|right; exists input, output, w1; split; [done|]; split; [done|];
        rewrite !os_close, H4, H3, H2, H1; set_solver].
    destruct ok; cbn.
    + exists input, output, w1. rewrite os_close, H4, H3, H2, H1. set_solver.
    + pose proof (umount_keeps mountpoint (the_fusermount_path opts) w4) as H5.
      destruct (umount _ _ w4) as [[u|e|why|] w5]; cbn; try done;
        (right; exists input, output, w1; split; [done|]; split; [done|];
          rewrite !os_close, H5, H4, H3, H2, H1; set_solver).
Qed.

Lemma allowed_flags_value : ALLOWED_MOUNT_FLAGS = 0x49f.
Proof.
  unfold ALLOWED_MOUNT_FLAGS. rewrite !bf_union_spec, bf_empty_spec.
  destruct flag_values as (-> & -> & -> & -> & -> & -> & ->). done.
Qed.

Lemma unmount_gone m w : m.(m_kind) = KindGone → unmount_ (m, w) = (Ok tt, (m, w)).
Proof. destruct m as [kind mp opts]. cbn. by intros ->. Qed.

Lemma UnprivMount_unmount_fds mode mountpoint opts w :
  open_fds (UnprivMount_unmount mode mountpoint opts w).2 = open_fds w ∖ mode_fds mode.
Proof.
  destruct mode as [child input|]; cbn [UnprivMount_unmount mode_fds].
  - unfold mbind, M_bind, modify, owning.
    pose proof (os_wait child (close input w)) as H. rewrite os_close in H.
    destruct (child_wait child (close input w)) as [[b|e|why|] w1]; try done; cbn;
      rewrite drop_child_fds, H; set_solver.
  - pose proof (umount_keeps mountpoint (the_fusermount_path opts) w) as H.
    destruct (umount mountpoint (the_fusermount_path opts) w) as [[]]; try done; cbn; set_solver.
Qed.

Lemma unmount_fds m w :
  (unmount_ (m, w)).2.1.(m_kind) = KindGone ∧
  open_fds (unmount_ (m, w)).2.2 =
    open_fds w ∖ match m.(m_kind) with KindUnpriv mode => mode_fds mode | _ => ∅ end.
Proof.
  destruct m as [kind mp opts]. cbn [unmount_ m_kind m_mountpoint m_mountopts]. destruct kind as [|mode|].
  - pose proof (io_err_keeps _ (os_unmount mp UNMOUNT_DETACH) w) as H1. fold (PrivMount_unmount mp) in H1.
    destruct (PrivMount_unmount mp w) as [[] w']; try done; (split; [done|]); cbn; set_solver.
  - pose proof (UnprivMount_unmount_fds mode mp opts w) as H1.
    destruct (UnprivMount_unmount mode mp opts w) as [r w']. done.
  - split; [done|]. cbn. set_solver.
Qed.

(** C39: mounting gives a mount that can be undone and accounts for the
descriptors it opens.  On success the result holds a new descriptor, the mount
point, and only flags that are allowed.  A privileged mount opens nothing else, and
undoing it (dropping the mount and the device) leaves open what was open before.  A
mount through [fusermount], to which the code turns only when the privileged mount
was refused with EPERM, also leaves open its end of the socket it gave to the child,
and that one stays open when everything is undone.  A failure leaves nothing open,
whether the mount point is missing, the privileged mount failed with another error or
the socket could not be made; only a failure after the socket was made leaves exactly
the one end of it open. *)
Theorem mount_descriptors mountpoint opts w :
  numbers_ok opts →
  match mount mountpoint opts w with
  | (Ok (fd, m), w') =>
      fd ∉ open_fds w ∧ m.(m_mountpoint) = mountpoint ∧
      Z.land m.(m_mountopts).(mount_flags) 0x49f = m.(m_mountopts).(mount_flags) ∧
      match m.(m_kind) with
      | KindPriv => open_fds w' = {[fd]} ∪ open_fds w ∧
          open_fds (close fd (Mount_drop m w')) = open_fds w
      | KindUnpriv mode => ∃ leaked, fusermount_socket mountpoint opts w leaked ∧
          leaked ∉ open_fds w ∧ leaked ≠ fd ∧
          open_fds w' = {[fd; leaked]} ∪ mode_fds mode ∪ open_fds w ∧
          open_fds (close fd (Mount_drop m w')) = {[leaked]} ∪ open_fds w
      | KindGone => False
      end
  | (Err e, w') =>
      (path_exists mountpoint w = false ∧ w' = w) ∨
      (priv_refused mountpoint opts w e w' ∧ Errno_from_io_error e ≠ Some Errno_PERM) ∨
      (∃ e1 w1, priv_refused mountpoint opts w e1 w1 ∧ socket_pair w1 = (Err e, w') ∧
         open_fds w' = open_fds w) ∨
      (∃ leaked, fusermount_socket mountpoint opts w leaked ∧
         leaked ∉ open_fds w ∧ open_fds w' = {[leaked]} ∪ open_fds w)
  | _ => False
  end.
Proof.
  intros Hn. unfold mount, mbind, M_bind, get. destruct (path_exists _ _) eqn:Hex; [|by left].
  cbn [negb].
  assert (Z.land (mount_flags (restrict_flags opts)) 0x49f = mount_flags (restrict_flags opts)) as Hfl.
  { unfold restrict_flags. cbn [mount_flags]. rewrite bf_intersection_spec, allowed_flags_value, <- Z.land_assoc.
    by rewrite Z.land_diag. }
  pose proof (PrivMount_opens mountpoint (restrict_flags opts) Hn w) as H1. unfold attempt.
  destruct (PrivMount_mount mountpoint (restrict_flags opts) w) as [[fd|e|why|] w1] eqn:Hp; try done.
  - destruct H1 as [Hd H1]. cbn [m_kind m_mountpoint m_mountopts].
    split; [set_solver|]. split; [done|]. split; [exact Hfl|]. split; [exact H1|].
    rewrite os_close. unfold Mount_drop. rewrite (proj2 (unmount_fds _ _)), H1. cbn. set_solver.
  - assert (priv_refused mountpoint opts w e w1) as Hpr by by split.
    destruct (bool_decide _) eqn:Hperm; [|right; left; split; [done|by apply bool_decide_eq_false in Hperm]].
    apply bool_decide_eq_true in Hperm.
    pose proof (UnprivMount_fds mountpoint (restrict_flags opts) w1) as H2. rewrite H1 in H2.
    destruct (UnprivMount_mount mountpoint (restrict_flags opts) w1) as [[[fd mode]|e'|why|] w2]; try done.
    + destruct H2 as (input & output & w3 & Hs & Hfd & Ho & Hm & Hne & Hom & H2).
      cbn [m_kind m_mountpoint m_mountopts].
      split_and!; [done|done|exact Hfl|]. exists output. split_and!; [by exists e, w1, input, w3|done|done|done|].
      rewrite os_close. unfold Mount_drop. rewrite (proj2 (unmount_fds _ _)), H2. cbn [m_kind]. set_solver.
    + destruct H2 as [[Hs H2]|(input & output & w3 & Hs & Ho & H2)]; right; right.
      * left. by exists e, w1.
      * right. exists output. split_and!; [by exists e, w1, input, w3|done|done].
Qed.

(** C40: a filesystem is unmounted once.  Unmounting leaves the mount gone,
whether or not the call succeeded, and closes what the mount kept open; every
further attempt, and in particular the destructor that runs when an explicit
unmount returns, does nothing. *)
Theorem unmount_once m w :
  let '(r, (m', w')) := unmount_ (m, w) in
  m'.(m_kind) = KindGone ∧
  open_fds w' = open_fds w ∖ match m.(m_kind) with KindUnpriv mode => mode_fds mode | _ => ∅ end ∧
  unmount_ (m', w') = (Ok tt, (m', w')) ∧
  Mount_unmount m w = (r, w') ∧ Mount_drop m w = w'.
Proof.
  pose proof (unmount_fds m w) as [Hk Ho]. unfold Mount_unmount, Mount_drop.
  destruct (unmount_ (m, w)) as [r [m' w']]. cbn in Hk, Ho. rewrite unmount_gone by done. done.
Qed.

End facts.

(** ** A reference system

The open descriptors, whether the process has [CAP_SYS_ADMIN], and the mount
points. *)

Record System := { sys_fds : list Fd; sys_admin : bool; sys_mounted : list Path }.

Definition next_fd (fds : list Fd) : Fd := 1 + foldr Z.max 2 fds.

Definition set_fds (fds : list Fd) (w : System) : System :=
  {| sys_fds := fds; sys_admin := w.(sys_admin); sys_mounted := w.(sys_mounted) |}.

Definition new_fd {E} : M System E Fd := λ w,
  let fd := next_fd w.(sys_fds) in (Ok fd, set_fds (fd :: w.(sys_fds)) w).

Definition close_fd (fd : Fd) (w : System) : System := set_fds (filter (λ x, x ≠ fd) w.(sys_fds)) w.

Definition set_mounted (f : list Path → list Path) : M System Errno unit := λ w,
  (Ok tt, {| sys_fds := w.(sys_fds); sys_admin := w.(sys_admin); sys_mounted := f w.(sys_mounted) |}).

#[export] Instance ref_mount_os : MountOs System := {|
  SYS_ADMIN := Z.shiftl 1 21;
  UNMOUNT_DETACH := 2;
  path_exists p w := true;
  capabilities := λ w, (Ok (if w.(sys_admin) then Z.shiftl 1 21 else 0), w);
  fs_stat p := λ w, (Ok 0x41ed, w);
  getuid w := 1000;
  getgid w := 1000;
  sys_mount source target fstype flags data := set_mounted (cons target);
  sys_unmount target flags := set_mounted (filter (λ p, p ≠ target));
  socket_pair := (a ← new_fd; b ← new_fd; mret (a, b));
  spawn c := (a ← new_fd; mret {| child_id := 1; child_pipes := [a] |});
  command_status c := λ w, (Ok true, w);
  child_wait c := λ w, (Ok true, w);
  child_output c := λ w, (Ok true, foldr close_fd w c.(child_pipes));
  recvmsg s := (a ← new_fd; mret (Some a));
  set_cloexec fd := λ w, (Ok tt, w);
  close := close_fd;
|}.

#[export] Instance ref_mount_device : OsDevice System := {|
  fd_read fd n := λ w, (Err 5, w);
  fd_readv fd sizes := λ w, (Err 5, w);
  fd_write fd buf := λ w, (Err 5, w);
  fd_writev fd bufs := λ w, (Err 5, w);
  fd_splice_in fd len data := λ w, (Err 5, w);
  fd_splice_out fd len data := λ w, (Err 5, w);
  open_fuse_dev := new_fd;
  ioc_clone newfd fd := λ w, (Ok tt, w);
|}.

Definition sys_open (w : System) : gset Fd := list_to_set w.(sys_fds).

Lemma next_fd_above fds fd : fd ∈ fds → fd < next_fd fds.
Proof.
  unfold next_fd. induction 1 as [fds|x y fds Hx IH]; cbn; lia.
Qed.

Lemma next_fd_fresh (w : System) : next_fd w.(sys_fds) ∉ sys_open w.
Proof. unfold sys_open. rewrite elem_of_list_to_set. intros H%next_fd_above. lia. Qed.

Lemma sys_open_close fd w : sys_open (close_fd fd w) = sys_open w ∖ {[fd]}.
Proof.
  unfold sys_open, close_fd. cbn. apply set_eq. intros x.
  rewrite elem_of_difference, !elem_of_list_to_set, list_elem_of_filter, elem_of_singleton. tauto.
Qed.

Lemma next_fd_nonneg fds : 0 ≤ next_fd fds.
Proof. unfold next_fd. induction fds; cbn; lia. Qed.

#[export] Instance ref_mount_os_spec : MountOsSpec sys_open.
Proof.
  split; try (by intros; hnf; intros; cbn); try by intros ? w; cbn.
  - intros fd w. apply sys_open_close.
  - intros p w mode w' [= <- _]. done.
  - intros w. pose proof (next_fd_fresh w). cbn. set_solver.
  - intros w fd w' [= <- _]. apply next_fd_nonneg.
  - intros w. pose proof (next_fd_fresh w) as H1.
    pose proof (next_fd_fresh (set_fds (next_fd (sys_fds w) :: sys_fds w) w)) as H2.
    unfold sys_open in *. cbn in *. set_solver.
  - intros w p w' [= <- _]. cbn. pose proof (next_fd_fresh (set_fds (next_fd (sys_fds w) :: sys_fds w) w)) as H2.
    unfold sys_open in *. cbn in *. set_solver.
  - intros c w. pose proof (next_fd_fresh w). unfold sys_open, child_fds in *. cbn. set_solver.
  - intros s w. pose proof (next_fd_fresh w). unfold sys_open in *. cbn. set_solver.
  - intros [id pipes] w. change (sys_open (foldr close_fd w pipes) = sys_open w ∖ list_to_set pipes).
    induction pipes as [|fd pipes IH]; [set_solver|].
    change (foldr close_fd w (fd :: pipes)) with (close_fd fd (foldr close_fd w pipes)).
    rewrite sys_open_close, IH. set_solver.
Qed.

Section instances.
#[local] Instance inst_bf : Bitflags := ref_bitflags.
#[local] Instance inst_bf_spec : BitflagsSpec := ref_bitflags_spec.
#[local] Instance inst_rx : Rustix := ref_rustix.
#[local] Instance inst_rx_spec : RustixSpec := ref_rustix_spec.
#[local] Instance inst_libc : Libc := linux_libc.
#[local] Instance inst_libc_linux : LibcLinux linux_libc := ref_libc_linux.

Definition user_system : System := {| sys_fds := [0; 1; 2]; sys_admin := false; sys_mounted := [] |}.
Definition mountpoint_example : Path := [Byte.x2f; Byte.x6d].

(** The new descriptor, the socket and the child's pipe are 6, 3 and 5; 4 is the
end of the socket that stays open. *)
Lemma mount_descriptors_witness :
  let '(r, w') := mount mountpoint_example opts_example user_system in
  ∃ m, r = Ok (6, m) ∧ 6 ∉ sys_open user_system ∧
    m.(m_kind) = KindUnpriv (Implicit {| child_id := 1; child_pipes := [5] |} 3) ∧
    sys_open w' = {[0; 1; 2; 3; 4; 5; 6]}.
Proof.
  pose proof (mount_descriptors sys_open mountpoint_example opts_example user_system
    ltac:(split; intros n [= <-]; lia)) as H.
  destruct (mount mountpoint_example opts_example user_system) as [r w'] eqn:Hm.
  vm_compute in Hm. injection Hm as <- <-. destruct H as [Hfd _].
  eexists. split; [reflexivity|]. split; [exact Hfd|]. split; [reflexivity|]. set_solver.
Defined.

Lemma unmount_once_witness :
  let m := {| m_kind := KindPriv; m_mountpoint := mountpoint_example; m_mountopts := opts_example |} in
  let w := {| sys_fds := [0]; sys_admin := true; sys_mounted := [mountpoint_example; mountpoint_example] |} in
  (Mount_unmount m w).2.(sys_mounted) = [] ∧ Mount_drop m w = (Mount_unmount m w).2.
Proof.
  intros m w. split; [reflexivity|].
  pose proof (unmount_once sys_open m w) as H.
  destruct (unmount_ (m, w)) as [r [m' w']]. destruct H as (_ & _ & _ & -> & ->). reflexivity.
Defined.

End instances.
