(* ===== verification/Connect.v ===== *)
(** * Connecting: [src/connect.rs]

Before a session exists, [connect] answers INIT requests until one is accepted.
The loop reads from the kernel and need not end, so it is run with fuel: one unit
per request received. *)

From S2P Require Import Prelude Layout Kernel Crates Types Bytes Init Msg Header Io.
From S2P Require Import Device Sim Buf Session MountOpts Mount.
Local Open Scope Z_scope.

(** How an iteration ends: [continue], or [return]. *)
Inductive control := Continue | Return (session : Session).

Section connect.
Context {W : Type} `{OS : OsPipe W} `{CN : SpliceRead W} `{IW : IoWrite W}.
Context `{BF : Bitflags} `{ZC : Zerocopy} `{RX : Rustix} `{PR : Profile}.

(** Calls that use one of the local variables [config], [buf], or the device. *)
Definition on_config {E A} (m : M KernelConfig E A) : M (KernelConfig * RequestBuf * W) E A :=
  λ '(config, buf, w), let (r, config') := m config in (r, (config', buf, w)).
Definition on_buf {E A} (m : M (RequestBuf * W) E A) : M (KernelConfig * RequestBuf * W) E A :=
  λ '(config, buf, w), let '(r, (buf', w')) := m (buf, w) in (r, (config, buf', w')).
Definition on_device {E A} (m : M W E A) : M (KernelConfig * RequestBuf * W) E A :=
  λ '(config, buf, w), let (r, w') := m w in (r, (config, buf, w')).

Definition is_init (opcode : outcome u32 fuse_opcode) : bool :=
  match opcode with Ok FUSE_INIT => true | _ => false end.

(** [let mut out = fuse_init_out::new_zeroed(); out.major = ..; out.minor = ..;] *)
Definition version_out : fuse_init_out :=
  let z : fuse_init_out := zc_new_zeroed in {|
    init_out_major := FUSE_KERNEL_VERSION;
    init_out_minor := FUSE_KERNEL_MINOR_VERSION;
    init_out_max_readahead := z.(init_out_max_readahead);
    init_out_flags := z.(init_out_flags);
    init_out_max_background := z.(init_out_max_background);
    init_out_congestion_threshold := z.(init_out_congestion_threshold);
    init_out_max_write := z.(init_out_max_write);
    init_out_time_gran := z.(init_out_time_gran);
    init_out_max_pages := z.(init_out_max_pages);
    init_out_map_alignment := z.(init_out_map_alignment);
    init_out_flags2 := z.(init_out_flags2);
    init_out_max_stack_depth := z.(init_out_max_stack_depth);
    init_out_request_timeout := z.(init_out_request_timeout);
    init_out_unused := z.(init_out_unused);
  |}.

(** The answer to an INIT request. *)
Definition handshake_init (header : InHeader) (init_in : InitIn)
    : M (KernelConfig * RequestBuf * W) io_error control :=
  r ← on_config (attempt (negotiate init_in));
  match r with
  | inl tt =>
      '(config, _, _) ← get;
      _ ← on_device (send_msg (Reply (InHeader_unique header) None) u8_slice_Bytes
                       (InitOut_to_bytes (to_out config)));
      mret (Return (Session_new config))
  | inr TooLargeProtocolVersion =>
      _ ← on_device (send_msg (Reply (InHeader_unique header) None) u8_slice_Bytes
                       (zc_as_bytes version_out));
      mret Continue
  | inr TooSmallProtocolVersion =>
      _ ← on_device (send_msg (Reply (InHeader_unique header) (Some Errno_PROTO)) unit_Bytes tt);
      mret Continue
  end.

(** One iteration of the loop.  [addr] is the address of the argument. *)
Definition handshake_step (addr : Z) : M (KernelConfig * RequestBuf * W) io_error control :=
  _ ← on_buf RequestBuf_try_receive;
  '(_, buf, _) ← get;
  '(header, arg, _remains) ← lift (to_parts buf);
  if negb (is_init (InHeader_opcode header)) then mret Continue else
  init_in ← lift (ok_or (InitIn_from_bytes addr arg) (Os Errno_INVAL));
  handshake_init header init_in.

(** [None]: the fuel did not suffice. *)
Fixpoint handshake_loop (fuel : nat) (addr : Z)
    : M (KernelConfig * RequestBuf * W) io_error (option Session) :=
  match fuel with
  | O => mret None
  | S fuel =>
      c ← handshake_step addr;
      match c with
      | Continue => handshake_loop fuel addr
      | Return session => mret (Some session)
      end
  end.

(** The loop with its local variables. *)
Definition with_locals (config : KernelConfig) {E A} (m : M (KernelConfig * RequestBuf * W) E A)
    (buf : RequestBuf) : M W E A := λ w,
  let '(r, (_, _, w')) := m (config, buf, w) in (r, w').

(** [connect] once the filesystem is mounted. *)
Definition handshake (fuel : nat) (addr : Z) (config : KernelConfig) : M W io_error (option Session) :=
  lift (RequestBuf_new_vec FUSE_MIN_READ_BUFFER) ≫= with_locals config (handshake_loop fuel addr).

End connect.

(** The whole of [connect]: the filesystem is mounted, and when the handshake
fails the device is closed and the filesystem unmounted. *)
Definition connect {W} `{OS : OsPipe W} `{OD : OsDevice W} `{MO : MountOs W} `{BF : Bitflags}
    `{ZC : Zerocopy} `{RX : Rustix} `{L : Libc} `{MF : MountFlagsApi} `{PR : Profile}
    (fuel : nat) (addr : Z) (mountpoint : Path) (mountopts : MountOptions) (config : KernelConfig)
    : M W io_error (option (Session * Device * Mount)) :=
  '(fd, mnt) ← mount mountpoint mountopts;
  let device := Device_from_fd fd in
  session ← owning (λ w, Mount_drop mnt (close fd w))
    (handshake (CN := Device_SpliceRead device) (IW := Device_IoWrite device) fuel addr config);
  mret ((λ s, (s, device, mnt)) <$> session).

(** ** The requests before the session, and their answers *)

Inductive early_request :=
  | OtherRequest (x : fuse_in_header) (body : list byte)
  | InitRequest (x : fuse_in_header) (i : InitIn) (rest : list byte).

Definition early_header (r : early_request) : fuse_in_header :=
  match r with OtherRequest x _ => x | InitRequest x _ _ => x end.

Definition early_body (r : early_request) : list byte :=
  match r with OtherRequest _ body => body | InitRequest _ i rest => init_in_bytes i ++ rest end.

Definition early_message (r : early_request) : list byte := pod_encode (early_header r) ++ early_body r.

Section facts.
Context {W : Type} {OS : OsPipe W} {HOS : OsPipeSpec OS} {CN : SpliceRead W} {HCN : SpliceReadSpec CN}.
Context {IW : IoWrite W}.
Context `{BF : Bitflags} {HBF : BitflagsSpec} `{ZC : Zerocopy} {HZC : ZerocopySpec}.
Context `{RX : Rustix} {HRX : RustixSpec} `{PR : Profile}.

(** A message as the kernel sends it: the header states the length, and the body
has the part that is read before the request is decoded. *)
Definition early_wf (r : early_request) : Prop :=
  pod_wf (early_header r) ∧
  (early_header r).(in_header_len) = Z.of_nat (length (early_message r)) ∧
  match r with
  | OtherRequest x body =>
      x.(in_header_opcode) ≠ discr FUSE_INIT ∧ arg_len {| raw := x |} ≤ Z.of_nat (length body)
  | InitRequest x i _ =>
      x.(in_header_opcode) = discr FUSE_INIT ∧ init_in_wf i ∧ init_in_versioned i
  end.

Definition accepted (c : KernelConfig) (r : early_request) : Prop :=
  match r with
  | OtherRequest _ _ => False
  | InitRequest _ i _ => (protocol_version i).1 = 7 ∧ background_ok i c
  end.

Definition rejected (r : early_request) : Prop :=
  match r with OtherRequest _ _ => True | InitRequest _ i _ => (protocol_version i).1 ≠ 7 end.

Definition reply_message (unique : u64) (error : option Errno) (payload : list byte) : list byte :=
  pod_encode {| out_header_len := 16 + Z.of_nat (length payload);
                out_header_error := match error with Some e => - e | None => 0 end;
                out_header_unique := unique |} ++ payload.

(** The version of the library, 7.44, as 64 bytes whose other fields are zero. *)
Definition version_answer : list byte :=
  [Byte.x07; Byte.x00; Byte.x00; Byte.x00; Byte.x2c; Byte.x00; Byte.x00; Byte.x00] ++ replicate 56 Byte.x00.

(** What the protocol asks the daemon to answer. *)
Definition answer (c : KernelConfig) (r : early_request) : option (list byte) :=
  match r with
  | OtherRequest _ _ => None
  | InitRequest x i _ =>
      Some (if 7 <? (protocol_version i).1 then
              reply_message x.(in_header_unique) None version_answer
            else if (protocol_version i).1 <? 7 then
              reply_message x.(in_header_unique) (Some Errno_PROTO) []
            else
              reply_message x.(in_header_unique) None
                (InitOut_to_bytes (to_out (negotiated i c))))
  end.

(** The room of the buffer after the header. *)
Definition INIT_ROOM : Z := FUSE_MIN_READ_BUFFER - 40.

Definition receives (w : W) (msg : list byte) (w' : W) : Prop :=
  conn_read_vectored [40; INIT_ROOM] w = (Ok msg, w') ∧ Z.of_nat (length msg) ≤ FUSE_MIN_READ_BUFFER.

(** The device takes [msg] whole, however it is split. *)
Definition accepts (w : W) (msg : list byte) (w' : W) : Prop :=
  ∀ cs, concat cs = msg → write_vectored cs w = (Ok (length msg), w').

(** A conversation: the requests the kernel sends and what it is answered. *)
Inductive conversation : list (list byte * option (list byte)) → W → W → Prop :=
  | conv_nil w : conversation [] w w
  | conv_silent msg w w1 w2 cv :
      receives w msg w1 → conversation cv w1 w2 → conversation ((msg, None) :: cv) w w2
  | conv_answer msg out w w1 w2 w3 cv :
      receives w msg w1 → accepts w1 out w2 → conversation cv w2 w3 →
      conversation ((msg, Some out) :: cv) w w3.

(** ** Proofs *)

Definition init_buf (b : RequestBuf) : Prop :=
  buf_wf b ∧ ∃ vb, b.(rb_kind) = BufVec vb ∧ Z.of_nat (length vb.(vb_arg)) = INIT_ROOM.

Lemma init_arg_len x body :
  x.(in_header_opcode) = discr FUSE_INIT →
  pod_wf x → x.(in_header_len) = Z.of_nat (length (pod_encode x ++ body)) →
  arg_len {| raw := x |} = Z.of_nat (length body).
Proof.
  intros Ho Hx Hl. unfold arg_len. rewrite (proj2 (InHeader_opcode_Ok {| raw := x |} FUSE_INIT) Ho).
  cbn [raw]. rewrite Hl, length_app, length_pod_encode by done. lia.
Qed.

Lemma early_receive b r w w1 :
  init_buf b → early_wf r → receives w (early_message r) w1 →
  ∃ b' rem, RequestBuf_try_receive (b, w) = (Ok tt, (b', w1)) ∧ init_buf b' ∧
    ∀ E, to_parts (E:=E) b' =
      Ok ({| raw := early_header r |},
          take (Z.to_nat (arg_len {| raw := early_header r |})) (early_body r), rem).
Proof.
  intros (Hb & vb & Hk & Hroom) (Hx & Hl & Hr) [Hc Hm]. destruct b as [h k]; cbn in Hk; subst k.
  rewrite <- Hroom in Hc.
  destruct (vec_receive_delivered h vb w w1 (early_header r) (early_body r))
    as (vb' & rem & Hrcv & Hb' & Hlen & Hp); [done..| |done| |].
  - rewrite Hroom. unfold INIT_ROOM, early_message in *. lia.
  - destruct r as [x body|x i rest]; cbn [early_header early_body]; [tauto|].
    rewrite (init_arg_len x (init_in_bytes i ++ rest)); [done|tauto|done|done].
  - eexists _, rem. split; [exact Hrcv|]. split; [|exact Hp].
    split; [done|]. exists vb'. split; [done|]. by rewrite Hlen.
Qed.

Lemma send_reply_accepted {T} (B : Bytes T) unique error (x : T) w w' :
  bytes_ok B x → fits B x → message_wf (Reply unique error) →
  accepts w (reply_message unique.(RequestID_into_raw) error (content B x)) w' →
  send_msg (Reply unique error) B x w = (Ok tt, w').
Proof.
  intros Hb Hf Hm Ha. rewrite send_msg_write by done.
  rewrite Ha by (by destruct error). rewrite (proj2 (Z.ltb_ge _ _)); [done|].
  unfold reply_message. rewrite length_app, length_pod_encode; [|by apply (message_header_wf (Reply unique error) B x)].
  change (size_of fuse_out_header) with 16%nat. lia.
Qed.

Lemma version_out_wf : pod_wf version_out.
Proof.
  assert (pod_wf (T:=fuse_init_out) zc_new_zeroed) as Hz.
  { rewrite zc_new_zeroed_spec. apply pod_decode_wf. by rewrite length_replicate. }
  unfold version_out. simpl_pod_wf Hz. goal_pod_wf. split_fields; (done || tauto).
Qed.

Lemma version_out_bytes : zc_as_bytes version_out = version_answer.
Proof.
  rewrite zc_as_bytes_spec. unfold version_out. rewrite zc_new_zeroed_spec. vm_compute. reflexivity.
Qed.

Lemma length_to_out c : config_wf c → (length (InitOut_to_bytes (to_out c)) ≤ 64)%nat.
Proof.
  intros Hc. pose proof (to_out_wf c Hc) as Hw.
  destruct (to_out c); cbn; rewrite zc_as_bytes_spec, length_pod_encode by done; cbv; lia.
Qed.

(** The first part of an iteration on an INIT request. *)
Lemma handshake_step_init addr c b x i rest w w1 :
  init_buf b → early_wf (InitRequest x i rest) → aligned_to addr 4 = true →
  receives w (early_message (InitRequest x i rest)) w1 →
  ∃ b', init_buf b' ∧
    handshake_step addr (c, b, w) = handshake_init {| raw := x |} i (c, b', w1).
Proof.
  intros Hb Hr Ha Hw. destruct (early_receive _ _ _ _ Hb Hr Hw) as (b' & rem & Hrcv & Hb' & Hp).
  exists b'. split; [done|]. destruct Hr as (Hx & Hl & Ho & Hi & Hv).
  cbn [early_header early_body] in *.
  rewrite (init_arg_len x (init_in_bytes i ++ rest)) in Hp by done. rewrite Nat2Z.id, firstn_all in Hp.
  unfold handshake_step.
  erewrite M_bind_Ok by (unfold on_buf; by rewrite Hrcv).
  erewrite M_bind_Ok by done. cbv beta iota.
  erewrite M_bind_Ok by (unfold lift; by rewrite Hp). cbv beta iota.
  rewrite (proj2 (InHeader_opcode_Ok {| raw := x |} FUSE_INIT) Ho). cbn [is_init negb].
  erewrite M_bind_Ok by (unfold lift; by rewrite InitIn_from_bytes_encode).
  done.
Qed.

Lemma conversation_one msg out w w2 :
  conversation [(msg, Some out)] w w2 → ∃ w1, receives w msg w1 ∧ accepts w1 out w2.
Proof. inversion 1 as [| |? ? ? ? ? ? ? ? ? Hn]; subst. inversion Hn; subst. eauto. Qed.

Lemma unique_wf x error :
  pod_wf x → match error with Some e => 0 < e < 2 ^ 31 | None => True end →
  message_wf (Reply (InHeader_unique {| raw := x |}) error).
Proof. intros Hx He. simpl_pod_wf Hx. split; [cbn; tauto|done]. Qed.

Lemma fits_short {T} (B : Bytes T) x : (length (content B x) ≤ 64)%nat → fits B x.
Proof. unfold fits. lia. Qed.

Lemma handshake_init_rejected c b x i rest w w2 out :
  pod_wf x → (protocol_version i).1 ≠ 7 →
  answer c (InitRequest x i rest) = Some out → accepts w out w2 →
  handshake_init {| raw := x |} i (c, b, w) = (Ok Continue, (c, b, w2)).
Proof.
  intros Hx Hv Ha Hw. cbn in Ha. unfold handshake_init.
  destruct (Z.ltb_spec 7 (protocol_version i).1) as [Hgt|Hle]; simplify_eq.
  - erewrite M_bind_Ok by (unfold on_config, attempt; by rewrite negotiate_too_large).
    cbv beta iota. erewrite M_bind_Ok; [done|]. unfold on_device.
    destruct (u8_slice_chunks (zc_as_bytes version_out)) as [Hb Hc].
    rewrite (send_reply_accepted _ _ _ _ _ w2); [done|done| | |].
    + apply fits_short. rewrite Hc, zc_as_bytes_spec, (length_pod_encode _ version_out_wf). cbv. lia.
    + by apply unique_wf.
    + by rewrite Hc, version_out_bytes.
  - rewrite (proj2 (Z.ltb_lt _ _)) in Hw by lia.
    erewrite M_bind_Ok by (unfold on_config, attempt; by rewrite negotiate_too_small by lia).
    cbv beta iota. erewrite M_bind_Ok; [done|]. unfold on_device.
    pose proof Errno_values as Hv'. injection Hv' as _ _ _ _ _ _ Hproto.
    destruct (unit_chunks tt) as [Hb Hc].
    rewrite (send_reply_accepted _ _ _ _ _ w2); [done|done| | |].
    + apply fits_short. cbv. lia.
    + apply unique_wf; [done|]. rewrite Hproto. lia.
    + unfold content. by rewrite Hc.
Qed.

Lemma handshake_init_accepted c b x i rest w w2 out :
  pod_wf x → config_wf c → init_in_wf i → (protocol_version i).1 = 7 → background_ok i c →
  answer c (InitRequest x i rest) = Some out → accepts w out w2 →
  handshake_init {| raw := x |} i (c, b, w) =
    (Ok (Return (Session_new (negotiated i c))), (negotiated i c, b, w2)).
Proof.
  intros Hx Hc Hi Hv Hb Ha Hw. cbn in Ha. unfold handshake_init. rewrite Hv in Ha. cbn in Ha. simplify_eq.
  erewrite M_bind_Ok by (unfold on_config, attempt; by rewrite negotiate_negotiated).
  cbv beta iota. erewrite M_bind_Ok by done. cbv beta iota.
  erewrite M_bind_Ok; [done|]. unfold on_device.
  pose proof (length_to_out (negotiated i c) (negotiated_wf i c Hc Hi Hv)) as Hl.
  destruct (u8_slice_chunks (InitOut_to_bytes (to_out (negotiated i c)))) as [Hb' Hc'].
  rewrite (send_reply_accepted _ _ _ _ _ w2); [done|done| | |].
  - apply fits_short. by rewrite Hc'.
  - by apply unique_wf.
  - by rewrite Hc'.
Qed.

Definition exchange (c : KernelConfig) (r : early_request) : list byte * option (list byte) :=
  (early_message r, answer c r).

Lemma conversation_cons c r cv w w' :
  conversation (exchange c r :: cv) w w' →
  ∃ w1, receives w (early_message r) w1 ∧
  ∃ w2, conversation cv w2 w' ∧
    match answer c r with Some out => accepts w1 out w2 | None => w2 = w1 end.
Proof.
  unfold exchange. destruct (answer c r) as [out|]; inversion 1; subst; eauto 10.
Qed.

Lemma handshake_step_rejected addr c b r w w1 w2 :
  init_buf b → early_wf r → rejected r → aligned_to addr 4 = true →
  receives w (early_message r) w1 →
  match answer c r with Some out => accepts w1 out w2 | None => w2 = w1 end →
  ∃ b', init_buf b' ∧ handshake_step addr (c, b, w) = (Ok Continue, (c, b', w2)).
Proof.
  intros Hb Hr Hrej Ha Hw Ho. destruct r as [x body|x i rest].
  - cbn in Ho. subst w2. destruct (early_receive _ _ _ _ Hb Hr Hw) as (b' & rem & Hrcv & Hb' & Hp).
    exists b'. split; [done|]. unfold handshake_step.
    erewrite M_bind_Ok by (unfold on_buf; by rewrite Hrcv).
    erewrite M_bind_Ok by done. cbv beta iota.
    erewrite M_bind_Ok by (unfold lift; by rewrite Hp). cbv beta iota.
    destruct Hr as (_ & _ & Hop & _). cbn [early_header] in *.
    assert (InHeader_opcode {| raw := x |} ≠ Ok FUSE_INIT) as Hno by (by rewrite InHeader_opcode_Ok).
    by destruct (InHeader_opcode {| raw := x |}) as [[]| | |].
  - destruct (handshake_step_init addr c b x i rest w w1) as (b' & Hb' & ->); [done..|].
    exists b'. split; [done|]. eapply (handshake_init_rejected _ _ _ _ rest); [apply Hr|done|done|exact Ho].
Qed.

Lemma handshake_loop_completes addr c reqs x i rest fuel b w w' :
  init_buf b → config_wf c → aligned_to addr 4 = true →
  Forall early_wf reqs → Forall rejected reqs →
  early_wf (InitRequest x i rest) → accepted c (InitRequest x i rest) →
  conversation (exchange c <$> reqs ++ [InitRequest x i rest]) w w' →
  (length reqs < fuel)%nat →
  ∃ b', handshake_loop fuel addr (c, b, w) =
    (Ok (Some (Session_new (negotiated i c))), (negotiated i c, b', w')).
Proof.
  intros Hb Hc Ha Hwf Hrej Hlast [Hv Hbg]. revert fuel b w Hb.
  induction Hwf as [|r reqs Hr Hwf IH]; intros [|fuel] b w Hb Hcv Hf; cbn in Hf; try lia; cbn [handshake_loop].
  - cbn [fmap list_fmap app] in Hcv. apply conversation_cons in Hcv as (w1 & Hrc & w2 & Hn & Hans).
    inversion Hn; subst.
    destruct (handshake_step_init addr c b x i rest w w1) as (b' & Hb' & Hs); [done..|].
    rewrite (handshake_init_accepted _ _ _ _ rest _ _ _ (proj1 Hlast) Hc (proj1 (proj2 (proj2 (proj2 Hlast))))
      Hv Hbg eq_refl Hans) in Hs.
    exists b'. by erewrite M_bind_Ok by exact Hs.
  - apply Forall_cons in Hrej as [Hr1 Hrej]. rewrite <- app_comm_cons, fmap_cons in Hcv.
    apply conversation_cons in Hcv as (w1 & Hrc & w2 & Hn & Hans).
    destruct (handshake_step_rejected addr c b r w w1 w2) as (b' & Hb' & Hs); [done..|].
    erewrite M_bind_Ok by exact Hs. cbv beta iota. apply IH; [done..|lia].
Qed.

Lemma handshake_buf : ∃ b, RequestBuf_new_vec (E:=io_error) FUSE_MIN_READ_BUFFER = Ok b ∧ init_buf b.
Proof.
  eexists. split; [reflexivity|].
  split; [split; [|split; [split|]; by vm_compute]|eexists; split; reflexivity].
  cbn. rewrite zc_new_zeroed_spec. apply pod_decode_wf. by rewrite length_replicate.
Qed.

(** C4: the handshake completes.  Whatever sequence of foreign requests, of INIT
requests with a larger major version and of INIT requests with a smaller one the
kernel sends first, [connect] ignores the first, answers the second with its own
version and the third with [EPROTO], and on the first INIT request of version 7
it answers with the negotiated configuration and returns a session that has it.
One iteration per request is enough. *)
Theorem handshake_completes addr c reqs x i rest fuel w w' :
  config_wf c → aligned_to addr 4 = true →
  Forall early_wf reqs → Forall rejected reqs →
  early_wf (InitRequest x i rest) → accepted c (InitRequest x i rest) →
  conversation (exchange c <$> reqs ++ [InitRequest x i rest]) w w' →
  (length reqs < fuel)%nat →
  handshake fuel addr c w = (Ok (Some (Session_new (negotiated i c))), w').
Proof.
  intros. destruct handshake_buf as (b & Hn & Hb). unfold handshake, lift.
  erewrite M_bind_Ok by (by rewrite Hn). unfold with_locals.
  destruct (handshake_loop_completes addr c reqs x i rest fuel b w w') as [b' ->]; done.
Qed.

(** ** What a session starts from *)

Lemma on_buf_inv {E A} (m : M (RequestBuf * W) E A) c b w r c' b' w' :
  on_buf m (c, b, w) = (r, (c', b', w')) → c' = c ∧ m (b, w) = (r, (b', w')).
Proof. unfold on_buf. destruct (m (b, w)) as [? [? ?]]. intros; by simplify_eq. Qed.

Lemma on_device_inv {E A} (m : M W E A) c b w r c' b' w' :
  on_device m (c, b, w) = (r, (c', b', w')) → c' = c ∧ b' = b.
Proof. unfold on_device. destruct (m w) as [? ?]. intros; by simplify_eq. Qed.

(** The configuration changes only when the loop ends. *)
Lemma handshake_init_inv c b w h i ctl c' b' w' :
  config_wf c → handshake_init h i (c, b, w) = (Ok ctl, (c', b', w')) →
  b' = b ∧
  match ctl with
  | Continue => c' = c
  | Return s => (protocol_version i).1 = 7 ∧ background_ok i c ∧ s = Session_new (negotiated i c)
  end.
Proof.
  intros Hc Hs. unfold handshake_init in Hs. apply M_bind_inv in Hs as (r & [[c1 b1] w1] & Hn & Hs).
  unfold on_config, attempt in Hn. destruct (Z.lt_trichotomy (protocol_version i).1 7) as [Hv|[Hv|Hv]].
  - rewrite negotiate_too_small in Hn by done. simplify_eq.
    apply M_bind_inv in Hs as (u & [[c2 b2] w2] & [-> ->]%on_device_inv & Hs).
    unfold mret, M_ret in Hs. by simplify_eq.
  - destruct (negotiate i c) as [[[]|e|why|] c2] eqn:Hneg; simplify_eq.
    + apply negotiate_ok_inv in Hneg as (_ & Hbg & ->); [|done].
      apply M_bind_inv in Hs as ([[c2 b2] w2] & ? & Hg & Hs). unfold get in Hg. simplify_eq.
      apply M_bind_inv in Hs as (u & [[c3 b3] w3] & [-> ->]%on_device_inv & Hs).
    unfold mret, M_ret in Hs. by simplify_eq.
    + pose proof (negotiate_background_panic i c Hc Hv) as Hp.
      destruct (decide (background_ok i c)); [by rewrite negotiate_negotiated in Hneg|].
      rewrite Hneg in Hp. specialize (Hp ltac:(done)). by destruct e.
  - rewrite negotiate_too_large in Hn by done. simplify_eq.
    apply M_bind_inv in Hs as (u & [[c2 b2] w2] & [-> ->]%on_device_inv & Hs).
    unfold mret, M_ret in Hs. by simplify_eq.
Qed.

(** The request a session was made from. *)
Definition starts_from (c : KernelConfig) (i : InitIn) (s : Session) : Prop :=
  init_in_wf i ∧ init_in_versioned i ∧ (protocol_version i).1 = 7 ∧ background_ok i c ∧
  s = Session_new (negotiated i c).

Lemma handshake_step_inv addr c b w ctl c' b' w' :
  buf_wf b → config_wf c → aligned_to addr 4 = true →
  handshake_step addr (c, b, w) = (Ok ctl, (c', b', w')) →
  buf_wf b' ∧
  match ctl with Continue => c' = c | Return s => ∃ i, starts_from c i s end.
Proof.
  intros Hb Hc Ha Hs. unfold handshake_step in Hs.
  apply M_bind_inv in Hs as ([] & [[c1 b1] w1] & [-> Hr]%on_buf_inv & Hs).
  pose proof (try_receive_reception b w Hb) as Hok. rewrite Hr in Hok. destruct Hok as [Hb1 _].
  apply M_bind_inv in Hs as ([[c2 b2] w2] & ? & Hg & Hs). unfold get in Hg. simplify_eq.
  apply M_bind_inv in Hs as ([[h arg] rem] & ? & Hp & Hs). unfold lift in Hp. simplify_eq/=.
  destruct (negb (is_init (InHeader_opcode h))).
  { unfold mret, M_ret in Hs. by simplify_eq. }
  apply M_bind_inv in Hs as (i & ? & Hi & Hs). unfold lift in Hi. simplify_eq/=.
  pose proof (InitIn_from_bytes_inv addr arg Ha) as Hinv.
  destruct (InitIn_from_bytes addr arg) as [i'|]; simplify_eq/=. destruct Hinv as (Hwf & Hv & _).
  apply handshake_init_inv in Hs as [-> Hs]; [|done]. split; [done|].
  destruct ctl as [|s]; [done|]. destruct Hs as (Hm & Hbg & ->). exists i. by repeat split.
Qed.

Lemma handshake_loop_inv addr c fuel b w s c' b' w' :
  buf_wf b → config_wf c → aligned_to addr 4 = true →
  handshake_loop fuel addr (c, b, w) = (Ok (Some s), (c', b', w')) →
  ∃ i, starts_from c i s.
Proof.
  intros Hb Hc Ha. revert b w Hb. induction fuel as [|fuel IH]; intros b w Hb Hs; [done|].
  cbn [handshake_loop] in Hs. apply M_bind_inv in Hs as (ctl & [[c1 b1] w1] & Hst & Hs).
  apply handshake_step_inv in Hst as [Hb1 Hst]; [|done..].
  destruct ctl as [|s1]; [subst c1; by eapply IH|].
  unfold mret, M_ret in Hs. by simplify_eq.
Qed.

Lemma handshake_inv addr c fuel w s w' :
  config_wf c → aligned_to addr 4 = true →
  handshake fuel addr c w = (Ok (Some s), w') → ∃ i, starts_from c i s.
Proof.
  intros Hc Ha Hs. unfold handshake in Hs. apply M_bind_inv in Hs as (b & w1 & Hn & Hs).
  destruct handshake_buf as (b0 & Hn0 & [Hb0 _]). unfold lift in Hn. rewrite Hn0 in Hn. simplify_eq.
  unfold with_locals in Hs. destruct (handshake_loop _ _ _) as [r [[c1 b1] w2]] eqn:Hl. simplify_eq.
  by apply handshake_loop_inv in Hl.
Qed.

End facts.

Section connect_facts.
Context {W : Type} {OS : OsPipe W} {HOS : OsPipeSpec OS} {OD : OsDevice W} {HOD : OsDeviceSpec OD}.
Context {MO : MountOs W} `{BF : Bitflags} {HBF : BitflagsSpec} `{ZC : Zerocopy} {HZC : ZerocopySpec}.
Context `{RX : Rustix} {HRX : RustixSpec} `{L : Libc} `{MF : MountFlagsApi} `{PR : Profile}.

Lemma mount_kind mountpoint opts w fd m w' :
  mount mountpoint opts w = (Ok (fd, m), w') → m.(m_kind) ≠ KindGone ∧ m.(m_mountpoint) = mountpoint.
Proof.
  unfold mount. intros Hm. apply M_bind_inv in Hm as (? & ? & _ & Hm). destruct (negb _); [done|].
  apply M_bind_inv in Hm as ([fd'|e] & w1 & _ & Hm).
  - unfold mret, M_ret in Hm. by simplify_eq.
  - destruct (bool_decide _); [|done]. apply M_bind_inv in Hm as ([fd' mode] & w2 & _ & Hm).
    unfold mret, M_ret in Hm. by simplify_eq.
Qed.

(** C7: a session starts from an accepted INIT request on a mounted filesystem.
Whatever the kernel sends and however the system behaves, when [connect] returns
a session, the filesystem is mounted, the session has not ended, no notification
identifier is used, and its configuration is the one negotiated from the initial
configuration and some well-formed request of version 7; beyond 7.3 that is the
session configuration the protocol asks for. *)
Theorem connect_session addr c fuel mountpoint opts w s d m w' :
  config_wf c → aligned_to addr 4 = true →
  connect fuel addr mountpoint opts c w = (Ok (Some (s, d, m)), w') →
  m.(m_kind) ≠ KindGone ∧ m.(m_mountpoint) = mountpoint ∧
  s.(s_exited) = false ∧ s.(s_notify_unique) = 0 ∧ config_wf s.(s_config) ∧
  ∃ i, init_in_wf i ∧ init_in_versioned i ∧ (protocol_version i).1 = 7 ∧
    s.(s_config) = negotiated i c ∧
    (is_compat3 i = false → session_config i c s.(s_config)).
Proof.
  intros Hc Ha Hs. unfold connect in Hs. apply M_bind_inv in Hs as ([fd m'] & w1 & Hm & Hs).
  apply mount_kind in Hm as [Hk Hp]. apply M_bind_inv in Hs as (s' & w2 & Hh & Hs).
  unfold mret, M_ret in Hs. destruct s' as [s'|]; simplify_eq/=. unfold owning in Hh.
  destruct (handshake _ _ _ _) as [[so|e|why|] w3] eqn:He; simplify_eq.
  pose proof (Device_SpliceRead_spec (Device_from_fd fd)) as HCN.
  apply handshake_inv in He as (i & Hi & Hv & Hmaj & Hbg & ->); [|done..].
  split_and!; [done..|by apply negotiated_wf|]. exists i. split_and!; [done..|].
  intros H3. by apply negotiated_session_config.
Qed.

End connect_facts.

(** ** Instances *)

Section instances.
#[local] Instance inst_bf : Bitflags := ref_bitflags.
#[local] Instance inst_bf_spec : BitflagsSpec := ref_bitflags_spec.
#[local] Instance inst_zc : Zerocopy := ref_zerocopy.
#[local] Instance inst_zc_spec : ZerocopySpec := ref_zerocopy_spec.
#[local] Instance inst_rx : Rustix := ref_rustix.
#[local] Instance inst_rx_spec : RustixSpec := ref_rustix_spec.
#[local] Instance inst_profile : Profile := true.

(** A kernel of version 8 that falls back to 7, after a stray LOOKUP. *)
Definition accepted_init : InitIn := init_in_example 7 64 all_kernel_flags.
Definition early_example : list early_request := [
  OtherRequest (header_example 1 43) name_example;
  InitRequest (header_example 26 104) (init_in_example 8 40 0) []].

Definition kernel_example : World := {|
  incoming := early_message <$> early_example ++ [InitRequest (header_example 26 104) accepted_init []];
  outgoing := [] |}.

Definition kernel_after : World := {|
  incoming := [];
  outgoing := omap (answer config_example)
    (early_example ++ [InitRequest (header_example 26 104) accepted_init []]) |}.

Lemma sim_accepts incoming outgoing msg :
  accepts {| incoming := incoming; outgoing := outgoing |} msg
          {| incoming := incoming; outgoing := outgoing ++ [msg] |}.
Proof. by intros cs <-. Qed.

Lemma sim_receives msg incoming outgoing :
  Z.of_nat (length msg) ≤ FUSE_MIN_READ_BUFFER →
  receives {| incoming := msg :: incoming; outgoing := outgoing |} msg
           {| incoming := incoming; outgoing := outgoing |}.
Proof.
  intros Hl. split; [|done].
  transitivity (map_err (E:=Errno) Os (if FUSE_MIN_READ_BUFFER <? Z.of_nat (length msg) then Err 5 else Ok msg),
    {| incoming := incoming; outgoing := outgoing |}); [done|].
  by rewrite (proj2 (Z.ltb_ge _ _)) by done.
Qed.

Lemma example_conversation :
  conversation (exchange config_example <$>
    early_example ++ [InitRequest (header_example 26 104) accepted_init []]) kernel_example kernel_after.
Proof.
  eapply conv_silent; [by apply sim_receives|].
  eapply conv_answer; [by apply sim_receives|apply sim_accepts|].
  eapply conv_answer; [by apply sim_receives|apply sim_accepts|].
  apply conv_nil.
Qed.

Lemma header_example_wf opcode len : is_u 32 opcode → is_u 32 len → pod_wf (header_example opcode len).
Proof. intros Ho Hl. goal_pod_wf. split_fields; done. Qed.

Lemma older_init_wf : init_in_wf (init_in_example 8 40 0).
Proof. simpl. goal_pod_wf. split_fields; try done. by repeat constructor. Qed.

Lemma early_example_wf : Forall early_wf early_example.
Proof.
  apply Forall_cons; split; [|apply Forall_singleton].
  - split; [by apply header_example_wf|]. split; [by vm_compute|]. split; by vm_compute.
  - split; [by apply header_example_wf|]. split; [by vm_compute|]. split; [done|].
    split; [apply older_init_wf|by vm_compute].
Qed.

Lemma accepted_init_wf : early_wf (InitRequest (header_example 26 104) accepted_init []).
Proof.
  split; [by apply header_example_wf|]. split; [by vm_compute|]. split; [done|].
  split; [apply init_in_example_wf|by vm_compute].
Qed.

Lemma handshake_completes_witness :
  handshake 3 4096 config_example kernel_example =
    (Ok (Some (Session_new (negotiated accepted_init config_example))), kernel_after).
Proof.
  apply (handshake_completes 4096 config_example early_example (header_example 26 104) accepted_init []).
  - exact config_example_wf.
  - reflexivity.
  - exact early_example_wf.
  - repeat constructor. vm_compute. congruence.
  - exact accepted_init_wf.
  - split; [reflexivity|]. do 4 right. vm_compute. reflexivity.
  - exact example_conversation.
  - vm_compute. lia.
Defined.

(** A system on which every call of a privileged mount succeeds. *)
#[local] Instance inst_libc : Libc := linux_libc.
#[local] Instance world_mount : MountOs World := {|
  SYS_ADMIN := 1; UNMOUNT_DETACH := 2; path_exists p w := true; capabilities := mret 1;
  fs_stat p := mret 0x41ed; getuid w := 0; getgid w := 0; sys_mount so t f fl da := mret tt;
  sys_unmount t f := mret tt; socket_pair := mret (4, 5); spawn c := lift (Err (Os 2));
  command_status c := mret true; child_wait c := mret true; child_output c := mret true;
  recvmsg s := mret None; set_cloexec fd := mret tt; close fd w := w |}.

Lemma connect_session_witness :
  ∃ s d m w', connect 3 4096 mountpoint_example opts_example config_example kernel_example =
      (Ok (Some (s, d, m)), w') ∧
    m.(m_kind) ≠ KindGone ∧ s.(s_config).(minor) = 44 ∧ config_wf s.(s_config).
Proof.
  destruct (connect 3 4096 mountpoint_example opts_example config_example kernel_example)
    as [[[[[s d] m]|]|e|why|] w'] eqn:Hs; [|vm_compute in Hs; discriminate..].
  destruct (connect_session 4096 config_example 3 mountpoint_example opts_example kernel_example s d m w'
    config_example_wf eq_refl Hs) as (Hk & _ & _ & _ & Hwf & _).
  exists s, d, m, w'. split; [reflexivity|]. split; [exact Hk|]. split; [|exact Hwf].
  vm_compute in Hs. injection Hs as <- _ _ _. reflexivity.
Defined.

End instances.
