(* ===== verification/Server.v ===== *)
(** * The loop of a filesystem daemon

Every program under [src/examples] runs the same loop on top of the library:
receive a request, decode it, answer it, until the connection is gone.  The
loop is parameterised by the function that answers one request and by the
state [F] of the filesystem.  What that function promises to the loop is the
class [Answers]. *)

From S2P Require Import Prelude Layout Kernel Crates Types Bytes Init Msg Header Decoder.
From S2P Require Import Operation Op OpWire OpSpec OpTotal Reply Dirent Io Device Sim Buf Session.
From S2P Require Import Connect.
Local Open Scope Z_scope.

(** [anyhow::Error]: the errors the examples convert with [?]. *)
Inductive app_error :=
  | AppIo (e : io_error)
  | AppErrno (e : Errno)
  | AppDecode (e : DecodeError).

(** Further codes of [rustix::io::Errno], and [rustix::process]. *)
Class Posix := {
  Errno_ACCESS : Errno;
  Errno_NOTDIR : Errno;
  Errno_ISDIR : Errno;
  Errno_NOSYS : Errno;
  getuid : Uid;
  getgid : Gid;
}.

Class PosixSpec `{Posix} : Prop := {
  Posix_values : (Errno_ACCESS, Errno_NOTDIR, Errno_ISDIR, Errno_NOSYS) = (13, 20, 21, 38);
  getuid_width : is_u 32 getuid;
  getgid_width : is_u 32 getgid;
}.

(** A byte string literal. *)
Definition bytes_of (s : string) : list byte := String.list_byte_of_string s.

(** [Duration::from_secs] *)
Definition Duration_from_secs (secs : u64) : Duration := {| as_secs := secs; subsec_nanos := 0 |}.

(** [&content[offset..]], then at most [size] bytes of it; nothing past the end. *)
Definition read_slice (content : list byte) (offset : u64) (size : u32) : list byte :=
  if offset <? Z.of_nat (length content) then
    let data := drop (Z.to_nat offset) content in
    take (Z.to_nat (Z.min (Z.of_nat (length data)) size)) data
  else [].

(** A local variable that ends with the block. *)
Definition with_local {St S E A B} (init : St) (m : M St Empty_set A) (k : St → A → M S E B) : M S E B :=
  λ s, match m init with
       | (Ok a, st) => k st a s
       | (Err e, _) => match e with end
       | (Panic why, _) => (Panic why, s)
       | (UB, _) => (UB, s)
       end.

Section attrs.
Context `{L : Libc} `{BF : Bitflags}.

(** [FileAttr { .., ..FileAttr::new() }] *)
Definition attr_with {E} (ino : NodeID) (size : u64) (mode : FileMode) (nlink : u32) (uid : Uid) (gid : Gid)
    : outcome E FileAttr :=
  base ← FileAttr_new;
  Ok {|
    FileAttr_ino := ino;
    FileAttr_size := size;
    FileAttr_mode := mode;
    FileAttr_nlink := nlink;
    FileAttr_uid := uid;
    FileAttr_gid := gid;
    FileAttr_rdev := base.(FileAttr_rdev);
    FileAttr_blksize := base.(FileAttr_blksize);
    FileAttr_blocks := base.(FileAttr_blocks);
    FileAttr_atime := base.(FileAttr_atime);
    FileAttr_mtime := base.(FileAttr_mtime);
    FileAttr_ctime := base.(FileAttr_ctime) |}.

End attrs.

Section server.
Context {F W : Type} `{OS : OsPipe W} `{CN : SpliceRead W} `{IW : IoWrite W}.
Context `{BF : Bitflags} `{ZC : Zerocopy} `{RX : Rustix} `{L : Libc} `{PR : Profile}.

(** What a daemon does with one request: it owns the request, may read the data
that follows the argument, and may change its own state. *)
Definition handler : Type := Request → Operation → M (F * RemainingData * (Session * W)) app_error unit.

(** A reply inside a handler, its error converted by [?]. *)
Definition on_session {A} (m : M (Session * W) io_error A)
    : M (F * RemainingData * (Session * W)) app_error A := λ '(f, rem, sw),
  let (r, sw') := m sw in (map_err AppIo r, (f, rem, sw')).

(** The remaining data borrows the pipe of the buffer. *)
Definition put_back (b : RequestBuf) (rem : RemainingData) : RequestBuf :=
  match b.(rb_kind), rem with
  | BufPipe pb, RemainingPipe p =>
      {| rb_header := b.(rb_header);
         rb_kind := BufPipe {| pb_arg := pb.(pb_arg); pb_pipe := p; pb_bufsize := pb.(pb_bufsize) |} |}
  | _, _ => b
  end.

Context (addr : RequestBuf → Z) (handle : handler).

(** One iteration; [false] ends the loop.  [addr] gives the address of the
argument in a buffer. *)
Definition serve_step : M (F * Session * RequestBuf * W) app_error bool := λ '(f, s, b, w),
  let '(r, (s1, b1, w1)) := recv_request (s, b, w) in
  match r with
  | Ok true =>
      match Session_decode (addr b1) s1 b1 with
      | Ok (req, op, rem) =>
          let '(r, (f', rem', (s2, w2))) := handle req op (f, rem, (s1, w1)) in
          (_ ← r; Ok true, (f', s2, put_back b1 rem', w2))
      | Err e => (Err (AppDecode e), (f, s1, b1, w1))
      | Panic why => (Panic why, (f, s1, b1, w1))
      | UB => (UB, (f, s1, b1, w1))
      end
  | Ok false => (Ok false, (f, s1, b1, w1))
  | Err e => (Err (AppIo e), (f, s1, b1, w1))
  | Panic why => (Panic why, (f, s1, b1, w1))
  | UB => (UB, (f, s1, b1, w1))
  end.

(** [None]: the fuel did not suffice. *)
Fixpoint serve (fuel : nat) : M (F * Session * RequestBuf * W) app_error (option unit) :=
  match fuel with
  | O => mret None
  | S fuel =>
      more ← serve_step;
      if more : bool then serve fuel else mret (Some tt)
  end.

End server.

(** ** The requests of the kernel *)

(** A request as the kernel sends it: the operation, the form chosen for a
rename, and the bytes that follow the encoded argument. *)
Record kernel_request := {
  kr_header : fuse_in_header;
  kr_op : Operation;
  kr_rename1 : bool;
  kr_data : list byte;
}.

Section wire.
Context `{BF : Bitflags} `{L : Libc}.

Definition kr_body (c : KernelConfig) (r : kernel_request) : list byte :=
  match encode_op c r.(kr_rename1) r.(kr_op) with Some rq => rq.(rq_arg) | None => [] end ++ r.(kr_data).

Definition kr_message (c : KernelConfig) (r : kernel_request) : list byte :=
  pod_encode r.(kr_header) ++ kr_body c r.

End wire.

(** A reply: its error and its payload. *)
Definition answer_ : Type := option Errno * list byte.

Definition message_of (x : fuse_in_header) (a : answer_) : list byte :=
  reply_message x.(in_header_unique) a.1 a.2.

(** A notification as one sequence of bytes. *)
Definition notify_message (code : fuse_notify_code) (body : list byte) : list byte :=
  pod_encode {| out_header_len := 16 + Z.of_nat (length body); out_header_error := discr code;
                out_header_unique := 0 |} ++ body.

(** What the kernel makes of a reply. *)
Inductive reply_view :=
  | ViewError (code : Z)
  | ViewEntry (e : entry_view)
  | ViewAttr (valid : Duration) (attr : FileAttr)
  | ViewOpen (fh : FileID) (flags : u32)
  | ViewData (data : list byte)
  | ViewPoll (revents : u32)
  | ViewDir (es : list entry).

Definition view_of `{Libc} (m : u32) (op : Operation) (a : answer_) : reply_view :=
  match a.1 with
  | Some code => ViewError code
  | None =>
      match op with
      | Operation_Lookup _ => ViewEntry (read_entry m a.2)
      | Operation_Getattr _ => let (valid, attr) := read_attr m a.2 in ViewAttr valid attr
      | Operation_Open _ =>
          let o := pod_decode (T:=fuse_open_out) a.2 in
          ViewOpen (FileID_from_raw o.(open_out_fh)) o.(open_out_open_flags)
      | Operation_Readdir _ => ViewDir (parse_dirents (length a.2) a.2)
      | Operation_Poll _ => ViewPoll (pod_decode (T:=fuse_poll_out) a.2).(poll_out_revents)
      | _ => ViewData a.2
      end
  end.

(** The attributes of a file of the examples: all times and counts of blocks zero. *)
Definition plain_attr (ino : NodeID) (size : u64) (mode : FileMode) (nlink : u32) (uid : Uid) (gid : Gid)
    : FileAttr := {|
  FileAttr_ino := ino;
  FileAttr_size := size;
  FileAttr_mode := mode;
  FileAttr_nlink := nlink;
  FileAttr_uid := uid;
  FileAttr_gid := gid;
  FileAttr_rdev := DeviceID_from_kernel_dev 0;
  FileAttr_blksize := 0;
  FileAttr_blocks := 0;
  FileAttr_atime := Duration_ZERO;
  FileAttr_mtime := Duration_ZERO;
  FileAttr_ctime := Duration_ZERO |}.

(** The type of a file and its permissions, as Linux numbers them: 0040555 and
0100444 in octal. *)
Definition dir_mode : FileMode := FileMode_from_raw (0x4000 + 0x16d).
Definition file_mode : FileMode := FileMode_from_raw (0x8000 + 0x124).

(** The payload of a reply to OPEN without a backing file, and to POLL. *)
Definition open_out (fh : FileID) (open_flags : u32) : fuse_open_out :=
  {| open_out_fh := fh.(FileID_into_raw); open_out_open_flags := open_flags; open_out_backing_id := 0 |}.

Definition open_payload (fh : FileID) (open_flags : u32) : list byte := pod_encode (open_out fh open_flags).

Definition poll_payload (revents : u32) : list byte :=
  pod_encode {| poll_out_revents := revents; poll_out_padding := 0 |}.

Lemma open_out_wf fh open_flags :
  is_u 64 fh.(FileID_into_raw) → is_u 32 open_flags → pod_wf (open_out fh open_flags).
Proof. intros. unfold open_out. goal_pod_wf. by split_fields. Qed.

(** The kernel lists a directory: it asks again from the offset of the last entry
it was given, until a reply has none. *)
Definition readdir_at (size : u32) (offset : u64) : Operation :=
  Operation_Readdir {| Readdir_ino := NodeID_ROOT; Readdir_fh := FileID_from_raw 0;
    Readdir_offset := offset; Readdir_size := size; Readdir_mode := ReaddirMode_Normal |}.

Fixpoint list_dir (view : Operation → reply_view) (rounds : nat) (size : u32) (offset : u64)
    : list entry :=
  match rounds with
  | O => []
  | S rounds =>
      match view (readdir_at size offset) with
      | ViewDir es =>
          match last es with
          | Some e => es ++ list_dir view rounds size e.(e_off)
          | None => []
          end
      | _ => []
      end
  end.

Section contract.
Context {F W : Type} {OS : OsPipe W} {CN : SpliceRead W} {IW : IoWrite W}.
Context `{BF : Bitflags} `{ZC : Zerocopy} `{RX : Rustix} `{L : Libc} `{PR : Profile}.

Definition request_wf (c : KernelConfig) (r : kernel_request) : Prop :=
  let h := {| raw := r.(kr_header) |} in
  pod_wf r.(kr_header) ∧ Operation_wf c r.(kr_op) ∧
  r.(kr_header).(in_header_len) = Z.of_nat (length (kr_message c r)) ∧
  ∃ rq, encode_op c r.(kr_rename1) r.(kr_op) = Some rq ∧ header_of rq h ∧
    Z.of_nat (length rq.(rq_arg)) ≤ arg_len h ≤ Z.of_nat (length (kr_body c r)).

(** The device takes the reply whole, or the request was interrupted and the
kernel answers [ENOENT]. *)
Definition replied (w : W) (msg : list byte) (w' : W) : Prop :=
  ∀ cs, concat cs = msg →
    write_vectored cs w = (Ok (length msg), w') ∨ write_vectored cs w = (Err (Os 2), w').

(** The buffer takes in the message [msg]. *)
Definition takes (b : RequestBuf) (w : W) (msg : list byte) (b' : RequestBuf) (w' : W) : Prop :=
  (∃ w2, delivers b w msg w2) ∧ RequestBuf_try_receive (b, w) = (Ok tt, (b', w')).

(** A run of the device: each message it hands out with the reply it then takes,
and at last [ENODEV], the filesystem being unmounted. *)
Inductive dialogue : list (list byte * option (list byte)) →
    RequestBuf * W → RequestBuf * W → Prop :=
  | dialogue_end b w b' w' :
      RequestBuf_try_receive (b, w) = (Err (Os 19), (b', w')) → dialogue [] (b, w) (b', w')
  | dialogue_silent msg d b w b1 w1 bw' :
      takes b w msg b1 w1 → dialogue d (b1, w1) bw' → dialogue ((msg, None) :: d) (b, w) bw'
  | dialogue_reply msg out d b w b1 w1 w2 bw' :
      takes b w msg b1 w1 → replied w1 out w2 → dialogue d (b1, w2) bw' →
      dialogue ((msg, Some out) :: d) (b, w) bw'.

(** What a handler promises: on the operations in its domain, [answer] gives its
reply and its next state, and it returns once the reply was taken. *)
Class Answers (handle : handler (F := F) (W := W)) (dom : KernelConfig → F → Operation → Prop)
    (answer : KernelConfig → F → Operation → F * option answer_) : Prop :=
  handle_answers : ∀ req op f rem s w,
    request_ok req → Operation_wf req.(req_config) op → dom req.(req_config) f op →
    let '(f', a) := answer req.(req_config) f op in
    match a with
    | Some a => ∀ w',
        replied w (message_of req.(req_header).(raw) a) w' →
        handle req op (f, rem, (s, w)) = (Ok tt, (f', rem, (s, w')))
    | None => handle req op (f, rem, (s, w)) = (Ok tt, (f', rem, (s, w)))
    end.

Section expected.
Context (dom : KernelConfig → F → Operation → Prop).
Context (answer : KernelConfig → F → Operation → F * option answer_) (c : KernelConfig).

(** The exchange of messages a list of requests leads to. *)
Fixpoint expected (f : F) (rs : list kernel_request) : list (list byte * option (list byte)) :=
  match rs with
  | [] => []
  | r :: rs =>
      (kr_message c r, message_of r.(kr_header) <$> (answer c f r.(kr_op)).2)
      :: expected (answer c f r.(kr_op)).1 rs
  end.

Fixpoint final (f : F) (rs : list kernel_request) : F :=
  match rs with [] => f | r :: rs => final (answer c f r.(kr_op)).1 rs end.

Fixpoint acceptable (f : F) (rs : list kernel_request) : Prop :=
  match rs with
  | [] => True
  | r :: rs => request_wf c r ∧ dom c f r.(kr_op) ∧ acceptable (answer c f r.(kr_op)).1 rs
  end.

End expected.
End contract.

(** ** Reading by slices *)

Lemma read_slice_spec content offset size :
  0 ≤ offset → 0 ≤ size →
  read_slice content offset size = take (Z.to_nat size) (drop (Z.to_nat offset) content).
Proof.
  intros Ho Hs. unfold read_slice. destruct (Z.ltb_spec offset (Z.of_nat (length content))).
  - rewrite length_drop. destruct (decide (size ≤ Z.of_nat (length content) - offset)).
    + f_equal. lia.
    + rewrite !take_ge; rewrite ?length_drop; (done || lia).
  - by rewrite drop_ge, take_nil by lia.
Qed.

(** A program reads a file with a sequence of READs, each where the last ended. *)
Fixpoint read_along (content : list byte) (offset : Z) (sizes : list u32) : list byte :=
  match sizes with
  | [] => []
  | n :: sizes =>
      let data := read_slice content offset n in
      data ++ read_along content (offset + Z.of_nat (length data)) sizes
  end.

Lemma read_along_spec content sizes : ∀ offset,
  0 ≤ offset → Forall (λ n, 0 ≤ n) sizes →
  read_along content offset sizes =
    take (Z.to_nat (foldr Z.add 0 sizes)) (drop (Z.to_nat offset) content).
Proof.
  induction sizes as [|n sizes IH]; intros offset Ho Hs; cbn [read_along foldr]; [done|].
  apply Forall_cons in Hs as [Hn Hs].
  assert (0 ≤ foldr Z.add 0 sizes) by (clear IH; induction Hs; cbn; lia).
  rewrite read_slice_spec, IH, length_take, length_drop by (done || lia).
  rewrite (Z2Nat.inj_add n), <- take_take_drop by done. f_equal.
  destruct (decide (Z.to_nat n ≤ length content - Z.to_nat offset)%nat).
  - rewrite drop_drop. do 2 f_equal. lia.
  - by rewrite !(drop_ge content), !(drop_ge (drop _ _)), !take_nil by (rewrite ?length_drop; lia).
Qed.

(** ** Serving *)

Lemma encode_op_opcode `{BF : Bitflags} `{L : Libc} c rename1 o rq :
  encode_op c rename1 o = Some rq → rq.(rq_opcode) ≠ FUSE_INIT ∧ rq.(rq_opcode) ≠ FUSE_DESTROY.
Proof.
  destruct o; cbn [encode_op]; try discriminate; repeat case_match; intros [= <-]; by split.
Qed.

Section facts.
Context {F W : Type} {OS : OsPipe W} {HOS : OsPipeSpec OS} {CN : SpliceRead W} {HCN : SpliceReadSpec CN}.
Context {IW : IoWrite W}.
Context `{BF : Bitflags} {HBF : BitflagsSpec} `{ZC : Zerocopy} {HZC : ZerocopySpec}.
Context `{RX : Rustix} {HRX : RustixSpec} `{L : Libc} {HL : LibcLinux L} `{PR : Profile}.

(** A reply that is taken, or refused because the request was interrupted. *)
Lemma emit_replied req error cs s w w' :
  request_ok req → errno_ok error → Z.of_nat (length (concat cs)) < 2 ^ 31 →
  replied w (message_of req.(req_header).(raw) (error, concat cs)) w' →
  request_emit req error cs (s, w) = (Ok tt, (s, w')).
Proof.
  intros Hq He Hl Hw. unfold request_emit, or_handle_reply_error, write_reply.
  rewrite (proj2 (Z.ltb_lt _ _)) by lia.
  pose proof Errno_values as Hv. injection Hv as _ Hnoent _ _ Hnodev _ _.
  assert (pod_wf (reply_header req error cs)) as Hh.
  { unfold request_ok in Hq. simpl_pod_wf Hq. unfold reply_header. goal_pod_wf. split_fields.
    - unfold is_u. lia.
    - destruct error; cbn in *; unfold is_i; lia.
    - cbn. tauto.
    - done. }
  destruct (Hw (pod_encode (reply_header req error cs) :: cs)) as [Hr|Hr].
  - done.
  - rewrite Hr. unfold message_of, reply_message. cbn [fst snd].
    rewrite length_app, (length_pod_encode (reply_header req error cs)) by done.
    change (size_of fuse_out_header) with 16%nat.
    by rewrite (proj2 (Z.ltb_ge _ _)) by lia.
  - rewrite Hr. unfold handle_reply_error, is_errno. rewrite Errno_from_io_error_os, Hnodev, Hnoent.
    done.
Qed.

Lemma reply_replied {T} (B : Bytes T) req error (x : T) s w w' :
  request_ok req → errno_ok error → bytes_ok B x → Z.of_nat (length (content B x)) < 2 ^ 31 →
  replied w (message_of req.(req_header).(raw) (error, content B x)) w' →
  @reply_raw _ _ Request_ReplySender T B req error x (s, w) = (Ok tt, (s, w')).
Proof. intros Hq He Hx Hf Hw. rewrite (request_emit_law T B) by done. by apply emit_replied. Qed.

Lemma reply_error_replied req error s w w' :
  request_ok req → 0 < error < 2 ^ 31 →
  replied w (message_of req.(req_header).(raw) (Some error, [])) w' →
  reply_error (RS := Request_ReplySender) req error (s, w) = (Ok tt, (s, w')).
Proof.
  intros Hq He Hw. destruct (unit_chunks tt) as [Hb Hc].
  apply reply_replied; [done|done|done| |]; unfold content; by rewrite Hc.
Qed.

Lemma reply_data_replied req data s w w' :
  request_ok req → Z.of_nat (length data) < 2 ^ 31 →
  replied w (message_of req.(req_header).(raw) (None, data)) w' →
  reply_bytes (RS := Request_ReplySender) u8_slice_Bytes req data (s, w) = (Ok tt, (s, w')).
Proof.
  intros Hq He Hw. destruct (u8_slice_chunks data) as [Hb Hc].
  apply reply_replied; [done|done|done| |]; by rewrite Hc.
Qed.

Lemma attr_with_ok {E} ino size mode nlink uid gid :
  attr_with (E:=E) ino size mode nlink uid gid = Ok (plain_attr ino size mode nlink uid gid).
Proof. done. Qed.

Lemma plain_attr_wf `{PX : Posix} {HPX : PosixSpec} ino size mode nlink :
  is_u 64 ino.(NodeID_into_raw) → is_u 64 size → is_u 32 mode.(FileMode_into_raw) → is_u 32 nlink →
  attr_wf (plain_attr ino size mode nlink getuid getgid).
Proof. intros. pose proof getuid_width. pose proof getgid_width. by split. Qed.

Lemma modes :
  FileMode_new Directory (bf_union FilePermissions_READ FilePermissions_EXEC) = dir_mode ∧
  FileMode_new Regular FilePermissions_READ = file_mode.
Proof.
  unfold FileMode_new, FilePermissions_READ, FilePermissions_EXEC. rewrite !bf_union_spec, HL.
  done.
Qed.

(** The reply methods inside a handler, when the reply is taken. *)
Section answers.
Context (req : Request) (f : F) (rem : RemainingData) (s : Session) (w w' : W) (Hq : request_ok req).
Notation taken a := (replied w (message_of req.(req_header).(raw) a) w').
Notation succeeds m := (m (f, rem, (s, w)) = (Ok tt, (f, rem, (s, w')))).

Lemma error_answers error :
  0 < error < 2 ^ 31 → taken (Some error, []) →
  succeeds (on_session (reply_error (RS := Request_ReplySender) req error)).
Proof. intros He Hw. unfold on_session. by rewrite (reply_error_replied _ _ _ _ w'). Qed.

Lemma data_answers data :
  Z.of_nat (length data) < 2 ^ 31 → taken (None, data) →
  succeeds (on_session (reply_bytes (RS := Request_ReplySender) u8_slice_Bytes req data)).
Proof. intros He Hw. unfold on_session. by rewrite (reply_data_replied _ _ _ _ w'). Qed.

Lemma empty_answers :
  taken (None, []) → succeeds (on_session (reply_bytes (RS := Request_ReplySender) unit_Bytes req tt)).
Proof.
  intros Hw. unfold on_session, reply_bytes. destruct (unit_chunks tt) as [Hb Hc].
  assert (content unit_Bytes tt = []) as Hn by (unfold content; by rewrite Hc).
  rewrite (reply_replied _ _ _ _ _ _ w'); [done|done|done|done|..]; by rewrite Hn.
Qed.

Lemma entry_answers ino attr generation av ev :
  attr_wf attr → is_u 64 generation → opt_time_wf av → opt_time_wf ev → is_u 64 ino.(NodeID_into_raw) →
  taken (None, entry_payload req.(req_config).(minor) (Some ino) attr generation av ev) →
  succeeds (on_session (reply_entry (RS := Request_ReplySender) req (Some ino) attr generation av ev)).
Proof.
  intros Ha Hg Hav Hev Hn Hw. unfold on_session. rewrite (reply_entry_emit (HRS := request_emit_law)) by done.
  destruct (read_entry_payload req.(req_config).(minor) (Some ino) attr generation av ev Ha Hg Hav Hev Hn)
    as [Hl _].
  rewrite (emit_replied _ _ _ _ _ w'); cbn [concat]; rewrite ?app_nil_r; [done..| |exact Hw].
  cbn [rs_config Request_ReplySender]. rewrite Hl. unfold entry_size. by case_match.
Qed.

Lemma attr_answers attr valid :
  attr_wf attr → opt_time_wf valid →
  taken (None, attr_payload req.(req_config).(minor) attr valid) →
  succeeds (on_session (reply_attr (RS := Request_ReplySender) req attr valid)).
Proof.
  intros Ha Hv Hw. unfold on_session. rewrite (reply_attr_emit (HRS := request_emit_law)) by done.
  destruct (read_attr_payload req.(req_config).(minor) attr valid Ha Hv) as [Hl _].
  rewrite (emit_replied _ _ _ _ _ w'); cbn [concat]; rewrite ?app_nil_r; [done..| |exact Hw].
  cbn [rs_config Request_ReplySender]. rewrite Hl. unfold attr_size_of. by case_match.
Qed.

Lemma open_answers fh open_flags :
  is_u 64 fh.(FileID_into_raw) → is_u 32 open_flags →
  taken (None, open_payload fh open_flags) →
  succeeds (on_session (reply_open (RS := Request_ReplySender) req fh open_flags 0)).
Proof.
  intros Hf Hl Hw. unfold on_session, reply_open. rewrite Tauto.if_same.
  rewrite (reply_pod (HRS := request_emit_law)) by done.
  rewrite (emit_replied _ _ _ _ _ w'); cbn [concat]; rewrite ?app_nil_r; [done..| |exact Hw].
  rewrite length_pod_encode; [done|by apply (open_out_wf fh open_flags)].
Qed.

Lemma poll_answers revents :
  is_u 32 revents → taken (None, poll_payload revents) →
  succeeds (on_session (reply_poll (RS := Request_ReplySender) req revents)).
Proof.
  intros Hl Hw. unfold on_session, reply_poll. rewrite (reply_pod (HRS := request_emit_law)) by done.
  rewrite (emit_replied _ _ _ _ _ w'); cbn [concat]; rewrite ?app_nil_r; [done..| |exact Hw].
  rewrite length_pod_encode; [done|]. goal_pod_wf. by split_fields.
Qed.

Lemma dir_answers buf :
  vec_len buf.(deb_buf) < 2 ^ 31 → taken (None, buf.(deb_buf).(vec_bytes)) →
  succeeds (on_session (reply_dir (RS := Request_ReplySender) req buf)).
Proof.
  intros Hl Hw. unfold on_session, reply_dir.
  destruct (u8_slice_chunks buf.(deb_buf).(vec_bytes)) as [Hb Hc].
  destruct (pointer_chunks u8_slice_Bytes buf.(deb_buf).(vec_bytes) Hb) as [Hb' Hc'].
  assert (content (pointer_Bytes u8_slice_Bytes) buf.(deb_buf).(vec_bytes) = buf.(deb_buf).(vec_bytes))
    as Hn by (unfold content in *; by rewrite Hc').
  rewrite (reply_replied _ _ _ _ _ _ w'); [done|done|done|done|..]; by rewrite Hn.
Qed.

End answers.

(** A notification that is taken, or refused with [ENOENT] because the kernel
does not know the node. *)
Lemma sends_replied code body (m : M (Session * W) io_error unit) s w w' :
  sends code body m → replied w (notify_message code body) w' → m (s, w) = (Ok tt, (s, w')).
Proof.
  intros (h & cs & Hcs & -> & Hh & Hsend) Hw. rewrite Hsend. unfold or_handle_reply_error, write_all.
  pose proof Errno_values as Hv. injection Hv as _ Hnoent _ _ Hnodev _ _.
  destruct (Hw cs Hcs) as [-> | ->].
  - unfold notify_message. by rewrite Hcs, Z.ltb_irrefl.
  - unfold handle_reply_error, is_errno. by rewrite Errno_from_io_error_os, Hnodev, Hnoent.
Qed.

(** A notification that is one structure. *)
Lemma pod_sends {T} `{Pod T} code (out : T) :
  pod_wf out → Z.of_nat (size_of T) < 2 ^ 31 →
  sends code (pod_encode out) (notifier_send code POD_Bytes (mkPOD out)).
Proof.
  intros Hout Hl. destruct (POD_chunks (mkPOD out)) as [Hb Hc].
  assert (content POD_Bytes (mkPOD out) = pod_encode out) as Hcon
    by (unfold content; rewrite Hc, zc_as_bytes_spec; cbn; by rewrite app_nil_r).
  rewrite <- Hcon. apply notifier_sends; [done|]. unfold fits. rewrite Hcon, length_pod_encode by done. lia.
Qed.

(** A request that was taken in is received and decoded. *)
Lemma takes_decoded (addr : RequestBuf → Z) s b w r b1 w1 :
  (∀ b, aligned_to (addr b) 8 = true) →
  buf_wf b → s.(s_exited) = false → request_wf s.(s_config) r →
  takes b w (kr_message s.(s_config) r) b1 w1 →
  buf_wf b1 ∧ recv_request (s, b, w) = (Ok true, (s, b1, w1)) ∧
  ∃ rem, put_back b1 rem = b1 ∧
    Session_decode (addr b1) s b1 =
      Ok ({| req_config := s.(s_config); req_header := {| raw := r.(kr_header) |} |}, r.(kr_op), rem).
Proof.
  intros Ha Hb Hs (Hx & Hop & Hlen & rq & Hrq & Hh & Hl1 & Hl2) [[w2 Hd] Hr].
  destruct (try_receive_delivered b w w2 r.(kr_header) (kr_body s.(s_config) r))
    as (b' & w' & Hrun & Hb1 & Hp); [done..|].
  set (rem := remaining_after _ _ _) in Hp. clearbody rem.
  rewrite Hrun in Hr. injection Hr as -> ->. split; [done|].
  assert (rb_header b1 = {| raw := kr_header r |}) as Hhead.
  { unfold to_parts in Hp. destruct (rb_kind b1); [|case_match]; simplify_eq/=; done. }
  destruct (encode_op_opcode _ _ _ _ Hrq) as [Hni Hnd].
  assert (InHeader_opcode {| raw := kr_header r |} = Ok (rq_opcode rq)) as Ho
    by (apply InHeader_opcode_Ok, Hh).
  split.
  { unfold recv_request. rewrite Hs, Hrun, Hhead, Ho. by destruct (rq_opcode rq). }
  exists rem. split.
  { unfold to_parts, put_back in *. destruct b1 as [h [pb|vb]]; cbn in *; [|by case_match; simplify_eq].
    simplify_eq. by destruct pb. }
  assert (∃ trailing, take (Z.to_nat (arg_len {| raw := kr_header r |})) (kr_body (s_config s) r)
          = rq_arg rq ++ trailing) as [trailing Ht].
  { unfold kr_body. rewrite Hrq. eexists. apply take_app_ge. lia. }
  pose proof (op_roundtrips s.(s_config) r.(kr_op) r.(kr_rename1) rq {| raw := kr_header r |}
    (addr b1) trailing Hop Hrq Hh (Ha b1)) as Hdec.
  unfold Session_decode, to_parts in *. rewrite Ht in Hp.
  destruct (rb_kind b1) as [pb|vb]; [|case_match; [done|]]; injection Hp as -> -> <-;
    unfold mbind, outcome_mbind, outcome_bind; by rewrite Hdec.
Qed.

Context (addr : RequestBuf → Z) {Ha : ∀ b, aligned_to (addr b) 8 = true}.
Context (handle : handler (F := F) (W := W)) (dom : KernelConfig → F → Operation → Prop).
Context (answer : KernelConfig → F → Operation → F * option answer_) {HA : Answers handle dom answer}.

Lemma serve_step_request f s b w r b1 w1 w2 :
  buf_wf b → s.(s_exited) = false → request_wf s.(s_config) r → dom s.(s_config) f r.(kr_op) →
  takes b w (kr_message s.(s_config) r) b1 w1 →
  let '(f', a) := answer s.(s_config) f r.(kr_op) in
  match a with Some a => replied w1 (message_of r.(kr_header) a) w2 | None => w2 = w1 end →
  serve_step addr handle (f, s, b, w) = (Ok true, (f', s, b1, w2)).
Proof.
  intros Hb Hs Hr Hd Ht.
  destruct (takes_decoded addr s b w r b1 w1 Ha Hb Hs Hr Ht) as (_ & Hrecv & rem & Hback & Hdec).
  pose proof (handle_answers {| req_config := s.(s_config); req_header := {| raw := r.(kr_header) |} |}
    r.(kr_op) f rem s w1 (proj1 Hr) (proj1 (proj2 Hr)) Hd) as Hans. cbn [req_config req_header raw] in Hans.
  destruct (answer _ _ _) as [f' [a|]]; intros Hw; unfold serve_step; rewrite Hrecv, Hdec.
  - rewrite (Hans w2 Hw). by rewrite Hback.
  - subst w2. rewrite Hans. by rewrite Hback.
Qed.

(** The loop answers every request in order and returns when the connection is
gone; one unit of fuel per request and one for the end is enough. *)
Lemma serve_dialogue rs : ∀ f s b w b' w',
  buf_wf b → s.(s_exited) = false → acceptable dom answer s.(s_config) f rs →
  dialogue (expected answer s.(s_config) f rs) (b, w) (b', w') →
  serve addr handle (S (length rs)) (f, s, b, w) =
    (Ok (Some tt), (final answer s.(s_config) f rs, Session_exit s, b', w')).
Proof.
  induction rs as [|r rs IH]; intros f s b w b' w' Hb Hs Hok Hd.
  - inversion Hd as [? ? ? ? Hend| |]; subst. cbn [serve length].
    rewrite (M_bind_Ok _ _ _ (f, Session_exit s, b', w') false); [done|].
    unfold serve_step, recv_request. rewrite Hs, Hend. unfold is_errno.
    pose proof Errno_values as Hv. injection Hv as _ _ _ _ Hnodev _ _.
    by rewrite Errno_from_io_error_os, Hnodev.
  - destruct Hok as (Hr & Hdom & Hok). cbn [expected final length] in *.
    set (a := answer s.(s_config) f r.(kr_op)) in *.
    assert (∃ b1 w1 w2, takes b w (kr_message s.(s_config) r) b1 w1 ∧
      match a.2 with Some a => replied w1 (message_of r.(kr_header) a) w2 | None => w2 = w1 end ∧
      dialogue (expected answer s.(s_config) a.1 rs) (b1, w2) (b', w')) as (b1 & w1 & w2 & Ht & Hw & Hd').
    { destruct (a.2) as [x|]; cbn in Hd; inversion Hd; subst; eauto 10. }
    pose proof (serve_step_request f s b w r b1 w1 w2 Hb Hs Hr Hdom Ht) as Hstep. fold a in Hstep.
    destruct a as [f' x]. cbn [fst snd] in *.
    change (serve addr handle (S (S (length rs)))) with
      (more ← serve_step addr handle; if more : bool then serve addr handle (S (length rs)) else mret (Some tt)).
    erewrite M_bind_Ok by by apply Hstep. cbv beta iota.
    destruct (takes_decoded addr s b w r b1 w1 Ha Hb Hs Hr Ht) as [Hb1 _]. by apply IH.
Qed.

End facts.

(** A handler that replies with an error: rewrite its code with [H]. *)
Ltac answer_error H :=
  lazymatch goal with
  | |- on_session (reply_error _ _) _ = _ => apply error_answers; rewrite ?H; done
  end.

(** A daemon without state of its own: its replies are those of [answer], one
per request, and the kernel reads the filesystem [view] from them. *)
Section stateless.
Context {W : Type} {OS : OsPipe W} {HOS : OsPipeSpec OS} {CN : SpliceRead W} {HCN : SpliceReadSpec CN}.
Context {IW : IoWrite W}.
Context `{BF : Bitflags} {HBF : BitflagsSpec} `{ZC : Zerocopy} {HZC : ZerocopySpec}.
Context `{RX : Rustix} {HRX : RustixSpec} `{L : Libc} {HL : LibcLinux L} `{PR : Profile}.
Context (addr : RequestBuf → Z) {Ha : ∀ b, aligned_to (addr b) 8 = true}.
Context (handle : handler (F := unit) (W := W)) (dom : KernelConfig → unit → Operation → Prop).
Context (answer : KernelConfig → unit → Operation → unit * option answer_) {HA : Answers handle dom answer}.
Context (view : u32 → Operation → reply_view).
Context {HV : ∀ c op, Operation_wf c op → dom c tt op →
  ∃ a, answer c tt op = (tt, Some a) ∧ view_of c.(minor) op a = view c.(minor) op}.

(** The exchange of messages with the kernel. *)
Definition exchanges (c : KernelConfig) (rs : list kernel_request) (replies : list (option answer_))
    : list (list byte * option (list byte)) :=
  zip_with (λ r a, (kr_message c r, message_of r.(kr_header) <$> a)) rs replies.

Lemma stateless_serves s b w b' w' rs :
  buf_wf b → s.(s_exited) = false →
  Forall (λ r, request_wf s.(s_config) r ∧ dom s.(s_config) tt r.(kr_op)) rs →
  let replies := (λ r, ((answer s.(s_config) tt r.(kr_op)).2)) <$> rs in
  Forall2 (λ r a, ∃ x, a = Some x ∧
    view_of s.(s_config).(minor) r.(kr_op) x = view s.(s_config).(minor) r.(kr_op)) rs replies ∧
  (dialogue (exchanges s.(s_config) rs replies) (b, w) (b', w') →
   serve addr handle (S (length rs)) (tt, s, b, w) = (Ok (Some tt), (tt, Session_exit s, b', w'))).
Proof.
  intros Hb Hs Hrs replies. split.
  - apply Forall2_fmap_r, Forall_Forall2_diag. eapply Forall_impl; [exact Hrs|]. intros r [Hr Hd].
    destruct (HV s.(s_config) r.(kr_op)) as (a & Hans & Hv); [apply Hr|done|].
    exists a. split; [|done]. change ((answer s.(s_config) tt r.(kr_op)).2 = Some a). by rewrite Hans.
  - intros Hd.
    rewrite (serve_dialogue addr (Ha := Ha) _ dom answer (HA := HA) rs tt s b w b' w');
      [by destruct (final _ _ _ _)|done|done| |].
    + clear replies Hd. induction Hrs as [|r rs [Hr Hd] Hrs IH]; [done|].
      split; [done|]. split; [done|]. by destruct (answer _ _ _) as [[] ?].
    + replace (expected _ _ _ _) with (exchanges s.(s_config) rs replies); [done|].
      unfold replies. clear. induction rs as [|r rs IH]; [done|].
      unfold exchanges. cbn [fmap list_fmap zip_with expected].
      f_equal. unfold exchanges in IH. rewrite IH. by destruct (answer _ _ _) as [[] ?].
Qed.

End stateless.

(** ** Instances *)

Definition ref_posix : Posix := {|
  Errno_ACCESS := 13; Errno_NOTDIR := 20; Errno_ISDIR := 21; Errno_NOSYS := 38;
  getuid := 1000; getgid := 100 |}.

Lemma ref_posix_spec : @PosixSpec ref_posix.
Proof. by split. Qed.

(** The reference instances of the crates, together. *)
Module Ref.
#[export] Instance inst_bf : Bitflags := ref_bitflags.
#[export] Instance inst_bf_spec : BitflagsSpec := ref_bitflags_spec.
#[export] Instance inst_zc : Zerocopy := ref_zerocopy.
#[export] Instance inst_zc_spec : ZerocopySpec := ref_zerocopy_spec.
#[export] Instance inst_rx : Rustix := ref_rustix.
#[export] Instance inst_rx_spec : RustixSpec := ref_rustix_spec.
#[export] Instance inst_libc : Libc := linux_libc.
#[export] Instance inst_libc_linux : LibcLinux linux_libc := ref_libc_linux.
#[export] Instance inst_profile : Profile := true.
#[export] Instance inst_posix : Posix := ref_posix.
#[export] Instance inst_posix_spec : PosixSpec := ref_posix_spec.
End Ref.

Lemma sim_replied incoming outgoing msg :
  replied {| incoming := incoming; outgoing := outgoing |} msg
          {| incoming := incoming; outgoing := outgoing ++ [msg] |}.
Proof. intros cs <-. by left. Qed.

(** The message of a request that carries only its argument. *)
Definition request_of `{Bitflags} `{Libc} (opcode : fuse_opcode) (nodeid unique : Z) (o : Operation)
    : kernel_request := {|
  kr_header := {|
    in_header_len := 40 + match encode_op config_example false o with
                          | Some rq => Z.of_nat (length rq.(rq_arg)) | None => 0 end;
    in_header_opcode := discr opcode;
    in_header_unique := unique;
    in_header_nodeid := nodeid;
    in_header_uid := 0; in_header_gid := 0; in_header_pid := 0;
    in_header_total_extlen := 0; in_header_padding := 0 |};
  kr_op := o;
  kr_rename1 := false;
  kr_data := [] |}.

(** The buffer in memory after a request was taken in. *)
Definition after `{Zerocopy} `{Rustix} `{Profile} (b : RequestBuf) (msg : list byte) : RequestBuf :=
  (RequestBuf_try_receive (b, {| incoming := [msg]; outgoing := [] |})).2.1.

(** Closed facts about an example request. *)
Ltac closed_fact :=
  lazymatch goal with
  | |- _ ∧ _ => split; closed_fact
  | |- ∃ _, encode_op _ _ _ = Some _ ∧ _ => eexists; split; [reflexivity|closed_fact]
  | |- pod_wf _ => repeat split; vm_compute; congruence
  | |- name_ok _ => apply (bool_decide_unpack _); vm_compute; exact I
  | |- request_wf _ _ => unfold request_wf; cbv zeta; closed_fact
  | |- Operation_wf ?c ?o =>
      let o' := eval hnf in o in change (Operation_wf c o'); cbn [Operation_wf]; closed_fact
  | |- node_ok _ => unfold node_ok; closed_fact
  | |- header_of _ _ => unfold header_of; closed_fact
  | |- _ => first [exact I | vm_compute; reflexivity | vm_compute; repeat split; congruence]
  end.

(** One exchange of the reference world, with a reply. *)
Ltac sim_exchange :=
  eapply dialogue_reply;
    [split; [eexists; split; vm_compute; [reflexivity|congruence]|vm_compute; reflexivity]
    |apply sim_replied|].

Section examples.
Import Ref.

(** The world in which the kernel sends the given requests and unmounts, the
buffer at the end, and the messages sent for the given replies. *)
Definition requests_world (rs : list kernel_request) : World :=
  {| incoming := kr_message config_example <$> rs; outgoing := [] |}.

Definition buf_after (rs : list kernel_request) : RequestBuf :=
  (RequestBuf_try_receive
     (foldl after vec_example (kr_message config_example <$> rs), idle_world)).2.1.

Definition sent_world (rs : list kernel_request) (replies : list (option answer_)) : World :=
  {| incoming := [];
     outgoing := zip_with (λ r a, default [] (message_of r.(kr_header) <$> a)) rs replies |}.

End examples.
