(* ===== verification/Hello.v ===== *)
(** * The example [src/examples/hello.rs]

A filesystem with one file, served by the loop of [Server]: its handlers, the
files it promises to show, and the proof that the kernel sees them. *)

From S2P Require Import Prelude Layout Kernel Crates Types Bytes Init Msg Header Decoder.
From S2P Require Import Operation Op OpWire OpSpec OpTotal Reply Dirent Io Device Sim Buf Session.
From S2P Require Import Connect Server.
Local Open Scope Z_scope.

Definition TTL : Duration := Duration_from_secs (60 * 60 * 24 * 365).

Definition HELLO_INO : NodeID :=
  match NodeID_from_raw 2 with Some ino => ino | None => NodeID_ROOT end.

Definition HELLO_FILENAME : list byte := bytes_of "hello.txt".
Definition HELLO_CONTENT : list byte := bytes_of "Hello, world!" ++ [Byte.x0a].

Record DirEntry := { de_name : list byte; de_ino : NodeID; de_typ : option FileType }.

Record Hello := { h_entries : list DirEntry; h_uid : Uid; h_gid : Gid }.

Section hello.
Context {W : Type} `{OS : OsPipe W} `{CN : SpliceRead W} `{IW : IoWrite W}.
Context `{BF : Bitflags} `{ZC : Zerocopy} `{RX : Rustix} `{L : Libc} `{PR : Profile}.
Context `{PX : Posix} `{AL : Alloc}.

Definition Hello_new : Hello := {|
  h_entries := [
    {| de_name := bytes_of "."; de_ino := NodeID_ROOT; de_typ := Some Directory |};
    {| de_name := bytes_of ".."; de_ino := NodeID_ROOT; de_typ := Some Directory |};
    {| de_name := HELLO_FILENAME; de_ino := HELLO_INO; de_typ := Some Regular |} ];
  h_uid := getuid;
  h_gid := getgid;
|}.

Definition root_attr {E} (self : Hello) : outcome E FileAttr :=
  attr_with NodeID_ROOT 0
    (FileMode_new Directory (bf_union FilePermissions_READ FilePermissions_EXEC))
    2 self.(h_uid) self.(h_gid).

Definition hello_attr {E} (self : Hello) : outcome E FileAttr :=
  attr_with HELLO_INO (Z.of_nat (length HELLO_CONTENT))
    (FileMode_new Regular FilePermissions_READ) 1 self.(h_uid) self.(h_gid).

Definition dir_entries (self : Hello) : list (u64 * DirEntry) :=
  imap (λ i ent, (Z.of_nat i + 1, ent)) self.(h_entries).

(** The loop over the entries, which [break]s when the buffer is full. *)
Fixpoint push_entries (es : list (u64 * DirEntry)) : M DirEntryBuf Empty_set unit :=
  match es with
  | [] => mret tt
  | (i, entry) :: es =>
      offset ← lift (arith_u 64 (i + 1));
      full ← push_entry entry.(de_name) entry.(de_ino) entry.(de_typ) offset;
      if full : bool then mret tt else push_entries es
  end.

Context (fs : Hello).
Notation answering := (M (unit * RemainingData * (Session * W)) app_error unit).

Definition hello_lookup (req : Request) (op : Lookup) : answering :=
  if decide (op.(Lookup_parent) = NodeID_ROOT ∧ op.(Lookup_name) = HELLO_FILENAME) then
    attr ← lift (hello_attr fs);
    on_session (reply_entry (RS := Request_ReplySender) req (Some HELLO_INO) attr 0 (Some TTL) (Some TTL))
  else on_session (reply_error (RS := Request_ReplySender) req Errno_NOENT).

(** [Err(Errno::NOENT)?] leaves the loop. *)
Definition hello_getattr (req : Request) (op : Getattr) : answering :=
  attr ← (if decide (op.(Getattr_ino) = NodeID_ROOT) then lift (root_attr fs)
          else if decide (op.(Getattr_ino) = HELLO_INO) then lift (hello_attr fs)
          else lift (Err (AppErrno Errno_NOENT)));
  on_session (reply_attr (RS := Request_ReplySender) req attr (Some TTL)).

Definition hello_read (req : Request) (op : Read) : answering :=
  if decide (op.(Read_ino) = HELLO_INO) then
    on_session (reply_bytes (RS := Request_ReplySender) u8_slice_Bytes req
      (read_slice HELLO_CONTENT op.(Read_offset) op.(Read_size)))
  else if decide (op.(Read_ino) = NodeID_ROOT) then
    on_session (reply_error (RS := Request_ReplySender) req Errno_ISDIR)
  else on_session (reply_error (RS := Request_ReplySender) req Errno_NOENT).

Definition hello_readdir (req : Request) (op : Readdir) : answering :=
  if decide (op.(Readdir_ino) ≠ NodeID_ROOT) then
    on_session (reply_error (RS := Request_ReplySender) req Errno_NOTDIR)
  else
    with_local (DirEntryBuf_new op.(Readdir_size))
      (push_entries (drop (Z.to_nat op.(Readdir_offset)) (dir_entries fs)))
      (λ buf _, on_session (reply_dir (RS := Request_ReplySender) req buf)).

(** The [match op] of the loop. *)
Definition hello_handle : handler (F := unit) (W := W) := λ req op,
  match op with
  | Operation_Lookup op => hello_lookup req op
  | Operation_Getattr op => hello_getattr req op
  | Operation_Read op => hello_read req op
  | Operation_Readdir op => hello_readdir req op
  | _ => on_session (reply_error (RS := Request_ReplySender) req Errno_NOSYS)
  end.

End hello.

(** ** What the kernel sees *)

(** The listing of the directory: each name with the offset that continues after it. *)
Definition hello_listing : list entry := [
  {| e_name := bytes_of "."; e_ino := NodeID_ROOT; e_typ := Some Directory; e_off := 2 |};
  {| e_name := bytes_of ".."; e_ino := NodeID_ROOT; e_typ := Some Directory; e_off := 3 |};
  {| e_name := HELLO_FILENAME; e_ino := HELLO_INO; e_typ := Some Regular; e_off := 4 |} ].

(** The filesystem the example presents: a directory that cannot be written with
the file [hello.txt], whose content is read by slices. *)
Definition hello_view `{Posix} `{Alloc} (m : u32) (op : Operation) : reply_view :=
  let root := plain_attr NodeID_ROOT 0 dir_mode 2 getuid getgid in
  let file := plain_attr HELLO_INO 14 file_mode 1 getuid getgid in
  match op with
  | Operation_Lookup op =>
      if decide (op.(Lookup_parent) = NodeID_ROOT ∧ op.(Lookup_name) = HELLO_FILENAME)
      then ViewEntry {| ev_nodeid := 2; ev_generation := 0; ev_entry_valid := TTL;
                        ev_attr_valid := TTL; ev_attr := attr_sent m file |}
      else ViewError 2
  | Operation_Getattr op =>
      ViewAttr TTL (attr_sent m (if decide (op.(Getattr_ino) = NodeID_ROOT) then root else file))
  | Operation_Read op =>
      if decide (op.(Read_ino) = HELLO_INO)
      then ViewData (take (Z.to_nat op.(Read_size)) (drop (Z.to_nat op.(Read_offset)) HELLO_CONTENT))
      else ViewError (if decide (op.(Read_ino) = NodeID_ROOT) then 21 else 2)
  | Operation_Readdir op =>
      if decide (op.(Readdir_ino) = NodeID_ROOT)
      then ViewDir (fitting (alloc_capacity op.(Readdir_size))
                     (drop (Z.to_nat op.(Readdir_offset)) hello_listing))
      else ViewError 20
  | _ => ViewError 38
  end.

(** A GETATTR asks for a file that exists. *)
Definition hello_dom (c : KernelConfig) (f : unit) (op : Operation) : Prop :=
  match op with
  | Operation_Getattr op => op.(Getattr_ino) = NodeID_ROOT ∨ op.(Getattr_ino) = HELLO_INO
  | _ => True
  end.

(** The replies that show it. *)
Definition hello_answer `{Libc} `{Posix} `{Alloc} (c : KernelConfig) (f : unit) (op : Operation)
    : unit * option answer_ :=
  let root := plain_attr NodeID_ROOT 0 dir_mode 2 getuid getgid in
  let file := plain_attr HELLO_INO 14 file_mode 1 getuid getgid in
  (tt, Some
    match op with
    | Operation_Lookup op =>
        if decide (op.(Lookup_parent) = NodeID_ROOT ∧ op.(Lookup_name) = HELLO_FILENAME)
        then (None, entry_payload c.(minor) (Some HELLO_INO) file 0 (Some TTL) (Some TTL))
        else (Some 2, [])
    | Operation_Getattr op =>
        (None, attr_payload c.(minor)
           (if decide (op.(Getattr_ino) = NodeID_ROOT) then root else file) (Some TTL))
    | Operation_Read op =>
        if decide (op.(Read_ino) = HELLO_INO)
        then (None, read_slice HELLO_CONTENT op.(Read_offset) op.(Read_size))
        else (Some (if decide (op.(Read_ino) = NodeID_ROOT) then 21 else 2), [])
    | Operation_Readdir op =>
        if decide (op.(Readdir_ino) = NodeID_ROOT)
        then (None, concat (entry_bytes <$> fitting (alloc_capacity op.(Readdir_size))
                              (drop (Z.to_nat op.(Readdir_offset)) hello_listing)))
        else (Some 20, [])
    | _ => (Some 38, [])
    end).

Section facts.
Context {W : Type} {OS : OsPipe W} {HOS : OsPipeSpec OS} {CN : SpliceRead W} {HCN : SpliceReadSpec CN}.
Context {IW : IoWrite W}.
Context `{BF : Bitflags} {HBF : BitflagsSpec} `{ZC : Zerocopy} {HZC : ZerocopySpec}.
Context `{RX : Rustix} {HRX : RustixSpec} `{L : Libc} {HL : LibcLinux L} `{PR : Profile}.
Context `{PX : Posix} {HPX : PosixSpec} `{AL : Alloc} {HAL : AllocSpec}.

Lemma hello_listing_wf : Forall entry_wf hello_listing.
Proof. repeat constructor; vm_compute; congruence. Qed.

(** The pushes of the loop are those of the listing. *)
Lemma push_entries_listing n :
  push_entries (drop n (dir_entries Hello_new)) = push_until_full (drop n hello_listing).
Proof. by do 4 (destruct n as [|n]; [reflexivity|]). Qed.

Lemma readdir_buffer size offset :
  0 ≤ size < 2 ^ 32 →
  ∃ d, push_entries (drop offset (dir_entries Hello_new)) (DirEntryBuf_new size) = (Ok tt, d) ∧
    d.(deb_buf).(vec_bytes) =
      concat (entry_bytes <$> fitting (alloc_capacity size) (drop offset hello_listing)).
Proof.
  intros Hs. rewrite push_entries_listing.
  destruct (push_until_full_run (drop offset hello_listing) (DirEntryBuf_new size))
    as (d & -> & _ & Hbs).
  - apply Forall_drop, hello_listing_wf.
  - pose proof (alloc_capacity_spec size). pose proof (alloc_capacity_max size ltac:(lia)).
    split; cbn; unfold vec_len; cbn; (done || lia).
  - exists d. split; [done|]. rewrite Hbs. cbn. unfold vec_len. cbn. by rewrite Z.sub_0_r.
Qed.

Lemma listing_short room offset :
  0 ≤ room → Z.of_nat (length (concat (entry_bytes <$> fitting room (drop offset hello_listing)))) < 2 ^ 31.
Proof.
  intros Hr. pose proof (length_fitting room (drop offset hello_listing)
    (Forall_drop _ _ _ hello_listing_wf) Hr) as Hl.
  assert (total_len (drop offset hello_listing) ≤ 104); [|lia].
  clear. by do 4 (destruct offset as [|offset]; [vm_compute; congruence|]).
Qed.

Lemma hello_attrs_wf :
  attr_wf (plain_attr NodeID_ROOT 0 dir_mode 2 getuid getgid) ∧
  attr_wf (plain_attr HELLO_INO 14 file_mode 1 getuid getgid).
Proof. by split; apply plain_attr_wf. Qed.

Lemma TTL_wf : opt_time_wf (Some TTL).
Proof. done. Qed.

(** The handlers send the replies of [hello_answer]. *)
Lemma hello_answers : Answers (hello_handle Hello_new) hello_dom hello_answer.
Proof.
  intros req op [] rem s w Hq Hop Hdom. cbn [hello_answer fst snd]. intros w' Hw.
  pose proof Errno_values as Hv. injection Hv as _ Hnoent _ _ _ _ _.
  pose proof Posix_values as Hp. injection Hp as _ Hnotdir Hisdir Hnosys.
  destruct modes as [Hdm Hfm]. destruct hello_attrs_wf as [Hra Hfa].
  destruct op; cbn [hello_handle]; try answer_error Hnosys.
  - unfold hello_lookup. case_decide.
    + unfold hello_attr. rewrite Hfm, attr_with_ok. erewrite M_bind_Ok by done. by apply entry_answers.
    + apply error_answers; by rewrite ?Hnoent.
  - unfold hello_getattr. unfold root_attr, hello_attr. rewrite Hdm, Hfm, !attr_with_ok.
    case_decide; [|rewrite decide_True by naive_solver]; (erewrite M_bind_Ok by done); by apply attr_answers.
  - unfold hello_read. destruct Hop as (_ & _ & Ho & Hs & _). case_decide.
    + apply data_answers; [done| |done]. rewrite read_slice_spec by (unfold is_u in *; lia).
      rewrite length_take, length_drop. change (length HELLO_CONTENT) with 14%nat. lia.
    + case_decide; apply error_answers; by rewrite ?Hisdir, ?Hnoent.
  - unfold hello_readdir. destruct Hop as (_ & _ & Ho & Hs).
    destruct (decide (Readdir_ino op = NodeID_ROOT)) as [Hr|Hr].
    + rewrite decide_False by tauto.
      destruct (readdir_buffer op.(Readdir_size) (Z.to_nat op.(Readdir_offset))) as (d & Hd & Hbs);
        [unfold is_u in *; lia|].
      unfold with_local. rewrite Hd. apply dir_answers; [done| |by rewrite Hbs].
      unfold vec_len. rewrite Hbs. apply listing_short.
      pose proof (alloc_capacity_spec op.(Readdir_size)). unfold is_u in *. lia.
    + rewrite decide_True by done. apply error_answers; by rewrite ?Hnotdir.
Qed.

(** The kernel reads the filesystem of [hello_view] from them. *)
Lemma hello_answer_view c op :
  Operation_wf c op → hello_dom c tt op →
  ∃ a, hello_answer c tt op = (tt, Some a) ∧ view_of c.(minor) op a = hello_view c.(minor) op.
Proof.
  intros Hop Hdom. destruct hello_attrs_wf as [Hra Hfa]. unfold hello_answer. eexists. split; [done|].
  destruct op; try done; cbn [hello_view].
  - case_decide; [|done]. unfold view_of. cbn [fst snd]. do 2 f_equal.
    by apply read_entry_payload.
  - unfold view_of. cbn [fst snd].
    destruct (read_attr_payload c.(minor) (if decide (Getattr_ino op = NodeID_ROOT)
      then plain_attr NodeID_ROOT 0 dir_mode 2 getuid getgid
      else plain_attr HELLO_INO 14 file_mode 1 getuid getgid) (Some TTL)) as [_ ->];
      [by case_decide|done|]. done.
  - destruct Hop as (_ & _ & Ho & Hs & _). repeat case_decide; try done.
    unfold view_of. cbn [fst snd]. by rewrite read_slice_spec by (unfold is_u in *; lia).
  - case_decide; [|done]. unfold view_of. cbn [fst snd]. f_equal.
    apply parse_fitting, Forall_drop, hello_listing_wf.
Qed.

Lemma fitting_from_0 room :
  fitting room (drop (Z.to_nat 0) hello_listing) =
    let e n o := {| e_name := bytes_of n; e_ino := NodeID_ROOT; e_typ := Some Directory; e_off := o |} in
    if room <? 32 then []
    else e "." 2 :: if room - 32 <? 32 then []
    else e ".." 3 :: if room - 32 - 32 <? 40 then []
    else [{| e_name := HELLO_FILENAME; e_ino := HELLO_INO; e_typ := Some Regular; e_off := 4 |}].
Proof. reflexivity. Qed.

Lemma fitting_from_2 room :
  fitting room (drop (Z.to_nat 2) hello_listing) =
    if room <? 40 then []
    else [{| e_name := HELLO_FILENAME; e_ino := HELLO_INO; e_typ := Some Regular; e_off := 4 |}].
Proof. reflexivity. Qed.

Context (addr : RequestBuf → Z) {Ha : ∀ b, aligned_to (addr b) 8 = true}.

(** C8: [hello] shows its filesystem to the kernel.  For any sequence of
well-formed requests (GETATTR being asked for the two files that exist), the
daemon answers each of them with exactly one message, in order, goes on when
the kernel has interrupted a request, and returns without an error when the
filesystem is unmounted; and each answer, as the kernel reads it, is what the
filesystem prescribes: the entry and the attributes of [hello.txt], slices of
its content, the listing of the directory from an offset as far as it fits,
and [ENOENT], [EISDIR], [ENOTDIR] or [ENOSYS] for everything else. *)
Theorem hello_serves s b w b' w' rs :
  buf_wf b → s.(s_exited) = false →
  Forall (λ r, request_wf s.(s_config) r ∧ hello_dom s.(s_config) tt r.(kr_op)) rs →
  let replies := (λ r, ((hello_answer s.(s_config) tt r.(kr_op)).2)) <$> rs in
  Forall2 (λ r a, ∃ x, a = Some x ∧
    view_of s.(s_config).(minor) r.(kr_op) x = hello_view s.(s_config).(minor) r.(kr_op)) rs replies ∧
  (dialogue (exchanges s.(s_config) rs replies) (b, w) (b', w') →
   serve addr (hello_handle Hello_new) (S (length rs)) (tt, s, b, w) =
     (Ok (Some tt), (tt, Session_exit s, b', w'))).
Proof.
  apply (stateless_serves addr (Ha := Ha) _ hello_dom hello_answer (HA := hello_answers) hello_view
    (HV := hello_answer_view)).
Qed.

(** A GETATTR of any other node ends the daemon.  It returns [ENOENT] from
its loop instead of answering the request, and nothing is written. *)
Lemma hello_getattr_unknown s b w b1 w1 r op fuel :
  buf_wf b → s.(s_exited) = false → request_wf s.(s_config) r →
  r.(kr_op) = Operation_Getattr op → op.(Getattr_ino) ≠ NodeID_ROOT → op.(Getattr_ino) ≠ HELLO_INO →
  takes b w (kr_message s.(s_config) r) b1 w1 →
  serve addr (hello_handle Hello_new) (S fuel) (tt, s, b, w) = (Err (AppErrno 2), (tt, s, b1, w1)).
Proof.
  intros Hb Hs Hr Hop Hn1 Hn2 Ht.
  destruct (takes_decoded addr s b w r b1 w1 Ha Hb Hs Hr Ht) as (_ & Hrecv & rem & Hback & Hdec).
  pose proof Errno_values as Hv. injection Hv as _ Hnoent _ _ _ _ _.
  cbn [serve]. unfold mbind, M_bind, serve_step. rewrite Hrecv, Hdec, Hop.
  cbn [hello_handle]. unfold hello_getattr. rewrite !decide_False by done.
  unfold mbind, M_bind, lift. by rewrite Hback, Hnoent.
Qed.

(** What a program sees that lists the directory.  With room for all three
entries the listing is complete.  With less, the offset sent with an entry
skips the entry after it: [hello.txt] or [..] is not listed. *)
Theorem hello_listing_offsets c size rounds :
  is_u 32 size →
  let room := alloc_capacity size in
  let view op := default (ViewError 0) (view_of c.(minor) op <$> (hello_answer c tt op).2) in
  e_name <$> list_dir view (S (S (S rounds))) size 0 =
    if 104 <=? room then [bytes_of "."; bytes_of ".."; bytes_of "hello.txt"]
    else if 64 <=? room then [bytes_of "."; bytes_of ".."]
    else if 40 <=? room then [bytes_of "."; bytes_of "hello.txt"]
    else if 32 <=? room then [bytes_of "."]
    else [].
Proof.
  intros Hsize room view.
  assert (∀ off, is_u 64 off →
    view (readdir_at size off) = ViewDir (fitting room (drop (Z.to_nat off) hello_listing))) as Hview.
  { intros off Hoff.
    assert (Operation_wf c (readdir_at size off)) as Hwf
      by (cbn; split_and!; [by split|by split|done|done]).
    destruct (hello_answer_view c (readdir_at size off) Hwf I) as (a & Hans & Hv). unfold view. by rewrite Hans. }
  clearbody view room. cbn [list_dir]. rewrite (Hview 0) by done.
  rewrite fitting_from_0.
  destruct (Z.ltb_spec room 32) as [H32|H32].
  { cbn. by rewrite !(proj2 (Z.leb_gt _ _)) by lia. }
  destruct (Z.ltb_spec (room - 32) 32) as [H64|H64].
  { cbn [last e_off]. rewrite (Hview 2) by done. rewrite fitting_from_2.
    rewrite (proj2 (Z.leb_gt 104 _)), (proj2 (Z.leb_gt 64 _)), (proj2 (Z.leb_le 32 _)) by lia.
    destruct (Z.ltb_spec room 40) as [H40|H40].
    - rewrite (proj2 (Z.leb_gt 40 _)) by lia. done.
    - rewrite (proj2 (Z.leb_le 40 _)) by lia. cbn [last e_off]. rewrite (Hview 4) by done. done. }
  destruct (Z.ltb_spec (room - 32 - 32) 40) as [H104|H104]; cbn [last e_off].
  - rewrite (Hview 3) by done. change (fitting room (drop (Z.to_nat 3) hello_listing)) with (@nil entry).
    by rewrite (proj2 (Z.leb_gt 104 _)), (proj2 (Z.leb_le 64 _)) by lia.
  - rewrite (Hview 4) by done. by rewrite (proj2 (Z.leb_le 104 _)) by lia.
Qed.


End facts.

(** ** Instances *)

Section instances.
Import Ref.

(** The kernel looks up [hello.txt], reads five bytes of it from the seventh on,
and unmounts. *)
Definition hello_requests : list kernel_request := [
  request_of FUSE_LOOKUP 1 7
    (Operation_Lookup {| Lookup_parent := NodeID_ROOT; Lookup_name := HELLO_FILENAME |});
  request_of FUSE_READ 2 8
    (Operation_Read {| Read_ino := HELLO_INO; Read_fh := FileID_from_raw 0; Read_offset := 7;
       Read_size := 5; Read_options := OpenOptions_from_raw 0; Read_lock_owner := None |}) ].

Definition hello_replies : list (option answer_) :=
  (λ r, (hello_answer config_example tt r.(kr_op)).2) <$> hello_requests.

Lemma hello_requests_wf :
  Forall (λ r, request_wf config_example r ∧ hello_dom config_example tt r.(kr_op)) hello_requests.
Proof. repeat (apply Forall_cons; split; [closed_fact|]). by apply Forall_nil. Qed.

(** The two replies are written, and the daemon returns. *)
Lemma hello_serves_witness :
  serve (λ _, 4096) (hello_handle Hello_new) 3
    (tt, session_example, vec_example, requests_world hello_requests) =
    (Ok (Some tt), (tt, Session_exit session_example, buf_after hello_requests,
       sent_world hello_requests hello_replies)) ∧
  hello_replies !! 1%nat = Some (Some (None, bytes_of "world")).
Proof.
  destruct (hello_serves (λ _, 4096) (Ha := λ _, eq_refl) session_example vec_example
    (requests_world hello_requests) (buf_after hello_requests) (sent_world hello_requests hello_replies)
    hello_requests vec_example_wf eq_refl hello_requests_wf) as [_ Hserve].
  split; [|vm_compute; reflexivity]. apply Hserve. clear Hserve. do 2 sim_exchange.
  apply dialogue_end. vm_compute. reflexivity.
Defined.

Definition stray_getattr : kernel_request :=
  request_of FUSE_GETATTR 3 9
    (Operation_Getattr {| Getattr_ino := NodeID_from_raw_unchecked 3; Getattr_fh := None |}).

Lemma hello_getattr_unknown_witness :
  serve (λ _, 4096) (hello_handle Hello_new) 2 (tt, session_example, vec_example, requests_world [stray_getattr]) =
    (Err (AppErrno 2), (tt, session_example,
       after vec_example (kr_message config_example stray_getattr), idle_world)).
Proof.
  apply (hello_getattr_unknown (λ _, 4096) (Ha := λ _, eq_refl) session_example vec_example
    (requests_world [stray_getattr]) (after vec_example (kr_message config_example stray_getattr)) idle_world stray_getattr
    {| Getattr_ino := NodeID_from_raw_unchecked 3; Getattr_fh := None |} 1 vec_example_wf eq_refl);
    [closed_fact|reflexivity|done|done|].
  split; [eexists; split; vm_compute; [reflexivity|congruence]|vm_compute; reflexivity].
Defined.

(** A buffer of 80 bytes. *)
Lemma hello_listing_offsets_witness :
  e_name <$> list_dir (λ op, default (ViewError 0) (view_of 44 op <$> (hello_answer config_example tt op).2))
    3 80 0 = [bytes_of "."; bytes_of ".."].
Proof. exact (hello_listing_offsets config_example 80 0 ltac:(by split)). Defined.

End instances.
