(* ===== verification/Program.v ===== *)
(** * The programs [hello] and [basic] from start to end

[main] of [src/examples/hello.rs] and [src/examples/basic.rs] once the arguments
are parsed: connect, start the thread that waits for a termination signal,
answer requests until the connection is gone, and return.  The parts are those
of [Connect], [Mount], [Session] and [Server]; here they are put together. *)

From S2P Require Import Prelude Layout Kernel Crates Types Bytes Init Msg Header Decoder.
From S2P Require Import Operation Op OpWire Reply Dirent Io Device Sim Buf Session MountOpts Mount Connect Server Hello.
Local Open Scope Z_scope.

(** How [main] ends.  The scope waits for the signal thread: when the loop was left
with an error, [signals_handle.close()] is not reached, and the thread, which
owns the mount, goes on waiting. *)
Inductive ending :=
  | Returned
  | Failed (e : app_error)
  | Waiting (e : app_error) (mount : Mount).

Section program.
Context {F W : Type} `{OS : OsPipe W} `{OD : OsDevice W} `{MO : MountOs W} `{BF : Bitflags}.
Context `{ZC : Zerocopy} `{RX : Rustix} `{L : Libc} `{MF : MountFlagsApi} `{PR : Profile}.
Context (init_addr : Z) (addr : RequestBuf → Z) (handle : Device → handler (F := F) (W := W)).

(** The signal thread, when a signal comes: [let _ = mount.unmount()]. *)
Definition on_signal (mount : Mount) (w : W) : W := (Mount_unmount mount w).2.

(** The signal thread owns the mount; a signal that comes now takes it. *)
Definition signalled (signal : option nat) (mount : option Mount) (w : W) : option Mount * W :=
  match signal, mount with Some O, Some m => (None, on_signal m w) | _, _ => (mount, w) end.

(** The loop.  [signal] is the number of iterations after which the signal comes,
if it does; [None] when the fuel is used up. *)
Fixpoint program_loop (fuel : nat) (device : Device) (signal : option nat) (mount : option Mount)
    (st : F * Session * RequestBuf * W)
    : option (outcome app_error unit * option Mount * (F * Session * RequestBuf * W)) :=
  match fuel with
  | O => None
  | S fuel =>
      let '(f, s, b, w) := st in
      let '(mount, w) := signalled signal mount w in
      match serve_step (CN := Device_SpliceRead device) addr (handle device) (f, s, b, w) with
      | (Ok true, st) => program_loop fuel device (pred <$> signal) mount st
      | (Ok false, st) => Some (Ok tt, mount, st)
      | (Err e, st) => Some (Err e, mount, st)
      | (Panic why, st) => Some (Panic why, mount, st)
      | (UB, st) => Some (UB, mount, st)
      end
  end.

(** Once the loop has ended, the handle of the signals is closed, the thread ends
and drops its mount, and the device is closed. *)
Definition program_end (device : Device) (mount : option Mount) (w : W) : W :=
  close device.(dev_fd) (match mount with Some m => Mount_drop m w | None => w end).

Definition program (init_fuel fuel : nat) (signal : option nat) (mountpoint : Path) (fs : F) (w : W)
    : option (outcome Empty_set ending * W) :=
  match connect init_fuel init_addr mountpoint MountOptions_new KernelConfig_new w with
  | (Ok None, _) => None
  | (Ok (Some (session, device, mount)), w) =>
      match new_request_buffer session w with
      | (Ok buf, w) =>
          match program_loop fuel device signal (Some mount) (fs, session, buf, w) with
          | None => None
          | Some (Ok _, mount, (_, _, _, w)) => Some (Ok Returned, program_end device mount w)
          | Some (Err e, Some m, (_, _, _, w)) => Some (Ok (Waiting e m), w)
          | Some (Err e, None, (_, _, _, w)) => Some (Ok (Failed e), program_end device None w)
          | Some (Panic why, _, (_, _, _, w)) => Some (Panic why, w)
          | Some (UB, _, (_, _, _, w)) => Some (UB, w)
          end
      | (Err e, w) => Some (Ok (Waiting (AppIo e) mount), w)
      | (Panic why, w) => Some (Panic why, w)
      | (UB, w) => Some (UB, w)
      end
  | (Err e, w) => Some (Ok (Failed (AppIo e)), w)
  | (Panic why, w) => Some (Panic why, w)
  | (UB, w) => Some (UB, w)
  end.
End program.

Section facts.
Context {F W : Type} {OS : OsPipe W} {HOS : OsPipeSpec OS} {OD : OsDevice W} {HOD : OsDeviceSpec OD}.
Context `{MO : MountOs W} `{BF : Bitflags} {HBF : BitflagsSpec} `{ZC : Zerocopy} {HZC : ZerocopySpec}.
Context `{RX : Rustix} {HRX : RustixSpec} `{L : Libc} {HL : LibcLinux L} `{MF : MountFlagsApi} `{PR : Profile}.
Context (init_addr : Z) (addr : RequestBuf → Z) {Ha : ∀ b, aligned_to (addr b) 8 = true}.

Section device.
Context (device : Device).
#[local] Instance device_conn : SpliceRead W := Device_SpliceRead device.
#[local] Instance device_conn_spec : SpliceReadSpec device_conn := Device_SpliceRead_spec device.
#[local] Instance device_write : IoWrite W := Device_IoWrite device.
Context (handle : Device → handler (F := F) (W := W)) (dom : KernelConfig → F → Operation → Prop).
Context (answer : KernelConfig → F → Operation → F * option answer_) {HA : Answers (handle device) dom answer}.

(** Messages the device hands out, each with the reply it then takes. *)
Inductive exchanged : list (list byte * option (list byte)) → RequestBuf * W → RequestBuf * W → Prop :=
  | exchanged_nil bw : exchanged [] bw bw
  | exchanged_silent msg d b w b1 w1 bw' :
      takes b w msg b1 w1 → exchanged d (b1, w1) bw' → exchanged ((msg, None) :: d) (b, w) bw'
  | exchanged_reply msg out d b w b1 w1 w2 bw' :
      takes b w msg b1 w1 → replied w1 out w2 → exchanged d (b1, w2) bw' →
      exchanged ((msg, Some out) :: d) (b, w) bw'.

(** The signal has not come before the requests are answered. *)
Lemma program_loop_requests rs : ∀ f s b w b' w' fuel (signal : option nat) m,
  buf_wf b → s.(s_exited) = false → acceptable dom answer s.(s_config) f rs →
  exchanged (expected answer s.(s_config) f rs) (b, w) (b', w') →
  match signal with Some n => (length rs ≤ n)%nat | None => True end →
  buf_wf b' ∧ program_loop addr handle (length rs + fuel)%nat device signal m (f, s, b, w)
  = program_loop addr handle fuel device ((λ n, n - length rs)%nat <$> signal) m
      (final answer s.(s_config) f rs, s, b', w').
Proof.
  induction rs as [|r rs IH]; intros f s b w b' w' fuel signal m Hb Hs Hok Hd Hsig.
  - inversion Hd; subst. split; [done|]. simpl. destruct signal as [n|]; simpl; [|done]. by rewrite Nat.sub_0_r.
  - destruct Hok as (Hr & Hdom & Hok). cbn [expected final length] in *.
    set (a := answer s.(s_config) f r.(kr_op)) in *.
    assert (∃ b1 w1 w2, takes b w (kr_message s.(s_config) r) b1 w1 ∧
      match a.2 with Some a => replied w1 (message_of r.(kr_header) a) w2 | None => w2 = w1 end ∧
      exchanged (expected answer s.(s_config) a.1 rs) (b1, w2) (b', w')) as (b1 & w1 & w2 & Ht & Hw & Hd').
    { destruct (a.2) as [x|]; cbn in Hd; inversion Hd; subst; eauto 10. }
    pose proof (serve_step_request addr (Ha := Ha) (handle device) dom answer (HA := HA)
      f s b w r b1 w1 w2 Hb Hs Hr Hdom Ht) as Hstep. fold a in Hstep. unfold device_conn in Hstep.
    destruct (takes_decoded addr s b w r b1 w1 Ha Hb Hs Hr Ht) as [Hb1 _].
    destruct a as [f' x]. cbn [fst snd plus program_loop] in *.
    assert (signalled signal m w = (m, w)) as -> by (destruct signal as [[|n]|]; [simpl in Hsig; lia|done..]).
    rewrite (Hstep Hw).
    destruct (IH f' s b1 w2 b' w' fuel (pred <$> signal) m) as [Hb' ->]; [done..| |].
    + destruct signal as [n|]; simpl in *; [lia|done].
    + split; [done|]. destruct signal as [[|n]|]; simpl in *; [lia|done..].
Qed.

(** The connection is gone: [recv_request] ends the loop. *)
Lemma serve_step_end f s b w b' w' :
  s.(s_exited) = false → RequestBuf_try_receive (b, w) = (Err (Os 19), (b', w')) →
  serve_step addr (handle device) (f, s, b, w) = (Ok false, (f, Session_exit s, b', w')).
Proof.
  intros Hs Hend. unfold serve_step, recv_request. rewrite Hs, Hend. unfold is_errno.
  pose proof Errno_values as Hv. injection Hv as _ _ _ _ Hnodev _ _.
  by rewrite Errno_from_io_error_os, Hnodev.
Qed.
End device.

Context (handle : Device → handler (F := F) (W := W)) (dom : KernelConfig → F → Operation → Prop).
Context (answer : KernelConfig → F → Operation → F * option answer_).

Lemma KernelConfig_new_wf : config_wf KernelConfig_new.
Proof. split; cbn; try done. unfold KernelFlags_new. by rewrite !bf_union_spec, bf_empty_spec. Qed.

Lemma program_max_write i : MIN_MAX_WRITE ≤ (negotiated i KernelConfig_new).(max_write).
Proof.
  unfold negotiated. pose proof page_size_bounds. destruct (is_compat3 i); cbn; [done|].
  change MIN_MAX_WRITE with 8112. unfold MAX_MAX_PAGES. lia.
Qed.

(** C9: A program runs from mount to unmount.  When the mount succeeds, the
kernel gets an answer to each INIT request it sends before one of version 7 is
accepted, then to every request, in order, with what the program's handlers
answer under the negotiated configuration; when the connection is gone, because a
signal made the program unmount or because somebody else did, [main] returns
without an error, having unmounted exactly once and closed the device.  One
iteration per request and one for the end are enough. *)
Theorem program_completes mountpoint f early x i rest rs (by_signal : bool) init_fuel (w w1 w2 w3 w4 w5 : W)
    fd mnt b b' b'' :
  let device := Device_from_fd fd in
  let session := Session_new (negotiated i KernelConfig_new) in
  Answers (IW := device_write device) (handle device) dom answer →
  aligned_to init_addr 4 = true →
  mount mountpoint MountOptions_new w = (Ok (fd, mnt), w1) →
  Forall early_wf early → Forall rejected early →
  early_wf (InitRequest x i rest) → accepted KernelConfig_new (InitRequest x i rest) →
  conversation (CN := device_conn device) (IW := device_write device)
    (exchange KernelConfig_new <$> early ++ [InitRequest x i rest]) w1 w2 →
  (length early < init_fuel)%nat →
  new_request_buffer session w2 = (Ok b, w3) →
  acceptable dom answer session.(s_config) f rs →
  exchanged device (expected answer session.(s_config) f rs) (b, w3) (b', w4) →
  RequestBuf_try_receive (CN := device_conn device) (b', if by_signal then on_signal mnt w4 else w4)
    = (Err (Os 19), (b'', w5)) →
  program init_addr addr handle init_fuel (length rs + 1) (if by_signal then Some (length rs) else None)
    mountpoint f w
  = Some (Ok Returned, close fd (if by_signal then w5 else Mount_drop mnt w5)).
Proof.
  intros device session HA Hia Hm Hearly Hrej Hi Hacc Hconv Hfuel Hbuf Hok Hex Hend.
  pose proof (device_conn_spec device) as Hcn. pose proof KernelConfig_new_wf as Hc.
  assert (connect init_fuel init_addr mountpoint MountOptions_new KernelConfig_new w
          = (Ok (Some (session, device, mnt)), w2)) as Hconn.
  { unfold connect. erewrite M_bind_Ok by exact Hm. cbv beta iota zeta.
    assert (handshake (CN := device_conn device) (IW := device_write device) init_fuel init_addr KernelConfig_new w1
            = (Ok (Some session), w2)) as Hs.
    { destruct handshake_buf as (b0 & Hn & Hb0). unfold handshake, lift. erewrite M_bind_Ok by (by rewrite Hn).
      unfold with_locals.
      by destruct (handshake_loop_completes (CN := device_conn device) (IW := device_write device)
          init_addr KernelConfig_new early x i rest init_fuel b0 w1 w2) as [? ->]. }
    erewrite M_bind_Ok; [|unfold owning; unfold device_conn, device_write, device in Hs; rewrite Hs; reflexivity]. done. }
  assert (buf_wf b) as Hb.
  { refine (proj1 (new_request_buffer_made session w2 (Ok b) w3 _ _ _)); [|apply program_max_write|done].
    apply negotiated_wf; [done|apply Hi|apply Hacc]. }
  unfold program. rewrite Hconn, Hbuf.
  destruct (program_loop_requests device handle dom answer (HA := HA) rs f session b w3 b' w4 1
    (if by_signal then Some (length rs) else None) (Some mnt)) as [Hb' ->]; [done..|by destruct by_signal|].
  cbn [program_loop].
  assert (signalled ((λ n, (n - length rs)%nat) <$> (if by_signal then Some (length rs) else None)) (Some mnt) w4
          = (if by_signal then None else Some mnt, if by_signal then on_signal mnt w4 else w4)) as ->.
  { destruct by_signal; simpl; [by rewrite Nat.sub_diag|done]. }
  pose proof (serve_step_end device handle (final answer session.(s_config) f rs) session b' _ b'' w5 eq_refl Hend) as Hse.
  unfold device_conn in Hse. rewrite Hse. unfold program_end. by destruct by_signal.
Qed.
End facts.

(** ** Instances *)

Section instances.
Import Ref.

(** Every call of a privileged mount succeeds. *)
#[local] Instance world_mount : MountOs World := {|
  SYS_ADMIN := 1; UNMOUNT_DETACH := 2; path_exists p w := true; capabilities := mret 1;
  fs_stat p := mret 0x41ed; Mount.getuid w := 0; Mount.getgid w := 0; sys_mount so t f fl da := mret tt;
  sys_unmount t f := mret tt; socket_pair := mret (4, 5); spawn c := lift (Err (Os 2));
  command_status c := mret true; child_wait c := mret true; child_output c := mret true;
  recvmsg s := mret None; set_cloexec fd := mret tt; close fd w := w |}.

Definition program_init : InitIn := accepted_init.
Definition program_config : KernelConfig := negotiated program_init KernelConfig_new.
Definition program_requests : list kernel_request := [
  request_of FUSE_LOOKUP 1 7
    (Operation_Lookup {| Lookup_parent := NodeID_ROOT; Lookup_name := HELLO_FILENAME |}) ].

Definition program_world : World := {|
  incoming := early_message (InitRequest (header_example 26 104) program_init []) ::
    (kr_message program_config <$> program_requests);
  outgoing := [] |}.

Definition hello_on (d : Device) : handler (F := unit) (W := World) :=
  hello_handle (IW := Device_IoWrite d) Hello_new.

Definition program_init_request : early_request := InitRequest (header_example 26 104) program_init [].

Definition program_buf : RequestBuf :=
  match new_request_buffer (Session_new program_config) idle_world with (Ok b, _) => b | _ => vec_example end.

(** The world after the handshake, and after the reply. *)
Definition program_started : World := {|
  incoming := kr_message program_config <$> program_requests;
  outgoing := [default [] (answer KernelConfig_new program_init_request)] |}.

Definition program_reply : list byte :=
  default [] (head (omap (λ r, message_of r.(kr_header) <$> (hello_answer program_config tt r.(kr_op)).2) program_requests)).

Definition program_done : World := {|
  incoming := []; outgoing := program_started.(outgoing) ++ [program_reply] |}.

(** The kernel starts [hello], looks up its file, and a signal ends the program. *)
Lemma program_completes_witness :
  program 4096 (λ _, 4096) hello_on 1 2 (Some 1%nat) mountpoint_example tt program_world
    = Some (Ok Returned, program_done)
  ∧ length program_done.(outgoing) = 2%nat.
Proof.
  split; [|reflexivity].
  change 2%nat with (length program_requests + 1)%nat. change 1%nat with (length program_requests) at 2.
  change program_done with (close 3 program_done) at 1.
  eapply (program_completes 4096 (λ _, 4096) (Ha := λ _, eq_refl) hello_on hello_dom hello_answer mountpoint_example tt
    [] (header_example 26 104) program_init [] program_requests true 1 program_world program_world program_started
    program_started program_done program_done 3 _ program_buf).
  - exact (hello_answers (W := World) (IW := Device_IoWrite (Device_from_fd 3))).
  - reflexivity.
  - reflexivity.
  - apply Forall_nil_2.
  - apply Forall_nil_2.
  - apply accepted_init_wf.
  - split; [reflexivity|]. vm_compute. auto.
  - eapply conv_answer; [by apply sim_receives|apply sim_accepts|apply conv_nil].
  - vm_compute. lia.
  - reflexivity.
  - split; [closed_fact|]. split; [exact I|]. split; exact I.
  - eapply exchanged_reply; [|apply sim_replied|apply exchanged_nil].
    split; [|vm_compute; reflexivity]. eexists. eexists. split; [vm_compute; reflexivity|].
    split; [vm_compute; reflexivity|]. vm_compute. congruence.
  - vm_compute. reflexivity.
Defined.

(** A GETATTR of an unknown node leaves the loop with an error: the scope then waits
for the signal thread, which nobody ends, and the filesystem stays mounted
without anyone to answer. *)
Lemma program_error_waits :
  let requests := kr_message program_config <$> [stray_getattr] in
  match program 4096 (λ _, 4096) hello_on 1 2 None mountpoint_example tt
    {| incoming := early_message program_init_request :: requests; outgoing := [] |} with
  | Some (Ok (Waiting (AppErrno e) mount), _) => e = 2 ∧ mount.(m_kind) = KindPriv
  | _ => False
  end.
Proof. vm_compute. done. Qed.
End instances.
