(* ===== verification/Threads.v ===== *)
(** * Programs with several threads

[main] of the examples runs in [std::thread::scope]: a thread waits for a
termination signal and unmounts, other threads are spawned by the program, and
the closure itself answers requests.  The scope returns when the closure has
returned and every thread has ended.

A state of the scope holds where each thread stands and what they share; one
step of one thread is a function of that state, and a schedule is a list of
steps.  Where a critical section ends a step ends too; receiving a request and
answering it are two steps. *)

From S2P Require Import Prelude Layout Kernel Crates Types Bytes Init Msg Header Decoder.
From S2P Require Import Operation Op OpWire Reply Dirent Io Device Sim Buf Session MountOpts Mount Connect Server.
Local Open Scope Z_scope.

(** The closure: before its buffer is made, at the head of the loop, with a
request in the buffer, or returned. *)
Inductive main_point :=
  | Starting
  | Receiving (b : RequestBuf)
  | Handling (b : RequestBuf)
  | Left (r : outcome app_error unit).

Definition is_panic {E A} (r : outcome E A) : bool := match r with Panic _ => true | _ => false end.

(** Where the closure goes on after a call whose failure leaves it. *)
Definition go_on {A} (r : outcome app_error A) (k : A → main_point) : main_point :=
  match r with
  | Ok a => k a
  | Err e => Left (Err e)
  | Panic why => Left (Panic why)
  | UB => Left UB
  end.

Section scope.
(** The state the threads share, where the spawned threads stand, and what the
environment decides at a step of the closure and of a spawned thread: the time,
or which of the threads it is. *)
Context {F B C D W : Type} `{OS : OsPipe W} `{CN : SpliceRead W} `{MO : MountOs W} `{BF : Bitflags}.
Context `{ZC : Zerocopy} `{RX : Rustix} `{L : Libc} `{MF : MountFlagsApi} `{PR : Profile}.

(** What a program runs in the scope.  [th_locks]: the arm of this operation holds
the lock to its end; [th_held]: a spawned thread holds it between two of its
steps; the boolean of [th_run] is whether the lock is poisoned, by a panic of a
thread that held it. *)
Record threads := {
  th_handle : C → handler (F := F) (W := W);
  th_locks : Operation → bool;
  th_held : B → bool;
  th_run : D → bool → B * F * (Session * W) → option (B * bool * F * (Session * W));
  th_ended : B → F → bool;
  th_panicked : B → bool;
}.

(** The signal thread owns the mount, as long as it runs. *)
Record scope := {
  sc_main : main_point;
  sc_signal : option Mount;
  sc_others : B;
  sc_poisoned : bool;
  sc_fs : F;
  sc_session : Session;
  sc_world : W;
}.

Context (addr : RequestBuf → Z) (T : threads).

Definition with_main (p : main_point) (s : Session) (w : W) (st : scope) : scope := {|
  sc_main := p; sc_signal := st.(sc_signal); sc_others := st.(sc_others); sc_poisoned := st.(sc_poisoned);
  sc_fs := st.(sc_fs); sc_session := s; sc_world := w |}.

(** Decoding the request in the buffer and answering it.  [None]: the thread waits
for the lock. *)
Definition handle_step (c : C) (b : RequestBuf) (st : scope) : option scope :=
  match Session_decode (addr b) st.(sc_session) b with
  | Ok (req, op, rem) =>
      if T.(th_locks) op && T.(th_held) st.(sc_others) then None
      else if T.(th_locks) op && st.(sc_poisoned)
      then Some (with_main (Left (Panic "PoisonError")) st.(sc_session) st.(sc_world) st)
      else
        let '(r, (f, rem', (s, w))) :=
          T.(th_handle) c req op (st.(sc_fs), rem, (st.(sc_session), st.(sc_world))) in
        Some {| sc_main := go_on r (λ _, Receiving (put_back b rem')); sc_signal := st.(sc_signal);
                sc_others := st.(sc_others);
                sc_poisoned := st.(sc_poisoned) || (T.(th_locks) op && is_panic r);
                sc_fs := f; sc_session := s; sc_world := w |}
  | Err e => Some (with_main (Left (Err (AppDecode e))) st.(sc_session) st.(sc_world) st)
  | Panic why => Some (with_main (Left (Panic why)) st.(sc_session) st.(sc_world) st)
  | UB => Some (with_main (Left UB) st.(sc_session) st.(sc_world) st)
  end.

Definition main_step (c : C) (st : scope) : option scope :=
  match st.(sc_main) with
  | Starting =>
      let (r, w) := new_request_buffer st.(sc_session) st.(sc_world) in
      Some (with_main (go_on (map_err AppIo r) Receiving) st.(sc_session) w st)
  | Receiving b =>
      let '(r, (s, b', w)) := recv_request (st.(sc_session), b, st.(sc_world)) in
      Some (with_main (go_on (map_err AppIo r) (λ more : bool, if more then Handling b' else Left (Ok tt))) s w st)
  | Handling b => handle_step c b st
  | Left _ => None
  end.

Definition signal_ends (w : W) (st : scope) : scope := {|
  sc_main := st.(sc_main); sc_signal := None; sc_others := st.(sc_others); sc_poisoned := st.(sc_poisoned);
  sc_fs := st.(sc_fs); sc_session := st.(sc_session); sc_world := w |}.

(** A signal comes: [let _ = mount.unmount()]. *)
Definition signal_step (st : scope) : option scope :=
  m ← st.(sc_signal); Some (signal_ends (Mount_unmount m st.(sc_world)).2 st).

(** [signals_handle.close()] is reached when the loop has ended without an error; the
thread then ends and drops the mount. *)
Definition closed_step (st : scope) : option scope :=
  match st.(sc_main) with
  | Left (Ok _) => m ← st.(sc_signal); Some (signal_ends (Mount_drop m st.(sc_world)) st)
  | _ => None
  end.

Definition thread_step (d : D) (st : scope) : option scope :=
  '(o, p, f, (s, w)) ← T.(th_run) d st.(sc_poisoned) (st.(sc_others), st.(sc_fs), (st.(sc_session), st.(sc_world)));
  Some {| sc_main := st.(sc_main); sc_signal := st.(sc_signal); sc_others := o; sc_poisoned := p;
          sc_fs := f; sc_session := s; sc_world := w |}.

Inductive event :=
  | EvMain (c : C)
  | EvSignal
  | EvClosed
  | EvThread (d : D).

(** [None]: the thread cannot step. *)
Definition scope_step (ev : event) (st : scope) : option scope :=
  match ev with
  | EvMain c => main_step c st
  | EvSignal => signal_step st
  | EvClosed => closed_step st
  | EvThread d => thread_step d st
  end.

Fixpoint scope_run (evs : list event) (st : scope) : option scope :=
  match evs with
  | [] => Some st
  | ev :: evs => st' ← scope_step ev st; scope_run evs st'
  end.

(** What the scope returns, once it does: a panic of the closure goes on, a panic
of a spawned thread becomes one, and the other results of the threads are lost. *)
Definition scope_result (st : scope) : option (outcome app_error unit) :=
  match st.(sc_main), st.(sc_signal) with
  | Left r, None =>
      if T.(th_ended) st.(sc_others) st.(sc_fs) then
        Some (match r with
              | Panic _ | UB => r
              | _ => if T.(th_panicked) st.(sc_others) then Panic "a scoped thread panicked" else r
              end)
      else None
  | _, _ => None
  end.

(** ** Schedules *)

Lemma scope_run_app evs evs' st :
  scope_run (evs ++ evs') st = st' ← scope_run evs st; scope_run evs' st'.
Proof. revert st. induction evs as [|ev evs IH]; intros st; [done|]. cbn. destruct (scope_step ev st); [apply IH|done]. Qed.

(** The world when the signal thread ends, because of a signal or because the loop
has ended. *)
Definition signal_ended (st : scope) (m : Mount) (w : W) : Prop :=
  w = (Mount_unmount m st.(sc_world)).2 ∨
  (∃ u, st.(sc_main) = Left (Ok u)) ∧ w = Mount_drop m st.(sc_world).

(** A step is one of the closure, the end of the signal thread, or one of a spawned
thread. *)
Lemma scope_step_cases (P : scope → Prop) ev st st' :
  scope_step ev st = Some st' →
  (∀ c, ev = EvMain c → main_step c st = Some st' → P st') →
  (∀ m w, st.(sc_signal) = Some m → signal_ended st m w → P (signal_ends w st)) →
  (∀ d, ev = EvThread d → thread_step d st = Some st' → P st') → P st'.
Proof.
  intros Hs Hmain Hsignal Hthread. destruct ev as [c| | |d]; cbn [scope_step] in Hs; [by eapply Hmain| | |by eapply Hthread].
  - unfold signal_step in Hs. destruct (sc_signal st) as [m|] eqn:Hm; [|done]. injection Hs as <-.
    apply (Hsignal m); [done|by left].
  - unfold closed_step in Hs. destruct (sc_main st) as [| | |[u|e|why|]] eqn:Hl; try done.
    destruct (sc_signal st) as [m|] eqn:Hm; [|done]. injection Hs as <-.
    apply (Hsignal m); [done|]. right. by split; [exists u|].
Qed.

(** Rule induction on the states a schedule reaches: what [good] steps keep holds
wherever they lead. *)
Lemma scope_invariant (good : event → Prop) (I : scope → Prop) evs st st' :
  (∀ ev st st', good ev → I st → scope_step ev st = Some st' → I st') →
  Forall good evs → I st → scope_run evs st = Some st' → I st'.
Proof.
  intros Hstep Hgood. revert st. induction Hgood as [|ev evs Hev Hevs IH]; intros st HI Hr; cbn in Hr.
  - by simplify_eq.
  - destruct (scope_step ev st) as [st1|] eqn:Hs; [|done]. apply (IH st1); [|done]. by eapply Hstep.
Qed.

(** The same, for an invariant that depends on the number of steps. *)
Lemma scope_counted (good : event → Prop) (I : nat → scope → Prop) (bound n : nat) evs st st' :
  (∀ n ev st st', (n < bound)%nat → good ev → I n st → scope_step ev st = Some st' → I (S n) st') →
  Forall good evs → (n + length evs ≤ bound)%nat → I n st → scope_run evs st = Some st' →
  I (n + length evs)%nat st'.
Proof.
  intros Hstep Hgood. revert n st. induction Hgood as [|ev evs Hev Hevs IH]; intros n st Hn HI Hr; cbn in Hr, Hn |- *.
  - simplify_eq. by rewrite Nat.add_0_r.
  - destruct (scope_step ev st) as [st1|] eqn:Hs; [|done]. rewrite <- Nat.add_succ_comm.
    apply (IH (S n) st1); [lia| |done]. eapply Hstep; [lia|done..].
Qed.

(** A measure every step makes smaller bounds the length of all schedules. *)
Lemma scope_bounded (I : scope → Prop) (size : scope → nat) evs st st' :
  (∀ ev st st', I st → scope_step ev st = Some st' → I st' ∧ (size st' < size st)%nat) →
  I st → scope_run evs st = Some st' → (length evs + size st' ≤ size st)%nat ∧ I st'.
Proof.
  intros Hstep. revert st. induction evs as [|ev evs IH]; intros st HI Hr; cbn in Hr.
  - simplify_eq. by split.
  - destruct (scope_step ev st) as [st1|] eqn:Hs; [|done]. destruct (Hstep _ _ _ HI Hs) as [HI1 Hlt].
    destruct (IH st1 HI1 Hr). cbn. split; [lia|done].
Qed.

(** Two steps of the closure, with nothing in between, are one iteration of the
daemon loop; one step when the connection is gone or receiving failed. *)
Lemma scope_iteration c b st r f' s' b' w' :
  st.(sc_main) = Receiving b → T.(th_held) st.(sc_others) = false → st.(sc_poisoned) = false →
  serve_step addr (T.(th_handle) c) (st.(sc_fs), st.(sc_session), b, st.(sc_world)) = (r, (f', s', b', w')) →
  ∃ evs st', (evs = [EvMain c] ∨ evs = [EvMain c; EvMain c]) ∧ scope_run evs st = Some st' ∧
    st'.(sc_main) = go_on r (λ more : bool, if more then Receiving b' else Left (Ok tt)) ∧
    (st'.(sc_fs), st'.(sc_session), st'.(sc_world)) = (f', s', w') ∧
    st'.(sc_signal) = st.(sc_signal) ∧ st'.(sc_others) = st.(sc_others).
Proof.
  intros Hm Hh Hp Hs. unfold serve_step in Hs.
  destruct (recv_request _) as [r1 [[s1 b1] w1]] eqn:Hr.
  assert (main_step c st = Some (with_main (go_on (map_err AppIo r1)
    (λ more : bool, if more then Handling b1 else Left (Ok tt))) s1 w1 st)) as H1.
  { unfold main_step. by rewrite Hm, Hr. }
  destruct r1 as [[]|e|why|].
  2-5: simplify_eq; eexists [EvMain c], _; (split; [by left|]); cbn [scope_run scope_step];
    rewrite H1; done.
  assert (∃ st', handle_step c b1 (with_main (Handling b1) s1 w1 st) = Some st' ∧
    st'.(sc_main) = go_on r (λ more : bool, if more then Receiving b' else Left (Ok tt)) ∧
    (st'.(sc_fs), st'.(sc_session), st'.(sc_world)) = (f', s', w') ∧
    st'.(sc_signal) = st.(sc_signal) ∧ st'.(sc_others) = st.(sc_others)) as (st' & H2 & Hrest).
  { unfold handle_step. cbn [with_main sc_session sc_others sc_poisoned sc_fs sc_world].
    rewrite Hh, Hp.
    destruct (Session_decode (addr b1) s1 b1) as [[[req op] rem]|e|why|]; [|by simplify_eq; eexists..].
    rewrite !andb_false_r.
    destruct (th_handle T c req op _) as [r2 [[f2 rem2] [s2 w2]]]. simplify_eq.
    eexists. split; [done|]. cbn. by destruct r2. }
  exists [EvMain c; EvMain c], st'. split; [by right|]. split; [|done].
  cbn [scope_run scope_step]. rewrite H1. cbn [mbind option_bind]. unfold main_step at 1.
  cbn [with_main sc_main go_on map_err]. by rewrite H2.
Qed.
End scope.

Arguments threads : clear implicits.
Arguments scope : clear implicits.
Arguments event : clear implicits.

(** ** What a call may change

[stays R m]: wherever [m] ends, the state it reaches is related to the one it
started from. *)

Definition stays {S E A} (R : S → S → Prop) (m : M S E A) : Prop := ∀ s, R s (m s).2.

Section stays.
Context {S E : Type} (R : S → S → Prop) {HR : PreOrder R}.

Lemma stays_bind {A B} (m : M S E A) (f : A → M S E B) :
  stays R m → (∀ a, stays R (f a)) → stays R (m ≫= f).
Proof.
  intros Hm Hf s. pose proof (Hm s) as H1. unfold mbind, M_bind.
  destruct (m s) as [[a|e|why|] s1]; [|done..]. etrans; [exact H1|]. apply Hf.
Qed.

Lemma stays_lift {A} (o : outcome E A) : stays R (lift o).
Proof. intros s. by cbn. Qed.

Lemma stays_ret {A} (a : A) : stays R (mret a : M S E A).
Proof. intros s. by cbn. Qed.

Lemma stays_get : stays R (get (S:=S) (E:=E)).
Proof. intros s. by cbn. Qed.
End stays.

(** One call of a sequence; what is left is the call, unless it is one of the above,
and the rest. *)
Ltac stays_call :=
  apply stays_bind; [apply _|try (first [apply stays_get|apply stays_lift]; apply _)|].
Ltac stays_done := first [apply stays_lift|apply stays_ret]; apply _.

(** The counter of a session and its configuration: only [retrieve] takes numbers. *)
Definition same_counter (s s' : Session) : Prop :=
  s'.(s_config) = s.(s_config) ∧ s'.(s_notify_unique) = s.(s_notify_unique).

#[export] Instance same_counter_order : PreOrder same_counter.
Proof. split; [by split|]. intros s1 s2 s3 [] []. split; congruence. Qed.

Section session.
Context {W : Type} `{OS : OsPipe W} `{CN : SpliceRead W} `{IW : IoWrite W}.
Context `{BF : Bitflags} `{ZC : Zerocopy} `{RX : Rustix} `{L : Libc} `{PR : Profile}.

Lemma handled_counter (m : M W io_error unit) s w :
  same_counter s (or_handle_reply_error m (s, w)).2.1.
Proof.
  unfold or_handle_reply_error, handle_reply_error. destruct (m w) as [[a|e|why|] w']; cbn; [done| |done|done].
  by destruct (is_errno e Errno_NODEV), (is_errno e Errno_NOENT).
Qed.

Lemma recv_request_counter s b w : same_counter s (recv_request (s, b, w)).2.1.1.
Proof. unfold recv_request. repeat case_match; simplify_eq; by cbn. Qed.

(** A number is taken whether or not the notification can be sent. *)
Lemma retrieve_counter ino offset size s w r s' w' :
  retrieve ino offset size (s, w) = (r, (s', w')) → is_u 64 (s.(s_notify_unique) + 1) →
  s'.(s_config) = s.(s_config) ∧ s'.(s_notify_unique) = s.(s_notify_unique) + 1 ∧
  ∀ id, r = Ok id → id.(NotifyID_into_raw) = s.(s_notify_unique).
Proof.
  unfold retrieve, mbind, M_bind. cbn [next_notify_unique]. intros Hr Hu.
  destruct (notifier_send _ _ _ _) as [o [s1 w1]] eqn:Hs. unfold notifier_send in Hs.
  pose proof (handled_counter (send_msg (Notify FUSE_NOTIFY_RETRIEVE) POD_Bytes
    (mkPOD {| notify_retrieve_out_notify_unique := s.(s_notify_unique);
              notify_retrieve_out_nodeid := ino.(NodeID_into_raw); notify_retrieve_out_offset := offset;
              notify_retrieve_out_size := size; notify_retrieve_out_padding := 0 |}))
    (next_notify_unique s).2 w) as [Hc Hn]. cbn [next_notify_unique snd] in *. rewrite Hs in Hc, Hn.
  cbn in Hc, Hn. rewrite wrap_u_id in Hn by done.
  destruct o; unfold mret, M_ret in Hr; simplify_eq/=; (split; [done|]); (split; [done|]);
    intros id Hid; by simplify_eq.
Qed.

(** ** A connection that is gone

Once the filesystem is unmounted, writing a notification to the device fails for
ever, with [ENODEV], or with [ENOENT] because the kernel knows none of its nodes.
A notification takes both for a success. *)
Class Disconnected `{MO : MountOs W} `{MF : MountFlagsApi} (gone : W → Prop) : Prop := {
  gone_write cs w : gone w → ∃ e w', write_vectored cs w = (Err (Os e), w') ∧ (e = 19 ∨ e = 2) ∧ gone w';
  gone_unmount m w : gone w → gone (Mount_unmount m w).2;
  gone_drop m w : gone w → gone (Mount_drop m w);
}.

Lemma gone_ended {F B : Type} `{MO : MountOs W} `{MF : MountFlagsApi} gone {HG : Disconnected gone}
    (st : scope F B W) m w :
  gone st.(sc_world) → signal_ended st m w → gone w.
Proof. by intros Hg [-> |[_ ->]]; [apply gone_unmount|apply gone_drop]. Qed.

Lemma sends_gone `{MO : MountOs W} `{MF : MountFlagsApi} {HRX : RustixSpec} gone {HG : Disconnected gone}
    code body (m : M (Session * W) io_error unit) s w :
  sends code body m → gone w → ∃ s' w', m (s, w) = (Ok tt, (s', w')) ∧ same_counter s s' ∧ gone w'.
Proof.
  intros (h & cs & _ & _ & _ & Hsend) Hw. destruct (gone_write cs w Hw) as (e & w' & Hcs & He & Hw').
  pose proof Errno_values as Hv. injection Hv as _ Hnoent _ _ Hnodev _ _.
  rewrite Hsend. unfold or_handle_reply_error, write_all. rewrite Hcs. unfold handle_reply_error, is_errno.
  rewrite Errno_from_io_error_os, Hnodev, Hnoent. by destruct He as [-> | ->]; do 2 eexists.
Qed.
End session.

(** ** Instances *)

(** A privileged mount succeeds on the reference world; the mount point has the
given mode. *)
Definition sim_mount (mode : u32) : MountOs World := {|
  SYS_ADMIN := 1; UNMOUNT_DETACH := 2; path_exists p w := true; capabilities := mret 1;
  fs_stat p := mret mode; Mount.getuid w := 0; Mount.getgid w := 0; sys_mount so t f fl da := mret tt;
  sys_unmount t f := mret tt; socket_pair := mret (4, 5); spawn c := lift (Err (Os 2));
  command_status c := mret true; child_wait c := mret true; child_output c := mret true;
  recvmsg s := mret None; set_cloexec fd := mret tt; close fd w := w |}.

(** Unmounting leaves the messages alone. *)
Lemma sim_unmount `{Bitflags} `{Libc} `{MountFlagsApi} mode m w :
  (Mount_unmount (MO := sim_mount mode) m w).2 = w.
Proof.
  assert (∀ c w, drop_child (MO := sim_mount mode) c w = w) as Hdrop.
  { intros [id pipes] w'. unfold drop_child. cbn. by induction pipes. }
  destruct m as [[|[child input|]|] ? ?]; [done| |done|done].
  unfold Mount_unmount, unmount_. cbn [m_kind UnprivMount_unmount]. unfold owning, modify, mbind, M_bind. cbn.
  apply Hdrop.
Qed.

(** A device whose connection is gone. *)
Definition dead_write : IoWrite World := λ _ w, (Err (Os 19), w).

Lemma dead_disconnected `{Bitflags} `{Libc} `{MountFlagsApi} mode :
  Disconnected (IW := dead_write) (MO := sim_mount mode) (λ _, True).
Proof. split; [|done..]. intros cs w _. exists 19, w. by split; [|split; [left|]]. Qed.
