(* ===== verification/ProgramThreads.v ===== *)
(** * The scope of [hello] and [basic]

[main] of [src/examples/hello.rs] and [src/examples/basic.rs] spawns no thread
but the one that waits for a signal.  What [Program] says of it, with the signal
between two iterations, is what some schedule of the scope does. *)

From S2P Require Import Prelude Layout Kernel Crates Types Bytes Init Msg Header Decoder.
From S2P Require Import Operation Op OpWire Reply Dirent Io Device Sim Buf Session MountOpts Mount Connect Server.
From S2P Require Import Hello Program Threads.
Local Open Scope Z_scope.

Section plain.
Context {F W : Type} {OS : OsPipe W} {OD : OsDevice W} `{MO : MountOs W} `{BF : Bitflags} `{ZC : Zerocopy}.
Context `{RX : Rustix} `{L : Libc} `{MF : MountFlagsApi} `{PR : Profile}.
Context (init_addr : Z) (addr : RequestBuf → Z) (handle : Device → handler (F := F) (W := W)).

(** No lock and no thread of the program's own. *)
Definition plain_threads (handle : handler (F := F) (W := W)) : threads F unit unit Empty_set W := {|
  th_handle _ := handle;
  th_locks _ := false;
  th_held _ := false;
  th_run _ _ _ := None;
  th_ended _ _ := true;
  th_panicked _ := false;
|}.

Definition plain_scope (p : main_point) (mount : option Mount) (f : F) (s : Session) (w : W) : scope F unit W := {|
  sc_main := p; sc_signal := mount; sc_others := tt; sc_poisoned := false;
  sc_fs := f; sc_session := s; sc_world := w |}.

Section device.
Context (device : Device).
#[local] Instance plain_conn : SpliceRead W := Device_SpliceRead device.

Notation T := (plain_threads (handle device)).

Lemma plain_lock evs st st' :
  st.(sc_poisoned) = false → scope_run addr T evs st = Some st' → st'.(sc_poisoned) = false.
Proof.
  intros Hp Hr. refine (scope_invariant addr T (λ _, True) (λ st, st.(sc_poisoned) = false) evs st st' _ _ Hp Hr);
    [|by apply Forall_true].
  intros ev st1 st2 _ H1 Hst.
  apply (scope_step_cases addr T (λ st, st.(sc_poisoned) = false) ev st1 st2 Hst); [|done|by intros []].
  intros c _ Hs. unfold main_step, handle_step in Hs. cbn [plain_threads th_locks andb] in Hs.
  repeat case_match; simplify_eq/=; rewrite ?H1; done.
Qed.

Lemma plain_scope_eta st :
  st.(sc_poisoned) = false →
  st = plain_scope st.(sc_main) st.(sc_signal) st.(sc_fs) st.(sc_session) st.(sc_world).
Proof. destruct st as [? ? [] p ? ? ?]. cbn. by intros ->. Qed.

(** A signal that comes now is a step of the signal thread. *)
Lemma signalled_run signal mount p f s w :
  ∃ evs, scope_run addr T evs (plain_scope p mount f s w) =
    Some (plain_scope p (signalled signal mount w).1 f s (signalled signal mount w).2).
Proof. destruct signal as [[|n]|], mount as [m|]; cbn; [by exists [EvSignal]|by exists []..]. Qed.

(** The loop is a schedule of the closure and the signal thread. *)
Lemma program_loop_run fuel : ∀ signal mount f s b w o mount' f' s' b' w',
  program_loop addr handle fuel device signal mount (f, s, b, w) = Some (o, mount', (f', s', b', w')) →
  ∃ evs, scope_run addr T evs (plain_scope (Receiving b) mount f s w) = Some (plain_scope (Left o) mount' f' s' w').
Proof.
  induction fuel as [|fuel IH]; intros signal mount f s b w o mount' f' s' b' w' Hl; [done|]. cbn [program_loop] in Hl.
  destruct (signalled_run signal mount (Receiving b) f s w) as [evs0 H0].
  destruct (signalled signal mount w) as [mount1 w1]. cbn [fst snd] in H0.
  destruct (serve_step addr (handle device) (f, s, b, w1)) as [r [[[f2 s2] b2] w2]] eqn:Hs.
  destruct (scope_iteration addr T tt b (plain_scope (Receiving b) mount1 f s w1) r f2 s2 b2 w2) as
    (evs1 & st1 & _ & H1 & Hm & Heq & Hsig & _); [done..|].
  pose proof (plain_scope_eta st1 (plain_lock evs1 (plain_scope (Receiving b) mount1 f s w1) st1 eq_refl H1)) as Heta.
  injection Heq as Hf2 Hs2 Hw2. rewrite Hm, Hsig, Hf2, Hs2, Hw2 in Heta. cbn [plain_scope sc_signal] in Heta.
  assert (scope_run addr T (evs0 ++ evs1) (plain_scope (Receiving b) mount f s w) = Some st1) as H01
    by (rewrite scope_run_app, H0; exact H1).
  destruct r as [[]|e|why|]; cbn [go_on] in Heta.
  2-5: simplify_eq; by exists (evs0 ++ evs1).
  destruct (IH _ _ _ _ _ _ _ _ _ _ _ _ Hl) as [evs2 H2]. exists ((evs0 ++ evs1) ++ evs2).
  by rewrite scope_run_app, H01, Heta.
Qed.

(** When the closure has returned an error and no signal comes, nothing happens. *)
Lemma plain_waits e m f s w evs st' :
  EvSignal ∉ evs → scope_run addr T evs (plain_scope (Left (Err e)) (Some m) f s w) = Some st' →
  st' = plain_scope (Left (Err e)) (Some m) f s w.
Proof.
  intros Hev Hr. destruct evs as [|[c| | |[]] evs]; cbn in Hr; simplify_eq; [done|].
  destruct Hev. by left.
Qed.
End device.

(** [main] as one sequence of steps is a schedule of its threads.  What
[program] makes of a mounted filesystem, a schedule of the scope does, with the
same replies: when [program] returns, or fails, the scope has returned that
result and only the device is left to close; when [program] says that it waits,
the scope has not returned in any state that is reached without a signal. *)
Theorem program_schedules init_fuel fuel signal mountpoint fs w session device mnt w1 e w' :
  connect init_fuel init_addr mountpoint MountOptions_new KernelConfig_new w =
    (Ok (Some (session, device, mnt)), w1) →
  program init_addr addr handle init_fuel fuel signal mountpoint fs w = Some (Ok e, w') →
  ∃ evs st, scope_run (CN := Device_SpliceRead device) addr (plain_threads (handle device)) evs
      (plain_scope Starting (Some mnt) fs session w1) = Some st ∧
    match e with
    | Returned => scope_result (plain_threads (handle device)) st = Some (Ok tt) ∧
        w' = close device.(dev_fd) st.(sc_world)
    | Failed e => scope_result (plain_threads (handle device)) st = Some (Err e) ∧
        w' = close device.(dev_fd) st.(sc_world)
    | Waiting e m => st.(sc_main) = Left (Err e) ∧ st.(sc_signal) = Some m ∧ w' = st.(sc_world) ∧
        ∀ evs' st', EvSignal ∉ evs' →
          scope_run (CN := Device_SpliceRead device) addr (plain_threads (handle device)) evs' st = Some st' →
          scope_result (plain_threads (handle device)) st' = None
    end.
Proof.
  intros Hc Hp. unfold program in Hp. rewrite Hc in Hp.
  set (T := plain_threads (handle device)).
  destruct (new_request_buffer session w1) as [rb w2] eqn:Hnew.
  assert (scope_run (CN := Device_SpliceRead device) addr T [EvMain tt] (plain_scope Starting (Some mnt) fs session w1) =
    Some (plain_scope (go_on (map_err AppIo rb) Receiving) (Some mnt) fs session w2)) as Hstart
    by (cbn; by rewrite Hnew).
  destruct rb as [b|e0|why|]; [|simplify_eq|done..].
  - destruct (program_loop _ _ _ _ _ _ _) as [[[o mount'] [[[f' s'] b'] w3]]|] eqn:Hl; [|done].
    apply program_loop_run in Hl as [evs1 H1].
    assert (scope_run (CN := Device_SpliceRead device) addr T ([EvMain tt] ++ evs1)
      (plain_scope Starting (Some mnt) fs session w1) = Some (plain_scope (Left o) mount' f' s' w3)) as H01
      by (rewrite scope_run_app, Hstart; exact H1).
    destruct o as [[]|e0|why|], mount' as [m|]; simplify_eq.
    + exists (([EvMain tt] ++ evs1) ++ [EvClosed]). eexists.
      split; [rewrite scope_run_app, H01; reflexivity|done].
    + exists ([EvMain tt] ++ evs1). eexists. by split; [exact H01|].
    + exists ([EvMain tt] ++ evs1). eexists. split; [exact H01|]. split_and!; [done..|].
      intros evs' st' Hev Hr. by rewrite (plain_waits device _ _ _ _ _ evs' st' Hev Hr).
    + exists ([EvMain tt] ++ evs1). eexists. by split; [exact H01|].
  - exists [EvMain tt]. eexists. split; [exact Hstart|]. split_and!; [done..|].
    intros evs' st' Hev Hr. by rewrite (plain_waits device _ _ _ _ _ evs' st' Hev Hr).
Qed.
End plain.

(** ** Instances *)

Section instances.
Import Ref.

#[local] Instance hello_mount : MountOs World := sim_mount 0x41ed.

(** [hello], which answers one LOOKUP before a signal comes. *)
Lemma program_schedules_witness :
  match connect 1 4096 mountpoint_example MountOptions_new KernelConfig_new program_world with
  | (Ok (Some (session, device, mnt)), w1) =>
      ∃ evs st, scope_run (CN := Device_SpliceRead device) (λ _, 4096) (plain_threads (hello_on device)) evs
          (plain_scope Starting (Some mnt) tt session w1) = Some st ∧
        scope_result (plain_threads (hello_on device)) st = Some (Ok tt)
  | _ => False
  end.
Proof.
  destruct (connect 1 4096 mountpoint_example MountOptions_new KernelConfig_new program_world)
    as [[[[[session device] mnt]|]|e|why|] w1] eqn:Hc; [|vm_compute in Hc; discriminate..].
  destruct (program_schedules 4096 (λ _, 4096) hello_on 1 2 (Some 1%nat) mountpoint_example tt program_world
    session device mnt w1 Returned program_done Hc) as (evs & st & Hr & Hres & _); [vm_compute; reflexivity|].
  exists evs, st. split; [exact Hr|exact Hres].
Defined.
End instances.
