(* ===== verification/Basic.v ===== *)
(** * The example [src/examples/basic.rs]

The smallest daemon: the mount point is a file whose content is fixed. *)

From S2P Require Import Prelude Layout Kernel Crates Types Bytes Init Msg Header Decoder.
From S2P Require Import Operation Op OpWire OpSpec OpTotal Reply Dirent Io Device Sim Buf Session.
From S2P Require Import Connect Server.
Local Open Scope Z_scope.

Definition CONTENT : list byte := bytes_of "Hello from FUSE!" ++ [Byte.x0a].

Section basic.
Context {W : Type} `{OS : OsPipe W} `{CN : SpliceRead W} `{IW : IoWrite W}.
Context `{BF : Bitflags} `{ZC : Zerocopy} `{RX : Rustix} `{L : Libc} `{PR : Profile} `{PX : Posix}.
Notation answering := (M (unit * RemainingData * (Session * W)) app_error unit).

Definition basic_getattr (req : Request) (op : Getattr) : answering :=
  if decide (op.(Getattr_ino) ≠ NodeID_ROOT) then
    on_session (reply_error (RS := Request_ReplySender) req Errno_NOENT)
  else
    attr ← lift (attr_with NodeID_ROOT (Z.of_nat (length CONTENT))
              (FileMode_new Regular FilePermissions_READ) 1 getuid getgid);
    on_session (reply_attr (RS := Request_ReplySender) req attr (Some (Duration_from_secs 1))).

Definition basic_read (req : Request) (op : Read) : answering :=
  if decide (op.(Read_ino) ≠ NodeID_ROOT) then
    on_session (reply_error (RS := Request_ReplySender) req Errno_NOENT)
  else
    on_session (reply_bytes (RS := Request_ReplySender) u8_slice_Bytes req
      (read_slice CONTENT op.(Read_offset) op.(Read_size))).

Definition basic_handle : handler (F := unit) (W := W) := λ req op,
  match op with
  | Operation_Getattr op => basic_getattr req op
  | Operation_Read op => basic_read req op
  | _ => on_session (reply_error (RS := Request_ReplySender) req Errno_NOSYS)
  end.

End basic.

(** ** What the kernel sees *)

Definition basic_attr `{Posix} : FileAttr := plain_attr NodeID_ROOT 17 file_mode 1 getuid getgid.

Definition basic_view `{Posix} (m : u32) (op : Operation) : reply_view :=
  match op with
  | Operation_Getattr op =>
      if decide (op.(Getattr_ino) = NodeID_ROOT)
      then ViewAttr (Duration_from_secs 1) (attr_sent m basic_attr) else ViewError 2
  | Operation_Read op =>
      if decide (op.(Read_ino) = NodeID_ROOT)
      then ViewData (take (Z.to_nat op.(Read_size)) (drop (Z.to_nat op.(Read_offset)) CONTENT))
      else ViewError 2
  | _ => ViewError 38
  end.

Definition basic_answer `{Posix} (c : KernelConfig) (f : unit) (op : Operation) : unit * option answer_ :=
  (tt, Some
    match op with
    | Operation_Getattr op =>
        if decide (op.(Getattr_ino) = NodeID_ROOT)
        then (None, attr_payload c.(minor) basic_attr (Some (Duration_from_secs 1))) else (Some 2, [])
    | Operation_Read op =>
        if decide (op.(Read_ino) = NodeID_ROOT)
        then (None, read_slice CONTENT op.(Read_offset) op.(Read_size)) else (Some 2, [])
    | _ => (Some 38, [])
    end).

Section facts.
Context {W : Type} {OS : OsPipe W} {HOS : OsPipeSpec OS} {CN : SpliceRead W} {HCN : SpliceReadSpec CN}.
Context {IW : IoWrite W}.
Context `{BF : Bitflags} {HBF : BitflagsSpec} `{ZC : Zerocopy} {HZC : ZerocopySpec}.
Context `{RX : Rustix} {HRX : RustixSpec} `{L : Libc} {HL : LibcLinux L} `{PR : Profile}.
Context `{PX : Posix} {HPX : PosixSpec}.

Lemma basic_attr_wf : attr_wf basic_attr.
Proof. by apply plain_attr_wf. Qed.

Lemma basic_answers : Answers basic_handle (λ _ _ _, True) basic_answer.
Proof.
  intros req op [] rem s w Hq Hop _. cbn [basic_answer fst snd]. intros w' Hw.
  pose proof Errno_values as Hv. injection Hv as _ Hnoent _ _ _ _ _.
  pose proof Posix_values as Hp. injection Hp as _ _ _ Hnosys. destruct modes as [_ Hfm].
  destruct op; cbn [basic_handle]; try answer_error Hnosys.
  - unfold basic_getattr. destruct (decide (Getattr_ino op = NodeID_ROOT)).
    + rewrite decide_False by tauto. rewrite Hfm, attr_with_ok. erewrite M_bind_Ok by done.
      by apply attr_answers; [|apply basic_attr_wf|..].
    + rewrite decide_True by done. apply error_answers; by rewrite ?Hnoent.
  - unfold basic_read. destruct Hop as (_ & _ & Ho & Hs & _).
    destruct (decide (Read_ino op = NodeID_ROOT)).
    + rewrite decide_False by tauto. apply data_answers; [done| |done].
      rewrite read_slice_spec by (unfold is_u in *; lia).
      rewrite length_take, length_drop. change (length CONTENT) with 17%nat. lia.
    + rewrite decide_True by done. apply error_answers; by rewrite ?Hnoent.
Qed.

Lemma basic_answer_view c op :
  Operation_wf c op → True →
  ∃ a, basic_answer c tt op = (tt, Some a) ∧ view_of c.(minor) op a = basic_view c.(minor) op.
Proof.
  intros Hop _. eexists. split; [done|]. destruct op; try done; cbn [basic_view].
  - case_decide; [|done]. unfold view_of. cbn [fst snd].
    by destruct (read_attr_payload c.(minor) basic_attr (Some (Duration_from_secs 1)) basic_attr_wf
      ltac:(done)) as [_ ->].
  - destruct Hop as (_ & _ & Ho & Hs & _). case_decide; [|done].
    unfold view_of. cbn [fst snd]. by rewrite read_slice_spec by (unfold is_u in *; lia).
Qed.

Context (addr : RequestBuf → Z) {Ha : ∀ b, aligned_to (addr b) 8 = true}.

(** [basic] answers every well-formed request with exactly one message, in
order, and returns when the filesystem is unmounted; the kernel sees a file of
17 bytes at the root that can only be read, any part of its content on request,
[ENOENT] for another node and [ENOSYS] for any other operation. *)
Lemma basic_serves s b w b' w' rs :
  buf_wf b → s.(s_exited) = false →
  Forall (request_wf s.(s_config)) rs →
  let replies := (λ r, ((basic_answer s.(s_config) tt r.(kr_op)).2)) <$> rs in
  Forall2 (λ r a, ∃ x, a = Some x ∧
    view_of s.(s_config).(minor) r.(kr_op) x = basic_view s.(s_config).(minor) r.(kr_op)) rs replies ∧
  (dialogue (exchanges s.(s_config) rs replies) (b, w) (b', w') →
   serve addr basic_handle (S (length rs)) (tt, s, b, w) =
     (Ok (Some tt), (tt, Session_exit s, b', w'))).
Proof.
  intros Hb Hs Hrs.
  apply (stateless_serves addr (Ha := Ha) _ (λ _ _ _, True) basic_answer (HA := basic_answers) basic_view
    (HV := basic_answer_view)); [done|done|]. by eapply Forall_impl; [exact Hrs|].
Qed.

End facts.

(** ** Instances *)

Section instances.
Import Ref.

(** A READ across the end of the content, and an operation without a handler. *)
Definition basic_requests : list kernel_request := [
  request_of FUSE_READ 1 3
    (Operation_Read {| Read_ino := NodeID_ROOT; Read_fh := FileID_from_raw 0; Read_offset := 11;
       Read_size := 4096; Read_options := OpenOptions_from_raw 0; Read_lock_owner := None |});
  request_of FUSE_STATFS 1 4 (Operation_Statfs {| StatfsOp_ino := NodeID_ROOT |}) ].

Definition basic_replies : list (option answer_) :=
  (λ r, (basic_answer config_example tt r.(kr_op)).2) <$> basic_requests.

Lemma basic_requests_wf : Forall (request_wf config_example) basic_requests.
Proof. repeat (apply Forall_cons; split; [closed_fact|]). by apply Forall_nil. Qed.

Lemma basic_serves_witness :
  serve (λ _, 4096) basic_handle 3 (tt, session_example, vec_example, requests_world basic_requests) =
    (Ok (Some tt), (tt, Session_exit session_example, buf_after basic_requests,
       sent_world basic_requests basic_replies)) ∧
  basic_replies = [Some (None, bytes_of "FUSE!" ++ [Byte.x0a]); Some (Some 38, [])].
Proof.
  destruct (basic_serves (λ _, 4096) (Ha := λ _, eq_refl) session_example vec_example
    (requests_world basic_requests) (buf_after basic_requests) (sent_world basic_requests basic_replies)
    basic_requests vec_example_wf eq_refl basic_requests_wf) as [_ Hserve].
  split; [|vm_compute; reflexivity]. apply Hserve. clear Hserve. do 2 sim_exchange.
  apply dialogue_end. vm_compute. reflexivity.
Defined.

End instances.
