(* ===== verification/HeartbeatEntry.v ===== *)
(** * The example [src/examples/heartbeat_entry.rs]

A directory with one file whose name changes with the clock.  Two threads share
the current name and the number of lookups of the file, under a lock: the
loop that answers requests, and a thread that renames the file and tells the
kernel to drop the old name. *)

From stdpp Require Import relations.
From S2P Require Import Prelude Layout Kernel Crates Types Bytes Init Msg Header Decoder.
From S2P Require Import Operation Op OpWire OpSpec OpTotal Reply Dirent Io Device Sim Buf Session.
From S2P Require Import Connect Server.
Local Open Scope Z_scope.

Definition FILE_INO : NodeID :=
  match NodeID_from_raw 2 with Some ino => ino | None => NodeID_ROOT end.

Definition DEFAULT_TTL : Duration := Duration_from_secs 0.

(** What the lock protects. *)
Record CurrentFile := { filename : OsStr; nlookup : u64 }.

(** The fields that never change. *)
Record HeartbeatEntry := {
  hbe_root_attr : FileAttr;
  hbe_file_attr : FileAttr;
  hbe_ttl : Duration;
  hbe_no_notify : bool;
}.

Section heartbeat_entry.
Context {W : Type} `{OS : OsPipe W} `{CN : SpliceRead W} `{IW : IoWrite W}.
Context `{BF : Bitflags} `{ZC : Zerocopy} `{RX : Rustix} `{L : Libc} `{PR : Profile}.
Context `{PX : Posix} `{AL : Alloc}.

(** [generate_filename] formats the time; [name] is its result.  The owner of
[FileAttr::new()] is 0. *)
Definition HeartbeatEntry_new {E} (ttl : Duration) (no_notify : bool) (name : OsStr)
    : outcome E (HeartbeatEntry * CurrentFile) :=
  root_attr ← attr_with NodeID_ROOT 0
    (FileMode_new Directory (bf_union FilePermissions_READ FilePermissions_EXEC)) 2 0 0;
  file_attr ← attr_with FILE_INO 0 (FileMode_new Regular FilePermissions_READ) 1 0 0;
  Ok ({| hbe_root_attr := root_attr; hbe_file_attr := file_attr; hbe_ttl := ttl;
         hbe_no_notify := no_notify |},
      {| filename := name; nlookup := 0 |}).

Context (fs : HeartbeatEntry).

(** The body of the thread's loop; the lock is held until the notification was sent. *)
Definition heartbeat (new_filename : OsStr) : M (CurrentFile * (Session * W)) io_error unit :=
  λ '(current, sw),
  let old_filename := current.(filename) in
  let current := {| filename := new_filename; nlookup := current.(nlookup) |} in
  if negb fs.(hbe_no_notify) && (0 <? current.(nlookup)) then
    let (r, sw') := inval_entry NodeID_ROOT old_filename sw in (r, (current, sw'))
  else (Ok tt, (current, sw)).

Notation answering := (M (CurrentFile * RemainingData * (Session * W)) app_error unit).

(** A call on the state under the lock. *)
Definition locked {A} (m : M CurrentFile app_error A)
    : M (CurrentFile * RemainingData * (Session * W)) app_error A := λ '(current, rem, sw),
  let (r, current') := m current in (r, (current', rem, sw)).

Definition count_lookup : M CurrentFile app_error unit :=
  current ← get;
  n ← lift (arith_u 64 (current.(nlookup) + 1));
  put {| filename := current.(filename); nlookup := n |}.

Definition hbe_lookup (req : Request) (op : Lookup) : answering :=
  if decide (op.(Lookup_parent) ≠ NodeID_ROOT) then
    on_session (reply_error (RS := Request_ReplySender) req Errno_NOTDIR)
  else
    current ← locked get;
    if decide (op.(Lookup_name) ≠ current.(filename)) then
      on_session (reply_error (RS := Request_ReplySender) req Errno_NOENT)
    else
      _ ← on_session (reply_entry (RS := Request_ReplySender) req
            (Some fs.(hbe_file_attr).(FileAttr_ino)) fs.(hbe_file_attr) 0
            (Some fs.(hbe_ttl)) (Some fs.(hbe_ttl)));
      locked count_lookup.

Fixpoint hbe_forget (forgets : list Forget) : M CurrentFile app_error unit :=
  match forgets with
  | [] => mret tt
  | forget :: forgets =>
      ino ← lift (Forget_ino forget);
      _ ← (if decide (ino = FILE_INO) then
             current ← get;
             n ← lift (arith_u 64 (current.(nlookup) - Forget_nlookup forget));
             put {| filename := current.(filename); nlookup := n |}
           else mret tt);
      hbe_forget forgets
  end.

Definition hbe_getattr (req : Request) (op : Getattr) : answering :=
  if decide (op.(Getattr_ino) = NodeID_ROOT) then
    on_session (reply_attr (RS := Request_ReplySender) req fs.(hbe_root_attr) (Some fs.(hbe_ttl)))
  else if decide (op.(Getattr_ino) = FILE_INO) then
    on_session (reply_attr (RS := Request_ReplySender) req fs.(hbe_file_attr) (Some fs.(hbe_ttl)))
  else on_session (reply_error (RS := Request_ReplySender) req Errno_NOENT).

Definition hbe_read (req : Request) (op : Read) : answering :=
  if decide (op.(Read_ino) = NodeID_ROOT) then
    on_session (reply_error (RS := Request_ReplySender) req Errno_ISDIR)
  else if decide (op.(Read_ino) = FILE_INO) then
    on_session (reply_bytes (RS := Request_ReplySender) unit_Bytes req tt)
  else on_session (reply_error (RS := Request_ReplySender) req Errno_NOENT).

Definition hbe_readdir (req : Request) (op : Readdir) : answering :=
  if decide (op.(Readdir_ino) ≠ NodeID_ROOT) then
    on_session (reply_error (RS := Request_ReplySender) req Errno_NOTDIR)
  else if 0 <? op.(Readdir_offset) then
    on_session (reply_bytes (RS := Request_ReplySender) unit_Bytes req tt)
  else
    current ← locked get;
    with_local (DirEntryBuf_new op.(Readdir_size)) (push_entry current.(filename) FILE_INO None 1)
      (λ buf _, on_session (reply_dir (RS := Request_ReplySender) req buf)).

Definition hbe_handle : handler (F := CurrentFile) (W := W) := λ req op,
  match op with
  | Operation_Lookup op => hbe_lookup req op
  | Operation_Forget forgets => locked (hbe_forget (Forgets_deref forgets))
  | Operation_Getattr op => hbe_getattr req op
  | Operation_Read op => hbe_read req op
  | Operation_Readdir op => hbe_readdir req op
  | _ => on_session (reply_error (RS := Request_ReplySender) req Errno_NOSYS)
  end.

End heartbeat_entry.

(** ** What the kernel sees *)

(** How often the kernel forgets the file in a list of forgets. *)
Definition forgotten (forgets : list Forget) : Z :=
  foldr (λ f n, (if decide (f.(Forget_raw).(forget_one_nodeid) = 2) then Forget_nlookup f else 0) + n)
    0 forgets.

Definition forgets_ok (forgets : list Forget) : Prop :=
  Forall (λ f, f.(Forget_raw).(forget_one_nodeid) ≠ 0 ∧ is_u 64 (Forget_nlookup f)) forgets.

Section answer.
Context `{L : Libc} `{AL : Alloc} (fs : HeartbeatEntry).

Definition with_nlookup (n : Z) (c : CurrentFile) : CurrentFile :=
  {| filename := c.(filename); nlookup := n |}.

Definition current_entry (c : CurrentFile) : entry :=
  {| e_name := c.(filename); e_ino := FILE_INO; e_typ := None; e_off := 1 |}.

Definition hbe_answer (c : KernelConfig) (f : CurrentFile) (op : Operation)
    : CurrentFile * option answer_ :=
  match op with
  | Operation_Lookup op =>
      if decide (op.(Lookup_parent) ≠ NodeID_ROOT) then (f, Some (Some 20, []))
      else if decide (op.(Lookup_name) ≠ f.(filename)) then (f, Some (Some 2, []))
      else (with_nlookup (f.(nlookup) + 1) f,
            Some (None, entry_payload c.(minor) (Some FILE_INO) fs.(hbe_file_attr) 0
                    (Some fs.(hbe_ttl)) (Some fs.(hbe_ttl))))
  | Operation_Forget forgets => (with_nlookup (f.(nlookup) - forgotten (Forgets_deref forgets)) f, None)
  | Operation_Getattr op =>
      (f, Some (if decide (op.(Getattr_ino) = NodeID_ROOT)
                then (None, attr_payload c.(minor) fs.(hbe_root_attr) (Some fs.(hbe_ttl)))
                else if decide (op.(Getattr_ino) = FILE_INO)
                then (None, attr_payload c.(minor) fs.(hbe_file_attr) (Some fs.(hbe_ttl)))
                else (Some 2, [])))
  | Operation_Read op =>
      (f, Some (if decide (op.(Read_ino) = NodeID_ROOT) then (Some 21, [])
                else if decide (op.(Read_ino) = FILE_INO) then (None, []) else (Some 2, [])))
  | Operation_Readdir op =>
      (f, Some (if decide (op.(Readdir_ino) ≠ NodeID_ROOT) then (Some 20, [])
                else if 0 <? op.(Readdir_offset) then (None, [])
                else (None, concat (entry_bytes <$>
                        fitting (alloc_capacity op.(Readdir_size)) [current_entry f]))))
  | _ => (f, Some (Some 38, []))
  end.

(** The count does not overflow, nothing is forgotten that was not looked up, and
the name is shorter than [2 ^ 30]. *)
Definition hbe_dom (c : KernelConfig) (f : CurrentFile) (op : Operation) : Prop :=
  0 ≤ f.(nlookup) < 2 ^ 64 - 1 ∧ Z.of_nat (length f.(filename)) < 2 ^ 30 ∧
  match op with
  | Operation_Forget forgets =>
      forgets_ok (Forgets_deref forgets) ∧ forgotten (Forgets_deref forgets) ≤ f.(nlookup)
  | _ => True
  end.

(** The name dropped by a beat, if the kernel is told. *)
Definition beat (f : CurrentFile) (new : OsStr) : CurrentFile * option OsStr :=
  ({| filename := new; nlookup := f.(nlookup) |},
   if negb fs.(hbe_no_notify) && (0 <? f.(nlookup)) then Some f.(filename) else None).

End answer.

Record fs_wf (fs : HeartbeatEntry) : Prop := {
  fw_root : attr_wf fs.(hbe_root_attr);
  fw_file : attr_wf fs.(hbe_file_attr);
  fw_ino : fs.(hbe_file_attr).(FileAttr_ino) = FILE_INO;
  fw_ttl : time_wf fs.(hbe_ttl);
}.

Section facts.
Context {W : Type} {OS : OsPipe W} {HOS : OsPipeSpec OS} {CN : SpliceRead W} {HCN : SpliceReadSpec CN}.
Context {IW : IoWrite W}.
Context `{BF : Bitflags} {HBF : BitflagsSpec} `{ZC : Zerocopy} {HZC : ZerocopySpec}.
Context `{RX : Rustix} {HRX : RustixSpec} `{L : Libc} {HL : LibcLinux L} `{PR : Profile}.
Context `{PX : Posix} {HPX : PosixSpec} `{AL : Alloc} {HAL : AllocSpec}.

Lemma HeartbeatEntry_new_ok {E} ttl no_notify name :
  time_wf ttl →
  ∃ fs, HeartbeatEntry_new (E:=E) ttl no_notify name = Ok (fs, {| filename := name; nlookup := 0 |}) ∧
    fs_wf fs ∧ fs.(hbe_no_notify) = no_notify.
Proof.
  intros Ht. unfold HeartbeatEntry_new. destruct modes as [-> ->].
  eexists. split; [done|]. split; [|done]. by split.
Qed.

Context (fs : HeartbeatEntry) {Hfs : fs_wf fs}.

Lemma forgotten_nonneg forgets : forgets_ok forgets → 0 ≤ forgotten forgets.
Proof.
  unfold forgotten. induction 1 as [|f l [_ Hf] Hl IH]; cbn; [done|]. unfold is_u in Hf. case_decide; lia.
Qed.

Lemma hbe_forget_run forgets c :
  forgets_ok forgets → 0 ≤ c.(nlookup) < 2 ^ 64 → forgotten forgets ≤ c.(nlookup) →
  hbe_forget forgets c = (Ok tt, with_nlookup (c.(nlookup) - forgotten forgets) c).
Proof.
  intros Hf. revert c. induction Hf as [|f l [Hn Hu] Hl IH]; intros c Hc Hle.
  - cbn. rewrite Z.sub_0_r. by destruct c.
  - pose proof (forgotten_nonneg l Hl). cbn [hbe_forget].
    assert (Forget_ino (E:=app_error) f = Ok (NodeID_from_raw_unchecked f.(Forget_raw).(forget_one_nodeid)))
      as Hi by (unfold Forget_ino, NodeID_from_raw; by rewrite (proj2 (Z.eqb_neq _ _))).
    erewrite M_bind_Ok by (unfold lift; by rewrite Hi). unfold is_u in Hu.
    change (forgotten (f :: l)) with
      ((if decide (f.(Forget_raw).(forget_one_nodeid) = 2) then Forget_nlookup f else 0) + forgotten l) in *.
    destruct (decide (f.(Forget_raw).(forget_one_nodeid) = 2)) as [He|He].
    + rewrite decide_True by by rewrite He.
      rewrite (M_bind_Ok _ _ _ (with_nlookup (c.(nlookup) - Forget_nlookup f) c) tt).
      * rewrite IH by (cbn [with_nlookup nlookup]; lia). unfold with_nlookup. cbn [filename nlookup].
        do 2 f_equal. lia.
      * unfold mbind, M_bind, get, lift, put. by rewrite arith_u_ok by (unfold is_u; lia).
    + rewrite decide_False by (intros [= ?]; congruence). erewrite M_bind_Ok by done.
      rewrite IH by lia. by rewrite Z.add_0_l.
Qed.

Lemma current_entry_wf c : Z.of_nat (length c.(filename)) < 2 ^ 30 → entry_wf (current_entry c).
Proof. intros. split; [cbn; lia|done]. Qed.

(** The one entry, when it fits in the buffer. *)
Lemma hbe_readdir_buffer c size :
  Z.of_nat (length c.(filename)) < 2 ^ 30 → 0 ≤ size < 2 ^ 32 →
  ∃ full d, push_entry c.(filename) FILE_INO None 1 (DirEntryBuf_new size) = (Ok full, d) ∧
    d.(deb_buf).(vec_bytes) = concat (entry_bytes <$> fitting (alloc_capacity size) [current_entry c]).
Proof.
  intros Hc Hs. pose proof (alloc_capacity_spec size). pose proof (alloc_capacity_max size ltac:(lia)).
  destruct (push_entry_ok (current_entry c) (DirEntryBuf_new size)) as (full & d & Hrun & _ & _ & Hfull & Hbs).
  - by apply current_entry_wf.
  - split; cbn; unfold vec_len; cbn; (done || lia).
  - exists full, d. split; [exact Hrun|]. rewrite Hbs. cbn [fitting].
    change (vec_len (deb_buf (DirEntryBuf_new size))) with 0 in Hfull.
    change (vec_capacity (deb_buf (DirEntryBuf_new size))) with (alloc_capacity size) in Hfull.
    destruct (Z.ltb_spec (alloc_capacity size) (entry_len (current_entry c))); destruct full; cbn; try done.
    + exfalso. assert (false = true) by (apply Hfull; lia). done.
    + exfalso. pose proof (proj1 Hfull eq_refl). lia.
    + by rewrite app_nil_r.
Qed.

Lemma hbe_listing_short c room :
  Z.of_nat (length c.(filename)) < 2 ^ 30 → 0 ≤ room →
  Z.of_nat (length (concat (entry_bytes <$> fitting room [current_entry c]))) < 2 ^ 31.
Proof.
  intros Hc Hr. pose proof (current_entry_wf c Hc) as Hw.
  pose proof (length_fitting room [current_entry c] ltac:(by repeat constructor; apply Hw) Hr) as Hl.
  unfold total_len, entry_len in Hl. cbn [foldr current_entry e_name] in Hl.
  destruct (padded_bounds (24 + Z.of_nat (length c.(filename)))); lia.
Qed.

Lemma hbe_answers : Answers (hbe_handle fs) hbe_dom (hbe_answer fs).
Proof.
  intros req op f rem s w Hq Hop (Hn & Hlen & Hdom).
  pose proof Errno_values as Hv. injection Hv as _ Hnoent _ _ _ _ _.
  pose proof Posix_values as Hp. injection Hp as _ Hnotdir Hisdir Hnosys.
  destruct Hfs as [Hra Hfa Hino Httl].
  destruct op; cbn [hbe_handle hbe_answer]; try (intros w' Hw; answer_error Hnosys).
  - unfold hbe_lookup. case_decide; [intros w' Hw; apply error_answers; by rewrite ?Hnotdir|].
    case_decide as Hname; intros w' Hw; (erewrite M_bind_Ok by done).
    + rewrite decide_True by done. apply error_answers; by rewrite ?Hnoent.
    + rewrite decide_False by tauto. rewrite Hino.
      erewrite M_bind_Ok by by apply entry_answers.
      unfold locked, count_lookup, mbind, M_bind, get, lift, put.
      by rewrite arith_u_ok by (unfold is_u; lia).
  - unfold hbe_getattr. repeat case_decide; intros w' Hw;
      first [by apply attr_answers | apply error_answers; by rewrite ?Hnoent].
  - unfold hbe_read. case_decide; [intros w' Hw; apply error_answers; by rewrite ?Hisdir|].
    case_decide; intros w' Hw; [by apply empty_answers|]. apply error_answers; by rewrite ?Hnoent.
  - unfold hbe_readdir. destruct Hop as (_ & _ & Ho & Hs). unfold is_u in Hs.
    case_decide; [intros w' Hw; apply error_answers; by rewrite ?Hnotdir|].
    case_match; intros w' Hw; [by apply empty_answers|]. erewrite M_bind_Ok by done.
    destruct (hbe_readdir_buffer f op.(Readdir_size)) as (full & d & Hd & Hbs); [done|lia|].
    unfold with_local. rewrite Hd. pose proof (alloc_capacity_spec op.(Readdir_size)).
    apply dir_answers; [done| |by rewrite Hbs]. unfold vec_len. rewrite Hbs.
    apply hbe_listing_short; [done|lia].
  - unfold locked. destruct Hdom as [Hf1 Hf2]. by rewrite hbe_forget_run by (done || lia).
Qed.

(** A beat sends what [beat] says: one invalidation of the old name, from which
the kernel reads the root and that name, or nothing. *)
Definition inval_message (name : OsStr) : list byte :=
  notify_message FUSE_NOTIFY_INVAL_ENTRY (inval_entry_body NodeID_ROOT name).

Lemma heartbeat_beats c new s w w' :
  Z.of_nat (length c.(filename)) < 2 ^ 30 →
  match (beat fs c new).2 with Some old => replied w (inval_message old) w' | None => w' = w end →
  heartbeat fs new (c, (s, w)) = (Ok tt, ((beat fs c new).1, (s, w'))).
Proof.
  intros Hc. unfold heartbeat, beat. cbn [fst snd nlookup].
  destruct (negb (hbe_no_notify fs) && (0 <? nlookup c)); cbn [fst snd]; intros Hw; [|by subst].
  destruct (inval_entry_sends NodeID_ROOT c.(filename)) as [Hsend _]; [done|lia|].
  by rewrite (sends_replied _ _ _ s w w' Hsend Hw).
Qed.

(** ** The two threads and the kernel

The kernel counts the lookups it was answered and has not forgotten, and caches
names of the file; a cached name holds a reference, so that the last lookup is
forgotten only when no name is cached. *)

Record kernel_cache := { k_nlookup : Z; k_names : list OsStr }.

Definition may_forget (k : kernel_cache) (forgets : list Forget) : Prop :=
  forgets_ok forgets ∧ forgotten forgets ≤ k.(k_nlookup) ∧
  (k.(k_names) ≠ [] → forgotten forgets < k.(k_nlookup)).

(** What the kernel does with the answer to a LOOKUP: an entry is cached and counted. *)
Definition cache_lookup (name : OsStr) (v : reply_view) (k : kernel_cache) : kernel_cache :=
  match v with
  | ViewEntry e =>
      if e.(ev_nodeid) =? 2 then {| k_nlookup := k.(k_nlookup) + 1; k_names := name :: k.(k_names) |} else k
  | _ => k
  end.

Definition drop_name (name : OsStr) (k : kernel_cache) : kernel_cache :=
  {| k_nlookup := k.(k_nlookup); k_names := filter (λ n, n ≠ name) k.(k_names) |}.

Context (c : KernelConfig).

(** The critical sections of the threads, in any order. *)
Inductive system_step : CurrentFile * kernel_cache → CurrentFile * kernel_cache → Prop :=
  | step_lookup f k op f' a :
      hbe_dom c f (Operation_Lookup op) → hbe_answer fs c f (Operation_Lookup op) = (f', Some a) →
      system_step (f, k)
        (f', cache_lookup op.(Lookup_name) (view_of c.(minor) (Operation_Lookup op) a) k)
  | step_interrupted f k op f' a :
      hbe_dom c f (Operation_Lookup op) → hbe_answer fs c f (Operation_Lookup op) = (f', Some a) →
      system_step (f, k) (f', k)
  | step_forget f k forgets f' :
      may_forget k forgets → hbe_forget forgets f = (Ok tt, f') →
      system_step (f, k)
        (f', {| k_nlookup := k.(k_nlookup) - forgotten forgets; k_names := k.(k_names) |})
  | step_shrink f k name : system_step (f, k) (f, drop_name name k)
  | step_beat f k new :
      Z.of_nat (length new) < 2 ^ 30 →
      system_step (f, k)
        ((beat fs f new).1, match (beat fs f new).2 with Some old => drop_name old k | None => k end).

Record coherent (f : CurrentFile) (k : kernel_cache) : Prop := {
  co_count : 0 ≤ k.(k_nlookup) ≤ f.(nlookup);
  co_width : f.(nlookup) < 2 ^ 64;
  co_refs : k.(k_names) ≠ [] → 0 < k.(k_nlookup);
  co_names : fs.(hbe_no_notify) = false → Forall (λ n, n = f.(filename)) k.(k_names);
}.

Lemma filter_nonempty (P : OsStr → Prop) `{∀ n, Decision (P n)} l : filter P l ≠ [] → l ≠ [].
Proof. by destruct l. Qed.

Lemma coherent_shrink f k name : coherent f k → coherent f (drop_name name k).
Proof.
  intros [Hc Hw Hr Hn]. split; cbn; [done|done| |].
  - intros Hf. apply Hr. by eapply filter_nonempty.
  - intros Hq. apply Forall_forall. intros n [_ Hin]%list_elem_of_filter.
    by apply (proj1 (Forall_forall _ _) (Hn Hq)).
Qed.

Lemma coherent_step f k f' k' : coherent f k → system_step (f, k) (f', k') → coherent f' k'.
Proof.
  intros Hco Hst. pose proof Hco as [Hc Hw Hr Hn].
  inversion Hst as [? ? op ? a Hd Ha|? ? op ? a Hd Ha|? ? fg ? Hm Hf|? ? name|? ? new Hnew]; subst; clear Hst.
  - destruct Hd as (Hd & _). unfold hbe_answer in Ha. repeat case_decide; simplify_eq; [done..|].
    destruct Hfs as [_ Hfa _ Httl].
    cbn [view_of fst snd]. destruct (read_entry_payload c.(minor) (Some FILE_INO) fs.(hbe_file_attr) 0
      (Some fs.(hbe_ttl)) (Some fs.(hbe_ttl)) Hfa ltac:(done) Httl Httl ltac:(done)) as [_ ->].
    split; cbn; [lia|lia|lia|]. intros Hq. constructor; [congruence|]. by apply Hn.
  - destruct Hd as (Hd & _). unfold hbe_answer in Ha. repeat case_decide; simplify_eq; [done..|].
    split; cbn; [lia|lia|done|done].
  - destruct Hm as (Hok & Hle & Hlt). rewrite hbe_forget_run in Hf by (done || lia). simplify_eq.
    pose proof (forgotten_nonneg fg Hok).
    split; cbn [with_nlookup nlookup filename k_nlookup k_names]; [lia|lia| |done].
    intros Hne. specialize (Hlt Hne). lia.
  - by apply coherent_shrink.
  - unfold beat in *. cbn [fst snd].
    destruct (negb (hbe_no_notify fs) && (0 <? nlookup f)) eqn:Hb.
    + split; cbn; [done|done| |].
      * intros Hf. apply Hr. by eapply filter_nonempty.
      * intros Hq. specialize (Hn Hq). apply Forall_forall. intros n [Hne Hin]%list_elem_of_filter.
        by destruct (Hne (proj1 (Forall_forall _ _) Hn n Hin)).
    + split; cbn; [done|done|done|]. intros Hq. rewrite Hq in Hb. cbn in Hb. apply Z.ltb_ge in Hb.
      destruct (k_names k) as [|n l]; [done|]. specialize (Hr ltac:(done)). lia.
Qed.

(** C14: the file system stays coherent with the kernel's cache.  However lookups,
forgets, evictions of cached names and beats of the heart interleave, the
daemon's count is at least the kernel's, so that no forget the kernel may send
makes it underflow and panic; and when notifications are on, every name the
kernel has cached is the current name of the file: a beat has invalidated the
old one before the lock is released. *)
Theorem heartbeat_entry_coherent name f k :
  rtc system_step ({| filename := name; nlookup := 0 |}, {| k_nlookup := 0; k_names := [] |}) (f, k) →
  k.(k_nlookup) ≤ f.(nlookup) ∧
  (fs.(hbe_no_notify) = false → Forall (λ n, n = f.(filename)) k.(k_names)) ∧
  (∀ forgets, may_forget k forgets →
     hbe_forget forgets f = (Ok tt, with_nlookup (f.(nlookup) - forgotten forgets) f)).
Proof.
  intros Hr. assert (coherent f k) as [Hc Hw _ Hn].
  { apply (rtc_ind_r (λ st, coherent st.1 st.2) ({| filename := name; nlookup := 0 |},
      {| k_nlookup := 0; k_names := [] |})) in Hr; [done|by split|].
    intros [f1 k1] [f2 k2] _ Hst Hco. by eapply coherent_step. }
  split_and!; [lia|done|]. intros forgets (Hok & Hle & _). apply hbe_forget_run; [done|lia|lia].
Qed.

(** C34: the code performs these steps.  On every request in the domain the
handlers send exactly the answer prescribed and change the shared state as it
says (a LOOKUP of the current name counts, forgets are subtracted and not
answered); a beat renames the file and sends one invalidation of the old name,
which the kernel reads back, exactly when notifications are on and the file was
looked up. *)
Theorem heartbeat_entry_refines :
  Answers (hbe_handle fs) hbe_dom (hbe_answer fs) ∧
  (∀ f new s w w', Z.of_nat (length f.(filename)) < 2 ^ 30 →
     match (beat fs f new).2 with Some old => replied w (inval_message old) w' | None => w' = w end →
     heartbeat fs new (f, (s, w)) = (Ok tt, ((beat fs f new).1, (s, w')))) ∧
  (∀ name, Z.of_nat (length name) < 2 ^ 30 →
     ∃ out, read_named notify_inval_entry_out_namelen (drop 16 (inval_message name)) = Some (out, name) ∧
       out.(notify_inval_entry_out_parent) = 1).
Proof.
  split_and!.
  - apply hbe_answers.
  - intros f new s w w'. apply heartbeat_beats.
  - intros name Hn.
    destruct (inval_entry_sends NodeID_ROOT name) as [(h & cs & _ & -> & Hh & _) Hread]; [done|lia|].
    unfold inval_message, notify_message. by rewrite drop_app_length' by by rewrite (length_pod_encode _ Hh).
Qed.

End facts.

(** ** Instances *)

Section instances.
Import Ref.

Definition hbe_example : HeartbeatEntry := {|
  hbe_root_attr := plain_attr NodeID_ROOT 0 dir_mode 2 0 0;
  hbe_file_attr := plain_attr FILE_INO 0 file_mode 1 0 0;
  hbe_ttl := DEFAULT_TTL;
  hbe_no_notify := false |}.

Lemma hbe_example_new : HeartbeatEntry_new (E:=Empty_set) DEFAULT_TTL false (bytes_of "a") =
  Ok (hbe_example, {| filename := bytes_of "a"; nlookup := 0 |}).
Proof. reflexivity. Qed.

Lemma hbe_example_wf : fs_wf hbe_example.
Proof. by split. Qed.

(** The file is looked up, renamed by a beat, and forgotten. *)
Lemma heartbeat_entry_coherent_witness :
  hbe_forget [{| Forget_raw := {| forget_one_nodeid := 2; forget_one_nlookup := 1 |} |}]
    {| filename := bytes_of "b"; nlookup := 1 |} = (Ok tt, {| filename := bytes_of "b"; nlookup := 0 |}).
Proof.
  destruct (heartbeat_entry_coherent hbe_example (Hfs := hbe_example_wf) config_example (bytes_of "a")
    {| filename := bytes_of "b"; nlookup := 1 |} {| k_nlookup := 1; k_names := [] |}) as (_ & _ & Hf).
  - eapply rtc_l.
    { eapply (step_lookup _ _ _ _ {| Lookup_parent := NodeID_ROOT; Lookup_name := bytes_of "a" |});
        [by repeat split|reflexivity]. }
    eapply rtc_l; [by eapply (step_beat _ _ _ _ (bytes_of "b"))|]. apply rtc_refl.
  - apply Hf. split; [|done]. by repeat constructor.
Defined.

(** The beat writes the invalidation of the old name. *)
Lemma heartbeat_entry_refines_witness :
  heartbeat hbe_example (bytes_of "b") ({| filename := bytes_of "a"; nlookup := 1 |},
      (session_example, idle_world)) =
    (Ok tt, ({| filename := bytes_of "b"; nlookup := 1 |},
       (session_example, {| incoming := []; outgoing := [inval_message (bytes_of "a")] |}))).
Proof.
  destruct (heartbeat_entry_refines hbe_example (Hfs := hbe_example_wf)) as (_ & Hbeat & _).
  apply (Hbeat {| filename := bytes_of "a"; nlookup := 1 |} (bytes_of "b")); [done|].
  apply (sim_replied [] []).
Defined.

End instances.
