(* ===== verification/Heartbeat.v ===== *)
(** * The example [src/examples/heartbeat.rs]

The mount point is a file whose content is the time of the last beat.  A thread
changes the content and pushes it into the kernel's cache, then pulls it back
and checks it when the answer comes. *)

From stdpp Require Import gmap relations.
From S2P Require Import Prelude Layout Kernel Crates Types Bytes Init Msg Header Decoder.
From S2P Require Import Operation Op OpWire OpSpec OpTotal Reply Dirent Io Device Sim Buf Session.
From S2P Require Import Connect Server.
Local Open Scope Z_scope.

Inductive NotifyKind := Store | Invalidate.

Definition NotifyKind_from_str (s : list byte) : option NotifyKind :=
  if decide (s = bytes_of "store") then Some Store
  else if decide (s = bytes_of "invalidate") then Some Invalidate
  else None.

(** What the first lock protects. *)
Record Inner := { inner_content : list byte; inner_attr : FileAttr }.

(** The shared state: [retrieves] is a concurrent map from the identifiers of
retrievals to the content that is expected back. *)
Record Heartbeat := {
  hb_inner : Inner;
  hb_retrieves : gmap Z (list byte);
}.

Definition set_inner (i : Inner) (hb : Heartbeat) : Heartbeat :=
  {| hb_inner := i; hb_retrieves := hb.(hb_retrieves) |}.
Definition set_retrieves (m : gmap Z (list byte)) (hb : Heartbeat) : Heartbeat :=
  {| hb_inner := hb.(hb_inner); hb_retrieves := m |}.

(** The outcome of the check, as it is logged. *)
Inductive Comparison := Matched | Mismatched.

Section heartbeat.
Context {W : Type} `{OS : OsPipe W} `{CN : SpliceRead W} `{IW : IoWrite W}.
Context `{BF : Bitflags} `{ZC : Zerocopy} `{RX : Rustix} `{L : Libc} `{PR : Profile} `{PX : Posix}.

(** [now] is the time as the clock formats it. *)
Definition Heartbeat_new {E} (now : list byte) : outcome E Heartbeat :=
  attr ← attr_with NodeID_ROOT (Z.of_nat (length now)) (FileMode_new Regular FilePermissions_READ) 1 0 0;
  Ok {| hb_inner := {| inner_content := now; inner_attr := attr |}; hb_retrieves := ∅ |}.

Definition with_size (n : u64) (a : FileAttr) : FileAttr := {|
  FileAttr_ino := a.(FileAttr_ino);
  FileAttr_size := n;
  FileAttr_mode := a.(FileAttr_mode);
  FileAttr_nlink := a.(FileAttr_nlink);
  FileAttr_uid := a.(FileAttr_uid);
  FileAttr_gid := a.(FileAttr_gid);
  FileAttr_rdev := a.(FileAttr_rdev);
  FileAttr_blksize := a.(FileAttr_blksize);
  FileAttr_blocks := a.(FileAttr_blocks);
  FileAttr_atime := a.(FileAttr_atime);
  FileAttr_mtime := a.(FileAttr_mtime);
  FileAttr_ctime := a.(FileAttr_ctime) |}.

Definition update_content (now : list byte) (hb : Heartbeat) : Heartbeat :=
  set_inner {| inner_content := now;
               inner_attr := with_size (Z.of_nat (length now)) hb.(hb_inner).(inner_attr) |} hb.

(** A notification inside [notify]. *)
Definition notifying {A} (m : M (Session * W) io_error A) : M (Heartbeat * (Session * W)) io_error A :=
  λ '(hb, sw), let (r, sw') := m sw in (r, (hb, sw')).

(** The arm [Store]: the content is stored and pulled back; then the identifier
of the retrieval is recorded. *)
Definition store_and_retrieve : M (Heartbeat * (Session * W)) io_error (NotifyID * list byte) :=
  '(hb, _) ← get;
  let content := hb.(hb_inner).(inner_content) in
  _ ← notifying (notify_store (pointer_Bytes u8_slice_Bytes) NodeID_ROOT 0 content);
  notify_unique ← notifying (retrieve NodeID_ROOT 0 (wrap_u 32 page_size));
  mret (notify_unique, content).

Definition record_retrieval (id : NotifyID) (content : list byte) (hb : Heartbeat) : Heartbeat :=
  set_retrieves (<[id.(NotifyID_into_raw) := content]> hb.(hb_retrieves)) hb.

Definition notify (kind : option NotifyKind) : M (Heartbeat * (Session * W)) io_error unit :=
  match kind with
  | Some Store =>
      '(notify_unique, content) ← store_and_retrieve;
      modify (λ '(hb, sw), (record_retrieval notify_unique content hb, sw))
  | Some Invalidate => notifying (inval_inode NodeID_ROOT 0 0)
  | None => mret tt
  end.

Notation answering := (M (Heartbeat * RemainingData * (Session * W)) app_error unit).

Definition hb_getattr (req : Request) (op : Getattr) : answering :=
  if decide (op.(Getattr_ino) = NodeID_ROOT) then
    '(hb, _, _) ← get;
    on_session (reply_attr (RS := Request_ReplySender) req hb.(hb_inner).(inner_attr) None)
  else on_session (reply_error (RS := Request_ReplySender) req Errno_NOENT).

Definition hb_open (req : Request) (op : Open) : answering :=
  if decide (op.(Open_ino) = NodeID_ROOT) then
    on_session (reply_open (RS := Request_ReplySender) req (FileID_from_raw 0) FOPEN_KEEP_CACHE 0)
  else on_session (reply_error (RS := Request_ReplySender) req Errno_NOENT).

Definition hb_read (req : Request) (op : Read) : answering :=
  if decide (op.(Read_ino) = NodeID_ROOT) then
    '(hb, _, _) ← get;
    let content := hb.(hb_inner).(inner_content) in
    if Z.of_nat (length content) <=? op.(Read_offset) then
      on_session (reply_bytes (RS := Request_ReplySender) unit_Bytes req tt)
    else
      on_session (reply_bytes (RS := Request_ReplySender) u8_slice_Bytes req
        (read_slice content op.(Read_offset) op.(Read_size)))
  else on_session (reply_error (RS := Request_ReplySender) req Errno_NOENT).

(** [read_exact] of [io::Read] on the remaining data; a slice that is too short
gives [UnexpectedEof]. *)
Definition remains_read_exact (n : usize) : M (Heartbeat * RemainingData * (Session * W)) app_error (list byte) :=
  λ '(hb, rem, (s, w)),
  match rem with
  | RemainingPipe p =>
      let '(r, bs, (p', w')) := read_exact (replicate (Z.to_nat n) Byte.x00) (p, w) in
      (map_err AppIo (_ ← r; Ok bs), (hb, RemainingPipe p', (s, w')))
  | RemainingVec v =>
      if (Z.to_nat n <=? length v)%nat
      then (Ok (take (Z.to_nat n) v), (hb, RemainingVec (drop (Z.to_nat n) v), (s, w)))
      else (Err (AppIo (Custom Crates.UnexpectedEof "failed to fill whole buffer")), (hb, RemainingVec [], (s, w)))
  end.

(** [data[..original.len()] == *original.as_bytes()]: the slice panics when the data is
shorter. *)
Definition compare_retrieved {E} (original data : list byte) : outcome E Comparison :=
  if (length data <? length original)%nat then Panic "range end index out of range for slice"
  else Ok (if decide (take (length original) data = original) then Matched else Mismatched).

(** The body of the arm, with what it logs: nothing when the identifier is not known. *)
Definition hb_check (op : NotifyReply)
    : M (Heartbeat * RemainingData * (Session * W)) app_error (option Comparison) :=
  '(hb, _, _) ← get;
  match hb.(hb_retrieves) !! op.(NotifyReply_unique).(NotifyID_into_raw) with
  | None => mret None
  | Some original =>
      _ ← modify (λ '(hb, rem, sw),
            (set_retrieves (delete op.(NotifyReply_unique).(NotifyID_into_raw) hb.(hb_retrieves)) hb, rem, sw));
      data ← remains_read_exact op.(NotifyReply_size);
      verdict ← lift (compare_retrieved original data);
      mret (Some verdict)
  end.

(** The verdict is only logged. *)
Definition hb_notify_reply (op : NotifyReply) : answering := _ ← hb_check op; mret tt.

Definition hb_handle : handler (F := Heartbeat) (W := W) := λ req op,
  match op with
  | Operation_Getattr op => hb_getattr req op
  | Operation_Open op => hb_open req op
  | Operation_Read op => hb_read req op
  | Operation_NotifyReply op => hb_notify_reply op
  | _ => on_session (reply_error (RS := Request_ReplySender) req Errno_NOSYS)
  end.

End heartbeat.

(** ** What the kernel sees *)

(** The size in the attributes is the length of the content, which is short. *)
Record heartbeat_ok (hb : Heartbeat) : Prop := {
  ho_size : hb.(hb_inner).(inner_attr).(FileAttr_size) = Z.of_nat (length hb.(hb_inner).(inner_content));
  ho_short : Z.of_nat (length hb.(hb_inner).(inner_content)) < 2 ^ 30;
  ho_attr : attr_wf hb.(hb_inner).(inner_attr);
}.

Definition hb_dom (c : KernelConfig) (hb : Heartbeat) (op : Operation) : Prop :=
  heartbeat_ok hb ∧ match op with Operation_NotifyReply _ => False | _ => True end.

Definition hb_answer (c : KernelConfig) (hb : Heartbeat) (op : Operation) : Heartbeat * option answer_ :=
  (hb, Some
    match op with
    | Operation_Getattr op =>
        if decide (op.(Getattr_ino) = NodeID_ROOT)
        then (None, attr_payload c.(minor) hb.(hb_inner).(inner_attr) None) else (Some 2, [])
    | Operation_Open op =>
        if decide (op.(Open_ino) = NodeID_ROOT)
        then (None, open_payload (FileID_from_raw 0) FOPEN_KEEP_CACHE) else (Some 2, [])
    | Operation_Read op =>
        if decide (op.(Read_ino) = NodeID_ROOT)
        then (None, read_slice hb.(hb_inner).(inner_content) op.(Read_offset) op.(Read_size)) else (Some 2, [])
    | _ => (Some 38, [])
    end).

(** A file at the root, of the size of its content. *)
Definition hb_view (m : u32) (data : list byte) (attr : FileAttr) (op : Operation) : reply_view :=
  match op with
  | Operation_Getattr op =>
      if decide (op.(Getattr_ino) = NodeID_ROOT)
      then ViewAttr Duration_ZERO (attr_sent m (with_size (Z.of_nat (length data)) attr)) else ViewError 2
  | Operation_Open op =>
      if decide (op.(Open_ino) = NodeID_ROOT) then ViewOpen (FileID_from_raw 0) FOPEN_KEEP_CACHE else ViewError 2
  | Operation_Read op =>
      if decide (op.(Read_ino) = NodeID_ROOT)
      then ViewData (take (Z.to_nat op.(Read_size)) (drop (Z.to_nat op.(Read_offset)) data)) else ViewError 2
  | _ => ViewError 38
  end.

Section facts.
Context {W : Type} {OS : OsPipe W} {HOS : OsPipeSpec OS} {CN : SpliceRead W} {HCN : SpliceReadSpec CN}.
Context {IW : IoWrite W}.
Context `{BF : Bitflags} {HBF : BitflagsSpec} `{ZC : Zerocopy} {HZC : ZerocopySpec}.
Context `{RX : Rustix} {HRX : RustixSpec} `{L : Libc} {HL : LibcLinux L} `{PR : Profile}.
Context `{PX : Posix} {HPX : PosixSpec}.

Lemma hb_answers : Answers hb_handle hb_dom hb_answer.
Proof.
  intros req op hb rem s w Hq Hop ([Hsize Hshort Hattr] & Hdom). cbn [hb_answer fst snd]. intros w' Hw.
  pose proof Errno_values as Hv. injection Hv as _ Hnoent _ _ _ _ _.
  pose proof Posix_values as Hp. injection Hp as _ _ _ Hnosys.
  destruct op; cbn [hb_handle]; try answer_error Hnosys.
  - unfold hb_getattr. case_decide; [|apply error_answers; by rewrite ?Hnoent].
    erewrite M_bind_Ok by done. by apply attr_answers.
  - unfold hb_open. case_decide; [|apply error_answers; by rewrite ?Hnoent]. by apply open_answers.
  - unfold hb_read. destruct Hop as (_ & _ & Ho & Hs & _).
    case_decide; [|apply error_answers; by rewrite ?Hnoent].
    erewrite M_bind_Ok by done. cbv beta iota zeta.
    rewrite read_slice_spec in Hw by (unfold is_u in *; lia).
    destruct (Z.leb_spec (Z.of_nat (length (inner_content (hb_inner hb)))) (Read_offset op)).
    + rewrite drop_ge, take_nil in Hw by lia. by apply empty_answers.
    + rewrite read_slice_spec by (unfold is_u in *; lia). apply data_answers; [done| |done].
      rewrite length_take, length_drop. lia.
  - done.
Qed.

Lemma update_content_ok now hb :
  heartbeat_ok hb → Z.of_nat (length now) < 2 ^ 30 → heartbeat_ok (update_content now hb).
Proof.
  intros [_ _ Ha] Hl. split; cbn; [done|done|]. destruct Ha. split; cbn; try done. unfold is_u. lia.
Qed.

Lemma Heartbeat_new_ok {E} now :
  Z.of_nat (length now) < 2 ^ 30 →
  ∃ hb, Heartbeat_new (E:=E) now = Ok hb ∧ heartbeat_ok hb ∧ hb.(hb_inner).(inner_content) = now.
Proof.
  intros Hl. eexists. split; [done|]. split; [|done]. destruct modes as [_ Hm].
  split; cbn [hb_inner inner_content inner_attr FileAttr_size]; [done|done|]. rewrite Hm.
  split; cbn; try done. unfold is_u. lia.
Qed.

Lemma hb_answer_view c hb op :
  Operation_wf c op → hb_dom c hb op →
  ∃ a, hb_answer c hb op = (hb, Some a) ∧
    view_of c.(minor) op a = hb_view c.(minor) hb.(hb_inner).(inner_content) hb.(hb_inner).(inner_attr) op.
Proof.
  intros Hop ([Hsize Hshort Hattr] & Hdom). eexists. split; [done|].
  destruct op; try done; cbn [hb_view].
  - case_decide; [|done]. unfold view_of. cbn [fst snd].
    destruct (read_attr_payload c.(minor) hb.(hb_inner).(inner_attr) None Hattr) as [_ ->]; [done|].
    cbn [unwrap_or_default default]. rewrite <- Hsize. by destruct (hb_inner hb) as [? []].
  - case_decide; [|done]. unfold view_of, open_payload. cbn [fst snd].
    rewrite <- (app_nil_r (pod_encode _)), pod_decode_encode by by apply open_out_wf. done.
  - destruct Hop as (_ & _ & Ho & Hs & _). case_decide; [|done].
    unfold view_of. cbn [fst snd]. by rewrite read_slice_spec by (unfold is_u in *; lia).
Qed.

(** ** Checking what the kernel has cached *)

Lemma retrieve_sends ino offset size s :
  is_u 64 ino.(NodeID_into_raw) → is_u 64 offset → is_u 32 size → is_u 64 s.(s_notify_unique) →
  ∃ body,
    (let out := pod_decode (T:=fuse_notify_retrieve_out) body in
     out.(notify_retrieve_out_notify_unique) = s.(s_notify_unique) ∧
     out.(notify_retrieve_out_nodeid) = ino.(NodeID_into_raw) ∧
     out.(notify_retrieve_out_offset) = offset ∧ out.(notify_retrieve_out_size) = size) ∧
    ∀ w w', replied w (notify_message FUSE_NOTIFY_RETRIEVE body) w' →
      retrieve ino offset size (s, w) =
        (Ok (NotifyID_from_raw s.(s_notify_unique)), ((next_notify_unique s).2, w')).
Proof.
  intros Hi Ho Hs Hu. set (out := {| notify_retrieve_out_notify_unique := s.(s_notify_unique);
    notify_retrieve_out_nodeid := ino.(NodeID_into_raw); notify_retrieve_out_offset := offset;
    notify_retrieve_out_size := size; notify_retrieve_out_padding := 0 |}).
  assert (pod_wf out) as Hout by (unfold out; goal_pod_wf; by split_fields).
  exists (pod_encode out). split.
  - rewrite <- (app_nil_r (pod_encode _)), pod_decode_encode by done. done.
  - intros w w' Hw. unfold retrieve. erewrite M_bind_Ok by done. fold out.
    erewrite M_bind_Ok by by apply (sends_replied _ _ _ _ _ w' (pod_sends _ out Hout ltac:(done))). done.
Qed.

(** The bytes that are left to read, and the invariant of a pipe that holds them. *)
Definition rem_data (rem : RemainingData) : list byte :=
  match rem with RemainingPipe p => p.(pipe_data) | RemainingVec v => v end.
Definition rem_ok (rem : RemainingData) : Prop :=
  match rem with RemainingPipe p => pipe_ok p | RemainingVec _ => True end.

Lemma remains_read_exact_ok n hb rem s w :
  rem_ok rem → 0 ≤ n ≤ Z.of_nat (length (rem_data rem)) →
  ∃ rem' w', rem_ok rem' ∧ rem_data rem' = drop (Z.to_nat n) (rem_data rem) ∧
    remains_read_exact n (hb, rem, (s, w)) =
      (Ok (take (Z.to_nat n) (rem_data rem)), (hb, rem', (s, w'))).
Proof.
  intros Hr Hn. unfold remains_read_exact. destruct rem as [p|v]; cbn [rem_data rem_ok] in *.
  - destruct (read_exact_ok (replicate (Z.to_nat n) Byte.x00) p w Hr) as [w' Heq];
      [rewrite length_replicate; lia|].
    rewrite Heq, length_replicate. eexists (RemainingPipe _), w'. split; [|split; [|done]]; [|done].
    destruct Hr as [Hl Hm]. unfold rem_ok, pipe_ok. cbn. rewrite length_drop. lia.
  - rewrite (proj2 (Nat.leb_le _ _)) by lia. by eexists (RemainingVec _), w.
Qed.

(** The check of an answer that is long enough, to a retrieval that was recorded. *)
Lemma hb_check_run op hb rem s w original :
  hb.(hb_retrieves) !! op.(NotifyReply_unique).(NotifyID_into_raw) = Some original →
  rem_ok rem →
  Z.of_nat (length original) ≤ op.(NotifyReply_size) ≤ Z.of_nat (length (rem_data rem)) →
  ∃ rem' w', rem_ok rem' ∧
    rem_data rem' = drop (Z.to_nat op.(NotifyReply_size)) (rem_data rem) ∧
    hb_check op (hb, rem, (s, w)) =
      (Ok (Some (if decide (take (length original) (rem_data rem) = original) then Matched else Mismatched)),
       (set_retrieves (delete op.(NotifyReply_unique).(NotifyID_into_raw) hb.(hb_retrieves)) hb,
        rem', (s, w'))).
Proof.
  intros Hid Hr Hl.
  destruct (remains_read_exact_ok op.(NotifyReply_size)
    (set_retrieves (delete op.(NotifyReply_unique).(NotifyID_into_raw) hb.(hb_retrieves)) hb) rem s w Hr)
    as (rem' & w' & Hr' & Hd & Hread); [lia|].
  exists rem', w'. split; [done|]. split; [done|]. unfold hb_check.
  erewrite M_bind_Ok by done. cbv beta iota. rewrite Hid. erewrite M_bind_Ok by done. cbv beta iota.
  erewrite M_bind_Ok by exact Hread. unfold compare_retrieved, mbind, M_bind, lift.
  rewrite length_take, (proj2 (Nat.ltb_ge _ _)) by lia. by rewrite take_take, Nat.min_l by lia.
Qed.

(** C24: storing the content, pulling it back and checking it.  [notify] sends
the content and a request for a page of it under a fresh identifier, and
records what it expects.  When the kernel answers that identifier with at least
as much data as was stored, in a pipe or in memory, the answer is read, the record is
removed again, and the data is compared with what was stored: it is found to match
exactly when it starts with the stored content, and to differ otherwise; the daemon
goes on in both cases. *)
Theorem heartbeat_store_checked hb s :
  heartbeat_ok hb → is_u 64 s.(s_notify_unique) → hb.(hb_retrieves) !! s.(s_notify_unique) = None →
  let data := hb.(hb_inner).(inner_content) in
  let s' := (next_notify_unique s).2 in
  ∃ store_body retrieve_body hb',
    (let out := pod_decode (T:=fuse_notify_store_out) store_body in
     out.(notify_store_out_nodeid) = 1 ∧ out.(notify_store_out_offset) = 0 ∧
     out.(notify_store_out_size) = Z.of_nat (length data) ∧ drop 24 store_body = data) ∧
    (let out := pod_decode (T:=fuse_notify_retrieve_out) retrieve_body in
     out.(notify_retrieve_out_notify_unique) = s.(s_notify_unique) ∧
     out.(notify_retrieve_out_nodeid) = 1 ∧ out.(notify_retrieve_out_size) = page_size) ∧
    (∀ w w1 w2,
       replied w (notify_message FUSE_NOTIFY_STORE store_body) w1 →
       replied w1 (notify_message FUSE_NOTIFY_RETRIEVE retrieve_body) w2 →
       notify (Some Store) (hb, (s, w)) = (Ok tt, (hb', (s', w2)))) ∧
    (∀ op rem w, op.(NotifyReply_unique) = NotifyID_from_raw s.(s_notify_unique) → rem_ok rem →
       Z.of_nat (length data) ≤ op.(NotifyReply_size) ≤ Z.of_nat (length (rem_data rem)) →
       ∃ verdict rem' w',
         hb_check op (hb', rem, (s', w)) = (Ok (Some verdict), (hb, rem', (s', w'))) ∧
         (verdict = Matched ↔ ∃ rest, rem_data rem = data ++ rest) ∧
         rem_data rem' = drop (Z.to_nat op.(NotifyReply_size)) (rem_data rem) ∧
         hb_notify_reply op (hb', rem, (s', w)) = (Ok tt, (hb, rem', (s', w')))).
Proof.
  intros [Hsize Hshort Hattr] Hu Hfresh data s'.
  destruct (u8_slice_chunks data) as [Hb Hc]. destruct (pointer_chunks u8_slice_Bytes data Hb) as [Hb' Hc'].
  assert (content (pointer_Bytes u8_slice_Bytes) data = data) as Hcon
    by (unfold content in *; by rewrite Hc').
  destruct (notify_store_wire (pointer_Bytes u8_slice_Bytes) NodeID_ROOT 0 data) as
    (store_body & Hstore & Hn1 & Hn2 & Hn3 & Hn4); [by split|done|done|rewrite Hcon; unfold data; lia|].
  rewrite Hcon in Hn3, Hn4. pose proof page_size_bounds as Hpage.
  destruct (retrieve_sends NodeID_ROOT 0 page_size s) as (retrieve_body & (Hr1 & Hr2 & _ & Hr4) & Hretr);
    [done|done|unfold is_u; lia|done|].
  exists store_body, retrieve_body, (record_retrieval (NotifyID_from_raw s.(s_notify_unique)) data hb).
  split_and!; [done..| |].
  - intros w w1 w2 Hw1 Hw2. unfold notify, store_and_retrieve, mbind, M_bind, get, notifying.
    cbv beta iota. fold data. rewrite (sends_replied _ _ _ s w w1 Hstore Hw1).
    rewrite wrap_u_id by (unfold is_u; lia). by rewrite (Hretr w1 w2 Hw2).
  - intros op rem w Hop Hr Hl. set (hb' := record_retrieval _ data hb).
    destruct (hb_check_run op hb' rem s' w data) as (rem' & w' & _ & Hd & Hc2);
      [rewrite Hop; apply lookup_insert_eq|done|done|].
    assert (set_retrieves (delete op.(NotifyReply_unique).(NotifyID_into_raw) hb'.(hb_retrieves)) hb' = hb) as Hback.
    { rewrite Hop. unfold hb', record_retrieval, set_retrieves. cbn. rewrite delete_insert_id by done.
      by destruct hb. }
    rewrite Hback in Hc2. eexists _, rem', w'. split; [exact Hc2|]. split; [|split; [done|]].
    + case_decide as Heq; split; try done.
      * intros _. exists (drop (length data) (rem_data rem)). by rewrite <- Heq at 1; rewrite take_drop.
      * intros [rest Hrest]. destruct Heq. by rewrite Hrest, take_app_length.
    + unfold hb_notify_reply. by erewrite M_bind_Ok by exact Hc2.
Qed.

(** A check can end the daemon, or not take place.  When the kernel answers a
retrieval with fewer bytes than were stored (it sends only what is cached), the
slice of the data is out of range and the daemon panics.  When the answer is
handled before the identifier was recorded, it is ignored, and the record then
stays. *)
Theorem heartbeat_check_gaps hb op original page s w :
  Z.of_nat (length page) = op.(NotifyReply_size) →
  let id := op.(NotifyReply_unique) in
  (hb.(hb_retrieves) !! id.(NotifyID_into_raw) = Some original → (length page < length original)%nat →
     (hb_notify_reply op (hb, RemainingVec page, (s, w))).1 =
       Panic "range end index out of range for slice") ∧
  (hb.(hb_retrieves) !! id.(NotifyID_into_raw) = None →
     hb_notify_reply op (hb, RemainingVec page, (s, w)) = (Ok tt, (hb, RemainingVec page, (s, w))) ∧
     (record_retrieval id original hb).(hb_retrieves) !! id.(NotifyID_into_raw) = Some original).
Proof.
  intros Hl id. split.
  - intros Hid Hshort. unfold hb_notify_reply, hb_check, compare_retrieved, remains_read_exact, mbind, M_bind, get.
    cbv beta iota. fold id. rewrite Hid. unfold modify. cbv beta iota zeta.
    rewrite (proj2 (Nat.leb_le _ _)) by lia. by rewrite length_take, (proj2 (Nat.ltb_lt _ _)) by lia.
  - intros Hid. split; [|apply lookup_insert_eq].
    unfold hb_notify_reply, hb_check, mbind, M_bind, get. cbv beta iota. fold id. by rewrite Hid.
Qed.

End facts.

(** ** Instances *)

Section instances.
Import Ref.

Definition hb_example (t : list byte) : Heartbeat := {|
  hb_inner := {| inner_content := t;
                 inner_attr := plain_attr NodeID_ROOT (Z.of_nat (length t)) file_mode 1 0 0 |};
  hb_retrieves := ∅ |}.

Lemma hb_example_ok : heartbeat_ok (hb_example (bytes_of "12:00")).
Proof. by split. Qed.

Definition hb_reply_example (size : Z) : NotifyReply := {|
  NotifyReply_unique := NotifyID_from_raw 0; NotifyReply_ino := NodeID_ROOT;
  NotifyReply_offset := 0; NotifyReply_size := size |}.

(** The kernel answers with what was stored, in a pipe, or with something else, in memory. *)
Lemma heartbeat_store_checked_witness :
  ∃ hb' w', notify (Some Store) (hb_example (bytes_of "12:00"), (session_example, idle_world)) =
      (Ok tt, (hb', ((next_notify_unique session_example).2, w'))) ∧
    (hb_check (hb_reply_example 5) (hb', RemainingPipe (pipe_of (bytes_of "12:00")),
       ((next_notify_unique session_example).2, w'))).1 = Ok (Some Matched) ∧
    (hb_check (hb_reply_example 5) (hb', RemainingVec (bytes_of "12:01"),
       ((next_notify_unique session_example).2, w'))).1 = Ok (Some Mismatched).
Proof.
  destruct (heartbeat_store_checked (hb_example (bytes_of "12:00")) session_example hb_example_ok
    ltac:(by split) ltac:(reflexivity)) as (sb & rb & hb' & _ & _ & Hnotify & Hreply).
  eexists hb', _. split; [|split].
  - apply (Hnotify idle_world _ _ (sim_replied [] [] _)). apply (sim_replied []).
  - edestruct (Hreply (hb_reply_example 5) (RemainingPipe (pipe_of (bytes_of "12:00"))))
      as (verdict & rem' & w' & -> & Hv & _); [done|by split|by split|].
    cbn [fst]. do 2 f_equal. apply Hv. by exists [].
  - edestruct (Hreply (hb_reply_example 5) (RemainingVec (bytes_of "12:01")))
      as (verdict & rem' & w' & -> & Hv & _); [done|done|by split|].
    cbn [fst]. destruct verdict; [|done]. destruct (proj1 Hv eq_refl) as [rest Hrest].
    discriminate Hrest.
Defined.

(** The kernel answers with no data. *)
Lemma heartbeat_check_gaps_witness :
  (hb_notify_reply (hb_reply_example 0)
     (record_retrieval (NotifyID_from_raw 0) (bytes_of "12:00") (hb_example (bytes_of "12:00")),
      RemainingVec [], (session_example, idle_world))).1 =
  Panic "range end index out of range for slice".
Proof.
  apply (heartbeat_check_gaps _ (hb_reply_example 0) (bytes_of "12:00") [] session_example idle_world eq_refl);
    [reflexivity|cbn; lia].
Defined.

End instances.
