(* ===== verification/HeartbeatThreads.v ===== *)
(** * The threads of [src/examples/heartbeat.rs]

[main] of [heartbeat]: connecting, the closure that answers requests, the
thread that beats the heart, and the thread that waits for a signal.  The beat
takes the lock once to change the content and, when it stores, a second time until
it has recorded the retrieval. *)

From stdpp Require Import gmap.
From S2P Require Import Prelude Layout Kernel Crates Types Bytes Init Msg Header Decoder.
From S2P Require Import Operation Op OpWire OpSpec OpTotal Reply Dirent Io Device Sim Buf Session.
From S2P Require Import MountOpts Mount Connect Server Threads Heartbeat.
Local Open Scope Z_scope.

(** Where the beating thread stands. *)
Inductive beat_point :=
  | Updating
  | Notifying
  | Recording (id : NotifyID) (content : list byte)
  | BeatEnded (panicked : bool).

(** Errors of [main] before the scope. *)
Inductive start_error :=
  | NotAFile
  | NotConnected (e : io_error).

Section threads.
Context {W : Type} `{OS : OsPipe W} `{CN : SpliceRead W} `{IW : IoWrite W} `{MO : MountOs W}.
Context `{BF : Bitflags} `{ZC : Zerocopy} `{RX : Rustix} `{L : Libc} `{MF : MountFlagsApi}.
Context `{PR : Profile} `{PX : Posix}.

(** The arms that hold the lock. *)
Definition hb_locks (op : Operation) : bool :=
  match op with
  | Operation_Getattr op => bool_decide (op.(Getattr_ino) = NodeID_ROOT)
  | Operation_Read op => bool_decide (op.(Read_ino) = NodeID_ROOT)
  | _ => false
  end.

Definition hb_held (o : beat_point) : bool := match o with Recording _ _ => true | _ => false end.

(** How the loop goes on after a notification: [?] ends the thread. *)
Definition after_notify {A} (r : outcome io_error A) (k : A → beat_point) : beat_point :=
  match r with
  | Ok a => k a
  | Err _ => BeatEnded false
  | Panic _ | UB => BeatEnded true
  end.

(** One step of the thread; [now] is the time it reads when it updates. *)
Definition hb_run (kind : option NotifyKind) (now : list byte) (poisoned : bool)
    (st : beat_point * Heartbeat * (Session * W))
    : option (beat_point * bool * Heartbeat * (Session * W)) :=
  let '(o, hb, sw) := st in
  match o with
  | Updating =>
      Some (if poisoned then (BeatEnded true, poisoned, hb, sw)
            else (Notifying, poisoned, update_content now hb, sw))
  | Notifying =>
      match kind with
      | Some Store =>
          if poisoned then Some (BeatEnded true, poisoned, hb, sw)
          else
            let '(r, (hb, sw)) := store_and_retrieve (hb, sw) in
            Some (after_notify r (λ '(id, content), Recording id content), is_panic r, hb, sw)
      | Some Invalidate =>
          let '(r, (hb, sw)) := notifying (inval_inode NodeID_ROOT 0 0) (hb, sw) in
          Some (after_notify r (λ _, Updating), poisoned, hb, sw)
      | None => Some (Updating, poisoned, hb, sw)
      end
  | Recording id content => Some (Updating, poisoned, record_retrieval id content hb, sw)
  | BeatEnded _ => None
  end.

Definition hb_threads (kind : option NotifyKind) : threads Heartbeat beat_point unit (list byte) W := {|
  th_handle _ := hb_handle;
  th_locks := hb_locks;
  th_held := hb_held;
  th_run := hb_run kind;
  th_ended o _ := match o with BeatEnded _ => true | _ => false end;
  th_panicked o := match o with BeatEnded panicked => panicked | _ => false end;
|}.

(** The scope once its threads are spawned. *)
Definition hb_scope (hb : Heartbeat) (s : Session) (mnt : Mount) (w : W) : scope Heartbeat beat_point W := {|
  sc_main := Starting; sc_signal := Some mnt; sc_others := Updating; sc_poisoned := false;
  sc_fs := hb; sc_session := s; sc_world := w |}.

End threads.

(** [main] up to the scope, its arguments parsed: [Path::is_file] is false when the
file cannot be examined.  [None]: the fuel of the handshake is used up. *)
Definition hb_start {W} `{OS : OsPipe W} `{OD : OsDevice W} `{MO : MountOs W} `{BF : Bitflags}
    `{ZC : Zerocopy} `{RX : Rustix} `{L : Libc} `{MF : MountFlagsApi} `{PR : Profile}
    (fuel : nat) (addr : Z) (mountpoint : Path) (now : list byte)
    : M W start_error (option (Device * scope Heartbeat beat_point W)) :=
  mode ← attempt (fs_stat mountpoint);
  if negb match mode with inl mode => Z.land mode S_IFMT =? S_IFREG | inr _ => false end
  then lift (Err NotAFile)
  else
    fs ← lift (Heartbeat_new now);
    ((λ w, match connect fuel addr mountpoint MountOptions_new KernelConfig_new w with
         | (Ok (Some (session, device, mnt)), w) => (Ok (Some (device, hb_scope fs session mnt w)), w)
         | (Ok None, w) => (Ok None, w)
         | (Err e, w) => (Err (NotConnected e), w)
         | (Panic why, w) => (Panic why, w)
         | (UB, w) => (UB, w)
         end) : M W start_error (option (Device * scope Heartbeat beat_point W))).

#[local] Arguments notifying : simpl never.
#[local] Arguments store_and_retrieve : simpl never.

Section facts.
Context {W : Type} {OS : OsPipe W} {HOS : OsPipeSpec OS} {CN : SpliceRead W} {HCN : SpliceReadSpec CN}.
Context {IW : IoWrite W} `{MO : MountOs W}.
Context `{BF : Bitflags} {HBF : BitflagsSpec} `{ZC : Zerocopy} {HZC : ZerocopySpec}.
Context `{RX : Rustix} {HRX : RustixSpec} `{L : Libc} {HL : LibcLinux L} `{MF : MountFlagsApi}.
Context `{PR : Profile} `{PX : Posix} {HPX : PosixSpec}.

(** The steps of a beat, with nothing in between, are the body of the loop. *)
Lemma hb_run_beat kind now hb s w :
  let '(r, (hb', sw')) := notify kind (update_content now hb, (s, w)) in
  ∃ o1 p1 hb1 sw1,
    hb_run kind now false (Updating, hb, (s, w)) = Some (Notifying, false, update_content now hb, (s, w)) ∧
    hb_run kind now false (Notifying, update_content now hb, (s, w)) = Some (o1, p1, hb1, sw1) ∧
    match r with
    | Ok _ => (o1, hb1, sw1) = (Updating, hb', sw') ∨
        hb_run kind now p1 (o1, hb1, sw1) = Some (Updating, p1, hb', sw')
    | Err _ => (o1, hb1, sw1) = (BeatEnded false, hb', sw')
    | _ => (o1, hb1, sw1) = (BeatEnded true, hb', sw')
    end.
Proof.
  destruct kind as [[]|]; cbn [notify hb_run].
  - unfold mbind, M_bind, modify. destruct (store_and_retrieve _) as [[[id content]|e|why|] [hb1 [s1 w1]]];
      do 4 eexists; (split; [done|]); (split; [done|]); first [done|by right].
  - destruct (notifying _ _) as [[[]|e|why|] [hb1 sw1]]; do 4 eexists; (split; [done|]); (split; [done|]);
      first [done|by left].
  - do 4 eexists. split; [done|]. split; [done|]. by left.
Qed.
(** ** What the closure may change

Answering a request leaves the content and its attributes alone, records no
retrieval, and takes no number from the session. *)
Definition hb_change (st st' : Heartbeat * RemainingData * (Session * W)) : Prop :=
  st'.1.1.(hb_inner) = st.1.1.(hb_inner) ∧ st'.1.1.(hb_retrieves) ⊆ st.1.1.(hb_retrieves) ∧
  same_counter st.2.1 st'.2.1.

#[local] Instance hb_change_order : PreOrder hb_change.
Proof.
  split; [by intros st; split_and!|]. intros st1 st2 st3 (H1 & H2 & H3) (H4 & H5 & H6).
  split_and!; [congruence|by etrans|by etrans].
Qed.

Lemma on_session_change {A} (m : M (Session * W) io_error A) :
  (∀ s w, same_counter s (m (s, w)).2.1) → stays hb_change (on_session m).
Proof.
  intros Hm [[hb rem] [s w]]. pose proof (Hm s w) as H. unfold on_session.
  destruct (m (s, w)) as [r sw']. by split_and!.
Qed.

Lemma reply_change {T} (B : Bytes T) req error (x : T) :
  stays hb_change (on_session (@reply_raw _ _ Request_ReplySender T B req error x)).
Proof. apply on_session_change. intros s w. apply handled_counter. Qed.

Lemma remains_change n : stays hb_change (remains_read_exact n).
Proof.
  intros [[hb rem] [s w]]. unfold remains_read_exact. destruct rem as [p|v].
  - by destruct (read_exact _ _) as [[r bs] [p' w']].
  - by case_match.
Qed.

Lemma hb_handle_change req op : stays hb_change (hb_handle req op).
Proof.
  destruct op; cbn [hb_handle]; try apply reply_change.
  - unfold hb_getattr. case_decide; [|apply reply_change]. stays_call.
    intros [[hb rem] sw]. unfold reply_attr. case_match; apply reply_change.
  - unfold hb_open. case_decide; apply reply_change.
  - unfold hb_read. case_decide; [|apply reply_change]. stays_call.
    intros [[hb rem] sw]. case_match; apply reply_change.
  - unfold hb_notify_reply. stays_call; [|intros _; stays_done]. unfold hb_check.
    stays_call. intros [[hb rem] sw]. case_match; [|stays_done]. stays_call; [|intros []].
    + intros [[hb1 rem1] [s1 w1]]. split_and!; [done| |done]. apply delete_subseteq.
    + stays_call; [apply remains_change|]. intros data. stays_call. intros v. stays_done.
Qed.

Lemma inval_inode_inv ino off len hb s w r hb' s' w' :
  notifying (inval_inode ino off len) (hb, (s, w)) = (r, (hb', (s', w'))) →
  hb' = hb ∧ s'.(s_notify_unique) = s.(s_notify_unique).
Proof.
  unfold notifying. destruct (inval_inode _ _ _ _) as [o [s1 w1]] eqn:Hs. intros [= <- <- <- <-]. split; [done|].
  unfold inval_inode, notifier_send in Hs.
  pose proof (handled_counter (send_msg (Notify FUSE_NOTIFY_INVAL_INODE) POD_Bytes
    (mkPOD {| notify_inval_inode_out_ino := ino.(NodeID_into_raw);
              notify_inval_inode_out_off := off; notify_inval_inode_out_len := len |})) s w) as [_ Hc].
  by rewrite Hs in Hc.
Qed.

Lemma store_and_retrieve_inv hb s w r hb' s' w' :
  store_and_retrieve (hb, (s, w)) = (r, (hb', (s', w'))) → is_u 64 (s.(s_notify_unique) + 1) →
  hb' = hb ∧ s.(s_notify_unique) ≤ s'.(s_notify_unique) ≤ s.(s_notify_unique) + 1 ∧
  ∀ id content, r = Ok (id, content) →
    id.(NotifyID_into_raw) = s.(s_notify_unique) ∧ s'.(s_notify_unique) = s.(s_notify_unique) + 1 ∧
    content = hb.(hb_inner).(inner_content).
Proof.
  unfold store_and_retrieve, mbind, M_bind, get, notifying. cbv beta iota zeta. intros Hr Hu.
  pose proof (handled_counter (send_msg (Notify FUSE_NOTIFY_STORE)
    (tuple2_Bytes POD_Bytes (pointer_Bytes u8_slice_Bytes))
    (mkPOD {| notify_store_out_nodeid := NodeID_ROOT.(NodeID_into_raw); notify_store_out_offset := 0;
              notify_store_out_size := wrap_u 32 (Z.of_nat (bytes_size (Bytes := pointer_Bytes u8_slice_Bytes) hb.(hb_inner).(inner_content)));
              notify_store_out_padding := 0 |}, hb.(hb_inner).(inner_content))) s w) as [_ Hn].
  destruct (notify_store _ _ _ _ _) as [o [s1 w1]] eqn:Hs. unfold notify_store, notifier_send in Hs.
  rewrite Hs in Hn. cbn in Hn.
  destruct o as [[]|e|why|]; [|simplify_eq; split; [done|]; split; [lia|done]..].
  destruct (retrieve _ _ _ _) as [o [s2 w2]] eqn:Hret.
  apply retrieve_counter in Hret as (_ & Hn2 & Hid); [|by rewrite Hn]. rewrite Hn in Hn2, Hid.
  destruct o as [id|e|why|]; unfold mret, M_ret in Hr; simplify_eq; (split; [done|]); (split; [lia|]);
    intros id' content Ho; simplify_eq. split; [by apply Hid|done].
Qed.
(** ** Every schedule *)

Section schedules.
Context (addr : RequestBuf → Z) (kind : option NotifyKind).
(** The times the clock may show. *)
Context (times : list byte → Prop) (short_times : ∀ t, times t → Z.of_nat (length t) < 2 ^ 30).

Definition on_time (ev : event unit (list byte)) : Prop :=
  match ev with EvThread now => times now | _ => True end.

(** [n] steps were taken. *)
Record hb_inv (n : nat) (st : scope Heartbeat beat_point W) : Prop := {
  hi_ok : heartbeat_ok st.(sc_fs);
  hi_time : times st.(sc_fs).(hb_inner).(inner_content);
  hi_count : 0 ≤ st.(sc_session).(s_notify_unique) ≤ Z.of_nat n;
  hi_retrieves id v : st.(sc_fs).(hb_retrieves) !! id = Some v →
    0 ≤ id < st.(sc_session).(s_notify_unique) ∧ times v;
  hi_recording id v : st.(sc_others) = Recording id v →
    0 ≤ id.(NotifyID_into_raw) < st.(sc_session).(s_notify_unique) ∧
    st.(sc_fs).(hb_retrieves) !! id.(NotifyID_into_raw) = None ∧ times v;
}.

(** A step that leaves the thread where it is and changes what the closure may change. *)
Lemma hb_inv_change n st st' :
  st'.(sc_others) = st.(sc_others) → st'.(sc_fs).(hb_inner) = st.(sc_fs).(hb_inner) →
  st'.(sc_fs).(hb_retrieves) ⊆ st.(sc_fs).(hb_retrieves) →
  same_counter st.(sc_session) st'.(sc_session) → hb_inv n st → hb_inv (S n) st'.
Proof.
  intros Ho Hi Hr [_ Hc] [[H1 H2 H3] H4 H5 H6 H7]. rewrite <- Hi in *. rewrite <- Hc, <- Ho in *. split; [by split|done|lia| |].
  - intros id v Hv. apply (H6 id v). by eapply lookup_weaken.
  - intros id v Hv. destruct (H7 id v Hv) as (? & ? & ?). split_and!; [lia|lia| |done].
    by eapply lookup_weaken_None.
Qed.

Lemma hb_inv_main n c st st' :
  hb_inv n st → main_step addr (hb_threads kind) c st = Some st' → hb_inv (S n) st'.
Proof.
  intros HI. unfold main_step. destruct (sc_main st) as [|b|b|r]; [| | |done].
  - destruct (new_request_buffer _ _) as [r w]. intros [= <-]. by apply (hb_inv_change n st).
  - pose proof (recv_request_counter (sc_session st) b (sc_world st)) as Hc.
    destruct (recv_request _) as [r [[s b'] w]]. intros [= <-]. by apply (hb_inv_change n st).
  - unfold handle_step.
    destruct (Session_decode _ _ _) as [[[req op] rem]|e|why|];
      [|by intros [= <-]; apply (hb_inv_change n st)..].
    case_match; [done|]. case_match; [by intros [= <-]; apply (hb_inv_change n st)|].
    pose proof (hb_handle_change req op (sc_fs st, rem, (sc_session st, sc_world st))) as (Hi & Hr & Hc).
    cbn [hb_threads th_handle].
    destruct (hb_handle req op _) as [r [[f rem'] [s w]]]. intros [= <-]. by apply (hb_inv_change n st).
Qed.

Lemma hb_inv_thread n now st st' :
  Z.of_nat n < 2 ^ 64 - 1 → times now →
  hb_inv n st → thread_step (hb_threads kind) now st = Some st' → hb_inv (S n) st'.
Proof.
  intros Hn Hnow HI Hs. pose proof HI as [H1 H2 H3 H4 H5]. unfold thread_step in Hs.
  cbn [hb_threads th_run hb_run] in Hs. destruct (sc_others st) as [| |id v|] eqn:Ho; cbn in Hs.
  - destruct (sc_poisoned st); cbn in Hs; injection Hs as <-; (split; cbn; [|done|lia|done|done]); [done|].
    apply update_content_ok; [done|by apply short_times].
  - destruct kind as [[]|]; cbn in Hs.
    + destruct (sc_poisoned st); cbn in Hs; [injection Hs as <-; by split; cbn; [|done|lia|done|done]|].
      destruct (store_and_retrieve _) as [r [hb' [s' w']]] eqn:Hsr. cbn in Hs. injection Hs as <-.
      apply store_and_retrieve_inv in Hsr as (-> & Hc & Hid); [|unfold is_u; lia].
      split; cbn; [done|done|lia| |].
      * intros id v Hv. destruct (H4 id v Hv). split; [lia|done].
      * intros id v Hv. destruct r as [[id' v']|e|why|]; cbn in Hv; simplify_eq.
        destruct (Hid id v eq_refl) as (-> & Hs & ->). split_and!; [lia|lia| |done].
        destruct (hb_retrieves _ !! _) eqn:Hl; [|done]. apply H4 in Hl. lia.
    + destruct (notifying _ _) as [r [hb' [s' w']]] eqn:Hin. cbn in Hs. injection Hs as <-.
      apply inval_inode_inv in Hin as [-> Hc].
      split; cbn; rewrite ?Hc; [done|done|lia|done|]. intros id v Hv. by destruct r.
    + injection Hs as <-. split; cbn; [done|done|lia|done|done].
  - injection Hs as <-. destruct (H5 id v eq_refl) as (Hid & Hnone & Hv).
    split; cbn; [by destruct H1|done|lia| |done].
    intros id' v'. rewrite lookup_insert_Some. intros [[<- <-]|[_ Hl]]; [done|by apply H4].
  - done.
Qed.

Lemma hb_inv_step n ev st st' :
  Z.of_nat n < 2 ^ 64 - 1 → on_time ev → hb_inv n st →
  scope_step addr (hb_threads kind) ev st = Some st' → hb_inv (S n) st'.
Proof.
  intros Hn Hev HI Hs. apply (scope_step_cases addr (hb_threads kind) (hb_inv (S n)) ev st st' Hs).
  - intros c _. by apply hb_inv_main.
  - intros m w _ _. by apply (hb_inv_change n st).
  - intros now ->. by apply hb_inv_thread.
Qed.

(** C16: [heartbeat] shows one consistent file under every schedule of its threads,
whatever the kernel sends.  The size in the attributes is the length of the
content, which is a time the clock has shown; the contents that are expected
back are such times too, under identifiers the session has given out; the
identifier that is about to be recorded is not taken; and every GETATTR, OPEN
and READ is then answered with one message that shows the file of that
content: its size, a handle that keeps the cache, and any slice of it. *)
Theorem heartbeat_interleaved {E} now c mnt w0 evs hb0 st :
  Heartbeat_new (E:=E) now = Ok hb0 → times now → Forall on_time evs → Z.of_nat (length evs) < 2 ^ 64 →
  scope_run addr (hb_threads kind) evs (hb_scope hb0 (Session_new c) mnt w0) = Some st →
  let hb := st.(sc_fs) in
  let data := hb.(hb_inner).(inner_content) in
  let next := st.(sc_session).(s_notify_unique) in
  hb.(hb_inner).(inner_attr).(FileAttr_size) = Z.of_nat (length data) ∧ times data ∧
  (∀ id v, hb.(hb_retrieves) !! id = Some v → 0 ≤ id < next ∧ times v) ∧
  (∀ id v, st.(sc_others) = Recording id v → hb.(hb_retrieves) !! id.(NotifyID_into_raw) = None ∧ times v) ∧
  ∀ req op rem s w, request_ok req → Operation_wf req.(req_config) op →
    match op with Operation_NotifyReply _ => False | _ => True end →
    ∃ a, view_of req.(req_config).(minor) op a =
           hb_view req.(req_config).(minor) data hb.(hb_inner).(inner_attr) op ∧
      ∀ w', replied w (message_of req.(req_header).(raw) a) w' →
        hb_handle req op (hb, rem, (s, w)) = (Ok tt, (hb, rem, (s, w'))).
Proof.
  intros Hnew Hnow Hevs Hn Hrun hb data next.
  assert (hb_inv 0 (hb_scope hb0 (Session_new c) mnt w0)) as H0.
  { destruct (Heartbeat_new_ok (E:=E) now (short_times now Hnow)) as (hb1 & Hnew' & Hok & Hc).
    rewrite Hnew in Hnew'. injection Hnew' as <-. injection Hnew as <-. split; cbn; [done|done|done| |done].
    intros id v. by rewrite lookup_empty. }
  apply (scope_counted addr (hb_threads kind) on_time hb_inv (length evs) 0) in Hrun as [H1 H2 H3 H4 H5];
    [|intros; eapply hb_inv_step; [lia|done..]|done|done|done].
  split_and!; [apply H1|done|done| |].
  - intros id v Hid. destruct (H5 id v Hid) as (_ & ? & ?). done.
  - intros req op rem s w Hq Hop Hd.
    destruct (hb_answer_view req.(req_config) hb op Hop (conj H1 Hd)) as (a & Ha & Hv).
    exists a. split; [done|]. pose proof (hb_answers req op hb rem s w Hq Hop (conj H1 Hd)) as Hans.
    rewrite Ha in Hans. exact Hans.
Qed.
(** ** After the connection is gone *)

Context (gone : W → Prop) {HG : Disconnected gone}.

Lemma store_and_retrieve_gone hb s w :
  heartbeat_ok hb → is_u 64 s.(s_notify_unique) → gone w →
  ∃ id s' w', store_and_retrieve (hb, (s, w)) = (Ok (id, hb.(hb_inner).(inner_content)), (hb, (s', w'))) ∧
    is_u 64 s'.(s_notify_unique) ∧ gone w'.
Proof.
  intros [_ Hshort _] Hu Hw. set (data := hb.(hb_inner).(inner_content)) in *.
  destruct (u8_slice_chunks data) as [Hb Hc]. destruct (pointer_chunks u8_slice_Bytes data Hb) as [Hb' Hc'].
  assert (content (pointer_Bytes u8_slice_Bytes) data = data) as Hcon
    by (unfold content in *; by rewrite Hc').
  destruct (notify_store_wire (pointer_Bytes u8_slice_Bytes) NodeID_ROOT 0 data) as (body & Hstore & _);
    [by split|done|done|rewrite Hcon; lia|].
  destruct (sends_gone gone _ _ _ s w Hstore Hw) as (s1 & w1 & Hs1 & [_ Hn1] & Hw1).
  pose proof page_size_bounds as Hpage.
  set (out := {| notify_retrieve_out_notify_unique := s1.(s_notify_unique);
    notify_retrieve_out_nodeid := 1; notify_retrieve_out_offset := 0;
    notify_retrieve_out_size := wrap_u 32 page_size; notify_retrieve_out_padding := 0 |}).
  assert (pod_wf out) as Hout
    by (unfold out; goal_pod_wf; split_fields; first [done | by apply wrap_u_is_u | by rewrite Hn1]).
  destruct (sends_gone gone _ _ _ (next_notify_unique s1).2 w1 (pod_sends FUSE_NOTIFY_RETRIEVE out Hout ltac:(done)) Hw1)
    as (s2 & w2 & Hs2 & [_ Hn2] & Hw2).
  exists (NotifyID_from_raw s1.(s_notify_unique)), s2, w2.
  split; [|split; [rewrite Hn2; by apply wrap_u_is_u|done]].
  unfold store_and_retrieve, mbind, M_bind, get, notifying. cbv beta iota. fold data. rewrite Hs1.
  unfold retrieve. erewrite M_bind_Ok by done. erewrite M_bind_Ok by exact Hs2. done.
Qed.

Lemma inval_inode_gone hb s w :
  gone w → ∃ s' w', notifying (inval_inode NodeID_ROOT 0 0) (hb, (s, w)) = (Ok tt, (hb, (s', w'))) ∧
    same_counter s s' ∧ gone w'.
Proof.
  intros Hw. set (out := {| notify_inval_inode_out_ino := NodeID_ROOT.(NodeID_into_raw); notify_inval_inode_out_off := 0;
    notify_inval_inode_out_len := 0 |}).
  assert (pod_wf out) as Hout by (unfold out; goal_pod_wf; by split_fields).
  destruct (sends_gone gone _ _ _ s w (pod_sends FUSE_NOTIFY_INVAL_INODE out Hout ltac:(done)) Hw) as (s' & w' & Hs & Hw').
  exists s', w'. split; [|done]. unfold notifying, inval_inode. fold out. by rewrite Hs.
Qed.

(** The closure has returned and the heart goes on beating. *)
Record still_beating (st : scope Heartbeat beat_point W) : Prop := {
  sb_left : ∃ r, st.(sc_main) = Left r;
  sb_gone : gone st.(sc_world);
  sb_lock : st.(sc_poisoned) = false;
  sb_beats : ∀ panicked, st.(sc_others) ≠ BeatEnded panicked;
  sb_ok : heartbeat_ok st.(sc_fs);
  sb_count : is_u 64 st.(sc_session).(s_notify_unique);
}.

Lemma still_beating_thread now st :
  times now → still_beating st →
  ∃ st', thread_step (hb_threads kind) now st = Some st' ∧ still_beating st'.
Proof.
  intros Hnow [[r Hl] Hg Hp Hb Hok Hc]. unfold thread_step. cbn [hb_threads th_run]. unfold hb_run. rewrite Hp.
  destruct (sc_others st) as [| |id v|panicked]; [| | |by destruct (Hb panicked)].
  - eexists. split; [done|]. split; cbn; [by exists r|done..| |done].
    apply update_content_ok; [done|by apply short_times].
  - destruct kind as [[]|].
    + destruct (store_and_retrieve_gone _ _ _ Hok Hc Hg) as (id & s' & w' & -> & Hc' & Hg').
      eexists. split; [done|]. split; cbn; by try exists r.
    + destruct (inval_inode_gone (sc_fs st) (sc_session st) _ Hg) as (s' & w' & -> & [_ Hc'] & Hg').
      eexists. split; [done|]. split; cbn; [by exists r|done..|by rewrite Hc'].
    + eexists. split; [done|]. split; cbn; by try exists r.
  - eexists. split; [done|]. split; cbn; [by exists r|done..| |done]. by destruct Hok.
Qed.

Lemma still_beating_step ev st st' :
  on_time ev → still_beating st → scope_step addr (hb_threads kind) ev st = Some st' → still_beating st'.
Proof.
  intros Hev Hst Hs. apply (scope_step_cases addr (hb_threads kind) still_beating ev st st' Hs).
  - intros c _ Hc. destruct Hst as [[r Hl] _ _ _ _ _]. unfold main_step in Hc. by rewrite Hl in Hc.
  - intros m w _ Hw. destruct Hst. split; cbn; try done. by eapply gone_ended.
  - intros now -> Ht. destruct (still_beating_thread now st Hev Hst) as (st1 & Hs1 & Hst1). congruence.
Qed.

(** C18: [heartbeat] does not end when it is unmounted.  Once the connection is gone
and the loop has returned, the thread that beats the heart takes the failures of
its notifications for successes and never leaves its loop, with any kind of
notification: no schedule leads to a state in which the scope has returned,
and in each of them the heart can beat once more.  So [main] does not return
after an unmount. *)
Theorem heartbeat_never_returns r evs st st' now :
  st.(sc_main) = Left r → gone st.(sc_world) → st.(sc_poisoned) = false →
  (∀ panicked, st.(sc_others) ≠ BeatEnded panicked) →
  heartbeat_ok st.(sc_fs) → is_u 64 st.(sc_session).(s_notify_unique) →
  Forall on_time evs → times now →
  scope_run addr (hb_threads kind) evs st = Some st' →
  scope_result (hb_threads kind) st' = None ∧
  is_Some (scope_step addr (hb_threads kind) (EvThread now) st').
Proof.
  intros Hl Hg Hp Hb Hok Hc Hevs Hnow Hrun.
  assert (still_beating st) as Hst by (split; [by exists r|done..]).
  apply (scope_invariant addr (hb_threads kind) on_time still_beating) in Hrun; [|exact still_beating_step|done..].
  split.
  - destruct Hrun as [[r' Hm] _ _ Hb' _ _]. unfold scope_result. rewrite Hm.
    destruct (sc_signal st'); [done|]. cbn. destruct (sc_others st') as [| | |p]; [done..|]. by destruct (Hb' p).
  - destruct (still_beating_thread now st' Hnow Hrun) as (st1 & Hs & _). cbn [scope_step]. by rewrite Hs.
Qed.
End schedules.
End facts.

(** ** Instances *)

Section instances.
Import Ref.

#[local] Instance file_mount : MountOs World := sim_mount 0x81a4.

Definition hb_times (t : list byte) : Prop := t = bytes_of "12:00" ∨ t = bytes_of "12:01".

Lemma hb_times_short t : hb_times t → Z.of_nat (length t) < 2 ^ 30.
Proof. by intros [-> | ->]. Qed.

Definition hb_mount : Mount :=
  {| m_kind := KindPriv; m_mountpoint := []; m_mountopts := MountOptions_new |}.

Definition hb_getattr_request : kernel_request :=
  request_of FUSE_GETATTR 1 7 (Operation_Getattr {| Getattr_ino := NodeID_ROOT; Getattr_fh := None |}).

(** A GETATTR is received, the content changes, is stored and pulled back, and the
request is answered after the retrieval was recorded. *)
Definition hb_schedule : list (event unit (list byte)) :=
  [EvMain tt; EvMain tt; EvThread (bytes_of "12:01"); EvThread (bytes_of "12:01");
   EvThread (bytes_of "12:01"); EvMain tt].

Definition hb_begin : scope Heartbeat beat_point World :=
  hb_scope (hb_example (bytes_of "12:00")) session_example hb_mount (requests_world [hb_getattr_request]).

Lemma heartbeat_interleaved_witness :
  match scope_run (λ _, 4096) (hb_threads (Some Store)) hb_schedule hb_begin with
  | Some st => st.(sc_fs).(hb_inner).(inner_attr).(FileAttr_size) = 5 ∧
      st.(sc_fs).(hb_inner).(inner_content) = bytes_of "12:01" ∧
      st.(sc_fs).(hb_retrieves) !! 0 = Some (bytes_of "12:01") ∧ length st.(sc_world).(outgoing) = 3%nat
  | None => False
  end.
Proof.
  destruct (scope_run _ _ hb_schedule hb_begin) as [st|] eqn:Hrun; [|vm_compute in Hrun; discriminate].
  assert (Forall (on_time hb_times) hb_schedule) as Hevs
    by (repeat constructor; by right).
  destruct (heartbeat_interleaved (λ _, 4096) (Some Store) hb_times hb_times_short (E:=Empty_set)
    (bytes_of "12:00") config_example hb_mount (requests_world [hb_getattr_request]) hb_schedule
    (hb_example (bytes_of "12:00")) st) as (Hsize & _); [reflexivity|by left|exact Hevs|done|exact Hrun|].
  vm_compute in Hrun. injection Hrun as <-. split; [exact Hsize|]. by vm_compute.
Defined.

(** While the retrieval waits to be recorded the request waits for the lock. *)
Lemma hb_blocked :
  scope_run (λ _, 4096) (hb_threads (Some Store)) (take 4 hb_schedule ++ [EvMain tt]) hb_begin = None.
Proof. by vm_compute. Qed.

(** The program starts, its mount point being a regular file. *)
Definition hb_init_world : World := {|
  incoming := [early_message (InitRequest (header_example 26 104) accepted_init [])]; outgoing := [] |}.

Lemma hb_starts :
  match hb_start 1 4096 [] (bytes_of "12:00") hb_init_world with
  | (Ok (Some (_, st)), _) => st.(sc_main) = Starting ∧ st.(sc_fs) = hb_example (bytes_of "12:00")
  | _ => False
  end.
Proof. by vm_compute. Qed.

(** The loop has ended; a signal comes and the heart beats twice. *)
Definition hb_unmounted : scope Heartbeat beat_point World := {|
  sc_main := Left (Ok tt); sc_signal := Some hb_mount; sc_others := Updating; sc_poisoned := false;
  sc_fs := hb_example (bytes_of "12:00"); sc_session := session_example; sc_world := idle_world |}.

Definition hb_late_schedule : list (event unit (list byte)) :=
  EvSignal :: replicate 6 (EvThread (bytes_of "12:01")).

Lemma heartbeat_never_returns_witness :
  match scope_run (λ _, 4096) (hb_threads (IW := dead_write) (Some Store)) hb_late_schedule hb_unmounted with
  | Some st => scope_result (hb_threads (IW := dead_write) (Some Store)) st = None ∧
      st.(sc_session).(s_exited) = true ∧ st.(sc_session).(s_notify_unique) = 2
  | None => False
  end.
Proof.
  destruct (scope_run _ _ hb_late_schedule hb_unmounted) as [st|] eqn:Hrun; [|vm_compute in Hrun; discriminate].
  assert (Forall (on_time hb_times) hb_late_schedule) as Hevs by (repeat constructor; by right).
  destruct (heartbeat_never_returns (IW := dead_write) (λ _, 4096) (Some Store) hb_times hb_times_short
    (λ _, True) (HG := dead_disconnected 0x81a4) (Ok tt) hb_late_schedule hb_unmounted st (bytes_of "12:01"))
    as [Hres _]; [reflexivity|done|reflexivity|done|apply hb_example_ok|by split|exact Hevs|by right|exact Hrun|].
  split; [exact Hres|]. vm_compute in Hrun. by injection Hrun as <-.
Defined.
End instances.
