(* ===== verification/EntryThreads.v ===== *)
(** * The threads of [src/examples/heartbeat_entry.rs]

[main] of [heartbeat_entry]: connecting, the closure that answers requests, the
thread that renames the file, and the thread that waits for a signal.  The beat
holds the lock while the kernel takes its notification, which may make it wait. *)

From S2P Require Import Prelude Layout Kernel Crates Types Bytes Init Msg Header Decoder.
From S2P Require Import Operation Op OpWire OpSpec OpTotal Reply Dirent Io Device Sim Buf Session.
From S2P Require Import MountOpts Mount Connect Server Threads HeartbeatEntry.
Local Open Scope Z_scope.

(** Where the renaming thread stands: at the head of its loop, about to send the
invalidation of a name, or ended. *)
Inductive rename_point :=
  | Renaming
  | Invalidating (old : OsStr)
  | RenameEnded (panicked : bool).

(** Errors of [main] before the scope. *)
Inductive entry_start_error :=
  | NotADirectory
  | EntryNotConnected (e : io_error).

Section threads.
Context {W : Type} `{OS : OsPipe W} `{CN : SpliceRead W} `{IW : IoWrite W} `{MO : MountOs W}.
Context `{BF : Bitflags} `{ZC : Zerocopy} `{RX : Rustix} `{L : Libc} `{MF : MountFlagsApi}.
Context `{PR : Profile} `{PX : Posix} `{AL : Alloc}.

(** Whether the kernel keeps the writer of an invalidation in the root waiting: it
locks the directory, which a LOOKUP in it keeps locked until it is answered. *)
Context (kernel_waits : W → bool) (fs : HeartbeatEntry).

Definition hbe_locks (op : Operation) : bool :=
  match op with
  | Operation_Lookup op => bool_decide (op.(Lookup_parent) = NodeID_ROOT)
  | Operation_Forget _ => true
  | Operation_Readdir op => bool_decide (op.(Readdir_ino) = NodeID_ROOT) && (op.(Readdir_offset) <=? 0)
  | _ => false
  end.

Definition hbe_held (o : rename_point) : bool := match o with Invalidating _ => true | _ => false end.

(** One step of the thread; [new] is the name it generates. *)
Definition hbe_run (new : OsStr) (poisoned : bool) (st : rename_point * CurrentFile * (Session * W))
    : option (rename_point * bool * CurrentFile * (Session * W)) :=
  let '(o, current, sw) := st in
  match o with
  | Renaming =>
      Some (if poisoned then (RenameEnded true, poisoned, current, sw)
            else
              (if negb fs.(hbe_no_notify) && (0 <? current.(nlookup)) then Invalidating current.(filename)
               else Renaming,
               poisoned, {| filename := new; nlookup := current.(nlookup) |}, sw))
  | Invalidating old =>
      if kernel_waits sw.2 then None
      else
        let (r, sw) := inval_entry NodeID_ROOT old sw in
        Some (match r with Ok _ => Renaming | Err _ => RenameEnded false | _ => RenameEnded true end,
              is_panic r, current, sw)
  | RenameEnded _ => None
  end.

Definition hbe_threads : threads CurrentFile rename_point unit OsStr W := {|
  th_handle _ := hbe_handle fs;
  th_locks := hbe_locks;
  th_held := hbe_held;
  th_run := hbe_run;
  th_ended o _ := match o with RenameEnded _ => true | _ => false end;
  th_panicked o := match o with RenameEnded panicked => panicked | _ => false end;
|}.

(** The scope once its threads are spawned. *)
Definition hbe_scope (current : CurrentFile) (s : Session) (mnt : Mount) (w : W)
    : scope CurrentFile rename_point W := {|
  sc_main := Starting; sc_signal := Some mnt; sc_others := Renaming; sc_poisoned := false;
  sc_fs := current; sc_session := s; sc_world := w |}.
End threads.

(** [main] up to the scope, its arguments parsed: [Path::is_dir] is false when the
file cannot be examined. *)
Definition hbe_start {W} `{OS : OsPipe W} `{OD : OsDevice W} `{MO : MountOs W} `{BF : Bitflags}
    `{ZC : Zerocopy} `{RX : Rustix} `{L : Libc} `{MF : MountFlagsApi} `{PR : Profile}
    (fuel : nat) (addr : Z) (ttl : option Duration) (no_notify : bool) (mountpoint : Path) (name : OsStr)
    : M W entry_start_error (option (Device * HeartbeatEntry * scope CurrentFile rename_point W)) :=
  mode ← attempt (fs_stat mountpoint);
  if negb match mode with inl mode => Z.land mode S_IFMT =? S_IFDIR | inr _ => false end
  then lift (Err NotADirectory)
  else
    '(fs, current) ← lift (HeartbeatEntry_new (default DEFAULT_TTL ttl) no_notify name);
    ((λ w,
      match connect fuel addr mountpoint MountOptions_new KernelConfig_new w with
      | (Ok (Some (session, device, mnt)), w) => (Ok (Some (device, fs, hbe_scope current session mnt w)), w)
      | (Ok None, w) => (Ok None, w)
      | (Err e, w) => (Err (EntryNotConnected e), w)
      | (Panic why, w) => (Panic why, w)
      | (UB, w) => (UB, w)
      end) : M W entry_start_error (option (Device * HeartbeatEntry * scope CurrentFile rename_point W))).

Section facts.
Context {W : Type} {OS : OsPipe W} {HOS : OsPipeSpec OS} {CN : SpliceRead W} {HCN : SpliceReadSpec CN}.
Context {IW : IoWrite W} `{MO : MountOs W}.
Context `{BF : Bitflags} {HBF : BitflagsSpec} `{ZC : Zerocopy} {HZC : ZerocopySpec}.
Context `{RX : Rustix} {HRX : RustixSpec} `{L : Libc} {HL : LibcLinux L} `{MF : MountFlagsApi}.
Context `{PR : Profile} `{PX : Posix} {HPX : PosixSpec} `{AL : Alloc} {HAL : AllocSpec}.
Context (kernel_waits : W → bool) (fs : HeartbeatEntry) (addr : RequestBuf → Z).

Notation T := (hbe_threads kernel_waits fs).

(** The steps of a beat, when the kernel does not make it wait, are one call of
[heartbeat]. *)
Lemma hbe_run_beat new f s w :
  kernel_waits w = false →
  let '(r, (f', sw')) := heartbeat fs new (f, (s, w)) in
  ∃ o, hbe_run kernel_waits fs new false (Renaming, f, (s, w)) = Some (o, false, f', (s, w)) ∧
    match o with
    | Renaming => r = Ok tt ∧ sw' = (s, w)
    | _ => hbe_run kernel_waits fs new false (o, f', (s, w)) =
        Some (match r with Ok _ => Renaming | Err _ => RenameEnded false | _ => RenameEnded true end,
              is_panic r, f', sw')
    end.
Proof.
  intros Hw. unfold heartbeat. cbn [hbe_run nlookup].
  destruct (negb (hbe_no_notify fs) && (0 <? nlookup f)).
  - destruct (inval_entry _ _ _) as [r sw'] eqn:Hi. exists (Invalidating f.(filename)). split; [done|].
    cbn [hbe_run snd]. by rewrite Hw, Hi.
  - by exists Renaming.
Qed.

(** ** The lock and the kernel *)

(** The closure has a LOOKUP in the root to answer; the beat has the lock and the
kernel does not take its notification. *)
Record deadlocked (b : RequestBuf) (old : OsStr) (st : scope CurrentFile rename_point W) : Prop := {
  dl_main : st.(sc_main) = Handling b;
  dl_others : st.(sc_others) = Invalidating old;
  dl_lookup : ∃ req op rem, Session_decode (addr b) st.(sc_session) b = Ok (req, Operation_Lookup op, rem) ∧
    op.(Lookup_parent) = NodeID_ROOT;
  dl_waits : kernel_waits st.(sc_world) = true;
}.

Lemma deadlocked_stuck b old st c new :
  deadlocked b old st →
  scope_step addr T (EvMain c) st = None ∧ scope_step addr T (EvThread new) st = None.
Proof.
  intros [Hm Ho (req & op & rem & Hd & Hp) Hw]. split; cbn [scope_step].
  - unfold main_step, handle_step. rewrite Hm, Hd, Ho. cbn [th_locks th_held hbe_threads hbe_locks hbe_held].
    by rewrite bool_decide_true.
  - unfold thread_step. rewrite Ho. cbn [th_run hbe_threads hbe_run snd]. by rewrite Hw.
Qed.

(** Unmounting does not answer the LOOKUP. *)
Context (unmount_waits : ∀ m w, kernel_waits w = true → kernel_waits (Mount_unmount m w).2 = true).

Lemma deadlocked_step b old ev st st' :
  deadlocked b old st → scope_step addr T ev st = Some st' → deadlocked b old st'.
Proof.
  intros Hst Hs. apply (scope_step_cases addr T (deadlocked b old) ev st st' Hs).
  - intros c -> _. by rewrite (proj1 (deadlocked_stuck b old st c [] Hst)) in Hs.
  - intros m w _ Hw. destruct Hst as [Hm Ho Hd Hk]. split; cbn; [done..|].
    destruct Hw as [-> |[[u Hu] _]]; [by apply unmount_waits|congruence].
  - intros new -> _. by rewrite (proj2 (deadlocked_stuck b old st tt new Hst)) in Hs.
Qed.

(** C19: a beat and a LOOKUP can stop [heartbeat_entry] for good.  The beat holds
the lock while it notifies the kernel.  When the kernel has handed out a LOOKUP
in the root and makes invalidations there wait until it is answered, a beat that
comes before the answer leads to a state in which the closure waits for the lock,
the beat for the kernel and the kernel for the closure; whatever happens then,
a signal included, the request is not answered and [main] does not return. *)
Theorem heartbeat_entry_deadlock b st new :
  st.(sc_main) = Handling b → st.(sc_others) = Renaming → st.(sc_poisoned) = false →
  (∃ req op rem, Session_decode (addr b) st.(sc_session) b = Ok (req, Operation_Lookup op, rem) ∧
     op.(Lookup_parent) = NodeID_ROOT) →
  kernel_waits st.(sc_world) = true →
  fs.(hbe_no_notify) = false → 0 < st.(sc_fs).(nlookup) →
  ∃ st1, scope_step addr T (EvThread new) st = Some st1 ∧
    ∀ evs st', scope_run addr T evs st1 = Some st' →
      st'.(sc_main) = Handling b ∧ scope_result T st' = None ∧
      (∀ c, scope_step addr T (EvMain c) st' = None) ∧ (∀ d, scope_step addr T (EvThread d) st' = None).
Proof.
  intros Hm Ho Hp Hd Hw Hn Hl. eexists. split.
  - cbn [scope_step]. unfold thread_step. rewrite Ho, Hp. cbn [th_run hbe_threads hbe_run].
    rewrite Hn, (proj2 (Z.ltb_lt _ _)) by done. reflexivity.
  - intros evs st' Hrun.
    apply (scope_invariant addr T (λ _, True) (deadlocked b st.(sc_fs).(filename))) in Hrun;
      [|by intros ????; apply deadlocked_step|by apply Forall_true|by split].
    split; [apply Hrun|]. split; [|split; intros x].
    + unfold scope_result. by rewrite (dl_main _ _ _ Hrun).
    + by apply (deadlocked_stuck b _ st' x [] Hrun).
    + by apply (deadlocked_stuck b _ st' tt x Hrun).
Qed.
(** ** After the connection is gone *)

Context (gone : W → Prop) {HG : Disconnected gone}.

Definition on_name (ev : event unit OsStr) : Prop :=
  match ev with EvThread new => Z.of_nat (length new) < 2 ^ 30 | _ => True end.

(** The closure has returned and the thread goes on renaming the file. *)
Record still_renaming (st : scope CurrentFile rename_point W) : Prop := {
  sr_left : ∃ r, st.(sc_main) = Left r;
  sr_gone : gone st.(sc_world);
  sr_lock : st.(sc_poisoned) = false;
  sr_renames : match st.(sc_others) with
               | Renaming => True
               | Invalidating old => Z.of_nat (length old) < 2 ^ 30
               | RenameEnded _ => False
               end;
  sr_name : Z.of_nat (length st.(sc_fs).(filename)) < 2 ^ 30;
}.

Lemma still_renaming_step ev st st' :
  on_name ev → still_renaming st → scope_step addr T ev st = Some st' → still_renaming st'.
Proof.
  intros Hev [[r Hl] Hg Hp Ho Hn] Hst. apply (scope_step_cases addr T still_renaming ev st st' Hst).
  - intros c _ Hs. unfold main_step in Hs. by rewrite Hl in Hs.
  - intros m w _ Hw. split; cbn; [by exists r|by eapply gone_ended|done..].
  - intros new -> Hs. unfold thread_step in Hs. cbn [th_run hbe_threads] in Hs. unfold hbe_run in Hs. rewrite Hp in Hs.
    destruct (sc_others st) as [|old|]; [| |done].
    + cbn in Hs. injection Hs as <-. split; cbn; [by exists r|done|done| |done]. by destruct (negb _ && _).
    + cbn [snd] in Hs. destruct (kernel_waits (sc_world st)); [done|].
      destruct (inval_entry_sends NodeID_ROOT old) as [Hsend _]; [done|lia|].
      destruct (sends_gone gone _ _ _ (sc_session st) (sc_world st) Hsend Hg) as (s' & w' & Hi & _ & Hg').
      rewrite Hi in Hs. cbn in Hs. injection Hs as <-. split; cbn; [by exists r|done..].
Qed.

(** [heartbeat_entry] does not end when it is unmounted either: its thread takes
the failures of its notifications for successes. *)
Theorem heartbeat_entry_never_returns r evs st st' :
  st.(sc_main) = Left r → gone st.(sc_world) → st.(sc_poisoned) = false →
  st.(sc_others) = Renaming → Z.of_nat (length st.(sc_fs).(filename)) < 2 ^ 30 →
  Forall on_name evs → scope_run addr T evs st = Some st' → scope_result T st' = None.
Proof.
  intros Hl Hg Hp Ho Hn Hevs Hrun.
  apply (scope_invariant addr T on_name still_renaming) in Hrun as [[r' Hm] _ _ Ho' _];
    [|exact still_renaming_step|done|split; [by exists r|done|done|by rewrite Ho|done]].
  unfold scope_result. rewrite Hm. destruct (sc_signal st'); [done|]. cbn. by destruct (sc_others st').
Qed.
End facts.

(** ** Instances *)

Section instances.
Import Ref.

#[local] Instance dir_mount : MountOs World := sim_mount 0x41ed.

(** The kernel has handed out a LOOKUP and has no answer yet. *)
Definition unanswered (w : World) : bool := match w.(outgoing) with [] => true | _ => false end.

Definition hbe_mount : Mount :=
  {| m_kind := KindPriv; m_mountpoint := []; m_mountopts := MountOptions_new |}.

Definition hbe_lookup_request : kernel_request :=
  request_of FUSE_LOOKUP 1 7
    (Operation_Lookup {| Lookup_parent := NodeID_ROOT; Lookup_name := bytes_of "a" |}).

(** The file was looked up before; a second LOOKUP is in the buffer. *)
Definition hbe_racing : scope CurrentFile rename_point World := {|
  sc_main := Handling (after vec_example (kr_message config_example hbe_lookup_request));
  sc_signal := Some hbe_mount; sc_others := Renaming; sc_poisoned := false;
  sc_fs := {| filename := bytes_of "a"; nlookup := 1 |};
  sc_session := session_example; sc_world := idle_world |}.

Lemma heartbeat_entry_deadlock_witness :
  ∃ st1 st2,
    scope_step (λ _, 4096) (hbe_threads unanswered hbe_example) (EvThread (bytes_of "b")) hbe_racing = Some st1 ∧
    scope_run (λ _, 4096) (hbe_threads unanswered hbe_example) [EvSignal] st1 = Some st2 ∧
    scope_step (λ _, 4096) (hbe_threads unanswered hbe_example) (EvMain tt) st2 = None.
Proof.
  destruct (heartbeat_entry_deadlock unanswered hbe_example (λ _, 4096) (λ m w H, ltac:(by rewrite (sim_unmount 0x41ed)))
    (after vec_example (kr_message config_example hbe_lookup_request)) hbe_racing (bytes_of "b"))
    as (st1 & Hst1 & Hstuck); [reflexivity|reflexivity|reflexivity| |reflexivity|reflexivity|done|].
  - do 3 eexists. split; [vm_compute; reflexivity|reflexivity].
  - destruct (scope_run (λ _, 4096) (hbe_threads unanswered hbe_example) [EvSignal] st1) as [st2|] eqn:H2;
      [|vm_compute in Hst1; injection Hst1 as <-; vm_compute in H2; discriminate].
    exists st1, st2. split; [exact Hst1|]. split; [exact H2|]. by apply (Hstuck [EvSignal] st2 H2).
Defined.

(** Before the beat the request could be answered, and after the answer the beat
goes through. *)
Lemma hbe_race_won :
  match scope_run (λ _, 4096) (hbe_threads unanswered hbe_example)
    [EvMain tt; EvThread (bytes_of "b"); EvThread (bytes_of "b")] hbe_racing with
  | Some st => st.(sc_others) = Renaming ∧ length st.(sc_world).(outgoing) = 2%nat
  | None => False
  end.
Proof. by vm_compute. Qed.

Lemma hbe_starts :
  match hbe_start 1 4096 None false [] (bytes_of "a")
    {| incoming := [early_message (InitRequest (header_example 26 104) accepted_init [])]; outgoing := [] |} with
  | (Ok (Some (_, fs, st)), _) => fs = hbe_example ∧ st.(sc_main) = Starting
  | _ => False
  end.
Proof. by vm_compute. Qed.

Lemma heartbeat_entry_never_returns_witness :
  let T := hbe_threads (IW := dead_write) (λ _, false) hbe_example in
  let st := {| sc_main := Left (Ok tt); sc_signal := None; sc_others := Renaming; sc_poisoned := false;
               sc_fs := {| filename := bytes_of "a"; nlookup := 1 |};
               sc_session := session_example; sc_world := idle_world |} in
  match scope_run (λ _, 4096) T (replicate 4 (EvThread (bytes_of "b"))) st with
  | Some st' => scope_result T st' = None
  | None => False
  end.
Proof.
  intros T st. destruct (scope_run _ T _ st) as [st'|] eqn:Hrun; [|vm_compute in Hrun; discriminate].
  eapply (heartbeat_entry_never_returns (IW := dead_write) (λ _, false) hbe_example (λ _, 4096) (λ _, True)
    (HG := dead_disconnected 0x41ed) (Ok tt) (replicate 4 (EvThread (bytes_of "b"))) st st');
    [reflexivity|done|reflexivity|reflexivity|done|by repeat constructor|exact Hrun].
Defined.
End instances.
