(* ===== verification/Poll.v ===== *)
(** * The example [src/examples/poll.rs]

The mount point is a file that becomes readable some time after it was opened.
Each open file has a thread that sleeps until then and wakes up the pollers the
kernel has registered. *)

From stdpp Require Import gmap.
From S2P Require Import Prelude Layout Kernel Crates Types Bytes Init Msg Header Decoder.
From S2P Require Import Operation Op OpWire OpSpec OpTotal Reply Dirent Io Device Sim Buf Session.
From S2P Require Import Connect Server.
Local Open Scope Z_scope.

Definition POLL_CONTENT : list byte := bytes_of "Hello, world!" ++ [Byte.x0a].
Definition DEFAULT_WAKEUP_INTERVAL : Duration := Duration_from_secs 5.

(** [Instant], in nanoseconds; adding a duration panics when the result cannot
be represented (63 bits of seconds). *)
Definition Instant := Z.
Definition nanos (d : Duration) : Z := d.(as_secs) * NANOS_PER_SEC + d.(subsec_nanos).
Definition Instant_add {E} (now : Instant) (d : Duration) : outcome E Instant :=
  if now + nanos d <? 2 ^ 63 * NANOS_PER_SEC then Ok (now + nanos d)
  else Panic "overflow when adding duration to instant".

(** An open file; [fh_kh] is set at most once ([OnceLock]). *)
Record FileHandle := { fh_nonblock : bool; fh_kh : option PollWakeupID; fh_deadline : Instant }.

(** The open files by their identifiers, the next identifier, and the files whose
reading task has not finished. *)
Record PollFs := { p_handles : gmap Z FileHandle; p_next_fh : u64; p_tasks : list Z }.

Definition set_handles (m : gmap Z FileHandle) (p : PollFs) : PollFs :=
  {| p_handles := m; p_next_fh := p.(p_next_fh); p_tasks := p.(p_tasks) |}.

(** [OnceLock::set] on the handle behind an identifier. *)
Definition set_kh (fh : u64) (kh : PollWakeupID) (p : PollFs) : PollFs :=
  set_handles (alter (λ h, match h.(fh_kh) with
                           | None => {| fh_nonblock := h.(fh_nonblock); fh_kh := Some kh;
                                        fh_deadline := h.(fh_deadline) |}
                           | Some _ => h
                           end) fh p.(p_handles)) p.

(** The task of an open file has run. *)
Definition finish_task (fh : u64) (p : PollFs) : PollFs :=
  {| p_handles := p.(p_handles); p_next_fh := p.(p_next_fh); p_tasks := filter (λ t, t ≠ fh) p.(p_tasks) |}.

Section poll.
Context {W : Type} `{OS : OsPipe W} `{CN : SpliceRead W} `{IW : IoWrite W}.
Context `{BF : Bitflags} `{ZC : Zerocopy} `{RX : Rustix} `{L : Libc} `{PR : Profile} `{PX : Posix}.

(** The task of an open file after its sleep: it wakes up the poller of the
handle, if the file is still open. *)
Definition reading_task (fh : u64) : M (PollFs * (Session * W)) io_error unit := λ '(p, sw),
  let p' := finish_task fh p in
  match p.(p_handles) !! fh with
  | Some handle =>
      match handle.(fh_kh) with
      | Some kh => let (r, sw') := poll_wakeup kh sw in (r, (p', sw'))
      | None => (Ok tt, (p', sw))
      end
  | None => (Ok tt, (p', sw))
  end.

Notation answering := (M (PollFs * RemainingData * (Session * W)) app_error unit).

(** A call on the state of the daemon. *)
Definition on_fs {A} (m : M PollFs app_error A) : M (PollFs * RemainingData * (Session * W)) app_error A :=
  λ '(p, rem, sw), let (r, p') := m p in (r, (p', rem, sw)).

(** [handles.get(&op.fh).cloned().ok_or(Errno::INVAL)?] *)
Definition get_handle (fh : FileID) : M PollFs app_error FileHandle :=
  p ← get; lift (ok_or (p.(p_handles) !! fh.(FileID_into_raw)) (AppErrno Errno_INVAL)).

Context (wakeup_interval : Duration) (now : Instant).

Definition poll_getattr (req : Request) : answering :=
  attr ← lift (attr_with NodeID_ROOT 0 (FileMode_new Regular FilePermissions_READ) 1 getuid getgid);
  on_session (reply_attr (RS := Request_ReplySender) req attr
    (Some (Duration_from_secs ((2 ^ 64 - 1) / 2)))).

(** A new handle: its identifier is taken, its task spawned, and it is inserted. *)
Definition new_handle (is_nonblock : bool) : M PollFs app_error FileID :=
  p ← get;
  let fh := p.(p_next_fh) in
  _ ← put {| p_handles := p.(p_handles); p_next_fh := wrap_u 64 (fh + 1); p_tasks := p.(p_tasks) |};
  deadline ← lift (Instant_add now wakeup_interval);
  _ ← modify (λ p, {| p_handles :=
                        <[fh := {| fh_nonblock := is_nonblock; fh_kh := None; fh_deadline := deadline |}]>
                          p.(p_handles);
                      p_next_fh := p.(p_next_fh);
                      p_tasks := fh :: p.(p_tasks) |});
  mret (FileID_from_raw fh).

Definition poll_open (req : Request) (op : Open) : answering :=
  match access_mode op.(Open_options) with
  | Some ReadOnly =>
      fh ← on_fs (new_handle (bf_contains (OpenOptions_flags op.(Open_options)) O_NONBLOCK));
      on_session (reply_open (RS := Request_ReplySender) req fh
        (bf_union FOPEN_DIRECT_IO FOPEN_NONSEEKABLE) 0)
  | _ => on_session (reply_error (RS := Request_ReplySender) req Errno_ACCESS)
  end.

(** A blocking file waits for its deadline; a non-blocking one leaves the loop
with [Err(Errno::AGAIN)?] before it. *)
Definition poll_read (req : Request) (op : Read) : answering :=
  handle ← on_fs (get_handle op.(Read_fh));
  _ ← (if handle.(fh_nonblock) && (now <? handle.(fh_deadline))
       then lift (Err (AppErrno Errno_AGAIN)) else mret tt);
  let content :=
    if op.(Read_offset) <=? Z.of_nat (length POLL_CONTENT)
    then drop (Z.to_nat op.(Read_offset)) POLL_CONTENT else [] in
  on_session (reply_bytes (RS := Request_ReplySender) u8_slice_Bytes req
    (take (Z.to_nat (Z.min (Z.of_nat (length content)) op.(Read_size))) content)).

(** The first part of a POLL: the file is ready, or a poller is to be registered. *)
Definition poll_decide (op : Poll) : M PollFs app_error (u32 * option PollWakeupID) :=
  handle ← get_handle op.(Poll_fh);
  mret (if handle.(fh_deadline) <=? now then (bf_intersection op.(Poll_events) POLLIN, None)
        else (bf_empty, op.(Poll_kh))).

(** The second part. *)
Definition poll_register (op : Poll) (kh : option PollWakeupID) : M PollFs app_error unit :=
  match kh with
  | Some kh => modify (set_kh op.(Poll_fh).(FileID_into_raw) kh)
  | None => mret tt
  end.

Definition poll_poll (req : Request) (op : Poll) : answering :=
  '(revents, kh) ← on_fs (poll_decide op);
  _ ← on_fs (poll_register op kh);
  on_session (reply_poll (RS := Request_ReplySender) req revents).

Definition poll_release (req : Request) (op : Release) : answering :=
  _ ← on_fs (modify (λ p, set_handles (delete op.(Release_fh).(FileID_into_raw) p.(p_handles)) p));
  on_session (reply_bytes (RS := Request_ReplySender) unit_Bytes req tt).

Definition poll_handle : handler (F := PollFs) (W := W) := λ req op,
  match op with
  | Operation_Getattr _ => poll_getattr req
  | Operation_Open op => poll_open req op
  | Operation_Read op => poll_read req op
  | Operation_Poll op => poll_poll req op
  | Operation_Release op => poll_release req op
  | _ => on_session (reply_error (RS := Request_ReplySender) req Errno_NOSYS)
  end.

End poll.

(** ** What the kernel sees *)

Section answer.
Context `{L : Libc} `{BF : Bitflags} `{PX : Posix} (wakeup_interval : Duration) (now : Instant).

Definition poll_attr : FileAttr := plain_attr NodeID_ROOT 0 file_mode 1 getuid getgid.

Definition opened (is_nonblock : bool) (p : PollFs) : PollFs := {|
  p_handles := <[p.(p_next_fh) := {| fh_nonblock := is_nonblock; fh_kh := None;
                                     fh_deadline := now + nanos wakeup_interval |}]> p.(p_handles);
  p_next_fh := wrap_u 64 (p.(p_next_fh) + 1);
  p_tasks := p.(p_next_fh) :: p.(p_tasks) |}.

Definition is_read_only (o : OpenOptions) : bool :=
  match access_mode o with Some ReadOnly => true | _ => false end.

(** The events of a file whose deadline has come, and none before. *)
Definition ready_events (p : PollFs) (op : Poll) : u32 :=
  match p.(p_handles) !! op.(Poll_fh).(FileID_into_raw) with
  | Some h => if h.(fh_deadline) <=? now then Z.land op.(Poll_events) POLLIN else 0
  | None => 0
  end.

Definition registered (p : PollFs) (op : Poll) : PollFs :=
  match p.(p_handles) !! op.(Poll_fh).(FileID_into_raw), op.(Poll_kh) with
  | Some h, Some kh => if h.(fh_deadline) <=? now then p else set_kh op.(Poll_fh).(FileID_into_raw) kh p
  | _, _ => p
  end.

Definition poll_answer (c : KernelConfig) (p : PollFs) (op : Operation) : PollFs * option answer_ :=
  match op with
  | Operation_Getattr _ =>
      (p, Some (None, attr_payload c.(minor) poll_attr (Some (Duration_from_secs ((2 ^ 64 - 1) / 2)))))
  | Operation_Open op =>
      if is_read_only op.(Open_options)
      then (opened (bf_contains (OpenOptions_flags op.(Open_options)) O_NONBLOCK) p,
            Some (None, open_payload (FileID_from_raw p.(p_next_fh)) (Z.lor FOPEN_DIRECT_IO FOPEN_NONSEEKABLE)))
      else (p, Some (Some 13, []))
  | Operation_Read op => (p, Some (None, read_slice POLL_CONTENT op.(Read_offset) op.(Read_size)))
  | Operation_Poll op => (registered p op, Some (None, poll_payload (ready_events p op)))
  | Operation_Release op =>
      (set_handles (delete op.(Release_fh).(FileID_into_raw) p.(p_handles)) p, Some (None, []))
  | _ => (p, Some (Some 38, []))
  end.

(** A file is read and polled between its OPEN and its RELEASE, and a
non-blocking one is read once it is ready; the deadline can be represented. *)
Definition poll_dom (c : KernelConfig) (p : PollFs) (op : Operation) : Prop :=
  is_u 64 p.(p_next_fh) ∧
  match op with
  | Operation_Open _ => now + nanos wakeup_interval < 2 ^ 63 * NANOS_PER_SEC
  | Operation_Read op => ∃ h, p.(p_handles) !! op.(Read_fh).(FileID_into_raw) = Some h ∧
      (h.(fh_nonblock) = true → h.(fh_deadline) ≤ now)
  | Operation_Poll op => is_Some (p.(p_handles) !! op.(Poll_fh).(FileID_into_raw))
  | _ => True
  end.

(** The error with which the loop is left, without an answer: a READ or a POLL of a file
that is not open does [ok_or(Errno::INVAL)?], and a READ of a non-blocking file before
its deadline [Err(Errno::AGAIN)?]. *)
Definition poll_leaves (p : PollFs) (op : Operation) : option Errno :=
  match op with
  | Operation_Read op =>
      match p.(p_handles) !! op.(Read_fh).(FileID_into_raw) with
      | None => Some 22
      | Some h => if h.(fh_nonblock) && (now <? h.(fh_deadline)) then Some 11 else None
      end
  | Operation_Poll op =>
      match p.(p_handles) !! op.(Poll_fh).(FileID_into_raw) with None => Some 22 | Some _ => None end
  | _ => None
  end.

(** Identifiers are handed out in order: those in use are below the next one. *)
Record handles_ok (p : PollFs) : Prop := {
  ho_next : is_u 64 p.(p_next_fh);
  ho_below fh h : p.(p_handles) !! fh = Some h → fh < p.(p_next_fh);
}.

Definition poll_view (m : u32) (p : PollFs) (op : Operation) : reply_view :=
  match op with
  | Operation_Getattr _ => ViewAttr (Duration_from_secs (2 ^ 63 - 1)) (attr_sent m poll_attr)
  | Operation_Open op =>
      if is_read_only op.(Open_options) then ViewOpen (FileID_from_raw p.(p_next_fh)) 5 else ViewError 13
  | Operation_Read op =>
      ViewData (take (Z.to_nat op.(Read_size)) (drop (Z.to_nat op.(Read_offset)) POLL_CONTENT))
  | Operation_Poll op => ViewPoll (ready_events p op)
  | Operation_Release _ => ViewData []
  | _ => ViewError 38
  end.

End answer.

Section facts.
Context {W : Type} {OS : OsPipe W} {HOS : OsPipeSpec OS} {CN : SpliceRead W} {HCN : SpliceReadSpec CN}.
Context {IW : IoWrite W}.
Context `{BF : Bitflags} {HBF : BitflagsSpec} `{ZC : Zerocopy} {HZC : ZerocopySpec}.
Context `{RX : Rustix} {HRX : RustixSpec} `{L : Libc} {HL : LibcLinux L} `{PR : Profile}.
Context `{PX : Posix} {HPX : PosixSpec} (wakeup_interval : Duration) (now : Instant).

Lemma poll_attr_wf : attr_wf poll_attr.
Proof. by apply plain_attr_wf. Qed.

Lemma ready_events_width p op : flags_ok PollEvents_flags op.(Poll_events) → is_u 32 (ready_events now p op).
Proof.
  intros Hf. unfold ready_events. repeat case_match; [|done..]. apply is_u_land; [done|].
  rewrite HL. done.
Qed.

Lemma get_handle_run fh p h :
  p.(p_handles) !! fh.(FileID_into_raw) = Some h → get_handle fh p = (Ok h, p).
Proof. intros Hh. unfold get_handle, mbind, M_bind, get, lift. by rewrite Hh. Qed.

Lemma poll_decide_run op p h :
  p.(p_handles) !! op.(Poll_fh).(FileID_into_raw) = Some h →
  poll_decide now op p =
    (Ok (if fh_deadline h <=? now then (Z.land op.(Poll_events) POLLIN, None) else (0, op.(Poll_kh))), p).
Proof.
  intros Hh. unfold poll_decide. rewrite (M_bind_Ok _ _ _ _ _ (get_handle_run _ _ _ Hh)).
  by rewrite bf_intersection_spec, bf_empty_spec.
Qed.

Lemma poll_poll_run req op p rem s w w' :
  request_ok req → is_Some (p.(p_handles) !! op.(Poll_fh).(FileID_into_raw)) →
  flags_ok PollEvents_flags op.(Poll_events) →
  replied w (message_of req.(req_header).(raw) (None, poll_payload (ready_events now p op))) w' →
  poll_poll now req op (p, rem, (s, w)) = (Ok tt, (registered now p op, rem, (s, w'))).
Proof.
  intros Hq [h Hh] Hf Hw. pose proof (ready_events_width p op Hf) as Hr.
  pose proof (poll_decide_run op p h Hh) as Hdec.
  unfold poll_poll. erewrite M_bind_Ok by (unfold on_fs; by rewrite Hdec). cbv beta iota.
  unfold registered, ready_events in *. rewrite Hh in *.
  destruct (fh_deadline h <=? now).
  - erewrite M_bind_Ok by done. destruct (Poll_kh op); by apply poll_answers.
  - destruct (Poll_kh op) as [kh|]; (erewrite M_bind_Ok by done); by apply poll_answers.
Qed.

Lemma poll_read_run req op p rem s w w' h :
  request_ok req → is_u 64 op.(Read_offset) → is_u 32 op.(Read_size) →
  p.(p_handles) !! op.(Read_fh).(FileID_into_raw) = Some h →
  (h.(fh_nonblock) = true → h.(fh_deadline) ≤ now) →
  replied w (message_of req.(req_header).(raw)
    (None, read_slice POLL_CONTENT op.(Read_offset) op.(Read_size))) w' →
  poll_read now req op (p, rem, (s, w)) = (Ok tt, (p, rem, (s, w'))).
Proof.
  intros Hq Ho Hs Hh Hready Hw. unfold is_u in Ho, Hs. unfold poll_read.
  erewrite M_bind_Ok by (unfold on_fs; by rewrite (get_handle_run _ _ _ Hh)). cbv beta iota.
  assert (fh_nonblock h && (now <? fh_deadline h) = false) as ->.
  { destruct (fh_nonblock h); [|done]. cbn. apply Z.ltb_ge. by apply Hready. }
  erewrite M_bind_Ok by done. cbv beta iota zeta. rewrite read_slice_spec in Hw by lia.
  assert (∀ content, content = drop (Z.to_nat op.(Read_offset)) POLL_CONTENT →
    take (Z.to_nat (Z.min (Z.of_nat (length content)) (Read_size op))) content =
    take (Z.to_nat op.(Read_size)) (drop (Z.to_nat op.(Read_offset)) POLL_CONTENT)) as Heq.
  { intros content ->. destruct (decide (Read_size op ≤ Z.of_nat (length (drop (Z.to_nat op.(Read_offset)) POLL_CONTENT)))).
    - f_equal. lia.
    - rewrite !take_ge by lia. done. }
  rewrite Heq.
  - apply data_answers; [done| |done]. rewrite length_take, length_drop.
    change (length POLL_CONTENT) with 14%nat. lia.
  - destruct (Z.leb_spec (Read_offset op) (Z.of_nat (length POLL_CONTENT))); [done|]. by rewrite drop_ge by lia.
Qed.

Lemma poll_answers_ok : Answers (poll_handle wakeup_interval now) (poll_dom wakeup_interval now)
  (poll_answer wakeup_interval now).
Proof.
  intros req op p rem s w Hq Hop (Hfh & Hdom).
  pose proof Posix_values as Hp. injection Hp as Haccess _ _ Hnosys. destruct modes as [_ Hfm].
  destruct op; cbn [poll_handle poll_answer]; try (intros w' Hw; answer_error Hnosys).
  - intros w' Hw. unfold poll_getattr. rewrite Hfm, attr_with_ok. erewrite M_bind_Ok by done.
    by apply attr_answers; [|apply poll_attr_wf|..].
  - unfold poll_open, is_read_only. destruct (access_mode (Open_options op)) as [[]|];
      try (intros w' Hw; apply error_answers; by rewrite ?Haccess).
    intros w' Hw. rewrite (M_bind_Ok _ _ _ (opened wakeup_interval now
      (bf_contains (OpenOptions_flags op.(Open_options)) O_NONBLOCK) p, rem, (s, w))
      (FileID_from_raw p.(p_next_fh))).
    + rewrite bf_union_spec. by apply open_answers.
    + unfold on_fs, new_handle, mbind, M_bind, get, put, modify, lift, Instant_add.
      rewrite (proj2 (Z.ltb_lt _ _)) by done. done.
  - intros w' Hw. destruct Hdom as (h & Hh & Hready). destruct Hop as (_ & _ & Ho & Hs & _).
    by eapply poll_read_run.
  - intros w' Hw. unfold poll_release. erewrite M_bind_Ok by done. by apply empty_answers.
  - intros w' Hw. destruct Hop as (_ & _ & Hf & _). by apply poll_poll_run.
Qed.

Lemma poll_answer_view c p op :
  Operation_wf c op → poll_dom wakeup_interval now c p op →
  ∃ a, (poll_answer wakeup_interval now c p op).2 = Some a ∧
    view_of c.(minor) op a = poll_view now c.(minor) p op.
Proof.
  intros Hop (Hfh & Hdom). destruct op; try (by eexists); cbn [poll_answer poll_view snd].
  - eexists. split; [done|]. unfold view_of. cbn [fst snd].
    by destruct (read_attr_payload c.(minor) poll_attr (Some (Duration_from_secs ((2 ^ 64 - 1) / 2)))
      poll_attr_wf ltac:(done)) as [_ ->].
  - case_match; (eexists; split; [done|]); [|done]. unfold view_of, open_payload. cbn [fst snd].
    rewrite <- (app_nil_r (pod_encode _)), pod_decode_encode by by apply open_out_wf. done.
  - eexists. split; [done|]. destruct Hop as (_ & _ & Ho & Hs & _).
    unfold view_of. cbn [fst snd]. by rewrite read_slice_spec by (unfold is_u in *; lia).
  - eexists. split; [done|]. destruct Hop as (_ & _ & Hf & _). unfold view_of, poll_payload. cbn [fst snd].
    rewrite <- (app_nil_r (pod_encode _)), pod_decode_encode; [done|].
    goal_pod_wf. split_fields; [by apply ready_events_width|done..].
Qed.

Context (addr : RequestBuf → Z) {Ha : ∀ b, aligned_to (addr b) 8 = true}.

(** The handler leaves the loop as [poll_leaves] says, and touches nothing. *)
Lemma poll_leaves_run req op p rem s w e :
  poll_leaves now p op = Some e →
  poll_handle wakeup_interval now req op (p, rem, (s, w)) = (Err (AppErrno e), (p, rem, (s, w))).
Proof.
  pose proof Errno_values as Hv. injection Hv as _ _ _ Hagain _ Hinval _.
  destruct op; cbn [poll_leaves]; try done; cbn [poll_handle].
  all: unfold poll_read, poll_poll, poll_decide, get_handle, on_fs, mbind, M_bind, get, lift, ok_or.
  all: destruct (p_handles p !! _) as [h|]; [|intros [= <-]; by rewrite Hinval].
  - destruct (fh_nonblock h && _); [|done]. intros [= <-]. by rewrite Hagain.
  - done.
Qed.

Lemma poll_stays_dom c p op :
  handles_ok p → now + nanos wakeup_interval < 2 ^ 63 * NANOS_PER_SEC →
  poll_leaves now p op = None → poll_dom wakeup_interval now c p op.
Proof.
  intros [Hn _] Hnow Hl. split; [done|]. destruct op; try done; cbn [poll_leaves] in Hl.
  - destruct (p_handles p !! _) as [h|]; [|done]. exists h. split; [done|]. intros Hnb.
    rewrite Hnb in Hl. cbn in Hl. destruct (Z.ltb_spec now (fh_deadline h)); [done|lia].
  - by destruct (p_handles p !! _).
Qed.

Lemma set_kh_ok fh kh p : handles_ok p → handles_ok (set_kh fh kh p).
Proof.
  intros [Hn Hb]. split; [done|]. intros fh' h'. unfold set_kh. cbn [set_handles p_handles p_next_fh].
  rewrite lookup_alter. case_decide; [subst|apply Hb].
  destruct (p_handles p !! fh') as [h|] eqn:Hh; [|done]. intros _. by eapply Hb.
Qed.

(** The identifiers stay in order as long as the counter does not wrap. *)
Lemma poll_answer_ok c p op :
  handles_ok p → p.(p_next_fh) + 1 < 2 ^ 64 → handles_ok (poll_answer wakeup_interval now c p op).1.
Proof.
  intros Hp Hlt. pose proof Hp as [Hn Hb]. destruct op; cbn [poll_answer fst]; try done.
  - case_match; [|done]. cbn [fst]. unfold is_u in Hn.
    split; cbn [opened p_next_fh p_handles]; rewrite wrap_u_id by (unfold is_u; lia); [unfold is_u; lia|].
    intros fh h. rewrite lookup_insert_Some. intros [[<- _]|[_ Hh]]; [lia|]. apply Hb in Hh. lia.
  - split; [done|]. intros fh h. cbn. rewrite lookup_delete_Some. intros [_ Hh]. by eapply Hb.
  - unfold registered. repeat case_match; try done; by apply set_kh_ok.
Qed.

(** C25: [poll] is a file that becomes readable.  A READ or a POLL of a file that is not
open, and a READ of a non-blocking file before its deadline, are not answered: the loop
is left with [EINVAL] or [EAGAIN] and nothing has changed.  Every other request is
answered with one message and the daemon goes on: a read-only OPEN gets a handle no open
file has, whose deadline is the time of the OPEN plus the interval, and any other OPEN
[EACCES]; a POLL reports the requested input event from the deadline on and nothing
before, when it registers its poller; a READ gets a slice of the content; a RELEASE
removes the handle.  The handles stay distinct until the 64-bit counter wraps. *)
Theorem poll_serves s b w b1 w1 p r :
  buf_wf b → s.(s_exited) = false → request_wf s.(s_config) r → handles_ok p →
  now + nanos wakeup_interval < 2 ^ 63 * NANOS_PER_SEC →
  takes b w (kr_message s.(s_config) r) b1 w1 →
  let op := r.(kr_op) in
  let p' := (poll_answer wakeup_interval now s.(s_config) p op).1 in
  p.(p_handles) !! p.(p_next_fh) = None ∧
  (p.(p_next_fh) + 1 < 2 ^ 64 → handles_ok p') ∧
  match poll_leaves now p op with
  | Some e => serve_step addr (poll_handle wakeup_interval now) (p, s, b, w) =
      (Err (AppErrno e), (p, s, b1, w1))
  | None => ∃ a, view_of s.(s_config).(minor) op a = poll_view now s.(s_config).(minor) p op ∧
      (∀ w2, replied w1 (message_of r.(kr_header) a) w2 →
       serve_step addr (poll_handle wakeup_interval now) (p, s, b, w) = (Ok true, (p', s, b1, w2)))
  end.
Proof.
  intros Hb Hs Hr Hp Hnow Ht op p'. split; [|split; [by intros; apply poll_answer_ok|]].
  { destruct (p_handles p !! p_next_fh p) as [h|] eqn:Hh; [|done].
    apply (ho_below _ Hp) in Hh. lia. }
  destruct (poll_leaves now p op) as [e|] eqn:Hl.
  - destruct (takes_decoded addr s b w r b1 w1 Ha Hb Hs Hr Ht) as (_ & Hrecv & rem & Hback & Hdec).
    unfold serve_step. rewrite Hrecv, Hdec. fold op. rewrite (poll_leaves_run _ _ _ _ _ _ _ Hl).
    by rewrite Hback.
  - apply (poll_stays_dom s.(s_config)) in Hl as Hd; [|done..].
    destruct (poll_answer_view s.(s_config) p op) as (a & Hans & Hv); [apply Hr|done|].
    exists a. split; [done|]. intros w2 Hw.
    pose proof (serve_step_request addr (Ha := Ha) _ _ _ (HA := poll_answers_ok) p s b w r b1 w1 w2 Hb Hs Hr Hd Ht)
      as Hstep. subst p'. fold op in Hstep.
    destruct (poll_answer _ _ _ _ _) as [p' a']. cbn [fst snd] in *. subst a'. by apply Hstep.
Qed.

(** Reading a non-blocking file before its deadline ends the daemon: the
[EAGAIN] is returned from its loop and the request is never answered. *)
Theorem poll_nonblock_read_ends s b w b1 w1 p r op h fuel :
  buf_wf b → s.(s_exited) = false → request_wf s.(s_config) r →
  r.(kr_op) = Operation_Read op → p.(p_handles) !! op.(Read_fh).(FileID_into_raw) = Some h →
  h.(fh_nonblock) = true → now < h.(fh_deadline) →
  takes b w (kr_message s.(s_config) r) b1 w1 →
  serve addr (poll_handle wakeup_interval now) (S fuel) (p, s, b, w) = (Err (AppErrno 11), (p, s, b1, w1)).
Proof.
  intros Hb Hs Hr Hop Hh Hnb Hnow Ht.
  destruct (takes_decoded addr s b w r b1 w1 Ha Hb Hs Hr Ht) as (_ & Hrecv & rem & Hback & Hdec).
  pose proof Errno_values as Hv. injection Hv as _ _ _ Hagain _ _ _.
  assert (poll_read now {| req_config := s.(s_config); req_header := {| raw := r.(kr_header) |} |} op
    (p, rem, (s, w1)) = (Err (AppErrno 11), (p, rem, (s, w1)))) as Hread.
  { unfold poll_read. erewrite M_bind_Ok by (unfold on_fs; by rewrite (get_handle_run _ _ _ Hh)).
    rewrite Hnb, (proj2 (Z.ltb_lt _ _)) by done. cbn [andb]. unfold mbind, M_bind, lift. by rewrite Hagain. }
  cbn [serve]. unfold mbind at 1, M_bind at 1, serve_step. rewrite Hrecv, Hdec, Hop. cbn [poll_handle].
  rewrite Hread. by rewrite Hback.
Qed.

Lemma set_kh_lookup p fh kh h :
  p.(p_handles) !! fh = Some h → h.(fh_kh) = None →
  (set_kh fh kh p).(p_handles) !! fh =
    Some {| fh_nonblock := h.(fh_nonblock); fh_kh := Some kh; fh_deadline := h.(fh_deadline) |}.
Proof.
  intros Hh Hn. unfold set_kh. cbn [set_handles p_handles].
  rewrite lookup_alter_eq. setoid_rewrite Hh. cbn. by rewrite Hn.
Qed.

(** Whether a poller is woken up depends on the order of the threads.  A POLL
before the deadline reports no event and is to register its poller.  If the
reading task comes after the registration it sends one wake-up with the
poller's identifier.  If the task comes between the decision and the
registration it sends nothing; the poller is registered afterwards, with no
task left to wake it up. *)
Theorem poll_wakeup_order p op h kh s w :
  let fh := op.(Poll_fh).(FileID_into_raw) in
  p.(p_handles) !! fh = Some h → h.(fh_kh) = None → now < h.(fh_deadline) →
  op.(Poll_kh) = Some kh → is_u 64 kh.(PollWakeupID_into_raw) →
  poll_decide now op p = (Ok (0, Some kh), p) ∧
  (∃ body p1 p2, poll_register op (Some kh) p = (Ok tt, p1) ∧
     (pod_decode (T:=fuse_notify_poll_wakeup_out) body).(notify_poll_wakeup_out_kh) = kh.(PollWakeupID_into_raw) ∧
     ∀ w', replied w (notify_message FUSE_NOTIFY_POLL body) w' →
       reading_task fh (p1, (s, w)) = (Ok tt, (p2, (s, w')))) ∧
  (∃ p1 p2 h', reading_task fh (p, (s, w)) = (Ok tt, (p1, (s, w))) ∧
     poll_register op (Some kh) p1 = (Ok tt, p2) ∧
     p2.(p_handles) !! fh = Some h' ∧ h'.(fh_kh) = Some kh ∧ fh ∉ p2.(p_tasks)).
Proof.
  intros fh Hh Hnone Hnow Hkh Hu. split_and!.
  - rewrite (poll_decide_run _ _ _ Hh), (proj2 (Z.leb_gt _ _)) by done. by rewrite Hkh.
  - set (out := {| notify_poll_wakeup_out_kh := kh.(PollWakeupID_into_raw) |}).
    assert (pod_wf out) as Hout by (unfold out; goal_pod_wf; by split_fields).
    eexists (pod_encode out), _, _. split; [done|]. split.
    + rewrite <- (app_nil_r (pod_encode _)), pod_decode_encode by done. done.
    + intros w' Hw. unfold reading_task. fold fh. rewrite (set_kh_lookup _ _ _ _ Hh Hnone). cbn [fh_kh].
      unfold poll_wakeup. fold out.
      by rewrite (sends_replied _ _ _ s w w' (pod_sends _ out Hout ltac:(done)) Hw).
  - exists (finish_task fh p), (set_kh fh kh (finish_task fh p)). eexists.
    split; [unfold reading_task; by rewrite Hh, Hnone|]. split; [done|].
    split; [by apply set_kh_lookup|]. split; [done|]. cbn. by intros [? _]%list_elem_of_filter.
Qed.

End facts.

(** ** Instances *)

Section instances.
Import Ref.

Definition handle_example (nonblock : bool) : FileHandle :=
  {| fh_nonblock := nonblock; fh_kh := None; fh_deadline := 5000000000 |}.

Definition poll_example (nonblock : bool) : PollFs :=
  {| p_handles := {[ 0 := handle_example nonblock ]}; p_next_fh := 1; p_tasks := [0] |}.

Definition poll_op_example : Poll := {|
  Poll_ino := NodeID_ROOT; Poll_fh := FileID_from_raw 0; Poll_events := 1;
  Poll_kh := Some (PollWakeupID_from_raw 77) |}.

Definition poll_request : kernel_request := request_of FUSE_POLL 1 6 (Operation_Poll poll_op_example).

Definition read_request_example : kernel_request :=
  request_of FUSE_READ 1 6
    (Operation_Read {| Read_ino := NodeID_ROOT; Read_fh := FileID_from_raw 0; Read_offset := 0;
       Read_size := 64; Read_options := OpenOptions_from_raw 0; Read_lock_owner := None |}).

Lemma poll_example_ok nonblock : handles_ok (poll_example nonblock).
Proof. split; [by split|]. intros fh h. cbn. by intros [<- _]%lookup_singleton_Some. Qed.

(** A POLL after the deadline, and a READ before it. *)
Lemma poll_serves_witness :
  (∃ a w2, view_of 44 (Operation_Poll poll_op_example) a = ViewPoll 1 ∧
    serve_step (λ _, 4096) (poll_handle DEFAULT_WAKEUP_INTERVAL 6000000000)
      (poll_example true, session_example, vec_example, requests_world [poll_request]) =
    (Ok true, (poll_example true, session_example, after vec_example (kr_message config_example poll_request), w2))) ∧
  serve_step (λ _, 4096) (poll_handle DEFAULT_WAKEUP_INTERVAL 1000000000)
    (poll_example true, session_example, vec_example, requests_world [read_request_example]) =
  (Err (AppErrno 11), (poll_example true, session_example,
     after vec_example (kr_message config_example read_request_example), idle_world)).
Proof.
  split.
  - destruct (poll_serves DEFAULT_WAKEUP_INTERVAL 6000000000 (λ _, 4096) (Ha := λ _, eq_refl) session_example
      vec_example (requests_world [poll_request]) (after vec_example (kr_message config_example poll_request))
      idle_world (poll_example true) poll_request vec_example_wf eq_refl) as (_ & _ & a & Hv & Hrun).
    + closed_fact.
    + apply poll_example_ok.
    + vm_compute. reflexivity.
    + split; [eexists; split; vm_compute; [reflexivity|congruence]|vm_compute; reflexivity].
    + eexists a, _. split; [exact Hv|]. apply Hrun. apply (sim_replied [] []).
  - eapply (poll_serves DEFAULT_WAKEUP_INTERVAL 1000000000 (λ _, 4096) (Ha := λ _, eq_refl) session_example
      vec_example (requests_world [read_request_example])
      (after vec_example (kr_message config_example read_request_example))
      idle_world (poll_example true) read_request_example vec_example_wf eq_refl);
      [closed_fact|apply poll_example_ok|vm_compute; reflexivity|].
    split; [eexists; split; vm_compute; [reflexivity|congruence]|vm_compute; reflexivity].
Defined.

Lemma poll_nonblock_read_ends_witness :
  serve (λ _, 4096) (poll_handle DEFAULT_WAKEUP_INTERVAL 1000000000) 2
    (poll_example true, session_example, vec_example, requests_world [read_request_example]) =
  (Err (AppErrno 11), (poll_example true, session_example,
     after vec_example (kr_message config_example read_request_example), idle_world)).
Proof.
  eapply (poll_nonblock_read_ends DEFAULT_WAKEUP_INTERVAL 1000000000 (λ _, 4096) (Ha := λ _, eq_refl)
    session_example vec_example (requests_world [read_request_example])
    (after vec_example (kr_message config_example read_request_example)) idle_world (poll_example true)
    read_request_example _ (handle_example true) 1 vec_example_wf eq_refl);
    [closed_fact|reflexivity|reflexivity|reflexivity|reflexivity|].
  split; [eexists; split; vm_compute; [reflexivity|congruence]|vm_compute; reflexivity].
Defined.

Lemma poll_wakeup_order_witness :
  ∃ p1 p2, reading_task 0 (poll_example true, (session_example, idle_world)) =
      (Ok tt, (p1, (session_example, idle_world))) ∧
    poll_register poll_op_example (Some (PollWakeupID_from_raw 77)) p1 = (Ok tt, p2) ∧ p2.(p_tasks) = [].
Proof.
  destruct (poll_wakeup_order 1000000000 (poll_example true) poll_op_example (handle_example true)
    (PollWakeupID_from_raw 77) session_example idle_world) as (_ & _ & p1 & p2 & h' & Ht & Hr & _);
    [reflexivity|reflexivity|reflexivity|reflexivity|by split|].
  exists p1, p2. split; [exact Ht|]. split; [exact Hr|].
  injection Ht as <-. by injection Hr as <-.
Defined.

End instances.
