(* ===== verification/PollThreads.v ===== *)
(** * The threads of [src/examples/poll.rs]

[main] of [poll]: connecting, the closure that answers requests, the reading tasks
it spawns, one for each file it opens, and the thread that waits for a signal. *)

From stdpp Require Import gmap.
From S2P Require Import Prelude Layout Kernel Crates Types Bytes Init Msg Header Decoder.
From S2P Require Import Operation Op OpWire OpSpec OpTotal Reply Dirent Io Device Sim Buf Session.
From S2P Require Import MountOpts Mount Connect Server Threads Poll.
Local Open Scope Z_scope.

(** Errors of [main] before the scope. *)
Inductive poll_start_error :=
  | PollNotAFile
  | PollNotConnected (e : io_error).

Section threads.
Context {W : Type} `{OS : OsPipe W} `{CN : SpliceRead W} `{IW : IoWrite W} `{MO : MountOs W}.
Context `{BF : Bitflags} `{ZC : Zerocopy} `{RX : Rustix} `{L : Libc} `{MF : MountFlagsApi}.
Context `{PR : Profile} `{PX : Posix} (wakeup_interval : Duration).

(** The task of the file [fh] has slept and runs to its end, once; its result is
lost, a panic is not. *)
Definition poll_run (fh : u64) (poisoned : bool) (st : bool * PollFs * (Session * W))
    : option (bool * bool * PollFs * (Session * W)) :=
  let '(panicked, p, sw) := st in
  if decide (fh ∈ p.(p_tasks)) then
    let '(r, (p, sw)) := reading_task fh (p, sw) in Some (panicked || is_panic r, poisoned, p, sw)
  else None.

(** The state of the spawned threads is whether one has panicked; no arm keeps the
lock of the table while something can fail. *)
Definition poll_threads : threads PollFs bool Instant u64 W := {|
  th_handle now := poll_handle wakeup_interval now;
  th_locks _ := false;
  th_held _ := false;
  th_run := poll_run;
  th_ended _ p := bool_decide (p.(p_tasks) = []);
  th_panicked panicked := panicked;
|}.

Definition poll_scope (s : Session) (mnt : Mount) (w : W) : scope PollFs bool W := {|
  sc_main := Starting; sc_signal := Some mnt; sc_others := false; sc_poisoned := false;
  sc_fs := {| p_handles := ∅; p_next_fh := 0; p_tasks := [] |}; sc_session := s; sc_world := w |}.
End threads.

(** [main] up to the scope, its arguments parsed. *)
Definition poll_start {W} `{OS : OsPipe W} `{OD : OsDevice W} `{MO : MountOs W} `{BF : Bitflags}
    `{ZC : Zerocopy} `{RX : Rustix} `{L : Libc} `{MF : MountFlagsApi} `{PR : Profile}
    (fuel : nat) (addr : Z) (interval : option Duration) (mountpoint : Path)
    : M W poll_start_error (option (Device * Duration * scope PollFs bool W)) :=
  let wakeup_interval := default DEFAULT_WAKEUP_INTERVAL interval in
  mode ← attempt (fs_stat mountpoint);
  if negb match mode with inl mode => Z.land mode S_IFMT =? S_IFREG | inr _ => false end
  then lift (Err PollNotAFile)
  else λ w,
    match connect fuel addr mountpoint MountOptions_new KernelConfig_new w with
    | (Ok (Some (session, device, mnt)), w) =>
        (Ok (Some (device, wakeup_interval, poll_scope session mnt w)), w)
    | (Ok None, w) => (Ok None, w)
    | (Err e, w) => (Err (PollNotConnected e), w)
    | (Panic why, w) => (Panic why, w)
    | (UB, w) => (UB, w)
    end.

(** Writing to the device ends with a value or an error. *)
Class IoWriteEnds {W} (IW : IoWrite W) : Prop :=
  write_ends cs w : match write_vectored cs w with (Ok _, _) | (Err _, _) => True | _ => False end.

Section facts.
Context {W : Type} {OS : OsPipe W} {HOS : OsPipeSpec OS} {CN : SpliceRead W} {HCN : SpliceReadSpec CN}.
Context {IW : IoWrite W} {HIW : IoWriteEnds IW} `{MO : MountOs W}.
Context `{BF : Bitflags} {HBF : BitflagsSpec} `{ZC : Zerocopy} {HZC : ZerocopySpec}.
Context `{RX : Rustix} {HRX : RustixSpec} `{L : Libc} {HL : LibcLinux L} `{MF : MountFlagsApi}.
Context `{PR : Profile} `{PX : Posix} {HPX : PosixSpec} (wakeup_interval : Duration) (addr : RequestBuf → Z).

Notation T := (poll_threads wakeup_interval).

Lemma sends_ends code body (m : M (Session * W) io_error unit) s w :
  sends code body m → is_panic (m (s, w)).1 = false.
Proof.
  intros (h & cs & _ & _ & _ & Hsend). rewrite Hsend. unfold or_handle_reply_error, write_all.
  pose proof (write_ends cs w) as Hw. unfold handle_reply_error.
  destruct (write_vectored cs w) as [[n|e|why|] w']; try done.
  - destruct (_ <? _); [|done]. set (e := Custom _ _).
    by destruct (is_errno e Errno_NODEV), (is_errno e Errno_NOENT).
  - by destruct (is_errno e Errno_NODEV), (is_errno e Errno_NOENT).
Qed.

(** The identifiers of pollers are 64 bits wide. *)
Definition pollers_ok (p : PollFs) : Prop :=
  ∀ fh h kh, p.(p_handles) !! fh = Some h → h.(fh_kh) = Some kh → is_u 64 kh.(PollWakeupID_into_raw).

(** ** What the closure may change

The operations that are decoded are well formed (but for times the kernel has not
normalised and for the owners of locks), so the identifiers the closure stores are. *)

Definition decoded_ok (c : KernelConfig) (op : Operation) : Prop :=
  match op with
  | Operation_Setattr _ | Operation_Getlk _ | Operation_Setlk _ | Operation_Flock _ => True
  | _ => Operation_wf c op
  end.

(** The opcodes whose arguments [decode_ends] asks something of. *)
Definition unchecked (op : fuse_opcode) : bool :=
  match op with FUSE_SETATTR | FUSE_GETLK | FUSE_SETLK | FUSE_SETLKW => true | _ => false end.

Lemma decode_unchecked c h opc d op d' :
  unchecked opc = true → decode_opcode c h opc d = (Ok op, d') → decoded_ok c op.
Proof.
  intros Hu Hdec. destruct opc; try done; cbn [decode_opcode] in Hdec.
  all: unfold decode_setattr, decode_getlk, decode_setlk in Hdec.
  all: apply M_bind_inv in Hdec as (? & ? & _ & Hdec); cbv zeta in Hdec; try case_match.
  all: repeat (apply M_bind_inv in Hdec as (? & ? & _ & Hdec); cbv zeta in Hdec).
  all: by injection Hdec as <- _.
Qed.

Lemma decoded_wf at_ s b req op rem :
  Session_decode at_ s b = Ok (req, op, rem) → pod_wf b.(rb_header).(raw) → aligned_to at_ 8 = true →
  InHeader_opcode b.(rb_header) ≠ Ok FUSE_INIT → InHeader_opcode b.(rb_header) ≠ Ok FUSE_DESTROY →
  put_back b rem = b ∧ decoded_ok s.(s_config) op.
Proof.
  intros Hd Hw Ha Hi Hx. rewrite InHeader_opcode_Ok in Hi, Hx.
  assert (∃ arg, put_back b rem = b ∧
    Operation_decode s.(s_config) b.(rb_header) {| s_addr := at_; s_bytes := arg |} = Ok op) as (arg & Hb & Hop).
  { unfold Session_decode, to_parts, mbind, outcome_mbind, outcome_bind in Hd. unfold put_back.
    destruct b as [h [pb|vb]]; cbn in *.
    - destruct (Operation_decode _ _ _) eqn:Ho; [|done..]. simplify_eq. exists (pb_arg pb). by destruct pb.
    - destruct (_ <? _); [done|]. destruct (Operation_decode _ _ _) eqn:Ho; [|done..]. simplify_eq. by eexists. }
  split; [done|]. unfold Operation_decode in Hop.
  destruct (InHeader_opcode b.(rb_header)) as [opc|?|?|] eqn:Hopc.
  2-4: by simplify_eq.
  destruct (unchecked opc) eqn:Hs.
  - destruct (decode_opcode _ _ _ _) as [o d] eqn:Hdec. cbn in Hop. subst o.
    by eapply decode_unchecked.
  - destruct (decode_ends s.(s_config) b.(rb_header) Hw {| s_addr := at_; s_bytes := arg |})
      as [(o & Ho & Hwf & _)|(e & He & _)]; [done..| | |].
    + rewrite Hopc. intros op' [= <-]. by destruct opc.
    + unfold Operation_decode in Ho. rewrite Hopc, Hop in Ho. injection Ho as <-. by destruct op.
    + unfold Operation_decode in He. rewrite Hopc, Hop in He. done.
Qed.

Definition poll_change (st st' : PollFs * RemainingData * (Session * W)) : Prop :=
  st'.1.2 = st.1.2 ∧ (pollers_ok st.1.1 → pollers_ok st'.1.1) ∧ same_counter st.2.1 st'.2.1.

#[local] Instance poll_change_order : PreOrder poll_change.
Proof.
  split; [by intros st; split_and!|]. intros st1 st2 st3 (H1 & H2 & H3) (H4 & H5 & H6).
  split_and!; [congruence|by auto|by etrans].
Qed.

Lemma poll_reply_change {E} (B : Bytes E) req error (x : E) :
  stays poll_change (on_session (@reply_raw _ _ Request_ReplySender E B req error x)).
Proof.
  intros [[p rem] [s w]]. unfold on_session. cbn [reply_raw Request_ReplySender].
  pose proof (handled_counter (send_msg (Reply (InHeader_unique (req_header req)) error) B x) s w) as Hc.
  destruct (or_handle_reply_error _ _) as [r [s' w']]. by split_and!.
Qed.

Lemma on_fs_change {A} (m : M PollFs app_error A) :
  (∀ p, pollers_ok p → pollers_ok (m p).2) → stays poll_change (on_fs (W := W) m).
Proof.
  intros Hm [[p rem] sw]. pose proof (Hm p). unfold on_fs. destruct (m p) as [r p']. by split_and!.
Qed.

Lemma get_handle_same fh p : (get_handle fh p).2 = p.
Proof. unfold get_handle, mbind, M_bind, get, lift. by destruct (ok_or _ _). Qed.

Lemma set_handles_pollers p m :
  (∀ fh h kh, m !! fh = Some h → h.(fh_kh) = Some kh → is_u 64 kh.(PollWakeupID_into_raw)) →
  pollers_ok (set_handles m p).
Proof. done. Qed.

Lemma new_handle_pollers now nonblock p :
  pollers_ok p → pollers_ok (new_handle wakeup_interval now nonblock p).2.
Proof.
  intros Hp. unfold new_handle, mbind, M_bind, get, put, modify, lift.
  destruct (Instant_add _ _) as [d|e|why|]; cbn; [|done..]. intros fh h kh. cbn.
  rewrite lookup_insert_Some. intros [[_ <-]|[_ Hh]]; [done|by eapply Hp].
Qed.

Lemma set_kh_pollers fh kh p :
  is_u 64 kh.(PollWakeupID_into_raw) → pollers_ok p → pollers_ok (set_kh fh kh p).
Proof.
  intros Hk Hp fh' h kh' Hh Hkh. unfold set_kh in Hh. cbn in Hh. apply lookup_alter_Some in Hh.
  destruct Hh as [(-> & h0 & Hh0 & ->)|[_ Hh]]; [|by eapply Hp].
  destruct (fh_kh h0) eqn:Hk0; [by eapply Hp|]. cbn in Hkh. by simplify_eq.
Qed.

Lemma poll_poll_change now req op :
  opt_ok (λ kh, is_u 64 kh.(PollWakeupID_into_raw)) op.(Poll_kh) → stays poll_change (poll_poll now req op).
Proof.
  intros Hk. assert (∀ revents kh, kh = None ∨ kh = op.(Poll_kh) → stays poll_change
    (_ ← on_fs (W := W) (poll_register op kh);
     on_session (reply_poll (RS := Request_ReplySender) req revents))) as Hrest.
  { intros revents kh Hkh. stays_call; [|intros _; apply poll_reply_change].
    apply on_fs_change. intros p. destruct kh as [kh|]; [|done]. destruct Hkh as [|Hkh]; [done|].
    rewrite <- Hkh in Hk. by apply set_kh_pollers. }
  intros [[p rem] sw]. unfold poll_poll, mbind at 1, M_bind at 1, on_fs at 1.
  destruct (p_handles p !! op.(Poll_fh).(FileID_into_raw)) as [h|] eqn:Hh.
  - rewrite (poll_decide_run now op p h Hh).
    destruct (fh_deadline h <=? now).
    + by apply (Hrest (Z.land op.(Poll_events) POLLIN) None (or_introl eq_refl) (p, rem, sw)).
    + by apply (Hrest 0 op.(Poll_kh) (or_intror eq_refl) (p, rem, sw)).
  - unfold poll_decide, get_handle, mbind, M_bind, get, lift. by rewrite Hh.
Qed.

Lemma poll_handle_change now c req op :
  decoded_ok c op →
  stays poll_change (poll_handle wakeup_interval now req op).
Proof.
  intros Hop. destruct op; cbn [poll_handle]; try apply poll_reply_change.
  - unfold poll_getattr. stays_call. intros a.
    unfold reply_attr. case_match; apply poll_reply_change.
  - unfold poll_open. destruct (access_mode (Open_options op)) as [[]|]; try apply poll_reply_change.
    stays_call; [apply on_fs_change; intros p; apply new_handle_pollers|].
    intros fh. apply poll_reply_change.
  - unfold poll_read. stays_call; [apply on_fs_change; intros p; by rewrite get_handle_same|].
    intros h. stays_call; [|intros _; apply poll_reply_change].
    case_match; stays_done.
  - unfold poll_release. stays_call; [|intros _; apply poll_reply_change].
    apply on_fs_change. intros p Hp fh h kh. cbn. rewrite lookup_delete_Some. intros [_ Hh]. by eapply Hp.
  - destruct Hop as (_ & _ & _ & Hk). by apply poll_poll_change.
Qed.

(** A task ends, and then is no longer among the tasks. *)
Lemma reading_task_ends fh p s w :
  pollers_ok p →
  ∃ r s' w', reading_task fh (p, (s, w)) = (r, (finish_task fh p, (s', w'))) ∧ is_panic r = false ∧
    same_counter s s'.
Proof.
  intros Hp. unfold reading_task. destruct (p_handles p !! fh) as [h|] eqn:Hh; [|by do 3 eexists].
  destruct (fh_kh h) as [kh|] eqn:Hk; [|by do 3 eexists].
  set (out := {| notify_poll_wakeup_out_kh := kh.(PollWakeupID_into_raw) |}).
  assert (pod_wf out) as Hout by (unfold out; goal_pod_wf; split_fields; first [done | by apply (Hp fh h kh)]).
  pose proof (sends_ends _ _ _ s w (pod_sends FUSE_NOTIFY_POLL out Hout ltac:(done))) as He.
  pose proof (handled_counter (send_msg (Notify FUSE_NOTIFY_POLL) POD_Bytes (mkPOD out)) s w) as Hc.
  unfold poll_wakeup. fold out. unfold notifier_send in *.
  destruct (or_handle_reply_error _ (s, w)) as [r [s' w']]. by do 3 eexists.
Qed.

(** ** The end of the scope *)

(** The closure has returned [r], and the signal thread has ended or is told to. *)
Record poll_ending (r : outcome app_error unit) (st : scope PollFs bool W) : Prop := {
  pe_left : st.(sc_main) = Left r;
  pe_signal : st.(sc_signal) ≠ None → ∃ u, r = Ok u;
  pe_panic : st.(sc_others) = false;
  pe_pollers : pollers_ok st.(sc_fs);
}.

(** The tasks that are left, and the signal thread. *)
Definition threads_left (st : scope PollFs bool W) : nat :=
  length st.(sc_fs).(p_tasks) + match st.(sc_signal) with Some _ => 1 | None => 0 end.

Lemma finish_task_left fh p : fh ∈ p.(p_tasks) → (length (finish_task fh p).(p_tasks) < length p.(p_tasks))%nat.
Proof. intros Hin. apply (length_filter_lt _ _ fh); [done|tauto]. Qed.

Lemma poll_ending_step r ev st st' :
  poll_ending r st → scope_step addr T ev st = Some st' →
  poll_ending r st' ∧ (threads_left st' < threads_left st)%nat.
Proof.
  intros [Hl Hsig Hpan Hp] Hst.
  apply (scope_step_cases addr T (λ st', poll_ending r st' ∧ (threads_left st' < threads_left st)%nat) ev st st' Hst).
  - intros c _ Hs. unfold main_step in Hs. by rewrite Hl in Hs.
  - intros m w Hm _. split; [by split|]. unfold threads_left. rewrite Hm. cbn. lia.
  - intros fh _ Hs. unfold thread_step in Hs. cbn [th_run poll_threads] in Hs. unfold poll_run in Hs.
    destruct (decide (fh ∈ p_tasks (sc_fs st))) as [Hin|]; [|done].
    destruct (reading_task_ends fh (sc_fs st) (sc_session st) (sc_world st) Hp) as (o & s' & w' & Hr & Ho & _).
    rewrite Hr, Hpan, Ho in Hs. cbn in Hs. injection Hs as <-. split; [by split|].
    unfold threads_left. cbn [sc_fs sc_signal]. pose proof (finish_task_left fh _ Hin). lia.
Qed.

(** ** From the start *)

Context (c : KernelConfig) (config_ok : config_wf c) (write_ok : MIN_MAX_WRITE ≤ c.(max_write)).
Context (aligned : ∀ b, aligned_to (addr b) 8 = true).

Definition main_ok (p : main_point) : Prop :=
  match p with
  | Starting | Left _ => True
  | Receiving b => buf_wf b
  | Handling b => buf_wf b ∧ InHeader_opcode b.(rb_header) ≠ Ok FUSE_INIT ∧
      InHeader_opcode b.(rb_header) ≠ Ok FUSE_DESTROY
  end.

Record poll_inv (st : scope PollFs bool W) : Prop := {
  pi_main : main_ok st.(sc_main);
  pi_config : st.(sc_session).(s_config) = c;
  pi_panic : st.(sc_others) = false;
  pi_pollers : pollers_ok st.(sc_fs);
}.

Lemma poll_inv_main now st st' : poll_inv st → main_step addr T now st = Some st' → poll_inv st'.
Proof.
  intros [Hm Hc Hpan Hp]. unfold main_step. destruct (sc_main st) as [|b|b|r] eqn:Hpt; [| | |done].
  - destruct (new_request_buffer _ _) as [r w] eqn:Hr. intros [= <-]. split; [|done..]. cbn.
    apply new_request_buffer_made in Hr; [|by rewrite Hc..]. destruct r; [apply Hr|done..].
  - destruct (recv_request _) as [r [[s b'] w]] eqn:Hr. intros [= <-].
    pose proof (recv_request_counter (sc_session st) b (sc_world st)) as [Hc' _]. rewrite Hr in Hc'. cbn in Hc'.
    apply recv_request_inv in Hr as (Hb & Hr); [|done]. split; [|cbn; congruence|done..]. cbn.
    destruct Hr as [(_ & -> & _)|(_ & [(-> & _ & _ & Hi & Hd)|[[-> _]|(e & -> & _)]])]; by cbn.
  - destruct Hm as (Hb & Hi & Hd). unfold handle_step.
    destruct (Session_decode _ _ _) as [[[req op] rem]|e|why|] eqn:Hdec;
      [|by intros [= <-]; split..].
    apply decoded_wf in Hdec as [Hback Hop]; [|apply Hb|done..]. cbn [poll_threads th_locks andb th_handle].
    pose proof (poll_handle_change now _ req op Hop (sc_fs st, rem, (sc_session st, sc_world st)))
      as (Hrem & Hp' & [Hc' _]).
    destruct (poll_handle _ _ _ _ _) as [r [[p' rem'] [s' w']]]. cbn in Hrem, Hp', Hc'. subst rem'.
    intros [= <-]. split; cbn; [|congruence|done|by apply Hp'].
    destruct r; cbn; [by rewrite Hback|done..].
Qed.

Lemma poll_inv_step ev st st' : poll_inv st → scope_step addr T ev st = Some st' → poll_inv st'.
Proof.
  intros Hi Hst. apply (scope_step_cases addr T poll_inv ev st st' Hst).
  - intros now _. by apply poll_inv_main.
  - intros m w _ _. by destruct Hi.
  - intros fh _ Hs. destruct Hi as [Hm Hc Hpan Hp].
    unfold thread_step in Hs. cbn [th_run poll_threads] in Hs. unfold poll_run in Hs.
    destruct (decide (fh ∈ p_tasks (sc_fs st))) as [Hin|]; [|done].
    destruct (reading_task_ends fh (sc_fs st) (sc_session st) (sc_world st) Hp) as (o & s' & w' & Hr & Ho & [Hc' _]).
    rewrite Hr, Hpan, Ho in Hs. cbn in Hs. injection Hs as <-. split; cbn; [done|congruence|done|done].
Qed.

(** C17: [poll] ends.  Start its threads and let them run in any order, with any
requests.  When the loop has returned without an error, or has returned and a
signal has come, every schedule of the threads that are left is finite: there are
at most as many steps as reading tasks, and one for the signal thread; as long as
the scope has not returned some thread can step; and what it returns is what the
loop returned, since no task panics. *)
Theorem poll_returns mnt w0 evs st r evs' st' :
  scope_run addr T evs (poll_scope (Session_new c) mnt w0) = Some st →
  st.(sc_main) = Left r → (st.(sc_signal) ≠ None → ∃ u, r = Ok u) →
  scope_run addr T evs' st = Some st' →
  (length evs' ≤ length st.(sc_fs).(p_tasks) + 1)%nat ∧
  (scope_result T st' = Some r ∨
   scope_result T st' = None ∧ ∃ ev, is_Some (scope_step addr T ev st')).
Proof.
  intros Hstart Hl Hsig Hrun.
  apply (scope_invariant addr T (λ _, True) poll_inv) in Hstart as [_ _ Hpan Hp];
    [|by intros ????; apply poll_inv_step|by apply Forall_true|by split; cbn].
  apply (scope_bounded addr T (poll_ending r) threads_left) in Hrun as [Hn [Hl' Hsig' Hpan' Hp']];
    [|by intros ???; apply poll_ending_step|by split].
  split; [unfold threads_left in Hn; destruct (sc_signal st); lia|].
  unfold scope_result. rewrite Hl'. destruct (sc_signal st') as [m|] eqn:Hm.
  - right. split; [done|]. exists EvSignal. cbn [scope_step]. unfold signal_step. by rewrite Hm.
  - cbn [th_ended th_panicked poll_threads]. rewrite Hpan'. destruct (p_tasks (sc_fs st')) as [|fh l] eqn:Ht.
    + left. by destruct r.
    + right. split; [done|]. exists (EvThread fh). cbn [scope_step]. unfold thread_step.
      cbn [th_run poll_threads]. unfold poll_run. rewrite Ht, decide_True by by left.
      destruct (reading_task_ends fh (sc_fs st') (sc_session st') (sc_world st') Hp') as (o & s' & w' & -> & _ & _).
      by eexists.
Qed.
End facts.

(** ** Instances *)

Section instances.
Import Ref.

#[local] Instance poll_mount : MountOs World := sim_mount 0x81a4.

#[local] Instance sim_write_ends : IoWriteEnds sim_write.
Proof. intros cs w. by cbn. Qed.

(** A file is opened and a poller waits for it; then the connection is gone. *)
Definition poll_requests : list kernel_request :=
  [request_of FUSE_OPEN 1 5 (Operation_Open {| Open_ino := NodeID_ROOT; Open_options := OpenOptions_from_raw 0;
     Open_flags := 0 |});
   poll_request].

Definition poll_begin : scope PollFs bool World :=
  poll_scope (Session_new config_example)
    {| m_kind := KindPriv; m_mountpoint := []; m_mountopts := MountOptions_new |} (requests_world poll_requests).

Definition poll_served : list (event Instant u64) := replicate 6 (EvMain 1).
Definition poll_schedule : list (event Instant u64) := [EvThread 0; EvClosed].

(** The task wakes up its poller, the signal thread ends, and the scope returns. *)
Lemma poll_returns_witness :
  match scope_run (λ _, 4096) (poll_threads DEFAULT_WAKEUP_INTERVAL) (poll_served ++ poll_schedule) poll_begin with
  | Some st => scope_result (poll_threads DEFAULT_WAKEUP_INTERVAL) st = Some (Ok tt) ∧
      length st.(sc_world).(outgoing) = 3%nat
  | None => False
  end.
Proof.
  rewrite scope_run_app. destruct (scope_run _ _ poll_served poll_begin) as [st|] eqn:Hstart;
    [|vm_compute in Hstart; discriminate]. cbn [mbind option_bind].
  destruct (scope_run _ _ poll_schedule st) as [st'|] eqn:Hrun;
    [|vm_compute in Hstart; injection Hstart as <-; vm_compute in Hrun; discriminate].
  destruct (poll_returns DEFAULT_WAKEUP_INTERVAL (λ _, 4096) config_example config_example_wf
    (λ H, ltac:(discriminate H)) (λ _, eq_refl)
    {| m_kind := KindPriv; m_mountpoint := []; m_mountopts := MountOptions_new |} (requests_world poll_requests)
    poll_served st (Ok tt) poll_schedule st') as [_ [Hres|[Hres _]]];
    [exact Hstart|vm_compute in Hstart; by injection Hstart as <-|by exists tt|exact Hrun|split; [exact Hres|]|].
  all: vm_compute in Hstart; injection Hstart as <-; vm_compute in Hrun; injection Hrun as <-.
  - reflexivity.
  - vm_compute in Hres. discriminate.
Defined.

Lemma poll_starts :
  match poll_start 1 4096 None []
    {| incoming := [early_message (InitRequest (header_example 26 104) accepted_init [])]; outgoing := [] |} with
  | (Ok (Some (_, interval, st)), _) => interval = DEFAULT_WAKEUP_INTERVAL ∧ st.(sc_main) = Starting
  | _ => False
  end.
Proof. by vm_compute. Qed.
End instances.
