(* ===== verification/MemFs.v ===== *)
(** * The example [src/examples_disabled/memfs.rs]

A file system in memory: a table of inodes with their counts, directories,
files, symbolic links and extended attributes.

The program is written against an earlier interface of the library, whose
[Request::reply] took a value per kind of reply: that value is the result of an
operation here.  The concurrent table is a map, and each operation, which holds
the entries it changes until its end, is one step on it.  The table is locked by
shards: an operation that holds a reference to an entry and asks for another entry of
the same shard waits for itself.  It never returns, which is a panic "deadlock" here. *)

From stdpp Require Import gmap.
From S2P Require Import Prelude Layout Kernel Crates Types Operation.
Local Open Scope Z_scope.

#[export] Instance NodeID_countable : Countable NodeID.
Proof. apply (inj_countable' NodeID_into_raw NodeID_from_raw_unchecked). by intros []. Defined.

#[export] Instance byte_countable : Countable byte.
Proof.
  apply (inj_countable Byte.to_N Byte.of_N). intros b. apply Byte.of_to_N.
Defined.

(** ** Data *)

Record MemDirectory := { children : gmap OsStr NodeID; parent : option NodeID }.

Inductive INodeKind :=
  | RegularFile (contents : list byte)
  | DirectoryNode (dir : MemDirectory)
  | SymlinkNode (link : OsStr).

Record INode := {
  attr : FileAttr;
  xattrs : gmap OsStr (list byte);
  refcount : u64;
  links : u64;
  kind : INodeKind;
}.

Record MemDirEntry := { md_name : OsStr; md_ino : NodeID; md_typ : option FileType; md_off : u64 }.

Record DirHandle := { dh_entries : list MemDirEntry; dh_offset : usize }.

Record MemFS := {
  inodes : gmap NodeID INode;
  next_ino : u64;
  dir_handles : gmap Z DirHandle;
  mem_ttl : Duration;
}.

(** What an operation hands to [Request::reply]. *)
Inductive mem_reply :=
  | EntryOut (ino : NodeID) (attr : FileAttr) (attr_valid entry_valid : option Duration)
  | AttrOut (attr : FileAttr) (valid : option Duration)
  | OpenOut (fh : FileID)
  | ReaddirOut (entries : list MemDirEntry)
  | WriteOut (size : u32)
  | XattrOut (size : u32)
  | StatfsOut (stat : Statfs)
  | Raw (data : list byte)
  | Empty.

Inductive fs_error := FsErrno (e : Errno) | FsIo (e : io_error).

(** ** What the program uses of other crates *)

(** Error codes and flags of [rustix]; the order in which a hash map is iterated;
the key [Slab::insert] takes; how many entries fit a directory reply of a given
size, which the earlier interface decided; and whether two entries of a [DashMap] are
behind the same lock, so that a call for the second deadlocks while a reference to the
first is held. *)
Class MemApi := {
  MErrno_NOENT : Errno; MErrno_NOTDIR : Errno; MErrno_EXIST : Errno; MErrno_NOTEMPTY : Errno;
  MErrno_INVAL : Errno; MErrno_NOSYS : Errno; MErrno_NOTSUP : Errno; MErrno_NODATA : Errno;
  MErrno_RANGE : Errno;
  XattrFlags_CREATE : u32; XattrFlags_REPLACE : u32;
  hash_order {A} (m : gmap OsStr A) : list (OsStr * A);
  slab_vacant_key (m : gmap Z DirHandle) : usize;
  readdir_full (size : usize) (pushed : list MemDirEntry) (e : MemDirEntry) : bool;
  same_shard (held wanted : NodeID) : bool;
}.

Class MemApiSpec `{MemApi} : Prop := {
  mem_errnos : (MErrno_NOENT, MErrno_NOTDIR, MErrno_EXIST, MErrno_NOTEMPTY, MErrno_INVAL,
                MErrno_NOSYS, MErrno_NOTSUP, MErrno_NODATA, MErrno_RANGE)
               = (2, 20, 17, 39, 22, 38, 95, 61, 34);
  xattr_flags : (XattrFlags_CREATE, XattrFlags_REPLACE) = (1, 2);
  hash_order_perm {A} (m : gmap OsStr A) : hash_order m ≡ₚ map_to_list m;
  slab_vacant_fresh m : m !! slab_vacant_key m = None;
  same_shard_refl k : same_shard k k = true;
}.

(** The bytes of directory entries as [fuse_dirent]: 24 and the name, padded to a multiple
of 8.  The instances of [readdir_full] count with it. *)
Definition dirent_bytes (es : list MemDirEntry) : Z :=
  foldr (λ e n, (24 + Z.of_nat (length e.(md_name)) + 7) / 8 * 8 + n) 0 es.

(** ** Changing one field *)

Definition set_attr (a : FileAttr) (i : INode) : INode :=
  {| attr := a; xattrs := i.(xattrs); refcount := i.(refcount); links := i.(links); kind := i.(kind) |}.
Definition set_xattrs (x : gmap OsStr (list byte)) (i : INode) : INode :=
  {| attr := i.(attr); xattrs := x; refcount := i.(refcount); links := i.(links); kind := i.(kind) |}.
Definition set_refcount (n : u64) (i : INode) : INode :=
  {| attr := i.(attr); xattrs := i.(xattrs); refcount := n; links := i.(links); kind := i.(kind) |}.
Definition set_links (n : u64) (i : INode) : INode :=
  {| attr := i.(attr); xattrs := i.(xattrs); refcount := i.(refcount); links := n; kind := i.(kind) |}.
Definition set_kind (k : INodeKind) (i : INode) : INode :=
  {| attr := i.(attr); xattrs := i.(xattrs); refcount := i.(refcount); links := i.(links); kind := k |}.

Record attr_change := {
  ac_size : option u64; ac_mode : option FileMode; ac_nlink : option u32; ac_uid : option Uid;
  ac_gid : option Gid; ac_atime : option Duration; ac_mtime : option Duration; ac_ctime : option Duration;
}.
Definition no_change : attr_change :=
  {| ac_size := None; ac_mode := None; ac_nlink := None; ac_uid := None; ac_gid := None;
     ac_atime := None; ac_mtime := None; ac_ctime := None |}.
Definition change_attr (c : attr_change) (a : FileAttr) : FileAttr := {|
  FileAttr_ino := a.(FileAttr_ino);
  FileAttr_size := default a.(FileAttr_size) c.(ac_size);
  FileAttr_mode := default a.(FileAttr_mode) c.(ac_mode);
  FileAttr_nlink := default a.(FileAttr_nlink) c.(ac_nlink);
  FileAttr_uid := default a.(FileAttr_uid) c.(ac_uid);
  FileAttr_gid := default a.(FileAttr_gid) c.(ac_gid);
  FileAttr_rdev := a.(FileAttr_rdev);
  FileAttr_blksize := a.(FileAttr_blksize);
  FileAttr_blocks := a.(FileAttr_blocks);
  FileAttr_atime := default a.(FileAttr_atime) c.(ac_atime);
  FileAttr_mtime := default a.(FileAttr_mtime) c.(ac_mtime);
  FileAttr_ctime := default a.(FileAttr_ctime) c.(ac_ctime) |}.
Definition with_nlink (n : u32) : attr_change :=
  {| ac_size := None; ac_mode := None; ac_nlink := Some n; ac_uid := None; ac_gid := None;
     ac_atime := None; ac_mtime := None; ac_ctime := None |}.
Definition with_fsize (n : u64) : attr_change :=
  {| ac_size := Some n; ac_mode := None; ac_nlink := None; ac_uid := None; ac_gid := None;
     ac_atime := None; ac_mtime := None; ac_ctime := None |}.

Definition set_inodes (m : gmap NodeID INode) (s : MemFS) : MemFS :=
  {| inodes := m; next_ino := s.(next_ino); dir_handles := s.(dir_handles); mem_ttl := s.(mem_ttl) |}.
Definition set_next_ino (n : u64) (s : MemFS) : MemFS :=
  {| inodes := s.(inodes); next_ino := n; dir_handles := s.(dir_handles); mem_ttl := s.(mem_ttl) |}.
Definition set_dir_handles (h : gmap Z DirHandle) (s : MemFS) : MemFS :=
  {| inodes := s.(inodes); next_ino := s.(next_ino); dir_handles := h; mem_ttl := s.(mem_ttl) |}.

Definition as_file (i : INode) : option (list byte) :=
  match i.(kind) with RegularFile contents => Some contents | _ => None end.
Definition as_dir (i : INode) : option MemDirectory :=
  match i.(kind) with DirectoryNode dir => Some dir | _ => None end.
Definition as_symlink (i : INode) : option OsStr :=
  match i.(kind) with SymlinkNode link => Some link | _ => None end.

Definition set_children (c : gmap OsStr NodeID) (d : MemDirectory) : MemDirectory :=
  {| children := c; parent := d.(parent) |}.

(** ** Operations *)

Notation op_result := (M MemFS fs_error mem_reply).

(** An exclusive reference to an inode, written back. *)
Definition put_inode (ino : NodeID) (i : INode) : M MemFS fs_error unit :=
  modify (λ s, set_inodes (<[ino := i]> s.(inodes)) s).

Section memfs.
Context `{MA : MemApi} `{L : Libc} `{BF : Bitflags} `{PR : Profile}.

Definition errno {A} (e : Errno) : M MemFS fs_error A := lift (Err (FsErrno e)).

(** The lock of the shard of an entry; [held] are the entries whose references the
operation holds. *)
Definition acquire (held : list NodeID) (ino : NodeID) : M MemFS fs_error unit :=
  if existsb (λ k, same_shard k ino) held then lift (Panic "deadlock") else mret tt.

Definition get_inode (held : list NodeID) (ino : NodeID) : M MemFS fs_error INode :=
  _ ← acquire held ino;
  s ← get; lift (ok_or (s.(inodes) !! ino) (FsErrno MErrno_NOENT)).

Definition get_dir (i : INode) : M MemFS fs_error MemDirectory :=
  lift (ok_or (as_dir i) (FsErrno MErrno_NOTDIR)).

(** [expect] on an entry of the table. *)
Definition expect_inode (held : list NodeID) (ino : NodeID) (why : string) : M MemFS fs_error INode :=
  _ ← acquire held ino;
  s ← get; lift match s.(inodes) !! ino with Some i => Ok i | None => Panic why end.

(** [FileAttr { ino, nlink, mode, ..FileAttr::new() }] *)
Definition attr_of (ino : NodeID) (nlink : u32) (mode : FileMode) : outcome fs_error FileAttr :=
  base ← FileAttr_new;
  Ok {|
    FileAttr_ino := ino;
    FileAttr_size := base.(FileAttr_size);
    FileAttr_mode := mode;
    FileAttr_nlink := nlink;
    FileAttr_uid := base.(FileAttr_uid);
    FileAttr_gid := base.(FileAttr_gid);
    FileAttr_rdev := base.(FileAttr_rdev);
    FileAttr_blksize := base.(FileAttr_blksize);
    FileAttr_blocks := base.(FileAttr_blocks);
    FileAttr_atime := base.(FileAttr_atime);
    FileAttr_mtime := base.(FileAttr_mtime);
    FileAttr_ctime := base.(FileAttr_ctime) |}.

(** The key of a vacant entry of the table. *)
Definition vacant_entry (held : list NodeID) : M MemFS fs_error (option NodeID) :=
  s ← get;
  _ ← put (set_next_ino (wrap_u 64 (s.(next_ino) + 1)) s);
  ino ← lift match NodeID_from_raw s.(next_ino) with Some ino => Ok ino | None => Panic "invalid nodeid" end;
  _ ← acquire held ino;
  s ← get;
  mret match s.(inodes) !! ino with Some _ => None | None => Some ino end.

Definition MemFS_new : outcome fs_error MemFS :=
  let s := {| inodes := ∅; next_ino := 1; dir_handles := ∅;
              mem_ttl := {| as_secs := 60 * 60 * 24; subsec_nanos := 0 |} |} in
  let '(r, s) := vacant_entry [] s in
  key ← r;
  ino ← match key with Some ino => Ok ino | None => Panic "called `Option::unwrap()` on a `None` value" end;
  a ← attr_of NodeID_ROOT 2
        (FileMode_new Directory
           (bf_union (bf_union FilePermissions_READ FilePermissions_EXEC) S_IWUSR));
  Ok (set_inodes (<[ino := {|
        attr := a;
        xattrs := ∅;
        refcount := (2 ^ 64 - 1) / 2;
        links := (2 ^ 64 - 1) / 2;
        kind := DirectoryNode {| children := ∅; parent := None |} |}]> s.(inodes)) s).

Definition make_node (p : NodeID) (name : OsStr) (f : NodeID → outcome fs_error INode) : op_result :=
  pnode ← get_inode [] p;
  dir ← get_dir pnode;
  _ ← (match dir.(children) !! name with Some _ => errno MErrno_EXIST | None => mret tt end);
  key ← vacant_entry [p];
  ino ← lift match key with Some ino => Ok ino | None => Panic "inode number conflict" end;
  inode ← lift (f ino);
  _ ← put_inode p (set_kind (DirectoryNode (set_children (<[name := ino]> dir.(children)) dir)) pnode);
  _ ← put_inode ino inode;
  s ← get;
  mret (EntryOut ino inode.(attr) None (Some s.(mem_ttl))).

Definition saturating_dec (n : Z) : Z := Z.max 0 (n - 1).

Definition unlink_node (p : NodeID) (name : OsStr) : M MemFS fs_error unit :=
  pnode ← get_inode [] p;
  dir ← get_dir pnode;
  ino ← lift (ok_or (dir.(children) !! name) (FsErrno MErrno_NOENT));
  inode ← expect_inode [p] ino "internal error: entered unreachable code";
  _ ← (match as_dir inode with
       | Some d => if decide (d.(children) = ∅) then mret tt else errno MErrno_NOTEMPTY
       | None => mret tt
       end);
  _ ← put_inode p (set_kind (DirectoryNode (set_children (delete name dir.(children)) dir)) pnode);
  put_inode ino
    (set_links (saturating_dec inode.(links))
      (set_attr (change_attr (with_nlink (saturating_dec inode.(attr).(FileAttr_nlink))) inode.(attr)) inode)).

Definition mem_lookup (op : Lookup) : op_result :=
  pnode ← get_inode [] op.(Lookup_parent);
  dir ← get_dir pnode;
  child_ino ← lift (ok_or (dir.(children) !! op.(Lookup_name)) (FsErrno MErrno_NOENT));
  child ← expect_inode [op.(Lookup_parent)] child_ino "should not be panic here";
  n ← lift (arith_u 64 (child.(refcount) + 1));
  _ ← put_inode child_ino (set_refcount n child);
  s ← get;
  mret (EntryOut child_ino child.(attr) (Some s.(mem_ttl)) (Some s.(mem_ttl))).

Definition mem_forget_one (ino : NodeID) (nlookup : u64) (s : MemFS) : MemFS :=
  match s.(inodes) !! ino with
  | None => s
  | Some inode =>
      let inode := set_refcount (Z.max 0 (inode.(refcount) - nlookup)) inode in
      if (inode.(refcount) =? 0) && (inode.(links) =? 0)
      then set_inodes (delete ino s.(inodes)) s
      else set_inodes (<[ino := inode]> s.(inodes)) s
  end.

Fixpoint mem_forget (forgets : list Forget) : M MemFS fs_error unit :=
  match forgets with
  | [] => mret tt
  | forget :: forgets =>
      ino ← lift (Forget_ino forget);
      _ ← modify (mem_forget_one ino (Forget_nlookup forget));
      mem_forget forgets
  end.

Definition mem_getattr (op : Getattr) : op_result :=
  inode ← get_inode [] op.(Getattr_ino);
  s ← get;
  mret (AttrOut inode.(attr) (Some s.(mem_ttl))).

(** [now] is the time since the epoch. *)
Definition to_duration (now : Duration) (t : SetAttrTime) : Duration :=
  match t with Timespec ts => ts | Now => now end.

Definition mem_setattr (now : Duration) (op : Setattr) : op_result :=
  inode ← get_inode [] op.(Setattr_ino);
  let a := change_attr {|
    ac_mode := op.(Setattr_mode);
    ac_uid := op.(Setattr_uid);
    ac_gid := op.(Setattr_gid);
    ac_size := op.(Setattr_size);
    ac_nlink := None;
    ac_atime := to_duration now <$> op.(Setattr_atime);
    ac_mtime := to_duration now <$> op.(Setattr_mtime);
    ac_ctime := op.(Setattr_ctime) |} inode.(attr) in
  _ ← put_inode op.(Setattr_ino) (set_attr a inode);
  s ← get;
  mret (AttrOut a (Some s.(mem_ttl))).

Definition mem_readlink (op : Readlink) : op_result :=
  inode ← get_inode [] op.(Readlink_ino);
  link ← lift (ok_or (as_symlink inode) (FsErrno MErrno_INVAL));
  mret (Raw link).

(** ** Directories *)

(** The entries of the children are numbered from 3 on. *)
Fixpoint number_entries (off : u64) (l : list (OsStr * NodeID)) : list MemDirEntry :=
  match l with
  | [] => []
  | (name, ino) :: l =>
      {| md_name := name; md_ino := ino; md_typ := None; md_off := off |} :: number_entries (off + 1) l
  end.

Definition collect_entries (d : MemDirectory) (a : FileAttr) : list MemDirEntry :=
  {| md_name := [Byte.x2e]; md_ino := a.(FileAttr_ino); md_typ := Some Directory; md_off := 1 |} ::
  {| md_name := [Byte.x2e; Byte.x2e]; md_ino := default a.(FileAttr_ino) d.(parent);
     md_typ := Some Directory; md_off := 2 |} ::
  number_entries 3 (hash_order d.(children)).

Definition mem_opendir (op : Opendir) : op_result :=
  inode ← get_inode [] op.(Opendir_ino);
  if inode.(attr).(FileAttr_nlink) =? 0 then errno MErrno_NOENT
  else
    dir ← get_dir inode;
    s ← get;
    let key := slab_vacant_key s.(dir_handles) in
    _ ← put (set_dir_handles
          (<[key := {| dh_entries := collect_entries dir inode.(attr); dh_offset := 0 |}]> s.(dir_handles)) s);
    mret (OpenOut (FileID_from_raw key)).

(** Entries are pushed until the reply is full. *)
Fixpoint push_mem_entries (size : usize) (pushed es : list MemDirEntry) : list MemDirEntry :=
  match es with
  | [] => pushed
  | e :: es => if readdir_full size pushed e then pushed else push_mem_entries size (pushed ++ [e]) es
  end.

Definition mem_readdir (op : Readdir) : op_result :=
  match op.(Readdir_mode) with
  | ReaddirMode_Plus => errno MErrno_NOSYS
  | ReaddirMode_Normal =>
      s ← get;
      let key := op.(Readdir_fh).(FileID_into_raw) in
      dir ← lift (ok_or (s.(dir_handles) !! key) (FsErrno MErrno_INVAL));
      let buf := push_mem_entries op.(Readdir_size) []
                   (drop (Z.to_nat op.(Readdir_offset)) dir.(dh_entries)) in
      _ ← put (set_dir_handles
            (<[key := {| dh_entries := dir.(dh_entries);
                         dh_offset := wrap_u 64 (dir.(dh_offset) + Z.of_nat (length buf)) |}]>
               s.(dir_handles)) s);
      mret (ReaddirOut buf)
  end.

(** [Slab::remove] panics on a key that is not in use. *)
Definition mem_releasedir (op : Releasedir) : op_result :=
  s ← get;
  let key := op.(Releasedir_fh).(FileID_into_raw) in
  match s.(dir_handles) !! key with
  | None => lift (Panic "invalid key")
  | Some _ => _ ← put (set_dir_handles (delete key s.(dir_handles)) s); mret Empty
  end.

(** ** Creating nodes *)

Definition new_inode (a : FileAttr) (k : INodeKind) : INode :=
  {| attr := a; xattrs := ∅; refcount := 1; links := 1; kind := k |}.

Definition mem_mknod (op : Mknod) : op_result :=
  match FileMode_file_type op.(Mknod_mode) with
  | Some Regular =>
      make_node op.(Mknod_parent) op.(Mknod_name)
        (λ ino, a ← attr_of ino 1 op.(Mknod_mode); Ok (new_inode a (RegularFile [])))
  | _ => errno MErrno_NOTSUP
  end.

Definition mem_mkdir (op : Mkdir) : op_result :=
  make_node op.(Mkdir_parent) op.(Mkdir_name)
    (λ ino, a ← attr_of ino 2 (FileMode_new Directory op.(Mkdir_permissions));
            Ok (new_inode a (DirectoryNode {| children := ∅; parent := Some op.(Mkdir_parent) |}))).

Definition mem_symlink (op : Symlink) : op_result :=
  make_node op.(Symlink_parent) op.(Symlink_name)
    (λ ino, a ← attr_of ino 1 (FileMode_new SymbolicLink
                  (bf_union (bf_union FilePermissions_READ FilePermissions_WRITE) FilePermissions_EXEC));
            Ok (new_inode a (SymlinkNode op.(Symlink_link)))).

Definition mem_link (op : Link) : op_result :=
  inode ← get_inode [] op.(Link_ino);
  _ ← (if decide (op.(Link_ino) = op.(Link_newparent))
       then lift (Panic "assertion failed: op.ino != op.newparent") else mret tt);
  pnode ← get_inode [op.(Link_ino)] op.(Link_newparent);
  dir ← get_dir pnode;
  match dir.(children) !! op.(Link_newname) with
  | Some _ => errno MErrno_EXIST
  | None =>
      _ ← put_inode op.(Link_newparent)
            (set_kind (DirectoryNode (set_children (<[op.(Link_newname) := op.(Link_ino)]> dir.(children)) dir))
               pnode);
      nlinks ← lift (arith_u 64 (inode.(links) + 1));
      nlink ← lift (arith_u 32 (inode.(attr).(FileAttr_nlink) + 1));
      nref ← lift (arith_u 64 (inode.(refcount) + 1));
      let inode := set_refcount nref (set_links nlinks
                     (set_attr (change_attr (with_nlink nlink) inode.(attr)) inode)) in
      _ ← put_inode op.(Link_ino) inode;
      s ← get;
      mret (EntryOut op.(Link_ino) inode.(attr) None (Some s.(mem_ttl)))
  end.

(** ** Removing and renaming *)

Definition mem_unlink (op : Unlink) : op_result :=
  _ ← unlink_node op.(Unlink_parent) op.(Unlink_name); mret Empty.

Definition mem_rmdir (op : Rmdir) : op_result :=
  _ ← unlink_node op.(Rmdir_parent) op.(Rmdir_name); mret Empty.

Definition mem_rename (op : Rename) : op_result :=
  if negb (op.(Rename_flags) =? 0) then errno MErrno_INVAL else
  pnode ← get_inode [] op.(Rename_parent);
  dir ← get_dir pnode;
  if decide (op.(Rename_newparent) = op.(Rename_parent)) then
    ino ← lift (ok_or (dir.(children) !! op.(Rename_name)) (FsErrno MErrno_NOENT));
    match dir.(children) !! op.(Rename_newname) with
    | Some _ => errno MErrno_EXIST
    | None =>
        let c := <[op.(Rename_newname) := ino]> dir.(children) in
        _ ← put_inode op.(Rename_parent)
              (set_kind (DirectoryNode (set_children (delete op.(Rename_name) c) dir)) pnode);
        mret Empty
    end
  else
    npnode ← get_inode [op.(Rename_parent)] op.(Rename_newparent);
    ndir ← get_dir npnode;
    match ndir.(children) !! op.(Rename_newname) with
    | Some _ => errno MErrno_EXIST
    | None =>
        ino ← lift (ok_or (dir.(children) !! op.(Rename_name)) (FsErrno MErrno_NOENT));
        _ ← put_inode op.(Rename_parent)
              (set_kind (DirectoryNode (set_children (delete op.(Rename_name) dir.(children)) dir)) pnode);
        _ ← put_inode op.(Rename_newparent)
              (set_kind (DirectoryNode (set_children (<[op.(Rename_newname) := ino]> ndir.(children)) ndir)) npnode);
        mret Empty
    end.

(** ** Extended attributes *)

Definition mem_getxattr (op : Getxattr) : op_result :=
  inode ← get_inode [] op.(Getxattr_ino);
  value ← lift (ok_or (inode.(xattrs) !! op.(Getxattr_name)) (FsErrno MErrno_NODATA));
  let len := wrap_u 32 (Z.of_nat (length value)) in
  if op.(Getxattr_size) =? 0 then mret (XattrOut len)
  else if op.(Getxattr_size) <? len then errno MErrno_RANGE
  else mret (Raw value).

Definition mem_setxattr (op : Setxattr) : op_result :=
  let create := bf_contains op.(Setxattr_flags) XattrFlags_CREATE in
  let replace := bf_contains op.(Setxattr_flags) XattrFlags_REPLACE in
  if create && replace then errno MErrno_INVAL else
  inode ← get_inode [] op.(Setxattr_ino);
  match inode.(xattrs) !! op.(Setxattr_name) with
  | Some _ =>
      if create then errno MErrno_EXIST else
      _ ← put_inode op.(Setxattr_ino)
            (set_xattrs (<[op.(Setxattr_name) := op.(Setxattr_value)]> inode.(xattrs)) inode);
      mret Empty
  | None =>
      if replace then errno MErrno_NODATA else
      _ ← put_inode op.(Setxattr_ino)
            (set_xattrs (<[op.(Setxattr_name) := if create then [] else op.(Setxattr_value)]> inode.(xattrs))
               inode);
      mret Empty
  end.

(** The names, each followed by a NUL; the lengths are summed in 32 bits. *)
Definition xattr_names (i : INode) : list OsStr := (hash_order i.(xattrs)).*1.
Definition names_bytes (names : list OsStr) : list byte := names ≫= λ n, n ++ [Byte.x00].

Fixpoint names_len {E} (acc : u32) (names : list OsStr) : outcome E u32 :=
  match names with
  | [] => Ok acc
  | name :: names =>
      n ← arith_u 32 (wrap_u 32 (Z.of_nat (length name)) + 1);
      acc ← arith_u 32 (acc + n);
      names_len acc names
  end.

Definition mem_listxattr (op : Listxattr) : op_result :=
  inode ← get_inode [] op.(Listxattr_ino);
  total_len ← lift (names_len 0 (xattr_names inode));
  if op.(Listxattr_size) =? 0 then mret (XattrOut total_len)
  else if op.(Listxattr_size) <? total_len then errno MErrno_RANGE
  else mret (Raw (names_bytes (xattr_names inode))).

Definition mem_removexattr (op : Removexattr) : op_result :=
  inode ← get_inode [] op.(Removexattr_ino);
  match inode.(xattrs) !! op.(Removexattr_name) with
  | Some _ =>
      _ ← put_inode op.(Removexattr_ino) (set_xattrs (delete op.(Removexattr_name) inode.(xattrs)) inode);
      mret Empty
  | None => errno MErrno_NODATA
  end.

(** ** Content *)

Definition mem_read (op : Read) : op_result :=
  inode ← get_inode [] op.(Read_ino);
  content ← lift (ok_or (as_file inode) (FsErrno MErrno_INVAL));
  let content := if op.(Read_offset) <=? Z.of_nat (length content)
                 then drop (Z.to_nat op.(Read_offset)) content else [] in
  mret (Raw (take (Z.to_nat (Z.min (Z.of_nat (length content)) op.(Read_size))) content)).

(** [Vec::resize] with zeroes; a vector has at most [isize::MAX] bytes. *)
Definition isize_max : Z := 2 ^ 63 - 1.
Definition resize_zeroes (c : list byte) (n : Z) : list byte :=
  take (Z.to_nat n) c ++ replicate (Z.to_nat n - length c) Byte.x00.

(** Bytes written into a vector at an offset. *)
Definition write_at (c : list byte) (offset : Z) (data : list byte) : list byte :=
  take (Z.to_nat offset) c ++ data ++ drop (Z.to_nat offset + length data) c.

(** [data] is what the reader of the request yields; a reader that ends early
leaves what it gave in the file. *)
Definition mem_write (op : Write) (data : list byte) : op_result :=
  inode ← get_inode [] op.(Write_ino);
  content ← lift (ok_or (as_file inode) (FsErrno MErrno_INVAL));
  end_ ← lift (arith_u 64 (op.(Write_offset) + op.(Write_size)));
  let len := Z.max (Z.of_nat (length content)) end_ in
  _ ← (if isize_max <? len then lift (Panic "capacity overflow") else mret tt);
  let content := resize_zeroes content len in
  _ ← put_inode op.(Write_ino) (set_kind (RegularFile content) inode);
  _ ← (if end_ <? op.(Write_offset) then lift (Panic "slice index starts after its end") else mret tt);
  let data := take (Z.to_nat op.(Write_size)) data in
  let inode := set_kind (RegularFile (write_at content op.(Write_offset) data)) inode in
  _ ← put_inode op.(Write_ino) inode;
  if Z.of_nat (length data) <? op.(Write_size)
  then lift (Err (FsIo (Custom UnexpectedEof "failed to fill whole buffer")))
  else
    _ ← put_inode op.(Write_ino) (set_attr (change_attr (with_fsize end_) inode.(attr)) inode);
    mret (WriteOut op.(Write_size)).

(** ** The operations of the [Filesystem] implementation *)

Inductive mem_op :=
  | MemLookup (op : Lookup) | MemForget (forgets : list Forget) | MemGetattr (op : Getattr)
  | MemSetattr (op : Setattr) | MemReadlink (op : Readlink) | MemOpendir (op : Opendir)
  | MemReaddir (op : Readdir) | MemReleasedir (op : Releasedir) | MemMknod (op : Mknod)
  | MemMkdir (op : Mkdir) | MemSymlink (op : Symlink) | MemLink (op : Link) | MemUnlink (op : Unlink)
  | MemRmdir (op : Rmdir) | MemRename (op : Rename) | MemGetxattr (op : Getxattr)
  | MemSetxattr (op : Setxattr) | MemListxattr (op : Listxattr) | MemRemovexattr (op : Removexattr)
  | MemRead (op : Read) | MemWrite (op : Write) (data : list byte).

Definition replies (m : op_result) : M MemFS fs_error (option mem_reply) := r ← m; mret (Some r).

(** A call of the file system; FORGET has no reply. *)
Definition mem_apply (now : Duration) (op : mem_op) : M MemFS fs_error (option mem_reply) :=
  match op with
  | MemLookup op => replies (mem_lookup op)
  | MemForget forgets => _ ← mem_forget forgets; mret None
  | MemGetattr op => replies (mem_getattr op)
  | MemSetattr op => replies (mem_setattr now op)
  | MemReadlink op => replies (mem_readlink op)
  | MemOpendir op => replies (mem_opendir op)
  | MemReaddir op => replies (mem_readdir op)
  | MemReleasedir op => replies (mem_releasedir op)
  | MemMknod op => replies (mem_mknod op)
  | MemMkdir op => replies (mem_mkdir op)
  | MemSymlink op => replies (mem_symlink op)
  | MemLink op => replies (mem_link op)
  | MemUnlink op => replies (mem_unlink op)
  | MemRmdir op => replies (mem_rmdir op)
  | MemRename op => replies (mem_rename op)
  | MemGetxattr op => replies (mem_getxattr op)
  | MemSetxattr op => replies (mem_setxattr op)
  | MemListxattr op => replies (mem_listxattr op)
  | MemRemovexattr op => replies (mem_removexattr op)
  | MemRead op => replies (mem_read op)
  | MemWrite op data => replies (mem_write op data)
  end.

End memfs.
