(* ===== verification/MemFsSpec.v ===== *)
(** * The file system in memory: its invariant and its behaviour

The table of inodes is a tree with counts: every entry of a directory leads to
an inode of the table, and no inode has more entries than links.  All
operations keep it so, and none of them panics. *)

From stdpp Require Import gmap.
From S2P Require Import Prelude Layout Kernel Crates Types Operation MemFs.
Local Open Scope Z_scope.

(** ** Sums over a map *)

Section map_sum.
Context {K A : Type} `{Countable K} (f : A → Z).

Definition map_sum (m : gmap K A) : Z := map_fold (λ _ v acc, f v + acc) 0 m.

Lemma map_sum_empty : map_sum ∅ = 0.
Proof. apply map_fold_empty. Qed.

Lemma map_sum_insert m k v : m !! k = None → map_sum (<[k := v]> m) = f v + map_sum m.
Proof. intros Hk. unfold map_sum. rewrite (map_fold_insert_L _ _ k v); [done|intros; lia|done]. Qed.

Lemma map_sum_delete m k v : m !! k = Some v → map_sum m = f v + map_sum (delete k m).
Proof.
  intros Hk. rewrite <- (map_sum_insert (delete k m) k v) by apply lookup_delete_eq.
  by rewrite insert_delete_id.
Qed.

Lemma map_sum_update m k v v' :
  m !! k = Some v → map_sum (<[k := v']> m) = map_sum m - f v + f v'.
Proof.
  intros Hk. rewrite <- insert_delete_eq, map_sum_insert by apply lookup_delete_eq.
  rewrite (map_sum_delete m k v Hk). lia.
Qed.

Lemma map_sum_nonneg m : (∀ v, 0 ≤ f v) → 0 ≤ map_sum m.
Proof.
  intros Hf. induction m as [|k v m Hk IH] using map_ind; [by rewrite map_sum_empty|].
  rewrite map_sum_insert by done. specialize (Hf v). lia.
Qed.

Lemma map_sum_zero m : (∀ k v, m !! k = Some v → f v = 0) → map_sum m = 0.
Proof.
  induction m as [|k v m Hk IH] using map_ind; intros Hz; [apply map_sum_empty|].
  rewrite map_sum_insert by done. rewrite (Hz k v) by apply lookup_insert_eq. rewrite IH; [done|].
  intros k' v' Hk'. apply (Hz k'). rewrite lookup_insert_ne; congruence.
Qed.

Lemma map_sum_pos m k v : (∀ v, 0 ≤ f v) → m !! k = Some v → f v ≤ map_sum m.
Proof.
  intros Hf Hk. rewrite (map_sum_delete m k v Hk). pose proof (map_sum_nonneg (delete k m) Hf). lia.
Qed.

End map_sum.

(** ** References *)

Definition children_of (i : INode) : gmap OsStr NodeID :=
  match as_dir i with Some d => d.(children) | None => ∅ end.

Definition is_ref (c x : NodeID) : Z := if decide (x = c) then 1 else 0.

(** How many entries of a node, and of all nodes, lead to [c]. *)
Definition node_refs (c : NodeID) (i : INode) : Z := map_sum (is_ref c) (children_of i).
Definition refs (m : gmap NodeID INode) (c : NodeID) : Z := map_sum (node_refs c) m.

Lemma is_ref_nonneg c x : 0 ≤ is_ref c x.
Proof. unfold is_ref. case_decide; lia. Qed.

Lemma node_refs_nonneg c i : 0 ≤ node_refs c i.
Proof. apply map_sum_nonneg, is_ref_nonneg. Qed.

Lemma refs_nonneg m c : 0 ≤ refs m c.
Proof. apply map_sum_nonneg, node_refs_nonneg. Qed.

Lemma refs_update m k i i' c :
  m !! k = Some i → refs (<[k := i']> m) c = refs m c - node_refs c i + node_refs c i'.
Proof. apply map_sum_update. Qed.

Definition root_link (c : NodeID) : Z := if decide (c = NodeID_ROOT) then 1 else 0.

Record table_wf (m : gmap NodeID INode) : Prop := {
  tw_root : ∃ i, m !! NodeID_ROOT = Some i ∧ is_Some (as_dir i);
  tw_child : ∀ d i name c, m !! d = Some i → children_of i !! name = Some c →
    is_Some (m !! c) ∧ c ≠ d;
  tw_links : ∀ c i, m !! c = Some i → refs m c + root_link c ≤ i.(links);
}.

(** An inode nothing refers to. *)
Lemma refs_absent m c : table_wf m → m !! c = None → refs m c = 0.
Proof.
  intros Hw Hc. apply map_sum_zero. intros d i Hd. apply map_sum_zero. intros name x Hx.
  unfold is_ref. rewrite decide_False; [done|]. intros ->.
  destruct (tw_child _ Hw d i name c Hd Hx) as [[? ?] _]. congruence.
Qed.

Lemma refs_entry m d i name c :
  m !! d = Some i → children_of i !! name = Some c → 1 ≤ refs m c.
Proof.
  intros Hd Hn. transitivity (node_refs c i).
  - transitivity (is_ref c c); [unfold is_ref; by rewrite decide_True|].
    apply (map_sum_pos (is_ref c) _ name); [apply is_ref_nonneg|done].
  - apply (map_sum_pos (node_refs c) _ d); [apply node_refs_nonneg|done].
Qed.

(** A node is replaced. *)
Lemma table_wf_node m k i i' :
  table_wf m → m !! k = Some i → (is_Some (as_dir i) → is_Some (as_dir i')) →
  (∀ name c, children_of i' !! name = Some c → is_Some (m !! c) ∧ c ≠ k) →
  (∀ c j, <[k := i']> m !! c = Some j →
     refs m c - node_refs c i + node_refs c i' + root_link c ≤ j.(links)) →
  table_wf (<[k := i']> m).
Proof.
  intros [(r & Hr & Hrd) Hch Hl] Hk Hdir Hc Hle.
  assert (∀ c, is_Some (m !! c) → is_Some (<[k := i']> m !! c)) as Hs.
  { intros c. rewrite lookup_insert_is_Some'. auto. }
  split.
  - destruct (decide (k = NodeID_ROOT)) as [->|Hne].
    + exists i'. rewrite lookup_insert_eq. simplify_eq. auto.
    + exists r. by rewrite lookup_insert_ne.
  - intros d j name c Hd Hn. destruct (decide (d = k)) as [->|Hne].
    + rewrite lookup_insert_eq in Hd. simplify_eq. destruct (Hc name c Hn). auto.
    + rewrite lookup_insert_ne in Hd by done. destruct (Hch d j name c Hd Hn). auto.
  - intros c j Hj. rewrite (refs_update m k i) by done. by apply Hle.
Qed.

(** A node keeps its entries. *)
Lemma table_wf_set m k i i' :
  table_wf m → m !! k = Some i → children_of i' = children_of i →
  (is_Some (as_dir i) → is_Some (as_dir i')) → refs m k + root_link k ≤ i'.(links) →
  table_wf (<[k := i']> m).
Proof.
  intros Hw Hk Hc Hdir Hle. apply (table_wf_node m k i); [done..| |].
  - intros name c. rewrite Hc. by apply (tw_child _ Hw).
  - intros c j Hj. unfold node_refs. rewrite Hc. destruct (decide (c = k)) as [->|Hne].
    + rewrite lookup_insert_eq in Hj. simplify_eq. lia.
    + rewrite lookup_insert_ne in Hj by done. pose proof (tw_links _ Hw c j Hj). lia.
Qed.

(** A node gets an entry: the inode it leads to has one link to spare. *)
Lemma table_wf_add m k i i' name c j :
  table_wf m → m !! k = Some i → is_Some (as_dir i') → i'.(links) = i.(links) →
  children_of i !! name = None → children_of i' = <[name := c]> (children_of i) →
  m !! c = Some j → c ≠ k → refs m c + 1 + root_link c ≤ j.(links) →
  table_wf (<[k := i']> m).
Proof.
  intros Hw Hk Hdir Hli Hno Hc Hj Hne Hle. apply (table_wf_node m k i); [done..| |].
  - intros n x. rewrite Hc. intros [[<- <-]|[_ Hx]]%lookup_insert_Some; [by rewrite Hj|].
    by apply (tw_child _ Hw k i n).
  - intros x jx Hx. unfold node_refs at 2. rewrite Hc, map_sum_insert by done. fold (node_refs x i).
    unfold is_ref. destruct (decide (x = k)) as [->|Hxk].
    + rewrite lookup_insert_eq in Hx. simplify_eq. rewrite decide_False by done.
      pose proof (tw_links _ Hw k i Hk). lia.
    + rewrite lookup_insert_ne in Hx by done. case_decide; simplify_eq; [lia|].
      pose proof (tw_links _ Hw x jx Hx). lia.
Qed.

(** A node loses an entry: the inode it led to has one link to spare. *)
Lemma table_wf_del m k i i' name c :
  table_wf m → m !! k = Some i → is_Some (as_dir i') → i'.(links) = i.(links) →
  children_of i !! name = Some c → children_of i' = delete name (children_of i) →
  table_wf (<[k := i']> m) ∧ refs (<[k := i']> m) c = refs m c - 1.
Proof.
  intros Hw Hk Hdir Hli Hn Hc.
  assert (∀ x, node_refs x i' = node_refs x i - is_ref x c) as Hr.
  { intros x. unfold node_refs. rewrite Hc, (map_sum_delete _ (children_of i) name c Hn). lia. }
  split.
  - apply (table_wf_node m k i); [done..| |].
    + intros n x. rewrite Hc. intros [_ Hx]%lookup_delete_Some. by apply (tw_child _ Hw k i n).
    + intros x jx Hx. rewrite Hr. pose proof (is_ref_nonneg x c). destruct (decide (x = k)) as [->|Hxk].
      * rewrite lookup_insert_eq in Hx. simplify_eq. pose proof (tw_links _ Hw k i Hk). lia.
      * rewrite lookup_insert_ne in Hx by done. pose proof (tw_links _ Hw x jx Hx). lia.
  - rewrite (refs_update m k i), Hr by done. unfold is_ref. rewrite decide_True by done. lia.
Qed.

(** A new inode without entries. *)
Lemma table_wf_new m k i :
  table_wf m → m !! k = None → children_of i = ∅ → 0 ≤ i.(links) →
  table_wf (<[k := i]> m) ∧ refs (<[k := i]> m) k = 0.
Proof.
  intros Hw Hk Hc Hli. pose proof Hw as [(r & Hr & Hrd) Hch Hl].
  assert (∀ c, refs (<[k := i]> m) c = refs m c) as Hrefs.
  { intros c. unfold refs. rewrite map_sum_insert by done. unfold node_refs at 1. rewrite Hc, map_sum_empty. lia. }
  split; [|rewrite Hrefs; by apply refs_absent]. split.
  - exists r. by rewrite lookup_insert_ne by congruence.
  - intros d j name c Hd Hn. destruct (decide (d = k)) as [->|Hne].
    + rewrite lookup_insert_eq in Hd. simplify_eq. rewrite Hc in Hn. by rewrite lookup_empty in Hn.
    + rewrite lookup_insert_ne in Hd by done. destruct (Hch d j name c Hd Hn) as [[x Hs] Hnd].
      split; [|done]. rewrite lookup_insert_ne by congruence. by exists x.
  - intros c j Hj. rewrite Hrefs. destruct (decide (c = k)) as [->|Hne].
    + rewrite lookup_insert_eq in Hj. simplify_eq. rewrite refs_absent by done.
      unfold root_link. rewrite decide_False; [done|congruence].
    + rewrite lookup_insert_ne in Hj by done. by apply Hl.
Qed.

(** An inode nothing refers to is dropped. *)
Lemma table_wf_drop m k i :
  table_wf m → m !! k = Some i → i.(links) = 0 → table_wf (delete k m).
Proof.
  intros Hw Hk Hli. pose proof Hw as [(r & Hr & Hrd) Hch Hl].
  assert (refs m k = 0 ∧ k ≠ NodeID_ROOT) as [Hz Hroot].
  { specialize (Hl k i Hk). pose proof (refs_nonneg m k). unfold root_link in Hl. case_decide; [lia|].
    split; [lia|done]. }
  split.
  - exists r. by rewrite lookup_delete_ne.
  - intros d j name c [Hdk Hd]%lookup_delete_Some Hn. destruct (Hch d j name c Hd Hn) as [Hs Hne].
    split; [|done]. rewrite lookup_delete_ne; [done|]. intros <-. pose proof (refs_entry m d j name k Hd Hn). lia.
  - intros c j [Hck Hj]%lookup_delete_Some. specialize (Hl c j Hj).
    unfold refs in *. rewrite (map_sum_delete _ m k i Hk) in Hl. pose proof (node_refs_nonneg c i). lia.
Qed.

(** ** Runs without a panic *)

(** The run ends with a result as [Q] says or with an error as [I] says. *)
Definition safe {S E A} (I : E → S → Prop) (Q : A → S → Prop) (m : M S E A) (s : S) : Prop :=
  match m s with (Ok a, s') => Q a s' | (Err e, s') => I e s' | _ => False end.

Section safe.
Context {S E : Type} (I : E → S → Prop).

Lemma safe_bind {A B} (m : M S E A) (f : A → M S E B) Q s :
  safe I (λ a s', safe I Q (f a) s') m s → safe I Q (m ≫= f) s.
Proof. unfold safe, mbind, M_bind. by destruct (m s) as [[a|e|w|] s']. Qed.

Lemma safe_mono {A} (m : M S E A) (Q Q' : A → S → Prop) s :
  safe I Q m s → (∀ a s', Q a s' → Q' a s') → safe I Q' m s.
Proof. unfold safe. destruct (m s) as [[a|e|w|] s']; auto. Qed.

Lemma safe_ret {A} (a : A) Q s : Q a s → safe I Q (mret (M := M S E) a) s.
Proof. done. Qed.
Lemma safe_get Q s : Q s s → safe I Q (get (E := E)) s.
Proof. done. Qed.
Lemma safe_put s' Q s : Q tt s' → safe I Q (put (E := E) s') s.
Proof. done. Qed.
Lemma safe_modify f Q s : Q tt (f s) → safe I Q (modify (E := E) f) s.
Proof. done. Qed.
Lemma safe_err {A} (e : E) (Q : A → S → Prop) s : I e s → safe I Q (lift (Err e)) s.
Proof. done. Qed.
Lemma safe_ok {A} (a : A) (Q : A → S → Prop) s : Q a s → safe I Q (lift (E := E) (Ok a)) s.
Proof. done. Qed.
Lemma safe_ok_or {A} (o : option A) (e : E) Q s :
  (o = None → I e s) → (∀ a, o = Some a → Q a s) → safe I Q (lift (ok_or o e)) s.
Proof. destruct o; unfold safe, lift, ok_or; auto. Qed.
End safe.

(** ** The invariant *)

(** The inode an entry of a directory leads to. *)
Definition entry (m : gmap NodeID INode) (d : NodeID) (name : OsStr) : option NodeID :=
  i ← m !! d; children_of i !! name.

(** All numbers given out are below the next one, and the attributes of an inode
carry its number. *)
Record mem_wf (s : MemFS) : Prop := {
  mw_table : table_wf s.(inodes);
  mw_next : ∀ ino i, s.(inodes) !! ino = Some i → 0 < ino.(NodeID_into_raw) < s.(next_ino);
  mw_ino : ∀ ino i, s.(inodes) !! ino = Some i → i.(attr).(FileAttr_ino) = ino;
}.

(** An inode changes its counts, its attributes or its content. *)
Lemma mem_wf_set s k i i' :
  mem_wf s → s.(inodes) !! k = Some i → children_of i' = children_of i →
  (is_Some (as_dir i) → is_Some (as_dir i')) → i.(links) ≤ i'.(links) →
  i'.(attr).(FileAttr_ino) = i.(attr).(FileAttr_ino) →
  mem_wf (set_inodes (<[k := i']> s.(inodes)) s).
Proof.
  intros [Ht Hn Hi] Hk Hc Hd Hl Ha. split; simpl.
  - apply (table_wf_set _ k i); [done..|]. pose proof (tw_links _ Ht k i Hk). lia.
  - intros ino j [[-> _]|[_ Hj]]%lookup_insert_Some; eauto.
  - intros ino j [[-> <-]|[_ Hj]]%lookup_insert_Some; [rewrite Ha|]; eauto.
Qed.

(** Only the table of inodes and the counter matter. *)
Lemma mem_wf_handles s h : mem_wf s → mem_wf (set_dir_handles h s).
Proof. by intros [? ? ?]. Qed.

Section calls.
Context `{MA : MemApi}.

(** None of the entries an operation holds is in the shard of [ino]. *)
Definition reachable (held : list NodeID) (ino : NodeID) : Prop :=
  Forall (λ k, same_shard k ino = false) held.

Lemma acquire_reachable held ino s : reachable held ino → acquire held ino s = (Ok tt, s).
Proof.
  intros Hh. unfold acquire. replace (existsb _ held) with false; [done|].
  induction Hh as [|k held Hk _ IH]; simpl; [done|]. by rewrite Hk.
Qed.

Lemma reachable_nil ino : reachable [] ino.
Proof. constructor. Qed.

Lemma reachable_one k ino : same_shard k ino = false → reachable [k] ino.
Proof. by repeat constructor. Qed.

Lemma safe_acquire (I : fs_error → MemFS → Prop) Q held ino s :
  reachable held ino → Q tt s → safe I Q (acquire held ino) s.
Proof. intros Hh HQ. unfold safe. by rewrite acquire_reachable. Qed.

Lemma safe_get_inode (I : fs_error → MemFS → Prop) Q held ino s :
  reachable held ino → (s.(inodes) !! ino = None → I (FsErrno MErrno_NOENT) s) →
  (∀ i, s.(inodes) !! ino = Some i → Q i s) → safe I Q (get_inode held ino) s.
Proof.
  intros Hh HI HQ. apply safe_bind, safe_acquire; [done|]. apply safe_bind, safe_get. by apply safe_ok_or.
Qed.

Lemma get_inode_ok held s ino i :
  reachable held ino → s.(inodes) !! ino = Some i → get_inode held ino s = (Ok i, s).
Proof.
  intros Hh H. unfold get_inode. rewrite (M_bind_Ok _ _ _ _ _ (acquire_reachable _ _ s Hh)).
  unfold mbind, M_bind, get, lift. by rewrite H.
Qed.

Lemma safe_get_dir (I : fs_error → MemFS → Prop) Q i s :
  (as_dir i = None → I (FsErrno MErrno_NOTDIR) s) → (∀ d, as_dir i = Some d → Q d s) → safe I Q (get_dir i) s.
Proof. apply safe_ok_or. Qed.

Lemma safe_expect_inode (I : fs_error → MemFS → Prop) Q held ino why i s :
  reachable held ino → s.(inodes) !! ino = Some i → Q i s → safe I Q (expect_inode held ino why) s.
Proof.
  intros Hh Hi HQ. apply safe_bind, safe_acquire; [done|]. apply safe_bind, safe_get. by rewrite Hi.
Qed.

Lemma safe_put_inode (I : fs_error → MemFS → Prop) Q ino i s :
  Q tt (set_inodes (<[ino := i]> s.(inodes)) s) → safe I Q (put_inode ino i) s.
Proof. done. Qed.

Lemma safe_errno {A} (I : fs_error → MemFS → Prop) (Q : A → MemFS → Prop) e s : I (FsErrno e) s → safe I Q (errno e) s.
Proof. done. Qed.

End calls.

(** One call of an operation. *)
Ltac call :=
  lazymatch goal with
  | |- safe _ _ (_ ≫= _) _ => apply safe_bind; call
  | |- safe _ _ (get_inode _ _) _ =>
      apply safe_get_inode; [first [apply reachable_nil|by apply reachable_one]|try done|intros ? ?]
  | |- safe _ _ (get_dir _) _ => apply safe_get_dir; [try done|intros ? ?]
  | |- safe _ _ (put_inode _ _) _ => apply safe_put_inode
  | |- safe _ _ (errno _) _ => apply safe_errno; try done
  | |- safe _ _ get _ => apply safe_get
  | |- safe _ _ (put _) _ => apply safe_put
  | |- safe _ _ (modify _) _ => apply safe_modify
  | |- safe _ _ (lift (ok_or _ _)) _ => apply safe_ok_or; [try done|intros ? ?]
  | |- safe _ _ (lift (Ok _)) _ => apply safe_ok
  | |- safe _ _ (mret _) _ => apply safe_ret
  end.

(** ** The abstract tree

Directories with their entries, and other nodes; no counts, no content. *)

Notation tree := (gmap NodeID (option (gmap OsStr NodeID))).

Definition node_tree (i : INode) : option (gmap OsStr NodeID) := children <$> as_dir i.
Definition tree_of (s : MemFS) : tree := node_tree <$> s.(inodes).

Section spec.
Context `{MA : MemApi}.

Definition tree_dir (t : tree) (p : NodeID) : outcome Errno (gmap OsStr NodeID) :=
  n ← ok_or (t !! p) MErrno_NOENT; ok_or n MErrno_NOTDIR.

Definition tree_lookup (t : tree) (p : NodeID) (name : OsStr) : outcome Errno NodeID :=
  c ← tree_dir t p; ok_or (c !! name) MErrno_NOENT.

Definition tree_vacant (c : gmap OsStr NodeID) (name : OsStr) : outcome Errno unit :=
  match c !! name with Some _ => Err MErrno_EXIST | None => Ok tt end.

Definition tree_make (t : tree) (p : NodeID) (name : OsStr) (ino : NodeID)
    (node : option (gmap OsStr NodeID)) : outcome Errno tree :=
  c ← tree_dir t p;
  _ ← tree_vacant c name;
  Ok (<[p := Some (<[name := ino]> c)]> (<[ino := node]> t)).

Definition tree_link (t : tree) (ino : NodeID) (p : NodeID) (name : OsStr) : outcome Errno tree :=
  _ ← ok_or (t !! ino) MErrno_NOENT;
  c ← tree_dir t p;
  _ ← tree_vacant c name;
  Ok (<[p := Some (<[name := ino]> c)]> t).

Definition tree_unlink (t : tree) (p : NodeID) (name : OsStr) : outcome Errno tree :=
  c ← tree_dir t p;
  ino ← ok_or (c !! name) MErrno_NOENT;
  if decide (default ∅ (mjoin (t !! ino)) = ∅)
  then Ok (<[p := Some (delete name c)]> t)
  else Err MErrno_NOTEMPTY.

Definition tree_rename (t : tree) (p : NodeID) (name : OsStr) (np : NodeID) (newname : OsStr)
    : outcome Errno tree :=
  c ← tree_dir t p;
  nc ← tree_dir t np;
  if decide (np = p) then
    ino ← ok_or (c !! name) MErrno_NOENT;
    _ ← tree_vacant nc newname;
    Ok (<[p := Some (<[newname := ino]> (delete name c))]> t)
  else
    _ ← tree_vacant nc newname;
    ino ← ok_or (c !! name) MErrno_NOENT;
    Ok (<[np := Some (<[newname := ino]> nc)]> (<[p := Some (delete name c)]> t)).

End spec.

(** The operation fails as the specification does, and changes nothing. *)
Definition fails {A} (o : outcome Errno A) (s : MemFS) (e : fs_error) (s' : MemFS) : Prop :=
  s' = s ∧ ∃ n, e = FsErrno n ∧ o = Err n.

Section trees.
Context `{MA : MemApi} `{L : Libc} `{BF : Bitflags} `{PR : Profile}.

(** The attributes of a new node. *)
Definition fresh_attr (ino : NodeID) (nlink : u32) (mode : FileMode) : FileAttr := {|
  FileAttr_ino := ino; FileAttr_size := 0; FileAttr_mode := mode; FileAttr_nlink := nlink;
  FileAttr_uid := 0; FileAttr_gid := 0; FileAttr_rdev := DeviceID_from_kernel_dev 0;
  FileAttr_blksize := 0; FileAttr_blocks := 0;
  FileAttr_atime := Duration_ZERO;
  FileAttr_mtime := Duration_ZERO;
  FileAttr_ctime := Duration_ZERO |}.

Lemma attr_of_fresh ino nlink mode : attr_of ino nlink mode = Ok (fresh_attr ino nlink mode).
Proof. reflexivity. Qed.

Lemma children_of_dir i d : as_dir i = Some d → children_of i = d.(children).
Proof. unfold children_of. by intros ->. Qed.

Lemma entry_dir m p i d name : m !! p = Some i → as_dir i = Some d → entry m p name = d.(children) !! name.
Proof. unfold entry. intros ->. simpl. by intros ->%children_of_dir. Qed.

Lemma tree_of_lookup s k : tree_of s !! k = node_tree <$> s.(inodes) !! k.
Proof. apply lookup_fmap. Qed.

Lemma tree_dir_absent s p : s.(inodes) !! p = None → tree_dir (tree_of s) p = Err MErrno_NOENT.
Proof. unfold tree_dir. rewrite tree_of_lookup. by intros ->. Qed.

Lemma tree_dir_other s p i :
  s.(inodes) !! p = Some i → as_dir i = None → tree_dir (tree_of s) p = Err MErrno_NOTDIR.
Proof. unfold tree_dir, node_tree. rewrite tree_of_lookup. intros ->. unfold node_tree. simpl. by intros ->. Qed.

Lemma tree_dir_dir s p i d :
  s.(inodes) !! p = Some i → as_dir i = Some d → tree_dir (tree_of s) p = Ok d.(children).
Proof. unfold tree_dir, node_tree. rewrite tree_of_lookup. intros ->. unfold node_tree. simpl. by intros ->. Qed.

End trees.

(** The specification follows the lookups of the operation. *)
Ltac tree_eval :=
  repeat first
    [ match goal with
      | H : inodes ?s !! ?p = None |- context [tree_dir (tree_of ?s) ?p] => rewrite (tree_dir_absent s p H)
      | H : inodes ?s !! ?p = Some ?i, D : as_dir ?i = None |- context [tree_dir (tree_of ?s) ?p] =>
          rewrite (tree_dir_other s p i H D)
      | H : inodes ?s !! ?p = Some ?i, D : as_dir ?i = Some ?d |- context [tree_dir (tree_of ?s) ?p] =>
          rewrite (tree_dir_dir s p i d H D)
      end
    | progress cbn [mbind outcome_mbind outcome_bind ok_or tree_vacant]
    | match goal with H : _ !! _ = _ |- _ => rewrite H end
    | rewrite tree_of_lookup ].

(** A failure of the operation. *)
Ltac failing :=
  split; [done|eexists; split; [reflexivity|]];
  unfold tree_lookup, tree_make, tree_link, tree_unlink, tree_rename, tree_vacant; tree_eval; done.

Section operations.
Context `{MA : MemApi} `{L : Libc} `{BF : Bitflags} `{PR : Profile}.

Lemma safe_vacant_entry (I : fs_error → MemFS → Prop) Q held s :
  0 < s.(next_ino) → s.(next_ino) + 1 < 2 ^ 64 →
  s.(inodes) !! NodeID_from_raw_unchecked s.(next_ino) = None →
  reachable held (NodeID_from_raw_unchecked s.(next_ino)) →
  Q (Some (NodeID_from_raw_unchecked s.(next_ino))) (set_next_ino (s.(next_ino) + 1) s) →
  safe I Q (vacant_entry held) s.
Proof.
  intros Hpos Hlt Hno Hh HQ. unfold vacant_entry. do 2 call.
  rewrite wrap_u_id by (unfold is_u; lia). unfold NodeID_from_raw.
  rewrite (proj2 (Z.eqb_neq _ _)) by lia. call. apply safe_bind, safe_acquire; [done|].
  do 2 call. simpl. by rewrite Hno.
Qed.

Definition fresh_ino (s : MemFS) : NodeID := NodeID_from_raw_unchecked s.(next_ino).

Lemma fresh_ino_free s : mem_wf s → s.(inodes) !! fresh_ino s = None.
Proof.
  intros Hw. apply eq_None_not_Some. intros [i Hi]. pose proof (mw_next _ Hw _ _ Hi). simpl in *. lia.
Qed.

Lemma next_ino_pos s : mem_wf s → 1 < s.(next_ino).
Proof.
  intros Hw. destruct (tw_root _ (mw_table _ Hw)) as (r & Hr & _). apply (mw_next _ Hw _ _ Hr).
Qed.

(** A new inode with its entry in a directory. *)
Definition created (s : MemFS) (p : NodeID) (name : OsStr) (inode : INode) (s' : MemFS) : Prop :=
  ∃ pnode dir, s.(inodes) !! p = Some pnode ∧ as_dir pnode = Some dir ∧ dir.(children) !! name = None
  ∧ s'.(inodes) = <[p := set_kind (DirectoryNode (set_children (<[name := fresh_ino s]> dir.(children)) dir)) pnode]>
                  (<[fresh_ino s := inode]> s.(inodes))
  ∧ s'.(next_ino) = s.(next_ino) + 1 ∧ s'.(dir_handles) = s.(dir_handles) ∧ s'.(mem_ttl) = s.(mem_ttl).

Lemma created_wf s p name inode s' :
  mem_wf s → created s p name inode s' →
  inode.(links) = 1 → children_of inode = ∅ → inode.(attr).(FileAttr_ino) = fresh_ino s → mem_wf s'.
Proof.
  intros Hw (pnode & dir & Hp & Hd & Hno & Hin & Hnx & _) Hl Hc Ha.
  pose proof (fresh_ino_free s Hw) as Hfree. assert (fresh_ino s ≠ p) as Hne by congruence.
  destruct (table_wf_new _ _ inode (mw_table _ Hw) Hfree Hc) as [Ht Hr]; [lia|].
  split.
  - rewrite Hin. apply (table_wf_add _ p pnode _ name (fresh_ino s) inode); simpl; try done.
    + by rewrite lookup_insert_ne.
    + by rewrite (children_of_dir _ _ Hd).
    + by rewrite (children_of_dir _ _ Hd).
    + by rewrite lookup_insert_eq.
    + rewrite Hr, Hl. unfold root_link. rewrite decide_False; [lia|]. intros Hroot.
      destruct (tw_root _ (mw_table _ Hw)) as (r & Hroot' & _). congruence.
  - pose proof (next_ino_pos s Hw). intros ino i. rewrite Hin, Hnx.
    intros [[<- _]|[_ [[<- _]|[_ Hi]]%lookup_insert_Some]]%lookup_insert_Some;
      [pose proof (mw_next _ Hw _ _ Hp)| |pose proof (mw_next _ Hw _ _ Hi)]; simpl; lia.
  - intros ino i. rewrite Hin.
    intros [[<- <-]|[_ [[<- <-]|[_ Hi]]%lookup_insert_Some]]%lookup_insert_Some;
      [exact (mw_ino _ Hw _ _ Hp)|done|exact (mw_ino _ Hw _ _ Hi)].
Qed.

Lemma make_node_safe s p name f (node : NodeID → INode) :
  mem_wf s → s.(next_ino) + 1 < 2 ^ 64 → (∀ ino, f ino = Ok (node ino)) →
  (∀ c, tree_dir (tree_of s) p = Ok c → c !! name = None → same_shard p (fresh_ino s) = false) →
  safe (fails (tree_make (tree_of s) p name (fresh_ino s) (node_tree (node (fresh_ino s)))) s)
    (λ r s', r = EntryOut (fresh_ino s) (node (fresh_ino s)).(attr) None (Some s.(mem_ttl))
             ∧ created s p name (node (fresh_ino s)) s')
    (make_node p name f) s.
Proof.
  intros Hw Hlt Hf Hsh. pose proof (next_ino_pos s Hw). pose proof (fresh_ino_free s Hw) as Hfree.
  unfold make_node. call; [failing|]. call; [failing|].
  apply safe_bind. destruct (children d !! name) eqn:Hno; call; [failing|].
  apply safe_bind, safe_vacant_entry; [lia|done|done| |].
  { apply reachable_one, (Hsh d.(children)); [by apply (tree_dir_dir s p i d)|done]. }
  call. rewrite Hf. do 5 call.
  split; [done|]. exists i, d. simpl. repeat split; try done.
  rewrite insert_insert_ne; [done|]. unfold fresh_ino in *. congruence.
Qed.

Lemma created_tree s p name inode s' :
  created s p name inode s' →
  tree_make (tree_of s) p name (fresh_ino s) (node_tree inode) = Ok (tree_of s').
Proof.
  intros (i & d & Hp & Hd & Hno & Hin & _). unfold tree_make, tree_vacant. tree_eval.
  unfold tree_of. rewrite Hin, !fmap_insert. done.
Qed.

(** A directory with other entries. *)
Definition with_children (c : gmap OsStr NodeID) (i : INode) (d : MemDirectory) : INode :=
  set_kind (DirectoryNode (set_children c d)) i.

(** An inode after one of its links is gone. *)
Definition unlinked (i : INode) : INode :=
  set_links (saturating_dec i.(links))
    (set_attr (change_attr (with_nlink (saturating_dec i.(attr).(FileAttr_nlink))) i.(attr)) i).

Lemma children_of_kind i i' : i'.(kind) = i.(kind) → children_of i' = children_of i.
Proof. unfold children_of, as_dir. by intros ->. Qed.

Lemma lookup_insert2_Some {A} (m : gmap NodeID A) k1 k2 v1 v2 k v :
  <[k1 := v1]> (<[k2 := v2]> m) !! k = Some v → (k = k1 ∧ v = v1) ∨ (k = k2 ∧ v = v2) ∨ m !! k = Some v.
Proof. intros [[<- <-]|[_ [[<- <-]|[_ ?]]%lookup_insert_Some]]%lookup_insert_Some; auto. Qed.

(** Two inodes change, and keep their numbers. *)
Lemma mem_wf_two s k1 k2 i1 i2 j1 j2 :
  mem_wf s → s.(inodes) !! k1 = Some i1 → s.(inodes) !! k2 = Some i2 →
  j1.(attr).(FileAttr_ino) = i1.(attr).(FileAttr_ino) →
  j2.(attr).(FileAttr_ino) = i2.(attr).(FileAttr_ino) →
  table_wf (<[k1 := j1]> (<[k2 := j2]> s.(inodes))) →
  mem_wf (set_inodes (<[k1 := j1]> (<[k2 := j2]> s.(inodes))) s).
Proof.
  intros [Ht Hn Hi] H1 H2 Ha1 Ha2 Ht'. split; [done|..]; simpl.
  - intros k v [[-> ->]|[[-> ->]|Hk]]%lookup_insert2_Some; eauto.
  - intros k v [[-> ->]|[[-> ->]|Hk]]%lookup_insert2_Some; [rewrite Ha1|rewrite Ha2|]; eauto.
Qed.

(** An entry goes away, with one link of the inode it led to. *)
Definition removed (s : MemFS) (p : NodeID) (name : OsStr) (s' : MemFS) : Prop :=
  ∃ i d c j, s.(inodes) !! p = Some i ∧ as_dir i = Some d ∧ d.(children) !! name = Some c
  ∧ s.(inodes) !! c = Some j ∧ c ≠ p ∧ children_of j = ∅
  ∧ s' = set_inodes (<[c := unlinked j]>
           (<[p := with_children (delete name d.(children)) i d]> s.(inodes))) s.

Lemma unlink_node_safe s p name :
  mem_wf s → (∀ c, tree_lookup (tree_of s) p name = Ok c → same_shard p c = false) →
  safe (fails (tree_unlink (tree_of s) p name) s) (λ _ s', removed s p name s') (unlink_node p name) s.
Proof.
  intros Hw Hsh. unfold unlink_node. call; [failing|]. call; [failing|]. call; [failing|]. rename a into c.
  assert (children_of i !! name = Some c) as Hc by by rewrite (children_of_dir i d).
  destruct (tw_child _ (mw_table _ Hw) p i name c) as [[j Hj] Hne]; [done..|].
  assert (same_shard p c = false) as Hpc.
  { apply Hsh. unfold tree_lookup. by tree_eval. }
  apply safe_bind, (safe_expect_inode _ _ _ _ _ j); [by apply reachable_one|done|]. apply safe_bind.
  assert (∀ T, children_of j = ∅ → T = set_inodes (<[c := unlinked j]>
           (<[p := with_children (delete name d.(children)) i d]> s.(inodes))) s → removed s p name T) as Hdone.
  { intros T Hem ->. by exists i, d, c, j. }
  unfold children_of in Hdone. destruct (as_dir j) as [dj|] eqn:Hdj; [case_decide as Hem|];
    call; try (do 2 call; by apply Hdone).
  split; [done|]. eexists; split; [done|]. unfold tree_unlink. tree_eval. simpl.
  unfold node_tree. rewrite Hdj. simpl. by rewrite decide_False.
Qed.

Lemma removed_tree s p name s' : removed s p name s' → tree_unlink (tree_of s) p name = Ok (tree_of s').
Proof.
  intros (i & d & c & j & Hp & Hd & Hc & Hj & Hne & Hem & ->). unfold tree_unlink. tree_eval. simpl.
  assert (default ∅ (node_tree j) = ∅) as Hj0.
  { revert Hem. unfold children_of, node_tree. by destruct (as_dir j). }
  rewrite Hj0, decide_True by done. f_equal. unfold tree_of. simpl. rewrite !fmap_insert.
  change (node_tree (unlinked j)) with (node_tree j). symmetry. apply insert_id.
  rewrite lookup_insert_ne, lookup_fmap, Hj by done. done.
Qed.

Lemma removed_wf s p name s' : mem_wf s → removed s p name s' → mem_wf s'.
Proof.
  intros Hw (i & d & c & j & Hp & Hd & Hc & Hj & Hne & Hem & ->). pose proof (mw_table _ Hw) as Ht.
  destruct (table_wf_del _ p i (with_children (delete name d.(children)) i d) name c Ht) as [Ht' Hr];
    [done..|by rewrite (children_of_dir i d)|by rewrite (children_of_dir i d)|].
  apply (mem_wf_two s c p j i); [done..|].
  apply (table_wf_set _ c j); [done|by rewrite lookup_insert_ne|done..|]. simpl. rewrite Hr.
  unfold saturating_dec. pose proof (tw_links _ Ht c j Hj). lia.
Qed.

(** An inode gets one more entry. *)
Definition with_link (i : INode) : INode :=
  set_refcount (i.(refcount) + 1) (set_links (i.(links) + 1)
    (set_attr (change_attr (with_nlink (i.(attr).(FileAttr_nlink) + 1)) i.(attr)) i)).

Definition linked (s : MemFS) (c p : NodeID) (name : OsStr) (s' : MemFS) : Prop :=
  ∃ i d j, s.(inodes) !! p = Some i ∧ as_dir i = Some d ∧ d.(children) !! name = None
  ∧ s.(inodes) !! c = Some j ∧ c ≠ p
  ∧ s' = set_inodes (<[c := with_link j]>
           (<[p := with_children (<[name := c]> d.(children)) i d]> s.(inodes))) s.

(** The counts of an inode are not at their largest value. *)
Definition counts_ok (i : INode) : Prop :=
  0 ≤ i.(refcount) < 2 ^ 64 - 1 ∧ 0 ≤ i.(links) < 2 ^ 64 - 1 ∧ 0 ≤ i.(attr).(FileAttr_nlink) < 2 ^ 32 - 1.

Lemma mem_link_safe s op :
  op.(Link_ino) ≠ op.(Link_newparent) →
  (∀ i, s.(inodes) !! op.(Link_ino) = Some i → counts_ok i) →
  (is_Some (tree_of s !! op.(Link_ino)) → same_shard op.(Link_ino) op.(Link_newparent) = false) →
  safe (fails (tree_link (tree_of s) op.(Link_ino) op.(Link_newparent) op.(Link_newname)) s)
    (λ r s', linked s op.(Link_ino) op.(Link_newparent) op.(Link_newname) s'
       ∧ ∃ i, s'.(inodes) !! op.(Link_ino) = Some i
              ∧ r = EntryOut op.(Link_ino) i.(attr) None (Some s.(mem_ttl)))
    (mem_link op) s.
Proof.
  intros Hne Hok Hsh. unfold mem_link. call; [failing|].
  rename i into j. rewrite tree_of_lookup in Hsh.
  assert (same_shard op.(Link_ino) op.(Link_newparent) = false) as Hpc
    by (apply Hsh; match goal with H : _ !! _ = Some j |- _ => rewrite H end; by eexists).
  destruct (Hok j) as (Hrc & Hl & Hn); [done|].
  rewrite decide_False by done. call. call; [failing|]. call; [failing|].
  destruct (d.(children) !! op.(Link_newname)) eqn:Hno; [call; failing|]. call.
  rewrite !arith_u_ok by (unfold is_u; lia). do 6 call. simpl.
  split; [by exists i, d, j|]. exists (with_link j). by rewrite lookup_insert_eq.
Qed.

Lemma linked_tree s c p name s' : linked s c p name s' → tree_link (tree_of s) c p name = Ok (tree_of s').
Proof.
  intros (i & d & j & Hp & Hd & Hno & Hj & Hne & ->). unfold tree_link, tree_vacant. tree_eval. simpl.
  tree_eval. f_equal. unfold tree_of. simpl. rewrite !fmap_insert.
  change (node_tree (with_link j)) with (node_tree j). symmetry. apply insert_id.
  rewrite lookup_insert_ne, lookup_fmap, Hj by done. done.
Qed.

Lemma linked_wf s c p name s' : mem_wf s → linked s c p name s' → mem_wf s'.
Proof.
  intros Hw (i & d & j & Hp & Hd & Hno & Hj & Hne & ->). pose proof (mw_table _ Hw) as Ht.
  pose proof (tw_links _ Ht c j Hj) as Hl. apply (mem_wf_two s c p j i); [done..|].
  rewrite insert_insert_ne by done.
  assert (table_wf (<[c := with_link j]> s.(inodes))) as Ht'.
  { apply (table_wf_set _ c j); simpl; [done..|lia]. }
  apply (table_wf_add _ p i _ name c (with_link j)); simpl; try done.
  - by rewrite lookup_insert_ne.
  - by rewrite (children_of_dir i d).
  - by rewrite (children_of_dir i d).
  - by rewrite lookup_insert_eq.
  - rewrite (refs_update _ c j) by done. change (node_refs c (with_link j)) with (node_refs c j). lia.
Qed.

(** An entry is moved, within a directory or to another one. *)
Definition moved (s : MemFS) (p : NodeID) (name : OsStr) (np : NodeID) (newname : OsStr) (s' : MemFS) : Prop :=
  ∃ i d c, s.(inodes) !! p = Some i ∧ as_dir i = Some d ∧ d.(children) !! name = Some c
  ∧ entry s.(inodes) np newname = None
  ∧ ((np = p ∧ s' = set_inodes (<[p := with_children (delete name (<[newname := c]> d.(children))) i d]>
                                  s.(inodes)) s)
     ∨ (np ≠ p ∧ ∃ ni nd, s.(inodes) !! np = Some ni ∧ as_dir ni = Some nd
        ∧ s' = set_inodes (<[np := with_children (<[newname := c]> nd.(children)) ni nd]>
                 (<[p := with_children (delete name d.(children)) i d]> s.(inodes))) s)).

Lemma mem_rename_safe s op :
  op.(Rename_flags) = 0 →
  (∀ c, tree_dir (tree_of s) op.(Rename_parent) = Ok c → op.(Rename_newparent) ≠ op.(Rename_parent) →
     same_shard op.(Rename_parent) op.(Rename_newparent) = false) →
  safe (fails (tree_rename (tree_of s) op.(Rename_parent) op.(Rename_name) op.(Rename_newparent)
                 op.(Rename_newname)) s)
    (λ r s', r = Empty ∧ moved s op.(Rename_parent) op.(Rename_name) op.(Rename_newparent) op.(Rename_newname) s')
    (mem_rename op) s.
Proof.
  intros Hfl Hsh. unfold mem_rename. rewrite Hfl. change (negb (0 =? 0)) with false. cbv beta iota.
  call; [failing|]. call; [failing|]. case_decide as He.
  - call; [split; [done|eexists; split; [done|]]; unfold tree_rename; rewrite He; tree_eval; by rewrite decide_True by done|].
    destruct (d.(children) !! op.(Rename_newname)) eqn:Hno.
    { call. split; [done|]. eexists; split; [done|]. unfold tree_rename, tree_vacant. rewrite He. tree_eval.
      by rewrite decide_True by done. }
    do 2 call. split; [done|].
    exists i, d, a. rewrite He, (entry_dir _ _ i d) by done. naive_solver.
  - assert (same_shard op.(Rename_parent) op.(Rename_newparent) = false) as Hpc
      by (apply (Hsh d.(children)); [by apply (tree_dir_dir s _ i d)|done]).
    call; [failing|]. call; [failing|]. rename i0 into ni, d0 into nd.
    destruct (nd.(children) !! op.(Rename_newname)) eqn:Hno.
    { call. split; [done|]. eexists; split; [done|]. unfold tree_rename, tree_vacant. tree_eval.
      by rewrite decide_False by done. }
    call; [split; [done|eexists; split; [done|]]; unfold tree_rename, tree_vacant; tree_eval;
           rewrite decide_False by done; tree_eval; done|].
    do 3 call. split; [done|].
    exists i, d, a. rewrite (entry_dir _ op.(Rename_newparent) ni nd) by done. naive_solver.
Qed.

Lemma moved_tree s p name np newname s' :
  moved s p name np newname s' → tree_rename (tree_of s) p name np newname = Ok (tree_of s').
Proof.
  intros (i & d & c & Hp & Hd & Hc & Hno & [[-> ->]|(Hne & ni & nd & Hn & Hnd & ->)]);
    unfold tree_rename, tree_vacant; tree_eval.
  - rewrite (entry_dir _ _ i d) in Hno by done. rewrite decide_True by done. tree_eval.
    f_equal. unfold tree_of. simpl. rewrite fmap_insert. do 2 f_equal. unfold node_tree. simpl.
    by rewrite delete_insert_ne by congruence.
  - rewrite (entry_dir _ _ ni nd) in Hno by done. rewrite decide_False by done. tree_eval.
    f_equal. unfold tree_of. simpl. by rewrite !fmap_insert.
Qed.

Lemma moved_wf s p name np newname s' :
  mem_wf s → entry s.(inodes) p name ≠ Some np → moved s p name np newname s' → mem_wf s'.
Proof.
  intros Hw Hinto (i & d & c & Hp & Hd & Hc & Hno & Hm). pose proof (mw_table _ Hw) as Ht.
  assert (children_of i !! name = Some c) as Hci by by rewrite (children_of_dir i d).
  rewrite (entry_dir _ _ i d) in Hinto by done. assert (c ≠ np) as Hcn by congruence.
  destruct (tw_child _ Ht p i name c Hp Hci) as [[j Hj] Hcp]. pose proof (tw_links _ Ht c j Hj) as Hl.
  destruct (table_wf_del _ p i (with_children (delete name d.(children)) i d) name c Ht) as [Ht' Hr];
    [done..|by rewrite (children_of_dir i d)|].
  destruct Hm as [[-> ->]|(Hne & ni & nd & Hn & Hnd & ->)].
  - rewrite (entry_dir _ _ i d) in Hno by done. assert (newname ≠ name) as Hnn by congruence.
    rewrite delete_insert_ne by done.
    assert (<[p := with_children (<[newname := c]> (delete name d.(children))) i d]>
              (<[p := with_children (delete name d.(children)) i d]> s.(inodes))
            = <[p := with_children (<[newname := c]> (delete name d.(children))) i d]> s.(inodes)) as Heq
      by apply insert_insert_eq.
    rewrite <- Heq. apply (mem_wf_two s p p i i); [done..|].
    apply (table_wf_add _ p (with_children (delete name d.(children)) i d) _ newname c j);
      [done|by rewrite lookup_insert_eq|done..|simpl|done|by rewrite lookup_insert_ne|done|lia].
    unfold children_of. simpl. by rewrite lookup_delete_ne.
  - rewrite (entry_dir _ _ ni nd) in Hno by done. apply (mem_wf_two s np p ni i); [done..|].
    apply (table_wf_add _ np ni _ newname c j);
      [done|by rewrite lookup_insert_ne|done..| | |by rewrite lookup_insert_ne|done|lia].
    all: by rewrite (children_of_dir ni nd).
Qed.

(** ** Forgetting *)

(** How many lookups the kernel gives back for an inode. *)
Definition given_back (ino : NodeID) (forgets : list Forget) : Z :=
  foldr (λ f n, (if decide (f.(Forget_raw).(forget_one_nodeid) = ino.(NodeID_into_raw))
                 then Forget_nlookup f else 0) + n) 0 forgets.

Definition forgets_legal (forgets : list Forget) : Prop :=
  Forall (λ f, f.(Forget_raw).(forget_one_nodeid) ≠ 0 ∧ 0 ≤ Forget_nlookup f) forgets.

Definition mentions (ino : NodeID) (forgets : list Forget) : bool :=
  existsb (λ f, f.(Forget_raw).(forget_one_nodeid) =? ino.(NodeID_into_raw)) forgets.

(** What is left of an inode. *)
Definition forget_inode (ino : NodeID) (forgets : list Forget) (i : INode) : option INode :=
  let n := Z.max 0 (i.(refcount) - given_back ino forgets) in
  if mentions ino forgets
  then if (n =? 0) && (i.(links) =? 0) then None else Some (set_refcount n i)
  else Some i.

Lemma given_back_nonneg ino l : forgets_legal l → 0 ≤ given_back ino l.
Proof. induction 1 as [|f l [_ Hf] _ IH]; simpl; [done|]. case_decide; lia. Qed.

Lemma not_mentioned ino l : mentions ino l = false → given_back ino l = 0.
Proof.
  induction l as [|f l IH]; simpl; [done|]. intros [Hf Hl]%orb_false_iff. rewrite IH by done.
  apply Z.eqb_neq in Hf. by rewrite decide_False.
Qed.

Lemma forget_inode_cons ino f l i :
  forgets_legal (f :: l) →
  forget_inode ino (f :: l) i =
  (if decide (f.(Forget_raw).(forget_one_nodeid) = ino.(NodeID_into_raw))
   then let n := Z.max 0 (i.(refcount) - Forget_nlookup f) in
        if (n =? 0) && (i.(links) =? 0) then None else forget_inode ino l (set_refcount n i)
   else forget_inode ino l i).
Proof.
  intros [[_ Hf] Hl]%Forall_cons. pose proof (given_back_nonneg ino l Hl) as Hn.
  unfold forget_inode. simpl. case_decide as He.
  - rewrite (proj2 (Z.eqb_eq _ _) He). simpl.
    assert (Z.max 0 (i.(refcount) - (Forget_nlookup f + given_back ino l))
            = Z.max 0 (Z.max 0 (i.(refcount) - Forget_nlookup f) - given_back ino l)) as -> by lia.
    destruct (mentions ino l) eqn:Hm.
    + destruct (Z.eqb_spec i.(links) 0); rewrite ?andb_true_r, ?andb_false_r; [|done].
      destruct (Z.eqb_spec (Z.max 0 (i.(refcount) - Forget_nlookup f)) 0) as [H0|]; [|done].
      rewrite H0. by rewrite (proj2 (Z.eqb_eq (Z.max 0 (0 - given_back ino l)) 0)) by lia.
    + rewrite (not_mentioned ino l Hm), Z.sub_0_r, Z.max_r by lia. done.
  - rewrite (proj2 (Z.eqb_neq _ _) He). simpl. done.
Qed.

Lemma mem_forget_one_wf s ino n : mem_wf s → mem_wf (mem_forget_one ino n s).
Proof.
  intros Hw. unfold mem_forget_one. destruct (s.(inodes) !! ino) as [i|] eqn:Hi; [|done].
  destruct (_ && _) eqn:Hz; [|by apply (mem_wf_set s ino i)].
  apply andb_prop in Hz as [_ Hz%Z.eqb_eq]. destruct Hw as [Ht Hn Ha]. split; simpl.
  - by apply (table_wf_drop _ ino i).
  - intros k j [_ Hk]%lookup_delete_Some. eauto.
  - intros k j [_ Hk]%lookup_delete_Some. eauto.
Qed.

Lemma mem_forget_one_lookup s f ino k :
  ino.(NodeID_into_raw) = f.(Forget_raw).(forget_one_nodeid) →
  (mem_forget_one ino (Forget_nlookup f) s).(inodes) !! k =
  (i ← s.(inodes) !! k;
   if decide (f.(Forget_raw).(forget_one_nodeid) = k.(NodeID_into_raw))
   then let n := Z.max 0 (i.(refcount) - Forget_nlookup f) in
        if (n =? 0) && (i.(links) =? 0) then None else Some (set_refcount n i)
   else Some i).
Proof.
  intros Hino. unfold mem_forget_one. destruct (decide (k = ino)) as [->|Hne].
  - destruct (s.(inodes) !! ino) as [i|] eqn:Hi; simpl; [|by rewrite Hi].
    rewrite decide_True by done. case_match; simpl; [apply lookup_delete_eq|apply lookup_insert_eq].
  - assert (f.(Forget_raw).(forget_one_nodeid) ≠ k.(NodeID_into_raw)).
    { intros He. apply Hne. destruct k, ino; simpl in *. congruence. }
    destruct (s.(inodes) !! k) as [i|] eqn:Hi; simpl; [rewrite decide_False by done|];
      destruct (s.(inodes) !! ino); try case_match; simpl;
      rewrite ?lookup_delete_ne, ?lookup_insert_ne; done.
Qed.

Lemma mem_forget_runs forgets s :
  mem_wf s → forgets_legal forgets →
  ∃ s', mem_forget forgets s = (Ok tt, s') ∧ mem_wf s' ∧ s'.(next_ino) = s.(next_ino)
    ∧ s'.(dir_handles) = s.(dir_handles)
    ∧ ∀ ino, s'.(inodes) !! ino = s.(inodes) !! ino ≫= forget_inode ino forgets.
Proof.
  revert s. induction forgets as [|f l IH]; intros s Hw Hok.
  { exists s. do 4 (split; [done|]). intros ino. by destruct (s.(inodes) !! ino). }
  pose proof Hok as [[Hf _] Hl]%Forall_cons. simpl.
  set (ino := NodeID_from_raw_unchecked f.(Forget_raw).(forget_one_nodeid)).
  assert (Forget_ino (E := fs_error) f = Ok ino) as Hi.
  { unfold Forget_ino, NodeID_from_raw. by rewrite (proj2 (Z.eqb_neq _ _)). }
  erewrite M_bind_Ok by (unfold lift; by rewrite Hi). erewrite M_bind_Ok by reflexivity.
  destruct (IH (mem_forget_one ino (Forget_nlookup f) s)) as (s' & Hr & Hw' & Hn & Hh & Hl');
    [by apply mem_forget_one_wf|done|].
  assert (∀ k, s'.(inodes) !! k = s.(inodes) !! k ≫= forget_inode k (f :: l)) as Hall.
  { intros k. rewrite Hl', (mem_forget_one_lookup s f ino) by done.
    destruct (s.(inodes) !! k) as [i|]; [|done]. simpl. rewrite forget_inode_cons by done.
    case_decide; simpl; [|done]. by case_match. }
  exists s'. do 2 (split; [done|]). split; [|split; [|done]].
  - rewrite Hn. unfold mem_forget_one. by repeat case_match.
  - rewrite Hh. unfold mem_forget_one. by repeat case_match.
Qed.

(** ** Operations that never return *)

(** Taking a number changes nothing else. *)
Lemma mem_wf_next s n : mem_wf s → s.(next_ino) ≤ n → mem_wf (set_next_ino n s).
Proof. intros [Ht Hn Hi] Hle. split; [done| |done]. intros ino i H. specialize (Hn ino i H). simpl. lia. Qed.

Lemma tree_dir_inv s p c :
  tree_dir (tree_of s) p = Ok c → ∃ i d, s.(inodes) !! p = Some i ∧ as_dir i = Some d ∧ c = d.(children).
Proof.
  unfold tree_dir. rewrite tree_of_lookup. destruct (s.(inodes) !! p) as [i|]; [|done]. simpl.
  unfold node_tree. destruct (as_dir i) as [d|] eqn:Hd; [|done]. intros [= <-]. by exists i, d.
Qed.

Lemma tree_lookup_inv s p name c :
  tree_lookup (tree_of s) p name = Ok c →
  ∃ i d, s.(inodes) !! p = Some i ∧ as_dir i = Some d ∧ d.(children) !! name = Some c.
Proof.
  unfold tree_lookup. destruct (tree_dir (tree_of s) p) as [m|?|?|] eqn:Ht; try done.
  apply tree_dir_inv in Ht as (i & d & Hp & Hd & ->). simpl.
  destruct (d.(children) !! name) as [x|] eqn:Hx; [|done]. intros [= ->]. by exists i, d.
Qed.

(** The operation waits for itself, in the state [s']. *)
Definition stuck {A} (m : M MemFS fs_error A) (s s' : MemFS) : Prop := m s = (Panic "deadlock", s').

Lemma stuck_bind {A B} (m : M MemFS fs_error A) (f : A → M MemFS fs_error B) s s' :
  stuck m s s' → stuck (m ≫= f) s s'.
Proof. unfold stuck, mbind, M_bind. by intros ->. Qed.

Lemma stuck_after {A B} (m : M MemFS fs_error A) (f : A → M MemFS fs_error B) s a s1 s' :
  m s = (Ok a, s1) → stuck (f a) s1 s' → stuck (m ≫= f) s s'.
Proof. unfold stuck, mbind, M_bind. by intros ->. Qed.

Lemma stuck_acquire k ino s : same_shard k ino = true → stuck (acquire [k] ino) s s.
Proof. intros Hk. unfold stuck, acquire. simpl. by rewrite Hk. Qed.

(** The directory in which the operation starts. *)
Lemma stuck_dir {A} p (f : INode → MemDirectory → M MemFS fs_error A) s s' i d :
  s.(inodes) !! p = Some i → as_dir i = Some d → stuck (f i d) s s' →
  stuck (pnode ← get_inode [] p; dir ← get_dir pnode; f pnode dir) s s'.
Proof.
  intros Hp Hd Hf. eapply stuck_after; [apply get_inode_ok; [apply reachable_nil|done]|].
  eapply stuck_after; [|exact Hf]. unfold get_dir, lift, ok_or. by rewrite Hd.
Qed.

Lemma make_node_stuck s p name f c :
  mem_wf s → s.(next_ino) + 1 < 2 ^ 64 → tree_dir (tree_of s) p = Ok c → c !! name = None →
  same_shard p (fresh_ino s) = true →
  stuck (make_node p name f) s (set_next_ino (s.(next_ino) + 1) s).
Proof.
  intros Hw Hlt (i & d & Hp & Hd & ->)%tree_dir_inv Hno Hsh. pose proof (next_ino_pos s Hw).
  eapply stuck_dir; [done..|]. eapply stuck_after; [by rewrite Hno|]. apply stuck_bind. unfold vacant_entry.
  do 2 (eapply stuck_after; [reflexivity|]). rewrite wrap_u_id by (unfold is_u; lia).
  eapply stuck_after; [unfold NodeID_from_raw; by rewrite (proj2 (Z.eqb_neq _ _)) by lia|].
  apply stuck_bind. by apply stuck_acquire.
Qed.

Lemma unlink_node_stuck s p name c :
  tree_lookup (tree_of s) p name = Ok c → same_shard p c = true → stuck (unlink_node p name) s s.
Proof.
  intros (i & d & Hp & Hd & Hc)%tree_lookup_inv Hsh. eapply stuck_dir; [done..|].
  eapply stuck_after; [unfold lift, ok_or; by rewrite Hc|]. do 2 apply stuck_bind. by apply stuck_acquire.
Qed.

Lemma mem_lookup_stuck s op c :
  tree_lookup (tree_of s) op.(Lookup_parent) op.(Lookup_name) = Ok c → same_shard op.(Lookup_parent) c = true →
  stuck (mem_lookup op) s s.
Proof.
  intros (i & d & Hp & Hd & Hc)%tree_lookup_inv Hsh. eapply stuck_dir; [done..|].
  eapply stuck_after; [unfold lift, ok_or; by rewrite Hc|]. do 2 apply stuck_bind. by apply stuck_acquire.
Qed.

Lemma mem_link_stuck s op :
  op.(Link_ino) ≠ op.(Link_newparent) → is_Some (tree_of s !! op.(Link_ino)) →
  same_shard op.(Link_ino) op.(Link_newparent) = true → stuck (mem_link op) s s.
Proof.
  intros Hne Hs Hsh. rewrite tree_of_lookup, fmap_is_Some in Hs. destruct Hs as [i Hi].
  eapply stuck_after; [apply get_inode_ok; [apply reachable_nil|done]|].
  eapply stuck_after; [by rewrite decide_False|]. do 2 apply stuck_bind. by apply stuck_acquire.
Qed.

Lemma mem_rename_stuck s op c :
  op.(Rename_flags) = 0 → tree_dir (tree_of s) op.(Rename_parent) = Ok c →
  op.(Rename_newparent) ≠ op.(Rename_parent) → same_shard op.(Rename_parent) op.(Rename_newparent) = true →
  stuck (mem_rename op) s s.
Proof.
  intros Hfl (i & d & Hp & Hd & _)%tree_dir_inv Hne Hsh. unfold mem_rename. rewrite Hfl.
  change (negb (0 =? 0)) with false. cbv beta iota. eapply stuck_dir; [done..|].
  rewrite decide_False by done. do 2 apply stuck_bind. by apply stuck_acquire.
Qed.
End operations.
