(* ===== verification/MemFsRun.v ===== *)
(** * The file system in memory: runs

Every operation of [src/examples_disabled/memfs.rs] on a table that satisfies
the invariant: the operations on names do what the abstract tree does, errors
included, all others leave the tree as it is, and no sequence of operations
panics.  An operation that asks for a second entry of the table never returns when that
entry is in the shard of the first. *)

From stdpp Require Import gmap.
From S2P Require Import Prelude Layout Kernel Crates Types Operation MemFs MemFsSpec.
Local Open Scope Z_scope.

Section steps.
Context `{MA : MemApi} `{L : Libc} `{BF : Bitflags} `{PR : Profile} (now : Duration).

(** ** What an operation does to the tree *)

Definition tree_step (op : mem_op) (fresh : NodeID) (t : tree) : option (outcome Errno tree) :=
  match op with
  | MemLookup op => Some (_ ← tree_lookup t op.(Lookup_parent) op.(Lookup_name); Ok t)
  | MemMknod op =>
      Some (if decide (FileMode_file_type op.(Mknod_mode) = Some Regular)
            then tree_make t op.(Mknod_parent) op.(Mknod_name) fresh None else Err MErrno_NOTSUP)
  | MemMkdir op => Some (tree_make t op.(Mkdir_parent) op.(Mkdir_name) fresh (Some ∅))
  | MemSymlink op => Some (tree_make t op.(Symlink_parent) op.(Symlink_name) fresh None)
  | MemLink op => Some (tree_link t op.(Link_ino) op.(Link_newparent) op.(Link_newname))
  | MemUnlink op => Some (tree_unlink t op.(Unlink_parent) op.(Unlink_name))
  | MemRmdir op => Some (tree_unlink t op.(Rmdir_parent) op.(Rmdir_name))
  | MemRename op =>
      Some (if op.(Rename_flags) =? 0
            then tree_rename t op.(Rename_parent) op.(Rename_name) op.(Rename_newparent) op.(Rename_newname)
            else Err MErrno_INVAL)
  | _ => None
  end.

(** The entry whose inode an operation answers with. *)
Definition answered_entry (op : mem_op) : option (NodeID * OsStr) :=
  match op with
  | MemLookup op => Some (op.(Lookup_parent), op.(Lookup_name))
  | MemMknod op => Some (op.(Mknod_parent), op.(Mknod_name))
  | MemMkdir op => Some (op.(Mkdir_parent), op.(Mkdir_name))
  | MemSymlink op => Some (op.(Symlink_parent), op.(Symlink_name))
  | MemLink op => Some (op.(Link_newparent), op.(Link_newname))
  | _ => None
  end.

Definition answers (op : mem_op) (r : option mem_reply) (s' : MemFS) : Prop :=
  match answered_entry op with
  | Some (p, name) =>
      ∃ ino i attr_valid, r = Some (EntryOut ino i.(attr) attr_valid (Some s'.(mem_ttl)))
        ∧ entry s'.(inodes) p name = Some ino ∧ s'.(inodes) !! ino = Some i
  | None => r = Some Empty
  end.

(** ** Where an operation waits for itself *)

(** The entry an operation holds and the second one it asks for, when it gets there. *)
Definition second_entry (s : MemFS) (op : mem_op) : option (NodeID * NodeID) :=
  let t := tree_of s in
  let make p name :=
    match tree_dir t p with
    | Ok c => match c !! name with None => Some (p, fresh_ino s) | Some _ => None end
    | _ => None
    end in
  let follow p name := match tree_lookup t p name with Ok c => Some (p, c) | _ => None end in
  match op with
  | MemLookup op => follow op.(Lookup_parent) op.(Lookup_name)
  | MemMknod op =>
      if decide (FileMode_file_type op.(Mknod_mode) = Some Regular)
      then make op.(Mknod_parent) op.(Mknod_name) else None
  | MemMkdir op => make op.(Mkdir_parent) op.(Mkdir_name)
  | MemSymlink op => make op.(Symlink_parent) op.(Symlink_name)
  | MemLink op =>
      match t !! op.(Link_ino) with Some _ => Some (op.(Link_ino), op.(Link_newparent)) | None => None end
  | MemUnlink op => follow op.(Unlink_parent) op.(Unlink_name)
  | MemRmdir op => follow op.(Rmdir_parent) op.(Rmdir_name)
  | MemRename op =>
      if op.(Rename_flags) =? 0 then
        match tree_dir t op.(Rename_parent) with
        | Ok _ => if decide (op.(Rename_newparent) = op.(Rename_parent)) then None
                  else Some (op.(Rename_parent), op.(Rename_newparent))
        | _ => None
        end
      else None
  | _ => None
  end.

(** The second entry is behind the lock the operation already holds. *)
Definition hangs (s : MemFS) (op : mem_op) : bool :=
  match second_entry s op with Some (held, wanted) => same_shard held wanted | None => false end.

(** ** What the kernel and the counters guarantee *)

Definition names_total (names : list OsStr) : Z := foldr (λ n acc, Z.of_nat (length n) + 1 + acc) 0 names.

(** Counters are not at their largest value; a directory is not moved into
itself or linked; handles were opened; sizes fit. *)
Definition legal (s : MemFS) (op : mem_op) : Prop :=
  match op with
  | MemLookup op => ∀ c i, entry s.(inodes) op.(Lookup_parent) op.(Lookup_name) = Some c →
      s.(inodes) !! c = Some i → 0 ≤ i.(refcount) < 2 ^ 64 - 1
  | MemForget forgets => forgets_legal forgets
  | MemReleasedir op => is_Some (s.(dir_handles) !! op.(Releasedir_fh).(FileID_into_raw))
  | MemMknod _ | MemMkdir _ | MemSymlink _ => s.(next_ino) + 1 < 2 ^ 64
  | MemLink op => op.(Link_ino) ≠ op.(Link_newparent)
      ∧ ∀ i, s.(inodes) !! op.(Link_ino) = Some i → counts_ok i
  | MemRename op => entry s.(inodes) op.(Rename_parent) op.(Rename_name) ≠ Some op.(Rename_newparent)
  | MemListxattr op => ∀ i, s.(inodes) !! op.(Listxattr_ino) = Some i → names_total (xattr_names i) < 2 ^ 32
  | MemWrite op _ => 0 ≤ op.(Write_offset) ∧ 0 ≤ op.(Write_size) ∧ op.(Write_offset) + op.(Write_size) ≤ isize_max
      ∧ ∀ i c, s.(inodes) !! op.(Write_ino) = Some i → as_file i = Some c → Z.of_nat (length c) ≤ isize_max
  | _ => True
  end.

(** ** The operations on names *)

Lemma safe_replies (I : fs_error → MemFS → Prop) Q (m : M MemFS fs_error mem_reply) s :
  safe I (λ r s', Q (Some r) s') m s → safe I Q (replies m) s.
Proof. intros H. by apply safe_bind. Qed.

(** The effect of an operation on names, from what its lemma says. *)
Definition refines_tree (op : mem_op) (s : MemFS) (o : outcome Errno tree) : Prop :=
  safe (fails o s) (λ r s', mem_wf s' ∧ o = Ok (tree_of s') ∧ answers op r s') (mem_apply now op) s.

Lemma entry_of_tree s p name c : tree_lookup (tree_of s) p name = Ok c ↔ entry s.(inodes) p name = Some c.
Proof.
  unfold tree_lookup, tree_dir, entry, node_tree, children_of. rewrite tree_of_lookup.
  destruct (s.(inodes) !! p) as [i|]; simpl; [|done]. unfold node_tree.
  destruct (as_dir i) as [d|]; simpl; [|by rewrite lookup_empty].
  destruct (d.(children) !! name); simpl; naive_solver.
Qed.

Lemma created_answers s p name inode s' :
  mem_wf s → created s p name inode s' →
  entry s'.(inodes) p name = Some (fresh_ino s) ∧ s'.(inodes) !! fresh_ino s = Some inode
  ∧ s'.(mem_ttl) = s.(mem_ttl).
Proof.
  intros Hw (i & d & Hp & Hd & Hno & Hin & _ & _ & Httl). pose proof (fresh_ino_free s Hw) as Hf.
  rewrite Hin. split; [|split; [|done]].
  - rewrite (entry_dir _ p (with_children (<[name := fresh_ino s]> d.(children)) i d)
               (set_children (<[name := fresh_ino s]> d.(children)) d)).
    + apply lookup_insert_eq.
    + by rewrite lookup_insert_eq.
    + done.
  - rewrite lookup_insert_ne by congruence. by rewrite lookup_insert_eq.
Qed.

Lemma make_refines op s p name f node m :
  mem_apply now op = replies m → answered_entry op = Some (p, name) → m = make_node p name f →
  mem_wf s → s.(next_ino) + 1 < 2 ^ 64 → (∀ ino, f ino = Ok (node ino)) →
  (∀ c, tree_dir (tree_of s) p = Ok c → c !! name = None → same_shard p (fresh_ino s) = false) →
  (∀ ino, (node ino).(links) = 1 ∧ children_of (node ino) = ∅ ∧ (node ino).(attr).(FileAttr_ino) = ino) →
  refines_tree op s (tree_make (tree_of s) p name (fresh_ino s) (node_tree (node (fresh_ino s)))).
Proof.
  intros Hop Han -> Hw Hlt Hf Hsh Hn. destruct (Hn (fresh_ino s)) as (Hl & Hc & Ha).
  unfold refines_tree. rewrite Hop. apply safe_replies.
  apply (safe_mono _ _ _ _ _ (make_node_safe s p name f node Hw Hlt Hf Hsh)). intros r s' [-> Hcr].
  destruct (created_answers s p name _ s' Hw Hcr) as (He & Hi & Httl).
  split; [by apply (created_wf s p name (node (fresh_ino s)))|]. split; [by apply created_tree|].
  unfold answers. rewrite Han, Httl. by eexists _, _, _.
Qed.

Lemma lookup_refines s op :
  mem_wf s → legal s (MemLookup op) → hangs s (MemLookup op) = false →
  refines_tree (MemLookup op) s (_ ← tree_lookup (tree_of s) op.(Lookup_parent) op.(Lookup_name); Ok (tree_of s)).
Proof.
  intros Hw Hleg Hsh. unfold refines_tree. apply safe_replies. unfold mem_lookup.
  call; [failing|]. call; [failing|]. call; [failing|]. rename a into c.
  assert (entry s.(inodes) op.(Lookup_parent) op.(Lookup_name) = Some c) as He
    by by rewrite (entry_dir _ _ i d).
  destruct (tw_child _ (mw_table _ Hw) op.(Lookup_parent) i op.(Lookup_name) c) as [[j Hj] Hne];
    [done|by rewrite (children_of_dir i d)|].
  assert (same_shard op.(Lookup_parent) c = false) as Hpc.
  { revert Hsh. unfold hangs, second_entry. by rewrite (proj2 (entry_of_tree s _ _ c) He). }
  apply safe_bind, (safe_expect_inode _ _ _ _ _ j); [by apply reachable_one|done|].
  rewrite arith_u_ok by (specialize (Hleg c j He Hj); unfold is_u; lia). do 4 call.
  assert (tree_of (set_inodes (<[c := set_refcount (j.(refcount) + 1) j]> s.(inodes)) s) = tree_of s) as Ht.
  { unfold tree_of. simpl. rewrite fmap_insert. apply insert_id. by rewrite lookup_fmap, Hj. }
  split; [by apply (mem_wf_set s c j)|]. split.
  - rewrite Ht. by rewrite (proj2 (entry_of_tree s _ _ c) He).
  - exists c, (set_refcount (j.(refcount) + 1) j), (Some s.(mem_ttl)). split; [done|].
    split; [|apply lookup_insert_eq]. apply entry_of_tree. rewrite Ht. by apply entry_of_tree.
Qed.

Lemma unlink_refines op s p name :
  mem_apply now op = replies (_ ← unlink_node p name; mret Empty) → answered_entry op = None →
  mem_wf s → (∀ c, tree_lookup (tree_of s) p name = Ok c → same_shard p c = false) →
  refines_tree op s (tree_unlink (tree_of s) p name).
Proof.
  intros Hop Han Hw Hsh. unfold refines_tree. rewrite Hop. apply safe_replies, safe_bind.
  apply (safe_mono _ _ _ _ _ (unlink_node_safe s p name Hw Hsh)). intros _ s' Hr. apply safe_ret.
  split; [by apply (removed_wf s p name)|]. split; [by apply removed_tree|]. unfold answers. by rewrite Han.
Qed.

Lemma link_refines op s :
  mem_wf s → legal s (MemLink op) → hangs s (MemLink op) = false →
  refines_tree (MemLink op) s (tree_link (tree_of s) op.(Link_ino) op.(Link_newparent) op.(Link_newname)).
Proof.
  intros Hw [Hne Hok] Hsh. unfold refines_tree. apply safe_replies.
  assert (is_Some (tree_of s !! op.(Link_ino)) → same_shard op.(Link_ino) op.(Link_newparent) = false) as Hpc.
  { intros [n Hn]. revert Hsh. unfold hangs, second_entry. by rewrite Hn. }
  apply (safe_mono _ _ _ _ _ (mem_link_safe s op Hne Hok Hpc)). intros r s' [Hl (i & Hi & ->)].
  pose proof (linked_tree _ _ _ _ _ Hl) as Ht.
  assert (s'.(mem_ttl) = s.(mem_ttl)) as Httl by by destruct Hl as (? & ? & ? & ? & ? & ? & ? & ? & ->).
  split; [by apply (linked_wf _ _ _ _ _ Hw Hl)|]. split; [done|].
  exists op.(Link_ino), i, None. rewrite Httl. split; [done|]. split; [|done].
  destruct Hl as (pn & d & j & Hp & Hd & Hno & Hj & _ & ->). simpl.
  rewrite (entry_dir _ _ (with_children (<[op.(Link_newname) := op.(Link_ino)]> d.(children)) pn d)
             (set_children (<[op.(Link_newname) := op.(Link_ino)]> d.(children)) d)).
  - apply lookup_insert_eq.
  - rewrite lookup_insert_ne by done. by rewrite lookup_insert_eq.
  - done.
Qed.

Lemma rename_refines op s :
  mem_wf s → legal s (MemRename op) → hangs s (MemRename op) = false → op.(Rename_flags) = 0 →
  refines_tree (MemRename op) s
    (tree_rename (tree_of s) op.(Rename_parent) op.(Rename_name) op.(Rename_newparent) op.(Rename_newname)).
Proof.
  intros Hw Hleg Hsh Hfl. unfold refines_tree. apply safe_replies.
  assert (∀ c, tree_dir (tree_of s) op.(Rename_parent) = Ok c → op.(Rename_newparent) ≠ op.(Rename_parent) →
    same_shard op.(Rename_parent) op.(Rename_newparent) = false) as Hpc.
  { intros c Hc Hne. revert Hsh. unfold hangs, second_entry. rewrite Hfl, Hc. by rewrite decide_False. }
  apply (safe_mono _ _ _ _ _ (mem_rename_safe s op Hfl Hpc)). intros r s' [-> Hm].
  split; [by apply (moved_wf _ _ _ _ _ _ Hw Hleg Hm)|]. split; [by apply moved_tree|done].
Qed.

(** What [hangs] says of an operation that makes or follows an entry. *)
Lemma make_apart s p name :
  match match tree_dir (tree_of s) p with
        | Ok c => match c !! name with None => Some (p, fresh_ino s) | Some _ => None end
        | _ => None
        end with Some (held, wanted) => same_shard held wanted | None => false end = false →
  ∀ c, tree_dir (tree_of s) p = Ok c → c !! name = None → same_shard p (fresh_ino s) = false.
Proof. intros H c Hc Hno. by rewrite Hc, Hno in H. Qed.

Lemma follow_apart s p name :
  match match tree_lookup (tree_of s) p name with Ok c => Some (p, c) | _ => None end with
  | Some (held, wanted) => same_shard held wanted | None => false end = false →
  ∀ c, tree_lookup (tree_of s) p name = Ok c → same_shard p c = false.
Proof. intros H c Hc. by rewrite Hc in H. Qed.

(** The refinement, for all operations on names. *)
Lemma names_refine op s o :
  mem_wf s → legal s op → hangs s op = false →
  tree_step op (fresh_ino s) (tree_of s) = Some o → refines_tree op s o.
Proof.
  intros Hw Hleg Hsh Hstep. destruct op; simpl in Hstep; inversion Hstep; subst o; clear Hstep.
  - by apply lookup_refines.
  - unfold hangs, second_entry in Hsh. case_decide as Hm.
    + apply (make_refines _ s _ _ (λ ino, a ← attr_of ino 1 op.(Mknod_mode); Ok (new_inode a (RegularFile [])))
               (λ ino, new_inode (fresh_attr ino 1 op.(Mknod_mode)) (RegularFile []))
               (mem_mknod op)); try done; [unfold mem_mknod; by rewrite Hm|by apply make_apart].
    + unfold refines_tree. apply safe_replies. unfold mem_mknod.
      destruct (FileMode_file_type _) as [[]|]; try done; apply safe_errno; split; eauto.
  - by eapply (make_refines _ s _ _ _ (λ ino,
      new_inode (fresh_attr ino 2 (FileMode_new Directory op.(Mkdir_permissions)))
        (DirectoryNode {| children := ∅; parent := Some op.(Mkdir_parent) |})) (mem_mkdir op));
      try done; apply make_apart.
  - by eapply (make_refines _ s _ _ _ (λ ino, new_inode (fresh_attr ino 1 (FileMode_new SymbolicLink
      (bf_union (bf_union FilePermissions_READ FilePermissions_WRITE) FilePermissions_EXEC)))
        (SymlinkNode op.(Symlink_link))) (mem_symlink op)); try done; apply make_apart.
  - by apply link_refines.
  - apply unlink_refines; [done..|]. by apply follow_apart.
  - apply unlink_refines; [done..|]. by apply follow_apart.
  - destruct (Z.eqb_spec op.(Rename_flags) 0) as [Hfl|Hfl]; [by apply rename_refines|].
    unfold refines_tree. apply safe_replies. unfold mem_rename.
    rewrite (proj2 (Z.eqb_neq _ _) Hfl). apply safe_errno. split; eauto.
Qed.

(** ** The other operations *)

Definition quiet (s s' : MemFS) : Prop := mem_wf s' ∧ tree_of s' = tree_of s.

Lemma quiet_refl s : mem_wf s → quiet s s.
Proof. done. Qed.

Lemma quiet_handles s h : mem_wf s → quiet s (set_dir_handles h s).
Proof. intros Hw. split; [by apply mem_wf_handles|done]. Qed.

Lemma quiet_set s k i i' :
  mem_wf s → s.(inodes) !! k = Some i → node_tree i' = node_tree i → i'.(links) = i.(links) →
  i'.(attr).(FileAttr_ino) = i.(attr).(FileAttr_ino) →
  quiet s (set_inodes (<[k := i']> s.(inodes)) s).
Proof.
  intros Hw Hk Hn Hl Ha. assert (is_Some (as_dir i) → is_Some (as_dir i')) as Hd.
  { unfold node_tree in Hn. intros [d Hd]. rewrite Hd in Hn. destruct (as_dir i'); [by eexists|done]. }
  assert (children_of i' = children_of i) as Hc.
  { revert Hn. unfold node_tree, children_of. destruct (as_dir i), (as_dir i'); simpl; congruence. }
  split.
  - apply (mem_wf_set s k i); try done. by rewrite Hl.
  - unfold tree_of. simpl. rewrite fmap_insert, Hn. apply insert_id. by rewrite lookup_fmap, Hk.
Qed.

(** The two conditions of [quiet] for one inode that keeps its kind. *)
Ltac quietly := eapply quiet_set; [done|eassumption|reflexivity..].

Lemma safe_names_len (I : fs_error → MemFS → Prop) Q acc names s :
  0 ≤ acc → acc + names_total names < 2 ^ 32 →
  Q (acc + names_total names) s → safe I Q (lift (names_len acc names)) s.
Proof.
  revert acc. induction names as [|n l IH]; intros acc Hacc Hlt HQ; simpl in *.
  { by rewrite Z.add_0_r in HQ. }
  assert (0 ≤ names_total l) by (clear; induction l; simpl; lia).
  unfold wrap_u. rewrite Z.mod_small, !arith_u_ok by (unfold is_u; lia). simpl.
  rewrite !arith_u_ok by (unfold is_u; lia). simpl. apply IH; [lia..|]. by rewrite <- Z.add_assoc.
Qed.

Definition is_write (op : mem_op) : bool := match op with MemWrite _ _ => true | _ => false end.

(** What an error leaves. *)
Definition kept (op : mem_op) (s : MemFS) (_ : fs_error) (s' : MemFS) : Prop :=
  quiet s s' ∧ (is_write op = false → s' = s).

Lemma write_quiet op data s :
  mem_wf s → legal s (MemWrite op data) →
  safe (kept (MemWrite op data) s) (λ _ s', quiet s s') (mem_apply now (MemWrite op data)) s.
Proof.
  intros Hw (Ho & Hs & He & Hc). apply safe_replies. unfold mem_write.
  do 2 call.
  rename a into c. specialize (Hc i c). assert (isize_max < 2 ^ 64) by done.
  rewrite arith_u_ok by (unfold is_u; lia). call.
  rewrite (proj2 (Z.ltb_ge isize_max _)) by (specialize (Hc ltac:(done) ltac:(done)); lia). call. call.
  rewrite (proj2 (Z.ltb_ge (op.(Write_offset) + _) _)) by lia. call. call.
  assert (∀ c' a, a.(FileAttr_ino) = i.(attr).(FileAttr_ino) →
    quiet s (set_inodes (<[op.(Write_ino) := set_attr a (set_kind (RegularFile c') i)]> s.(inodes)) s)) as Hq.
  { intros c' a Ha. apply (quiet_set s _ i); [done..| |done|done]. unfold node_tree, as_dir, as_file in *.
    simpl. by destruct (kind i). }
  simpl. rewrite !insert_insert_eq. case_match.
  - split; [|done]. by apply (Hq _ i.(attr)).
  - call. simpl. rewrite !insert_insert_eq. call. by apply Hq.
Qed.

Lemma forget_quiet forgets s :
  mem_wf s → forgets_legal forgets →
  safe (kept (MemForget forgets) s) (λ _ s', mem_wf s' ∧ tree_of s' ⊆ tree_of s)
    (mem_apply now (MemForget forgets)) s.
Proof.
  intros Hw Hok. destruct (mem_forget_runs forgets s Hw Hok) as (s' & Hr & Hw' & _ & _ & Hl).
  simpl. unfold safe. erewrite M_bind_Ok by exact Hr. split; [done|].
  apply map_subseteq_spec. intros k n. rewrite !tree_of_lookup, Hl.
  destruct (s.(inodes) !! k) as [i|]; [|done]. simpl. unfold forget_inode. repeat case_match; done.
Qed.

Definition is_forget (op : mem_op) : bool := match op with MemForget _ => true | _ => false end.

Lemma others_quiet op s :
  mem_wf s → legal s op → tree_step op (fresh_ino s) (tree_of s) = None → is_forget op = false →
  safe (kept op s) (λ _ s', quiet s s') (mem_apply now op) s.
Proof.
  intros Hw Hleg Hstep Hf. destruct op as [| |op|op|op|op|op|op| | | | | | | |op|op|op|op|op|op data];
    try done; [apply safe_replies..|by apply write_quiet].
  - unfold mem_getattr. by do 3 call.
  - unfold mem_setattr. do 4 call. quietly.
  - unfold mem_readlink. by do 3 call.
  - unfold mem_opendir. call. case_match; [by call|]. do 4 call. by apply quiet_handles.
  - unfold mem_readdir. case_match; [|by call]. do 4 call. by apply quiet_handles.
  - unfold mem_releasedir. call. destruct Hleg as [h ->]. do 2 call. by apply quiet_handles.
  - unfold mem_getxattr. do 2 call. repeat case_match; by call.
  - unfold mem_setxattr. case_match; [by call|]. call. destruct (i.(xattrs) !! op.(Setxattr_name)).
    all: case_match; [by call|]; do 2 call; quietly.
  - unfold mem_listxattr. call. apply safe_bind, safe_names_len; [done|by apply Hleg|].
    repeat case_match; by call.
  - unfold mem_removexattr. call. case_match; [|by call]. do 2 call. quietly.
  - unfold mem_read. by do 3 call.
Qed.

(** Any operation keeps the invariant; an error of any but WRITE changes nothing. *)
Lemma operation_safe op s :
  mem_wf s → legal s op → hangs s op = false → safe (kept op s) (λ _ s', mem_wf s') (mem_apply now op) s.
Proof.
  intros Hw Hleg Hsh. destruct (tree_step op (fresh_ino s) (tree_of s)) as [o|] eqn:Ho.
  - pose proof (names_refine op s o Hw Hleg Hsh Ho) as H. unfold refines_tree, safe in H.
    unfold safe. destruct (mem_apply now op s) as [[r|e|w|] s']; [by destruct H| |done..].
    destruct H as [-> _]. done.
  - destruct (is_forget op) eqn:Hf.
    + destruct op; try done. eapply safe_mono; [by apply forget_quiet|]. by intros _ s' [? _].
    + eapply safe_mono; [by apply others_quiet|]. by intros _ s' [? _].
Qed.

(** An operation that hangs does so with the table as it was. *)
Lemma operation_stuck op s :
  mem_wf s → legal s op → hangs s op = true →
  ∃ s', stuck (mem_apply now op) s s' ∧ mem_wf s' ∧ s'.(inodes) = s.(inodes) ∧ s'.(dir_handles) = s.(dir_handles).
Proof.
  intros Hw Hleg. unfold hangs. pose proof (mem_wf_next s (s.(next_ino) + 1) Hw ltac:(lia)) as Hw'.
  destruct (second_entry s op) as [[held wanted]|] eqn:He; [|done]. intros Hsh.
  destruct op; simpl in He; try done.
  - destruct (tree_lookup _ _ _) eqn:Hl; simplify_eq. exists s. split; [|done].
    apply stuck_bind. by eapply mem_lookup_stuck.
  - case_decide as Hm; [|done]. destruct (tree_dir _ _) as [c|?|?|] eqn:Hd; simplify_eq/=.
    destruct (c !! _) eqn:Hc; simplify_eq. eexists. split; [|by split; [exact Hw'|]].
    apply stuck_bind. unfold mem_mknod. rewrite Hm. by eapply make_node_stuck.
  - destruct (tree_dir _ _) as [c|?|?|] eqn:Hd; simplify_eq/=.
    destruct (c !! _) eqn:Hc; simplify_eq. eexists. split; [|by split; [exact Hw'|]].
    apply stuck_bind. by eapply make_node_stuck.
  - destruct (tree_dir _ _) as [c|?|?|] eqn:Hd; simplify_eq/=.
    destruct (c !! _) eqn:Hc; simplify_eq. eexists. split; [|by split; [exact Hw'|]].
    apply stuck_bind. by eapply make_node_stuck.
  - destruct (tree_of s !! _) eqn:Ht; simplify_eq. destruct Hleg as [Hne _]. exists s. split; [|done].
    apply stuck_bind. apply mem_link_stuck; [done|by eexists|done].
  - destruct (tree_lookup _ _ _) eqn:Hl; simplify_eq. exists s. split; [|done].
    do 2 apply stuck_bind. by eapply unlink_node_stuck.
  - destruct (tree_lookup _ _ _) eqn:Hl; simplify_eq. exists s. split; [|done].
    do 2 apply stuck_bind. by eapply unlink_node_stuck.
  - destruct (Z.eqb_spec op.(Rename_flags) 0); [|done].
    destruct (tree_dir _ _) as [c|?|?|] eqn:Hd; simplify_eq/=. case_decide; simplify_eq.
    exists s. split; [|done]. apply stuck_bind. by eapply mem_rename_stuck.
Qed.

(** ** Sequences of operations *)

Inductive mem_steps : MemFS → list mem_op → MemFS → Prop :=
  | steps_nil s : mem_steps s [] s
  | steps_cons s op s1 ops s2 :
      legal s op → hangs s op = false → (mem_apply now op s).2 = s1 → mem_steps s1 ops s2 → mem_steps s (op :: ops) s2.

Lemma steps_wf s ops s' : mem_steps s ops s' → mem_wf s → mem_wf s'.
Proof.
  induction 1 as [s|s op s1 ops s2 Hleg Hsh Hs _ IH]; [done|]. intros Hw. apply IH.
  pose proof (operation_safe op s Hw Hleg Hsh) as H. unfold safe in H.
  destruct (mem_apply now op s) as [[r|e|w|] s']; simpl in Hs; subst; try done. by destruct H as [[? _] _].
Qed.

Lemma new_wf : ∃ s, MemFS_new = Ok s ∧ mem_wf s.
Proof.
  eexists. split; [reflexivity|]. split; simpl.
  - split.
    + eexists. split; [apply lookup_insert_eq|by eexists].
    + intros d i name c [[<- <-]|[_ ?]]%lookup_insert_Some Hc; [|by rewrite lookup_empty in *].
      unfold children_of in Hc. simpl in Hc. by rewrite lookup_empty in Hc.
    + intros c i Hi. unfold refs. rewrite map_sum_insert by apply lookup_empty.
      rewrite map_sum_empty. unfold node_refs, children_of. simpl. rewrite map_sum_empty.
      apply lookup_insert_Some in Hi as [[<- <-]|[_ Hi]]; [done|by rewrite lookup_empty in Hi].
  - intros ino i [[<- <-]|[_ Hi]]%lookup_insert_Some; [done|by rewrite lookup_empty in Hi].
  - intros ino i [[<- <-]|[_ Hi]]%lookup_insert_Some; [done|by rewrite lookup_empty in Hi].
Qed.
End steps.

Section claims.
Context `{MA : MemApi} `{L : Libc} `{BF : Bitflags} `{PR : Profile} (now : Duration).

(** C10: From a fresh file system, after any sequence of legal operations that returned,
the next legal operation never returns exactly when it holds an entry of the table and
asks for another one behind the same lock (LOOKUP, UNLINK and RMDIR for the child, MKNOD,
MKDIR and SYMLINK for the new inode, LINK and RENAME for the other parent); the table is
then as it was.  Otherwise the operation does not panic: it ends with a reply or with an
error, and an error of any operation but WRITE leaves the state as it was.  In the state
reached every entry of a directory still leads to an inode of the table, no inode has
more entries than links, and all numbers given out are below the next one. *)
Theorem memfs_reachable s0 ops s op :
  MemFS_new = Ok s0 → mem_steps now s0 ops s → legal s op →
  ∃ r s', mem_apply now op s = (r, s') ∧ mem_wf s' ∧
    if hangs s op then r = Panic "deadlock" ∧ s'.(inodes) = s.(inodes) ∧ s'.(dir_handles) = s.(dir_handles)
    else (∃ reply, r = Ok reply) ∨ ∃ e, r = Err e ∧ (is_write op = false → s' = s).
Proof.
  intros Hnew Hsteps Hleg. destruct new_wf as (s1 & Hs1 & Hw1). rewrite Hnew in Hs1. simplify_eq.
  pose proof (steps_wf now _ _ _ Hsteps Hw1) as Hw. destruct (hangs s op) eqn:Hsh.
  { destruct (operation_stuck now op s Hw Hleg Hsh) as (s' & Hst & Hw' & Hin & Hdh).
    by exists (Panic "deadlock"), s'. }
  pose proof (operation_safe now op s Hw Hleg Hsh) as H. unfold safe in H.
  destruct (mem_apply now op s) as [[r|e|w|] s'] eqn:Hap; [| |done..]; exists (mem_apply now op s).1, s';
    rewrite Hap; (split; [done|]).
  - eauto.
  - destruct H as [[? _] ?]. eauto 6.
Qed.

(** C11: LOOKUP, MKNOD, MKDIR, SYMLINK, LINK, UNLINK, RMDIR and RENAME refine the
abstract tree, unless the operation waits for itself on a lock of the table: where the
tree refuses the operation, the operation fails with the same error code and changes
nothing; otherwise it succeeds, the new table is the new tree, and a reply with an entry
carries the inode and the attributes the name now leads to. *)
Theorem memfs_names_refine s op o :
  mem_wf s → legal s op → tree_step op (fresh_ino s) (tree_of s) = Some o →
  if hangs s op then ∃ s', mem_apply now op s = (Panic "deadlock", s') ∧ tree_of s' = tree_of s
  else match o with
  | Ok t => ∃ r s', mem_apply now op s = (Ok r, s') ∧ mem_wf s' ∧ tree_of s' = t ∧ answers op r s'
  | Err e => mem_apply now op s = (Err (FsErrno e), s)
  | _ => False
  end.
Proof.
  intros Hw Hleg Ho. destruct (hangs s op) eqn:Hsh.
  { destruct (operation_stuck now op s Hw Hleg Hsh) as (s' & Hst & _ & Hin & _). exists s'. split; [done|].
    unfold tree_of. by rewrite Hin. }
  pose proof (names_refine now op s o Hw Hleg Hsh Ho) as H. unfold refines_tree, safe in H.
  destruct (mem_apply now op s) as [[r|e|w|] s']; [| |done..].
  - destruct H as (Hw' & -> & Ha). eauto 6.
  - destruct H as [-> (n & -> & ->)]. done.
Qed.

(** FORGET subtracts the counts the kernel gives back, stopping at zero, and
removes an inode exactly when it is mentioned, its count reaches zero and no
link is left; all other inodes, the numbering and the open directories stay. *)
Theorem memfs_forget_reclaims s forgets :
  mem_wf s → forgets_legal forgets →
  ∃ s', mem_apply now (MemForget forgets) s = (Ok None, s') ∧ mem_wf s' ∧ s'.(next_ino) = s.(next_ino)
    ∧ s'.(dir_handles) = s.(dir_handles)
    ∧ ∀ ino, s'.(inodes) !! ino = s.(inodes) !! ino ≫= forget_inode ino forgets.
Proof.
  intros Hw Hok. destruct (mem_forget_runs forgets s Hw Hok) as (s' & Hr & H).
  exists s'. split; [|done]. simpl. by erewrite M_bind_Ok by exact Hr.
Qed.

End claims.

(** ** Examples *)

(** The largest key in use, plus one. *)
Definition next_key (m : gmap Z DirHandle) : Z := map_fold (λ k _ acc, Z.max (k + 1) acc) 0 m.

(** A reply of bytes, and a table of four shards. *)
Definition ref_memapi : MemApi := {|
  MErrno_NOENT := 2; MErrno_NOTDIR := 20; MErrno_EXIST := 17; MErrno_NOTEMPTY := 39;
  MErrno_INVAL := 22; MErrno_NOSYS := 38; MErrno_NOTSUP := 95; MErrno_NODATA := 61; MErrno_RANGE := 34;
  XattrFlags_CREATE := 1; XattrFlags_REPLACE := 2;
  hash_order A m := map_to_list m;
  slab_vacant_key := next_key;
  readdir_full size pushed e := dirent_bytes (pushed ++ [e]) >? size;
  same_shard held wanted := held.(NodeID_into_raw) mod 4 =? wanted.(NodeID_into_raw) mod 4 |}.

Lemma next_key_above m k h : m !! k = Some h → k < next_key m.
Proof.
  unfold next_key. revert k h. apply (map_fold_weak_ind (λ acc m, ∀ k h, m !! k = Some h → k < acc)); [done|].
  intros i x m' acc Hi IH k h [[<- _]|[_ Hk]]%lookup_insert_Some; [lia|]. specialize (IH k h Hk). lia.
Qed.

Lemma ref_memapi_spec : @MemApiSpec ref_memapi.
Proof.
  split; try done; [|intros k; apply Z.eqb_refl]. intros m. simpl. destruct (m !! next_key m) as [h|] eqn:He; [|done].
  apply next_key_above in He. lia.
Qed.

Module MemRef.
#[export] Instance mem_api : MemApi := ref_memapi.
#[export] Instance mem_api_spec : MemApiSpec := ref_memapi_spec.
#[export] Instance mem_libc : Libc := linux_libc.
#[export] Instance mem_bf : Bitflags := ref_bitflags.
#[export] Instance mem_profile : Profile := true.
End MemRef.

Import MemRef.

Definition mem_example : MemFS := match MemFS_new with Ok s => s | _ => {| inodes := ∅; next_ino := 0; dir_handles := ∅; mem_ttl := Duration_ZERO |} end.

Definition node (n : Z) : NodeID := NodeID_from_raw_unchecked n.

(** A directory [d], a file [f] in it, moved to the root as [g] and removed. *)
Definition mkdir_d : mem_op := MemMkdir {| Mkdir_parent := node 1; Mkdir_name := [Byte.x64]; Mkdir_permissions := 0x1ed; Mkdir_umask := 0 |}.
Definition mknod_f : mem_op := MemMknod {| Mknod_parent := node 2; Mknod_name := [Byte.x66];
  Mknod_mode := FileMode_new Regular 0x1a4; Mknod_rdev := DeviceID_from_kernel_dev 0; Mknod_umask := 0 |}.
Definition rename_f : mem_op := MemRename {| Rename_parent := node 2; Rename_name := [Byte.x66];
  Rename_newparent := node 1; Rename_newname := [Byte.x67]; Rename_flags := 0 |}.
Definition unlink_g : mem_op := MemUnlink {| Unlink_parent := node 1; Unlink_name := [Byte.x67] |}.
Definition forget_f : list Forget := [{| Forget_raw := {| forget_one_nodeid := 3; forget_one_nlookup := 1 |} |}].
Definition lookup_d : mem_op := MemLookup {| Lookup_parent := node 1; Lookup_name := [Byte.x64] |}.

Definition run_ops (ops : list mem_op) (s : MemFS) : MemFS :=
  foldl (λ s op, (mem_apply Duration_ZERO op s).2) s ops.

Definition example_ops : list mem_op := [mkdir_d; mknod_f; rename_f; unlink_g; MemForget forget_f].

Lemma example_steps : mem_steps Duration_ZERO mem_example example_ops (run_ops example_ops mem_example).
Proof.
  repeat (eapply steps_cons; [|reflexivity|reflexivity|]);
    [vm_compute; done|vm_compute; done|vm_compute; congruence|done| |].
  - repeat constructor; vm_compute; done.
  - apply steps_nil.
Qed.

Lemma mem_example_new : MemFS_new = Ok mem_example.
Proof. reflexivity. Qed.

Lemma mem_example_wf : mem_wf mem_example.
Proof. destruct new_wf as (s & Hs & Hw). rewrite mem_example_new in Hs. by simplify_eq. Qed.

(** Two nodes made. *)
Definition made_example : MemFS := run_ops [mkdir_d; mknod_f] mem_example.

Lemma made_example_wf : mem_wf made_example.
Proof.
  eapply (steps_wf Duration_ZERO mem_example [mkdir_d; mknod_f]); [|apply mem_example_wf].
  repeat (eapply steps_cons; [vm_compute; done|reflexivity|reflexivity|]). apply steps_nil.
Qed.

(** A fourth file is made in the root: inode 5 falls in the shard of inode 1. *)
Definition mknod_n (n : byte) : mem_op := MemMknod {| Mknod_parent := node 1; Mknod_name := [n];
  Mknod_mode := FileMode_new Regular 0x1a4; Mknod_rdev := DeviceID_from_kernel_dev 0; Mknod_umask := 0 |}.
Definition three_files : list mem_op := [mknod_n Byte.x61; mknod_n Byte.x62; mknod_n Byte.x63].

Lemma three_files_steps : mem_steps Duration_ZERO mem_example three_files (run_ops three_files mem_example).
Proof. repeat (eapply steps_cons; [vm_compute; done|reflexivity|reflexivity|]). apply steps_nil. Qed.

Lemma memfs_reachable_witness :
  (∃ r s', mem_apply Duration_ZERO lookup_d (run_ops example_ops mem_example) = (r, s') ∧ mem_wf s'
    ∧ ((∃ reply, r = Ok reply) ∨
       ∃ e, r = Err e ∧ (is_write lookup_d = false → s' = run_ops example_ops mem_example))) ∧
  (∃ s', mem_apply Duration_ZERO (mknod_n Byte.x64) (run_ops three_files mem_example) = (Panic "deadlock", s')).
Proof.
  split.
  - destruct (memfs_reachable Duration_ZERO mem_example example_ops (run_ops example_ops mem_example) lookup_d)
      as (r & s' & Hap & Hw & Hr); [reflexivity|apply example_steps| |].
    2: { assert (hangs (run_ops example_ops mem_example) lookup_d = false) as Hh by (vm_compute; reflexivity).
         rewrite Hh in Hr. exists r, s'. split; [exact Hap|]. split; [exact Hw|exact Hr]. }
    intros c i Hc. vm_compute in Hc. injection Hc as <-. intros Hi. vm_compute in Hi. injection Hi as <-.
    vm_compute. split; congruence.
  - destruct (memfs_reachable Duration_ZERO mem_example three_files (run_ops three_files mem_example)
      (mknod_n Byte.x64)) as (r & s' & Hap & _ & Hr); [reflexivity|apply three_files_steps|vm_compute; done|].
    assert (hangs (run_ops three_files mem_example) (mknod_n Byte.x64) = true) as Hh by (vm_compute; reflexivity).
    rewrite Hh in Hr. exists s'. rewrite Hap. f_equal. exact (proj1 Hr).
Defined.

(** The tree after a step that succeeds. *)
Definition step_tree (o : option (outcome Errno tree)) : tree := match o with Some (Ok t) => t | _ => ∅ end.

Lemma step_tree_ok o :
  match o with Some (Ok _) => true | _ => false end = true → o = Some (Ok (step_tree o)).
Proof. by destruct o as [[]|]. Qed.

Lemma memfs_names_refine_witness :
  ∃ r s', mem_apply Duration_ZERO rename_f made_example = (Ok r, s') ∧ mem_wf s'
    ∧ tree_of s' = step_tree (tree_step rename_f (fresh_ino made_example) (tree_of made_example))
    ∧ answers rename_f r s'.
Proof.
  assert (hangs made_example rename_f = false) as Hh by (vm_compute; reflexivity).
  pose proof (memfs_names_refine Duration_ZERO made_example rename_f
    (Ok (step_tree (tree_step rename_f (fresh_ino made_example) (tree_of made_example)))) made_example_wf) as H.
  rewrite Hh in H. apply H; [vm_compute; congruence|]. apply step_tree_ok. vm_compute. reflexivity.
Defined.

(** The file is removed, then forgotten. *)
Definition unlinked_example : MemFS := run_ops [rename_f; unlink_g] made_example.

Lemma unlinked_example_wf : mem_wf unlinked_example.
Proof.
  eapply (steps_wf Duration_ZERO made_example [rename_f; unlink_g]); [|apply made_example_wf].
  eapply steps_cons; [vm_compute; congruence|reflexivity|reflexivity|].
  eapply steps_cons; [done|reflexivity|reflexivity|]. apply steps_nil.
Qed.

Lemma memfs_forget_reclaims_witness :
  is_Some (unlinked_example.(inodes) !! node 3) ∧
  ∃ s', mem_apply Duration_ZERO (MemForget forget_f) unlinked_example = (Ok None, s')
    ∧ s'.(inodes) !! node 3 = None ∧ is_Some (s'.(inodes) !! node 2).
Proof.
  split; [by eexists|].
  destruct (memfs_forget_reclaims Duration_ZERO unlinked_example forget_f unlinked_example_wf) as
    (s' & Hr & _ & _ & _ & Hl); [repeat constructor; vm_compute; done|].
  exists s'. split; [exact Hr|]. rewrite !Hl. split; [reflexivity|]. by eexists.
Defined.
