(* ===== verification/MemFsData.v ===== *)
(** * The file system in memory: content, extended attributes, listings

What the operations of [src/examples_disabled/memfs.rs] on the data of an inode
do, in terms of what a later operation reads. *)

From stdpp Require Import gmap.
From S2P Require Import Prelude Layout Kernel Crates Types Operation MemFs MemFsSpec MemFsRun.
Local Open Scope Z_scope.

(** ** Content *)

(** Byte [i] of a file [c] after [data] was written at [off]: a gap is zero. *)
Definition overlay (c data : list byte) (off i : nat) : option byte :=
  if decide (off ≤ i < off + length data)%nat then data !! (i - off)%nat
  else if decide (i < length c)%nat then c !! i
  else if decide (i < off)%nat then Some Byte.x00 else None.

Lemma resize_length c n : 0 ≤ n → length (resize_zeroes c n) = Z.to_nat n.
Proof. intros. unfold resize_zeroes. rewrite length_app, length_take, length_replicate. lia. Qed.

Lemma resize_lookup c n i :
  Z.of_nat (length c) ≤ n → (i < Z.to_nat n)%nat →
  resize_zeroes c n !! i = if decide (i < length c)%nat then c !! i else Some Byte.x00.
Proof.
  intros Hn Hi. unfold resize_zeroes. rewrite take_ge by lia. case_decide.
  - by rewrite lookup_app_l.
  - rewrite lookup_app_r by lia. apply lookup_replicate_2. lia.
Qed.

Lemma write_at_overlay c data off i :
  0 ≤ off →
  write_at (resize_zeroes c (Z.max (Z.of_nat (length c)) (off + Z.of_nat (length data)))) off data !! i
  = overlay c data (Z.to_nat off) i.
Proof.
  intros Ho. unfold write_at, overlay.
  set (n := Z.max (Z.of_nat (length c)) (off + Z.of_nat (length data))).
  assert (length (resize_zeroes c n) = Z.to_nat n) as Hlen by (apply resize_length; lia).
  destruct (decide (i < Z.to_nat off)%nat) as [Hi|Hi].
  - rewrite lookup_app_l by (rewrite length_take, Hlen; lia). rewrite lookup_take_lt by done.
    rewrite (decide_False (P := (Z.to_nat off ≤ i < _)%nat)) by lia. apply resize_lookup; lia.
  - rewrite lookup_app_r by (rewrite length_take, Hlen; lia). rewrite length_take, Hlen.
    replace (Z.to_nat off `min` Z.to_nat n)%nat with (Z.to_nat off) by lia.
    destruct (decide (i < Z.to_nat off + length data)%nat) as [Hj|Hj].
    + rewrite lookup_app_l by lia. by rewrite decide_True by lia.
    + rewrite lookup_app_r, lookup_drop by lia. rewrite (decide_False (P := (Z.to_nat off ≤ i < _)%nat)) by lia.
      replace (Z.to_nat off + length data + (i - Z.to_nat off - length data))%nat with i by lia.
      destruct (decide (i < Z.to_nat n)%nat) as [Hin|Hin].
      * rewrite resize_lookup by lia. case_decide; [done|lia].
      * rewrite lookup_ge_None_2 by lia. case_decide; [lia|done].
Qed.

Section content.
Context `{MA : MemApi} `{L : Libc} `{BF : Bitflags} `{PR : Profile} (now : Duration).

Lemma get_inode_free s ino i : s.(inodes) !! ino = Some i → get_inode [] ino s = (Ok i, s).
Proof. apply get_inode_ok, reachable_nil. Qed.

Lemma mem_read_ok s op i c :
  s.(inodes) !! op.(Read_ino) = Some i → as_file i = Some c → 0 ≤ op.(Read_offset) → 0 ≤ op.(Read_size) →
  mem_read op s = (Ok (Raw (take (Z.to_nat op.(Read_size)) (drop (Z.to_nat op.(Read_offset)) c))), s).
Proof.
  intros Hi Hc Ho Hs. unfold mem_read. rewrite (M_bind_Ok _ _ _ _ _ (get_inode_free _ _ _ Hi)), Hc.
  unfold mret, M_ret, mbind, M_bind, lift, ok_or. do 3 f_equal. destruct (Z.leb_spec op.(Read_offset) (Z.of_nat (length c))).
  - destruct (decide (op.(Read_size) ≤ Z.of_nat (length (drop (Z.to_nat op.(Read_offset)) c)))).
    + by rewrite Z.min_r by lia.
    + by rewrite Z.min_l, Nat2Z.id, !take_ge by lia.
  - by rewrite (drop_ge c), !take_nil by lia.
Qed.

(** The inode after a write. *)
Definition written (op : Write) (data c : list byte) (i : INode) : INode :=
  let end_ := op.(Write_offset) + op.(Write_size) in
  set_attr (change_attr (with_fsize end_) i.(attr))
    (set_kind (RegularFile (write_at (resize_zeroes c (Z.max (Z.of_nat (length c)) end_)) op.(Write_offset)
       (take (Z.to_nat op.(Write_size)) data))) i).

Lemma mem_write_ok s op data i c :
  s.(inodes) !! op.(Write_ino) = Some i → as_file i = Some c → legal s (MemWrite op data) →
  op.(Write_size) ≤ Z.of_nat (length data) →
  mem_write op data s
  = (Ok (WriteOut op.(Write_size)),
     set_inodes (<[op.(Write_ino) := written op data c i]> s.(inodes)) s).
Proof.
  intros Hi Hc (Ho & Hs & He & Hlen) Hd. specialize (Hlen i c Hi Hc). assert (isize_max < 2 ^ 64) by done.
  unfold mem_write. rewrite (M_bind_Ok _ _ _ _ _ (get_inode_free _ _ _ Hi)), Hc.
  erewrite M_bind_Ok by reflexivity. rewrite arith_u_ok by (unfold is_u; lia).
  erewrite M_bind_Ok by reflexivity. rewrite (proj2 (Z.ltb_ge isize_max _)) by lia.
  do 2 (erewrite M_bind_Ok by reflexivity). rewrite (proj2 (Z.ltb_ge (op.(Write_offset) + _) _)) by lia.
  do 2 (erewrite M_bind_Ok by reflexivity). rewrite (proj2 (Z.ltb_ge _ op.(Write_size))) by (rewrite length_take; lia).
  erewrite M_bind_Ok by reflexivity. simpl. by rewrite !insert_insert_eq.
Qed.

(** C22: WRITE then READ: every read of the file returns, byte for byte, the new
data where it was written, the old bytes elsewhere and zeroes in a gap past the
old end, and is cut at the end of the file; no other inode changes. *)
Theorem memfs_write_read s op data rop i c :
  s.(inodes) !! op.(Write_ino) = Some i → as_file i = Some c → legal s (MemWrite op data) →
  op.(Write_size) ≤ Z.of_nat (length data) →
  rop.(Read_ino) = op.(Write_ino) → 0 ≤ rop.(Read_offset) → 0 ≤ rop.(Read_size) →
  ∃ s', mem_apply now (MemWrite op data) s = (Ok (Some (WriteOut op.(Write_size))), s')
    ∧ (∀ ino, ino ≠ op.(Write_ino) → s'.(inodes) !! ino = s.(inodes) !! ino)
    ∧ ∃ b, mem_apply now (MemRead rop) s' = (Ok (Some (Raw b)), s')
      ∧ ∀ k, b !! k =
        if decide (k < Z.to_nat rop.(Read_size))%nat
        then overlay c (take (Z.to_nat op.(Write_size)) data) (Z.to_nat op.(Write_offset))
               (Z.to_nat rop.(Read_offset) + k)
        else None.
Proof.
  intros Hi Hc Hleg Hd Hino Ho Hs.
  set (s' := set_inodes (<[op.(Write_ino) := written op data c i]> s.(inodes)) s).
  assert (s'.(inodes) !! rop.(Read_ino) = Some (written op data c i)) as Hi'
    by (rewrite Hino; apply lookup_insert_eq).
  exists s'. split; [|split; [|eexists; split]].
  - simpl. unfold replies. by rewrite (M_bind_Ok _ _ _ _ _ (mem_write_ok s op data i c Hi Hc Hleg Hd)).
  - intros ino Hne. simpl. by rewrite lookup_insert_ne.
  - simpl. unfold replies. by rewrite (M_bind_Ok _ _ _ _ _ (mem_read_ok s' rop _ _ Hi' eq_refl Ho Hs)).
  - intros k. case_decide.
    + rewrite lookup_take_lt, lookup_drop by done.
      assert (Z.of_nat (length (take (Z.to_nat op.(Write_size)) data)) = op.(Write_size)) as Hl.
      { destruct Hleg as (_ & ? & _). rewrite length_take. lia. }
      rewrite <- Hl at 1. apply write_at_overlay. by destruct Hleg.
    + apply lookup_take_ge. lia.
Qed.

(** A write inside a file that is longer than its end makes the reported size
smaller than the content: GETATTR answers with the end of the write, while READ
still returns the bytes behind it. *)
Theorem memfs_write_reports_short_size s op data i c gop :
  s.(inodes) !! op.(Write_ino) = Some i → as_file i = Some c → legal s (MemWrite op data) →
  op.(Write_size) ≤ Z.of_nat (length data) →
  op.(Write_offset) + op.(Write_size) < Z.of_nat (length c) → gop.(Getattr_ino) = op.(Write_ino) →
  ∃ s' a c', mem_apply now (MemWrite op data) s = (Ok (Some (WriteOut op.(Write_size))), s')
    ∧ mem_apply now (MemGetattr gop) s' = (Ok (Some (AttrOut a (Some s.(mem_ttl)))), s')
    ∧ a.(FileAttr_size) = op.(Write_offset) + op.(Write_size)
    ∧ s'.(inodes) !! op.(Write_ino) ≫= as_file = Some c'
    ∧ a.(FileAttr_size) < Z.of_nat (length c').
Proof.
  intros Hi Hc Hleg Hd Hlt Hino.
  set (s' := set_inodes (<[op.(Write_ino) := written op data c i]> s.(inodes)) s).
  assert (s'.(inodes) !! gop.(Getattr_ino) = Some (written op data c i)) as Hi'
    by (rewrite Hino; apply lookup_insert_eq).
  exists s', (written op data c i).(attr). eexists. split; [|split; [|split; [|split]]].
  - simpl. unfold replies. by rewrite (M_bind_Ok _ _ _ _ _ (mem_write_ok s op data i c Hi Hc Hleg Hd)).
  - simpl. unfold replies, mem_getattr. erewrite (M_bind_Ok (_ ≫= _)); [done|].
    by rewrite (M_bind_Ok _ _ _ _ _ (get_inode_free s' _ _ Hi')).
  - done.
  - simpl. rewrite lookup_insert_eq. done.
  - simpl. destruct Hleg as (? & ? & _). unfold write_at.
    rewrite !length_app, !length_take, length_drop, resize_length by lia. lia.
Qed.
End content.

(** ** Extended attributes *)

Section xattrs.
Context `{MA : MemApi} `{L : Libc} `{BF : Bitflags} `{PR : Profile} (now : Duration).

(** The answer to GETXATTR from a map of attributes. *)
Definition xattr_answer (x : gmap OsStr (list byte)) (name : OsStr) (size : Z) : outcome fs_error mem_reply :=
  match x !! name with
  | None => Err (FsErrno MErrno_NODATA)
  | Some value =>
      if size =? 0 then Ok (XattrOut (Z.of_nat (length value)))
      else if size <? Z.of_nat (length value) then Err (FsErrno MErrno_RANGE) else Ok (Raw value)
  end.

(** Values are shorter than 4 GiB. *)
Definition xattrs_fit (i : INode) : Prop :=
  map_Forall (λ _ v, Z.of_nat (length v) < 2 ^ 32) i.(xattrs).

Lemma mem_getxattr_ok s op i :
  s.(inodes) !! op.(Getxattr_ino) = Some i → xattrs_fit i →
  mem_getxattr op s = (xattr_answer i.(xattrs) op.(Getxattr_name) op.(Getxattr_size), s).
Proof.
  intros Hi Hf. unfold mem_getxattr, xattr_answer. rewrite (M_bind_Ok _ _ _ _ _ (get_inode_free _ _ _ Hi)).
  destruct (i.(xattrs) !! op.(Getxattr_name)) as [v|] eqn:Hv; [|done].
  unfold mbind, M_bind, lift, ok_or. rewrite wrap_u_id by (specialize (Hf _ _ Hv); simpl in Hf; unfold is_u; lia).
  by repeat case_match.
Qed.

(** What SETXATTR makes of the attributes of an inode. *)
Definition xattr_set (create replace : bool) (name : OsStr) (value : list byte)
    (x : gmap OsStr (list byte)) : outcome fs_error (gmap OsStr (list byte)) :=
  match x !! name with
  | Some _ => if create then Err (FsErrno MErrno_EXIST) else Ok (<[name := value]> x)
  | None => if replace then Err (FsErrno MErrno_NODATA)
            else Ok (<[name := if create then [] else value]> x)
  end.

Lemma mem_setxattr_spec s op i :
  let create := bf_contains op.(Setxattr_flags) XattrFlags_CREATE in
  let replace := bf_contains op.(Setxattr_flags) XattrFlags_REPLACE in
  s.(inodes) !! op.(Setxattr_ino) = Some i → create && replace = false →
  mem_setxattr op s =
  match xattr_set create replace op.(Setxattr_name) op.(Setxattr_value) i.(xattrs) with
  | Ok x => (Ok Empty, set_inodes (<[op.(Setxattr_ino) := set_xattrs x i]> s.(inodes)) s)
  | Err e => (Err e, s)
  | Panic w => (Panic w, s)
  | UB => (UB, s)
  end.
Proof.
  intros create replace Hi Hcr. unfold mem_setxattr, xattr_set. fold create replace. rewrite Hcr.
  rewrite (M_bind_Ok _ _ _ _ _ (get_inode_free _ _ _ Hi)). by repeat case_match.
Qed.

(** C15: Without the CREATE flag SETXATTR sets, GETXATTR reads and REMOVEXATTR
deletes one attribute of one inode, as in a map: it fails with NODATA under
REPLACE when the name is absent; otherwise GETXATTR of that name returns the
value set (its length for size 0, RANGE for a buffer that is too small), every
other name answers as before, and REMOVEXATTR takes the map back to the one
without the name. *)
Theorem memfs_xattr_map s op rop i :
  s.(inodes) !! op.(Setxattr_ino) = Some i → xattrs_fit i → Z.of_nat (length op.(Setxattr_value)) < 2 ^ 32 →
  bf_contains op.(Setxattr_flags) XattrFlags_CREATE = false →
  rop.(Removexattr_ino) = op.(Setxattr_ino) → rop.(Removexattr_name) = op.(Setxattr_name) →
  if bf_contains op.(Setxattr_flags) XattrFlags_REPLACE && bool_decide (i.(xattrs) !! op.(Setxattr_name) = None)
  then mem_apply now (MemSetxattr op) s = (Err (FsErrno MErrno_NODATA), s)
  else ∃ s' s'' i'',
    mem_apply now (MemSetxattr op) s = (Ok (Some Empty), s')
    ∧ (∀ name size, mem_getxattr {| Getxattr_ino := op.(Setxattr_ino); Getxattr_name := name;
                                    Getxattr_size := size |} s'
         = (xattr_answer (<[op.(Setxattr_name) := op.(Setxattr_value)]> i.(xattrs)) name size, s'))
    ∧ mem_apply now (MemRemovexattr rop) s' = (Ok (Some Empty), s'')
    ∧ s''.(inodes) !! op.(Setxattr_ino) = Some i''
    ∧ i''.(xattrs) = delete op.(Setxattr_name) i.(xattrs)
    ∧ ∀ ino, ino ≠ op.(Setxattr_ino) → s''.(inodes) !! ino = s.(inodes) !! ino.
Proof.
  intros Hi Hf Hv Hcr Hrino Hrname. pose proof (mem_setxattr_spec s op i Hi) as Hset. rewrite Hcr in Hset.
  specialize (Hset eq_refl). unfold xattr_set in Hset. destruct (_ && _) eqn:Hrep.
  - apply andb_prop in Hrep as [Hrep Hno%bool_decide_eq_true]. rewrite Hrep, Hno in Hset.
    simpl. unfold replies, mbind, M_bind. by rewrite Hset.
  - set (x := <[op.(Setxattr_name) := op.(Setxattr_value)]> i.(xattrs)).
    set (s' := set_inodes (<[op.(Setxattr_ino) := set_xattrs x i]> s.(inodes)) s).
    assert (mem_setxattr op s = (Ok Empty, s')) as Hs'.
    { rewrite Hset. destruct (i.(xattrs) !! op.(Setxattr_name)) eqn:Hx; [done|].
      rewrite bool_decide_eq_true_2, andb_true_r in Hrep by done. by rewrite Hrep. }
    assert (s'.(inodes) !! op.(Setxattr_ino) = Some (set_xattrs x i)) as Hi' by apply lookup_insert_eq.
    exists s'. eexists _, _. split; [|split; [|split; [|split; [|split]]]].
    + simpl. unfold replies. by rewrite (M_bind_Ok _ _ _ _ _ Hs').
    + intros name size. rewrite (mem_getxattr_ok s' _ (set_xattrs x i)); [done..|]. by apply map_Forall_insert_2.
    + simpl. unfold replies, mem_removexattr. erewrite (M_bind_Ok (_ ≫= _)); [done|].
      rewrite Hrino. rewrite (M_bind_Ok _ _ _ _ _ (get_inode_free s' _ _ Hi')).
      simpl. unfold x. rewrite Hrname, lookup_insert_eq. done.
    + simpl. apply lookup_insert_eq.
    + simpl. unfold x. by rewrite ?Hrname, delete_insert_eq.
    + intros ino Hne. simpl. by rewrite !lookup_insert_ne.
Qed.

(** With the CREATE flag the value is dropped: setting a new attribute
succeeds, and reading it back gives no bytes, whatever was to be stored. *)
Theorem memfs_create_drops_value s op i size :
  s.(inodes) !! op.(Setxattr_ino) = Some i → xattrs_fit i → i.(xattrs) !! op.(Setxattr_name) = None →
  bf_contains op.(Setxattr_flags) XattrFlags_CREATE = true →
  bf_contains op.(Setxattr_flags) XattrFlags_REPLACE = false → 0 < size →
  ∃ s', mem_apply now (MemSetxattr op) s = (Ok (Some Empty), s')
    ∧ mem_apply now (MemGetxattr {| Getxattr_ino := op.(Setxattr_ino); Getxattr_name := op.(Setxattr_name);
                                    Getxattr_size := size |}) s' = (Ok (Some (Raw [])), s').
Proof.
  intros Hi Hf Hno Hcr Hrep Hsz. pose proof (mem_setxattr_spec s op i Hi) as Hset.
  rewrite Hcr, Hrep in Hset. specialize (Hset eq_refl). unfold xattr_set in Hset. rewrite Hno in Hset.
  set (x := <[op.(Setxattr_name) := []]> i.(xattrs)) in *.
  set (s' := set_inodes _ s) in Hset. exists s'. split.
  - simpl. unfold replies. by rewrite (M_bind_Ok _ _ _ _ _ Hset).
  - simpl. unfold replies, mbind, M_bind. rewrite (mem_getxattr_ok s' _ (set_xattrs x i));
      [|apply lookup_insert_eq|by apply map_Forall_insert_2]. simpl. unfold xattr_answer, x.
    rewrite lookup_insert_eq, (proj2 (Z.eqb_neq _ _)), (proj2 (Z.ltb_ge _ _)) by (simpl; lia). done.
Qed.
End xattrs.

(** ** Listings *)

Section listing.
Context `{MA : MemApi} `{MS : !MemApiSpec} `{L : Libc} `{BF : Bitflags} `{PR : Profile}.

Definition readdir_op (ino : NodeID) (fh : FileID) (size offset : Z) : Readdir := {|
  Readdir_ino := ino; Readdir_fh := fh; Readdir_offset := offset; Readdir_size := size;
  Readdir_mode := ReaddirMode_Normal |}.

(** A reader continues behind the last entry it got, until it gets none. *)
Fixpoint read_listing (fuel : nat) (ino : NodeID) (fh : FileID) (size offset : Z) (s : MemFS)
    : outcome fs_error (list MemDirEntry) :=
  match fuel with
  | O => Ok []
  | S fuel =>
      match mem_readdir (readdir_op ino fh size offset) s with
      | (Ok (ReaddirOut es), s') =>
          match last es with
          | None => Ok []
          | Some e => rest ← read_listing fuel ino fh size e.(md_off) s'; Ok (es ++ rest)
          end
      | (Err e, _) => Err e
      | _ => Panic "no listing"
      end
  end.

(** Offsets count the entries. *)
Definition numbered (es : list MemDirEntry) : Prop :=
  ∀ k e, es !! k = Some e → e.(md_off) = Z.of_nat k + 1.

Lemma number_entries_lookup off l k e :
  number_entries off l !! k = Some e → e.(md_off) = off + Z.of_nat k.
Proof.
  revert off k. induction l as [|[n i] l IH]; intros off [|k] He; simpl in He; simplify_eq; simpl; [lia|].
  rewrite (IH (off + 1) k) by done. lia.
Qed.

Lemma collect_numbered d a : numbered (collect_entries d a).
Proof.
  intros [|[|k]] e He; simpl in He; simplify_eq; simpl; [done..|].
  rewrite (number_entries_lookup _ _ _ _ He). lia.
Qed.

Lemma number_entries_fst off l : (λ e, (e.(md_name), e.(md_ino))) <$> number_entries off l = l.
Proof. revert off. induction l as [|[n i] l IH]; intros off; simpl; [done|]. by rewrite IH. Qed.

Lemma push_mem_entries_prefix size pushed es :
  ∃ n, push_mem_entries size pushed es = pushed ++ take n es
    ∧ (pushed = [] → es ≠ [] → (∀ e, e ∈ es → readdir_full size [] e = false) → (0 < n)%nat).
Proof.
  revert pushed. induction es as [|e es IH]; intros pushed; simpl.
  { exists 0%nat. by rewrite app_nil_r. }
  destruct (readdir_full size pushed e) eqn:Hf.
  - exists 0%nat. rewrite app_nil_r. split; [done|]. intros -> _ Hn. rewrite Hn in Hf; [done|left].
  - destruct (IH (pushed ++ [e])) as (n & -> & _). exists (S n). split; [by rewrite <- app_assoc|]. lia.
Qed.

Lemma read_listing_rest fuel ino fh size offset s h :
  s.(dir_handles) !! fh.(FileID_into_raw) = Some h → numbered h.(dh_entries) →
  (∀ e, e ∈ h.(dh_entries) → readdir_full size [] e = false) → 0 ≤ offset →
  (length (drop (Z.to_nat offset) h.(dh_entries)) < fuel)%nat →
  read_listing fuel ino fh size offset s = Ok (drop (Z.to_nat offset) h.(dh_entries)).
Proof.
  revert offset s h. induction fuel as [|fuel IH]; intros offset s h Hh Hn Hfull Ho Hlt; [lia|].
  set (rest := drop (Z.to_nat offset) h.(dh_entries)) in *.
  destruct (push_mem_entries_prefix size [] rest) as (n & Hp & Hpos). simpl in Hp.
  set (s' := set_dir_handles (<[fh.(FileID_into_raw) := {| dh_entries := h.(dh_entries);
    dh_offset := wrap_u 64 (h.(dh_offset) + Z.of_nat (length (take n rest))) |}]> s.(dir_handles)) s).
  assert (mem_readdir (readdir_op ino fh size offset) s = (Ok (ReaddirOut (take n rest)), s')) as Hr.
  { unfold mem_readdir. simpl. unfold mbind, M_bind, get, lift. rewrite Hh. simpl. fold rest. by rewrite Hp. }
  cbn [read_listing]. rewrite Hr.
  destruct (decide (rest = [])) as [He|He].
  { by rewrite He, take_nil. }
  assert (∀ e, e ∈ rest → readdir_full size [] e = false) as Hroom.
  { intros e Hin. apply Hfull. rewrite <- (take_drop (Z.to_nat offset) h.(dh_entries)).
    apply elem_of_app. by right. }
  specialize (Hpos eq_refl He Hroom). assert (0 < length rest)%nat by (destruct rest; simpl; [done|lia]).
  destruct (last (take n rest)) as [e|] eqn:Hlast.
  2: { apply last_None in Hlast. apply (f_equal length) in Hlast. rewrite length_take in Hlast. simpl in Hlast. lia. }
  rewrite last_lookup, length_take in Hlast. apply lookup_take_Some in Hlast as [Hlast _].
  unfold rest in Hlast. rewrite lookup_drop in Hlast. apply Hn in Hlast as Hoff. fold rest in Hoff.
  rewrite (IH e.(md_off) s' {| dh_entries := h.(dh_entries);
    dh_offset := wrap_u 64 (h.(dh_offset) + Z.of_nat (length (take n rest))) |}).
  - simpl. assert (drop (Z.to_nat e.(md_off)) h.(dh_entries) = drop n rest) as ->.
    { unfold rest. rewrite drop_drop. destruct (decide (n ≤ length rest)%nat).
      - f_equal. lia.
      - rewrite !drop_ge; [done|..]; unfold rest in *; rewrite length_drop in *; lia. }
    by rewrite take_drop.
  - apply lookup_insert_eq.
  - done.
  - done.
  - lia.
  - simpl. unfold rest in *. rewrite length_drop in *. lia.
Qed.

(** C23: A directory that is opened and read from offset 0, each READDIR going on
from the offset of the last entry received, is listed completely and once, as soon as
an empty reply of the size asked for has room for each single entry of this directory
(an entry that does not fit an empty reply would end the listing): ".", "..", then each
child with its inode, in some order; one read per entry and one more are enough. *)
Theorem memfs_listing_complete s op i d size fuel :
  s.(inodes) !! op.(Opendir_ino) = Some i → as_dir i = Some d → i.(attr).(FileAttr_nlink) ≠ 0 →
  (∀ e, e ∈ collect_entries d i.(attr) → readdir_full size [] e = false) → (base.size d.(children) + 2 < fuel)%nat →
  ∃ fh s' es, mem_opendir op s = (Ok (OpenOut fh), s')
    ∧ read_listing fuel op.(Opendir_ino) fh size 0 s' = Ok es
    ∧ (md_name <$> take 2 es) = [[Byte.x2e]; [Byte.x2e; Byte.x2e]]
    ∧ ((λ e, (e.(md_name), e.(md_ino))) <$> drop 2 es) ≡ₚ map_to_list d.(children).
Proof.
  intros Hi Hd Hnl Hfull Hfuel.
  set (key := slab_vacant_key s.(dir_handles)).
  set (h := {| dh_entries := collect_entries d i.(attr); dh_offset := 0 |}).
  set (s' := set_dir_handles (<[key := h]> s.(dir_handles)) s).
  exists (FileID_from_raw key), s', (collect_entries d i.(attr)). split; [|split; [|split]].
  - unfold mem_opendir. rewrite (M_bind_Ok _ _ _ _ _ (get_inode_free _ _ _ Hi)).
    rewrite (proj2 (Z.eqb_neq _ _)) by done. unfold get_dir. by rewrite Hd.
  - rewrite (read_listing_rest _ _ _ _ _ _ h); [done|apply lookup_insert_eq|apply collect_numbered|done..|].
    simpl. rewrite <- (length_fmap (λ e, (e.(md_name), e.(md_ino)))), number_entries_fst, hash_order_perm,
      length_map_to_list. lia.
  - done.
  - change (drop 2 (collect_entries d i.(attr))) with (number_entries 3 (hash_order d.(children))).
    rewrite number_entries_fst. apply hash_order_perm.
Qed.
End listing.

(** ** Examples *)

Import MemRef.

Definition file_example : INode := new_inode (fresh_attr (node 3) 1 (FileMode_new Regular 0x1a4)) (RegularFile [Byte.x61; Byte.x62; Byte.x63; Byte.x64]).

(** The file system with one file of four bytes in the table. *)
Definition content_example : MemFS := set_inodes (<[node 3 := file_example]> mem_example.(inodes)) mem_example.

Definition write_example (offset : Z) : Write := {|
  Write_ino := node 3; Write_fh := FileID_from_raw 0; Write_offset := offset; Write_size := 2;
  Write_options := OpenOptions_from_raw 0; Write_lock_owner := None; Write_flags := 0 |}.

Definition read_example : Read := {|
  Read_ino := node 3; Read_fh := FileID_from_raw 0; Read_offset := 1; Read_size := 16;
  Read_options := OpenOptions_from_raw 0; Read_lock_owner := None |}.

Lemma write_example_legal offset :
  0 ≤ offset < 100 → legal content_example (MemWrite (write_example offset) [Byte.x78; Byte.x79]).
Proof.
  intros Ho. simpl. assert (isize_max = 2 ^ 63 - 1) as -> by done. repeat split; try lia.
  intros i c Hi. rewrite lookup_insert_eq in Hi. simplify_eq. intros [= <-]. done.
Qed.

(** Two bytes at offset 5 of a file of four: the gap reads as zero. *)
Lemma memfs_write_read_witness :
  ∃ s', mem_apply Duration_ZERO (MemWrite (write_example 5) [Byte.x78; Byte.x79]) content_example
        = (Ok (Some (WriteOut 2)), s')
    ∧ ∃ b, mem_apply Duration_ZERO (MemRead read_example) s' = (Ok (Some (Raw b)), s')
      ∧ b !! 3%nat = Some Byte.x00 ∧ b !! 4%nat = Some Byte.x78 ∧ b !! 6%nat = None.
Proof.
  destruct (memfs_write_read Duration_ZERO content_example (write_example 5) [Byte.x78; Byte.x79] read_example
    file_example [Byte.x61; Byte.x62; Byte.x63; Byte.x64]) as (s' & Hw & _ & b & Hr & Hb);
    [apply lookup_insert_eq|done|apply write_example_legal; lia|vm_compute; congruence..|].
  exists s'. split; [exact Hw|]. exists b. split; [exact Hr|]. rewrite !Hb. done.
Defined.

Lemma memfs_write_reports_short_size_witness :
  ∃ s' a c', mem_apply Duration_ZERO (MemWrite (write_example 0) [Byte.x78; Byte.x79]) content_example
             = (Ok (Some (WriteOut 2)), s')
    ∧ mem_apply Duration_ZERO (MemGetattr {| Getattr_ino := node 3; Getattr_fh := None |}) s'
      = (Ok (Some (AttrOut a (Some mem_example.(mem_ttl)))), s')
    ∧ a.(FileAttr_size) = 2 ∧ s'.(inodes) !! node 3 ≫= as_file = Some c'
    ∧ a.(FileAttr_size) < Z.of_nat (length c').
Proof.
  apply (memfs_write_reports_short_size Duration_ZERO content_example (write_example 0) [Byte.x78; Byte.x79]
    file_example [Byte.x61; Byte.x62; Byte.x63; Byte.x64] {| Getattr_ino := node 3; Getattr_fh := None |});
    [apply lookup_insert_eq|done|apply write_example_legal; lia|vm_compute; congruence|vm_compute; reflexivity|done].
Defined.

Definition setxattr_example (flags : Z) : Setxattr := {|
  Setxattr_ino := node 3; Setxattr_name := [Byte.x75]; Setxattr_value := [Byte.x31; Byte.x32];
  Setxattr_flags := flags; Setxattr_extra_flags := 0 |}.

Definition removexattr_example : Removexattr := {| Removexattr_ino := node 3; Removexattr_name := [Byte.x75] |}.

Lemma file_example_fits : xattrs_fit file_example.
Proof. intros k v Hk. simpl in Hk. by rewrite lookup_empty in Hk. Qed.

Lemma memfs_xattr_map_witness :
  ∃ s', mem_apply Duration_ZERO (MemSetxattr (setxattr_example 0)) content_example = (Ok (Some Empty), s')
    ∧ mem_getxattr {| Getxattr_ino := node 3; Getxattr_name := [Byte.x75]; Getxattr_size := 8 |} s'
      = (Ok (Raw [Byte.x31; Byte.x32]), s').
Proof.
  destruct (memfs_xattr_map Duration_ZERO content_example (setxattr_example 0) removexattr_example file_example)
    as (s' & _ & _ & Hs & Hg & _); [apply lookup_insert_eq|apply file_example_fits|vm_compute; reflexivity..|].
  exists s'. split; [exact Hs|]. exact (Hg [Byte.x75] 8).
Defined.

Lemma memfs_create_drops_value_witness :
  ∃ s', mem_apply Duration_ZERO (MemSetxattr (setxattr_example 1)) content_example = (Ok (Some Empty), s')
    ∧ mem_apply Duration_ZERO (MemGetxattr {| Getxattr_ino := node 3; Getxattr_name := [Byte.x75];
                                              Getxattr_size := 8 |}) s' = (Ok (Some (Raw [])), s').
Proof.
  apply (memfs_create_drops_value Duration_ZERO content_example (setxattr_example 1) file_example 8);
    [apply lookup_insert_eq|apply file_example_fits|vm_compute; reflexivity..].
Defined.

(** Replies of 40 bytes hold one entry each: an entry with a name of one or two bytes takes 32. *)
Lemma memfs_listing_complete_witness :
  ∃ fh s' es, mem_opendir {| Opendir_ino := node 1; Opendir_options := OpenOptions_from_raw 0 |} made_example
              = (Ok (OpenOut fh), s')
    ∧ read_listing 5 (node 1) fh 40 0 s' = Ok es ∧ (md_name <$> take 2 es) = [[Byte.x2e]; [Byte.x2e; Byte.x2e]].
Proof.
  destruct (memfs_listing_complete made_example
    {| Opendir_ino := node 1; Opendir_options := OpenOptions_from_raw 0 |}
    (default file_example (made_example.(inodes) !! node 1))
    {| children := children_of (default file_example (made_example.(inodes) !! node 1)); parent := None |} 40 5)
    as (fh & s' & es & Ho & Hl & Hn & _);
    [reflexivity|reflexivity|vm_compute; congruence| |vm_compute; repeat constructor|].
  { intros e He. vm_compute in He. repeat (apply elem_of_cons in He as [->|He]; [reflexivity|]).
    by apply elem_of_nil in He. }
  exists fh, s', es. auto.
Defined.
