(* ===== verification/Host.v ===== *)
(** * What the forwarding programs use of the host

The programs under [src/examples_disabled] that forward requests call
[std::fs]; its calls are parameters on a world [W].  An open file is a handle
whose position is part of the world. *)

From stdpp Require Import gmap.
From S2P Require Import Prelude Layout Kernel Crates Types Operation MemFs.
Local Open Scope Z_scope.

Definition Path := list byte.

(** ** A program's own state next to the world *)

Section state.
Context {S W E : Type}.

Definition own : M (S * W) E S := λ '(s, w), (Ok s, (s, w)).
Definition set_own (s : S) : M (S * W) E unit := λ '(_, w), (Ok tt, (s, w)).

(** A call of the host; its error becomes the error of the operation. *)
Definition world {F A} (err : F → E) (m : M W F A) : M (S * W) E A := λ '(s, w),
  let '(r, w') := m w in (map_err err r, (s, w')).
End state.

(** ** [std::fs] *)

Record HostEntry := { he_name : OsStr; he_id : Z }.

Class HostFs (W : Type) := {
  HostFile : Type;
  HostDir : Type;
  h_canonicalize (p : Path) : M W io_error Path;
  h_symlink_metadata (p : Path) : M W io_error Metadata;
  h_read_link (p : Path) : M W io_error Path;
  h_read_dir (p : Path) : M W io_error HostDir;
  h_next (d : HostDir) (w : W) : option (outcome io_error HostEntry) * HostDir * W;
  h_entry_metadata (e : HostEntry) : M W io_error Metadata;
  h_open (o : fs_OpenOptions) (p : Path) : M W io_error HostFile;
  h_seek (f : HostFile) (pos : u64) : M W io_error u64;
  h_read_to_end (f : HostFile) (limit : u64) : M W io_error (list byte);
  h_write (f : HostFile) (data : list byte) : M W io_error usize;
  h_sync_all (f : HostFile) : M W io_error unit;
  h_sync_data (f : HostFile) : M W io_error unit;
  h_set_permissions (f : HostFile) (perm : u32) : M W io_error unit;
  h_set_len (f : HostFile) (len : u64) : M W io_error unit;
  h_chown (p : Path) (uid : option Uid) (gid : option Gid) : M W Errno unit;
}.

(** [Slab::insert] takes a key that is not in use. *)
Class SlabApi := slab_key : ∀ {A}, gmap Z A → usize.
Class SlabSpec `{SlabApi} : Prop := slab_key_fresh : ∀ A (m : gmap Z A), m !! slab_key m = None.
