(* ===== verification/INodeTable.v ===== *)
(** * Tables of inodes

The two programs that forward requests to the host, [path_through.rs] and
[passthrough/main.rs] under [src/examples_disabled], number what they find there
with the same table: inodes by number, numbers by key (the path of a file, or
its inode and device on the host), and the next number.  The table is generic in
the inode and its key; [TableINode] is what it needs of an inode. *)

From stdpp Require Import gmap.
From S2P Require Import Prelude Layout Kernel Crates Types Operation MemFs MemFsSpec.
Local Open Scope Z_scope.

Class TableINode (I K : Type) := {
  ti_ino : I → NodeID;
  ti_key : I → K;
  ti_count : I → u64;
  ti_recount : u64 → I → I;
}.

Class TableINodeSpec (I K : Type) `{TableINode I K} : Prop := {
  recount_ino n i : ti_ino (ti_recount n i) = ti_ino i;
  recount_key n i : ti_key (ti_recount n i) = ti_key i;
  recount_count n i : ti_count (ti_recount n i) = n;
}.

Section table.
Context {I K : Type} `{Countable K} `{TI : !TableINode I K} `{PR : Profile}.

Record INodeTable := { t_map : gmap NodeID I; t_index : gmap K NodeID; t_next : u64 }.

Definition INodeTable_new : INodeTable := {| t_map := ∅; t_index := ∅; t_next := 1 |}.

(** The number of the next entry; [why] is the message of the panic on zero. *)
Definition table_vacant {E} (why : string) (t : INodeTable) : outcome E NodeID :=
  match NodeID_from_raw t.(t_next) with Some ino => Ok ino | None => Panic why end.

Definition table_insert {E} (ino : NodeID) (i : I) (t : INodeTable) : outcome E INodeTable :=
  n ← arith_u 64 (t.(t_next) + 1);
  Ok {| t_map := <[ino := i]> t.(t_map); t_index := <[ti_key i := ino]> t.(t_index); t_next := n |}.

Definition table_get_by_key (k : K) (t : INodeTable) : option (NodeID * I) :=
  ino ← t.(t_index) !! k;
  i ← t.(t_map) !! ino;
  Some (ino, i).

Definition table_set (ino : NodeID) (i : I) (t : INodeTable) : INodeTable :=
  {| t_map := <[ino := i]> t.(t_map); t_index := t.(t_index); t_next := t.(t_next) |}.

(** A lookup: an inode that is there is counted, another one is made.  The third
component says whether it was made. *)
Definition table_count {E} (why : string) (k : K) (mk : NodeID → I) (t : INodeTable)
    : outcome E (NodeID * INodeTable * bool) :=
  match table_get_by_key k t with
  | Some (ino, i) =>
      n ← arith_u 64 (ti_count i + 1);
      Ok (ti_ino i, table_set ino (ti_recount n i) t, false)
  | None =>
      ino ← table_vacant why t;
      t ← table_insert ino (mk ino) t;
      Ok (ino, t, true)
  end.

(** One FORGET: the table, and the inode that is dropped, if any. *)
Definition table_forget (ino : NodeID) (nlookup : u64) (t : INodeTable) : INodeTable * option I :=
  match t.(t_map) !! ino with
  | None => (t, None)
  | Some i =>
      let refcount := Z.max 0 (ti_count i - nlookup) in
      if refcount =? 0
      then ({| t_map := delete ino t.(t_map); t_index := t.(t_index); t_next := t.(t_next) |},
            Some (ti_recount refcount i))
      else (table_set ino (ti_recount refcount i) t, None)
  end.

(** ** What the kernel holds *)

(** The number and the count of a key. *)
Definition live (t : INodeTable) (k : K) : option (NodeID * Z) :=
  ino ← t.(t_index) !! k;
  i ← t.(t_map) !! ino;
  Some (ino, ti_count i).

Record table_ok (t : INodeTable) : Prop := {
  to_map : ∀ ino i, t.(t_map) !! ino = Some i → ti_ino i = ino ∧ t.(t_index) !! ti_key i = Some ino;
  to_index : ∀ k ino, t.(t_index) !! k = Some ino → 0 < ino.(NodeID_into_raw) < t.(t_next)
    ∧ ∀ i, t.(t_map) !! ino = Some i → ti_key i = k;
  to_count : ∀ ino i, t.(t_map) !! ino = Some i → 0 < ti_count i;
}.

(** The counters are not at their largest value. *)
Definition table_room (t : INodeTable) : Prop :=
  0 < t.(t_next) < 2 ^ 64 - 1 ∧ ∀ ino i, t.(t_map) !! ino = Some i → ti_count i < 2 ^ 64 - 1.

Definition ino_of (n : Z) : NodeID := NodeID_from_raw_unchecked n.

(** The number and the count of a key after one more lookup. *)
Definition looked_up (t : INodeTable) (k : K) : NodeID * Z :=
  match live t k with Some (ino, n) => (ino, n + 1) | None => (ino_of t.(t_next), 1) end.

(** What is left of a count. *)
Definition after_forget (ino : NodeID) (n : Z) (x : NodeID * Z) : option (NodeID * Z) :=
  if decide (x.1 = ino)
  then let m := Z.max 0 (x.2 - n) in if m =? 0 then None else Some (ino, m)
  else Some x.

Lemma live_Some t k ino n :
  live t k = Some (ino, n) ↔ ∃ i, t.(t_index) !! k = Some ino ∧ t.(t_map) !! ino = Some i ∧ n = ti_count i.
Proof. unfold live. rewrite bind_Some. setoid_rewrite bind_Some. naive_solver. Qed.

(** A number stands for one key. *)
Lemma live_inj t k1 k2 ino n1 n2 :
  table_ok t → live t k1 = Some (ino, n1) → live t k2 = Some (ino, n2) → k1 = k2.
Proof.
  intros Hw (i & E1 & F & _)%live_Some (j & E2 & _)%live_Some.
  by rewrite <- (proj2 (to_index _ Hw k1 ino E1) i F), <- (proj2 (to_index _ Hw k2 ino E2) i F).
Qed.

Lemma fresh_not_mapped t : table_ok t → t.(t_map) !! ino_of t.(t_next) = None.
Proof.
  intros Hw. apply eq_None_not_Some. intros [i Hi]. destruct (to_map _ Hw _ _ Hi) as [_ Hp].
  destruct (to_index _ Hw _ _ Hp) as [Hr _]. simpl in Hr. lia.
Qed.

Context `{TS : !TableINodeSpec I K}.

(** A key gets a new number. *)
Lemma insert_fresh {E} why i t :
  table_ok t → table_room t → live t (ti_key i) = None → ti_ino i = ino_of t.(t_next) → ti_count i = 1 →
  ∃ t', table_vacant (E := E) why t = Ok (ino_of t.(t_next))
    ∧ table_insert (E := E) (ino_of t.(t_next)) i t = Ok t' ∧ table_ok t'
    ∧ t'.(t_map) = <[ino_of t.(t_next) := i]> t.(t_map)
    ∧ ∀ k, live t' k = if decide (k = ti_key i) then Some (ino_of t.(t_next), 1) else live t k.
Proof.
  intros Hw [Hnext Hcnt] Hno Hi1 Hi2. set (ino := ino_of t.(t_next)) in *.
  pose proof (fresh_not_mapped t Hw) as Hfree. fold ino in Hfree.
  unfold table_vacant, table_insert, NodeID_from_raw. rewrite (proj2 (Z.eqb_neq _ _)) by lia.
  rewrite arith_u_ok by (unfold is_u; lia). eexists. split; [done|]. split; [done|].
  assert (∀ c k, t.(t_index) !! c = Some k → k ≠ ino) as Hold.
  { intros c k Hk ->. destruct (to_index _ Hw c ino Hk) as [Hr _]. simpl in Hr. lia. }
  split; [split; simpl|split; [done|]].
  - intros k j [[<- <-]|[_ Hj]]%lookup_insert_Some; [by rewrite lookup_insert_eq|].
    destruct (to_map _ Hw k j Hj) as [Hk Hp]. split; [done|]. rewrite lookup_insert_ne; [done|]. intros He.
    apply (eq_None_not_Some (live t (ti_key i))); [done|]. exists (k, ti_count j).
    apply live_Some. exists j. by rewrite He.
  - intros c k [[<- <-]|[Hc Hk]]%lookup_insert_Some.
    + split; [simpl; lia|]. intros j Hj. rewrite lookup_insert_eq in Hj. by simplify_eq.
    + destruct (to_index _ Hw c k Hk) as [Hr Hp]. split; [lia|]. intros j Hj.
      rewrite lookup_insert_ne in Hj by (symmetry; by eapply Hold). auto.
  - intros k j [[<- <-]|[_ Hj]]%lookup_insert_Some; [lia|by apply (to_count _ Hw k)].
  - intros c. unfold live. simpl. case_decide as Hc.
    + subst. rewrite lookup_insert_eq. simpl. rewrite lookup_insert_eq. simpl. by rewrite Hi2.
    + rewrite lookup_insert_ne by done. destruct (t.(t_index) !! c) as [k|] eqn:Hk; simpl; [|done].
      by rewrite lookup_insert_ne by (symmetry; by eapply Hold).
Qed.

Lemma get_by_key_None k t : table_get_by_key k t = None → live t k = None.
Proof.
  unfold table_get_by_key, live. destruct (t.(t_index) !! _) as [ino|]; simpl; [|done].
  by destruct (t.(t_map) !! ino).
Qed.

Lemma get_by_key_Some k t ino i :
  table_get_by_key k t = Some (ino, i) → t.(t_index) !! k = Some ino ∧ t.(t_map) !! ino = Some i.
Proof.
  unfold table_get_by_key. destruct (t.(t_index) !! _) as [x|]; simpl; [|done].
  destruct (t.(t_map) !! x) eqn:Hk; simpl; [|done]. intros [= <- <-]. done.
Qed.

(** An inode gets another count. *)
Lemma recount_ok ino i n t :
  table_ok t → t.(t_map) !! ino = Some i → 0 < n →
  table_ok (table_set ino (ti_recount n i) t)
  ∧ ∀ k, live (table_set ino (ti_recount n i) t) k =
      match live t k with Some (x, m) => Some (x, if decide (x = ino) then n else m) | None => None end.
Proof.
  intros Hw Hi Hn. split; [split; simpl|].
  - intros k j [[<- <-]|[_ Hj]]%lookup_insert_Some; [rewrite recount_ino, recount_key|]; by apply (to_map _ Hw).
  - intros c k Hc. destruct (to_index _ Hw c k Hc) as [Hr Hp]. split; [done|].
    intros j [[<- <-]|[_ Hj]]%lookup_insert_Some; [rewrite recount_key|]; auto.
  - intros k j [[<- <-]|[_ Hj]]%lookup_insert_Some; [by rewrite recount_count|by apply (to_count _ Hw k)].
  - intros c. unfold live. simpl. destruct (t.(t_index) !! c) as [k|]; simpl; [|done].
    destruct (decide (k = ino)) as [->|Hk].
    + rewrite lookup_insert_eq, Hi. simpl. by rewrite decide_True, recount_count.
    + rewrite lookup_insert_ne by done. destruct (t.(t_map) !! k); simpl; [|done]. by rewrite decide_False.
Qed.

(** What a lookup does to the inodes: one of them gets another count, or one is
added under a number not in use. *)
Definition counted (t : INodeTable) (k : K) (mk : NodeID → I) (t' : INodeTable) (new : bool) : Prop :=
  if new then t.(t_map) !! ino_of t.(t_next) = None
              ∧ t'.(t_map) = <[ino_of t.(t_next) := mk (ino_of t.(t_next))]> t.(t_map)
  else ∃ ino i, t.(t_map) !! ino = Some i ∧ ti_key i = k
              ∧ t' = table_set ino (ti_recount (ti_count i + 1) i) t.

Lemma table_count_spec {E} why k mk t :
  table_ok t → table_room t →
  (∀ ino, ti_ino (mk ino) = ino ∧ ti_key (mk ino) = k ∧ ti_count (mk ino) = 1) →
  ∃ t' new, table_count (E := E) why k mk t = Ok ((looked_up t k).1, t', new) ∧ table_ok t'
    ∧ (∀ c, live t' c = if decide (c = k) then Some (looked_up t c) else live t c)
    ∧ counted t k mk t' new.
Proof.
  intros Hw Hroom Hmk. unfold table_count, looked_up.
  destruct (table_get_by_key k t) as [[ino i]|] eqn:Hg.
  - apply get_by_key_Some in Hg as [Hp Hi]. destruct (to_map _ Hw ino i Hi) as [Hino _].
    assert (live t k = Some (ino, ti_count i)) as Hl by (apply live_Some; eauto).
    pose proof (to_count _ Hw ino i Hi).
    rewrite arith_u_ok by (destruct Hroom as [_ Hr]; specialize (Hr ino i Hi); unfold is_u; lia). simpl.
    destruct (recount_ok ino i (ti_count i + 1) t Hw Hi) as [Hw' Hl']; [lia|].
    rewrite Hl. simpl. rewrite Hino. eexists _, _. split; [done|]. split; [done|]. split.
    + intros c. rewrite Hl'. case_decide as Hc; [by rewrite Hc, Hl, decide_True|].
      destruct (live t c) as [[x m]|] eqn:Hk; [|done]. rewrite decide_False; [done|]. intros ->. apply Hc.
      by apply (live_inj t c k ino m (ti_count i)).
    + exists ino, i. split; [done|]. split; [|done]. by apply (proj2 (to_index _ Hw k ino Hp)).
  - apply get_by_key_None in Hg. destruct (Hmk (ino_of t.(t_next))) as (H1 & H2 & H3).
    destruct (insert_fresh (E := E) why (mk (ino_of t.(t_next))) t) as (t' & Hv & Hin & Hw' & Hm & Hl);
      [done..|by rewrite H2|done|done|].
    rewrite Hv. simpl. rewrite Hin, Hg. simpl. exists t', true. split; [done|]. split; [done|]. split.
    + intros c. rewrite Hl, H2. case_decide as Hc; [by rewrite Hc, Hg|done].
    + split; [by apply fresh_not_mapped|done].
Qed.

Lemma table_forget_spec ino n t :
  table_ok t →
  table_ok (table_forget ino n t).1 ∧ ∀ c, live (table_forget ino n t).1 c = live t c ≫= after_forget ino n.
Proof.
  intros Hw. unfold table_forget. destruct (t.(t_map) !! ino) as [i|] eqn:Hi; simpl.
  - destruct (Z.eqb_spec (Z.max 0 (ti_count i - n)) 0) as [Hz|Hz]; simpl.
    + split; [split; simpl|].
      * intros x j [_ Hj]%lookup_delete_Some. by apply (to_map _ Hw).
      * intros c x Hc. destruct (to_index _ Hw c x Hc) as [Hr Hp]. split; [done|].
        intros j [_ Hj]%lookup_delete_Some. auto.
      * intros x j [_ Hj]%lookup_delete_Some. by apply (to_count _ Hw x).
      * intros c. unfold live, after_forget. simpl. destruct (t.(t_index) !! c) as [x|]; simpl; [|done].
        destruct (decide (x = ino)) as [->|Hx].
        -- rewrite lookup_delete_eq, Hi. simpl. rewrite decide_True by done. by rewrite Hz.
        -- rewrite lookup_delete_ne by done. destruct (t.(t_map) !! x); simpl; [|done]. by rewrite decide_False.
    + destruct (recount_ok ino i (Z.max 0 (ti_count i - n)) t Hw Hi) as [Hw' Hl]; [lia|].
      split; [done|]. intros c. rewrite Hl. unfold after_forget.
      destruct (live t c) as [[x m]|] eqn:Hx; simpl; [|done]. case_decide as He; [|done]. subst.
      apply live_Some in Hx as (j & _ & Hj & ->). rewrite Hi in Hj. simplify_eq.
      by rewrite (proj2 (Z.eqb_neq _ _) Hz).
  - split; [done|]. intros c. destruct (live t c) as [[x m]|] eqn:Hx; simpl; [|done]. unfold after_forget. simpl.
    rewrite decide_False; [done|]. intros ->. apply live_Some in Hx as (j & _ & Hj & _). congruence.
Qed.

(** What is left of a count after a list of FORGETs. *)
Definition after_forgets (forgets : list Forget) (x : NodeID * Z) : option (NodeID * Z) :=
  let m := Z.max 0 (x.2 - given_back x.1 forgets) in if m =? 0 then None else Some (x.1, m).

Lemma after_forgets_nil t k : table_ok t → live t k ≫= after_forgets [] = live t k.
Proof.
  intros Hw. destruct (live t k) as [[ino n]|] eqn:Hk; simpl; [|done].
  apply live_Some in Hk as (i & _ & Hi & ->). pose proof (to_count _ Hw ino i Hi).
  unfold after_forgets. simpl. by rewrite Z.sub_0_r, Z.max_r, (proj2 (Z.eqb_neq _ _)) by lia.
Qed.

Lemma after_forgets_cons f l x :
  forgets_legal (f :: l) →
  after_forgets (f :: l) x =
  after_forget (NodeID_from_raw_unchecked f.(Forget_raw).(forget_one_nodeid)) (Forget_nlookup f) x
    ≫= after_forgets l.
Proof.
  intros [[_ Hn] Hl]%Forall_cons. destruct x as [x m]. pose proof (given_back_nonneg x l Hl).
  set (ino := NodeID_from_raw_unchecked f.(Forget_raw).(forget_one_nodeid)).
  unfold after_forget, after_forgets. simpl. destruct (decide (x = ino)) as [->|He].
  - rewrite decide_True by done.
    destruct (Z.eqb_spec (Z.max 0 (m - Forget_nlookup f)) 0) as [Hz|Hz]; simpl.
    + by rewrite (proj2 (Z.eqb_eq _ _)) by lia.
    + by replace (Z.max 0 (Z.max 0 (m - Forget_nlookup f) - given_back ino l))
        with (Z.max 0 (m - (Forget_nlookup f + given_back ino l))) by lia.
  - simpl. rewrite decide_False; [done|]. intros Hx. apply He. unfold ino. by destruct x; simpl in *; subst.
Qed.

(** ** How fast the counters grow *)

Definition table_below (n : Z) (t : INodeTable) : Prop :=
  0 < t.(t_next) ≤ n ∧ ∀ ino i, t.(t_map) !! ino = Some i → ti_count i ≤ n.

Lemma table_below_room n t : n < 2 ^ 64 - 1 → table_below n t → table_room t.
Proof. intros Hn [Hx Hc]. split; [lia|]. intros ino i Hi. specialize (Hc ino i Hi). lia. Qed.

Lemma table_below_mono n m t : n ≤ m → table_below n t → table_below m t.
Proof. intros Hn [Hx Hc]. split; [lia|]. intros ino i Hi. specialize (Hc ino i Hi). lia. Qed.

Lemma table_below_set n t ino i : table_below n t → ti_count i ≤ n → table_below n (table_set ino i t).
Proof.
  intros [Hx Hc] Hi. split; [done|]. simpl. intros k j [[<- <-]|[_ Hj]]%lookup_insert_Some; [done|eauto].
Qed.

Lemma table_count_below {E} why k mk n t ino t' new :
  table_ok t → table_below n t → n < 2 ^ 64 - 1 → (∀ ino, ti_count (mk ino) = 1) →
  table_count (E := E) why k mk t = Ok (ino, t', new) → table_below (n + 1) t'.
Proof.
  intros Hw Hb Hn Hmk. pose proof Hb as [Hx Hc]. unfold table_count.
  destruct (table_get_by_key k t) as [[x i]|] eqn:Hg.
  - apply get_by_key_Some in Hg as [_ Hi]. pose proof (to_count _ Hw x i Hi). specialize (Hc x i Hi).
    rewrite arith_u_ok by (unfold is_u; lia). simpl. intros [= <- <- <-].
    apply table_below_set; [apply (table_below_mono n); [lia|done]|]. rewrite recount_count. lia.
  - unfold table_vacant, table_insert, NodeID_from_raw. rewrite (proj2 (Z.eqb_neq _ _)) by lia.
    rewrite arith_u_ok by (unfold is_u; lia). simpl. intros [= <- <- <-]. split; simpl; [lia|].
    intros y j [[<- <-]|[_ Hj]]%lookup_insert_Some; [rewrite Hmk; lia|specialize (Hc y j Hj); lia].
Qed.

Lemma table_forget_below ino m n t : table_ok t → 0 ≤ m → table_below n t → table_below n (table_forget ino m t).1.
Proof.
  intros Hw Hm Hb. pose proof Hb as [Hx Hc]. unfold table_forget.
  destruct (t.(t_map) !! ino) as [i|] eqn:Hi; [|done].
  pose proof (to_count _ Hw ino i Hi). specialize (Hc ino i Hi) as Hci.
  destruct (Z.eqb_spec (Z.max 0 (ti_count i - m)) 0); simpl.
  - split; [done|]. simpl. intros k j [_ Hj]%lookup_delete_Some. eauto.
  - apply table_below_set; [done|]. rewrite recount_count. lia.
Qed.

(** The inode a FORGET drops is the one that is gone from the table. *)
Lemma table_forget_removed ino m t :
  match (table_forget ino m t).2 with
  | Some j => ∃ i n, t.(t_map) !! ino = Some i ∧ j = ti_recount n i ∧ (table_forget ino m t).1.(t_map) = delete ino t.(t_map)
  | None => (table_forget ino m t).1 = t
      ∨ ∃ i n, t.(t_map) !! ino = Some i ∧ (table_forget ino m t).1 = table_set ino (ti_recount n i) t
  end.
Proof.
  unfold table_forget. destruct (t.(t_map) !! ino) as [i|] eqn:Hi; [|by left].
  destruct (_ =? 0); simpl; [eauto 6|right; eauto].
Qed.
End table.

Arguments INodeTable I K {_ _}.
