(* ===== verification/PathThrough.v ===== *)
(** * The example [src/examples_disabled/path_through.rs]

A file system that forwards requests to a directory of the host, by path.  The
program keeps a table of inodes with the path of each, the open directories and
the open files; everything else is the host's.

The program is written against the same earlier interface of the library as
[MemFs], whose replies and errors are used here.  The calls of [std::fs] are
parameters on a world [W]; an open file is a handle whose position is part of
that world. *)

From stdpp Require Import gmap.
From S2P Require Import Prelude Layout Kernel Crates Types Operation MemFs Host INodeTable.
Local Open Scope Z_scope.

(** ** Paths

A [PathBuf] is its bytes; as a key of a map it is its components. *)

Definition slash : byte := Byte.x2f.
Definition dot : OsStr := [Byte.x2e].
Definition dotdot : OsStr := [Byte.x2e; Byte.x2e].

Fixpoint split_slash (p : Path) : list OsStr :=
  match p with
  | [] => [[]]
  | b :: p' =>
      if decide (b = slash) then [] :: split_slash p'
      else match split_slash p' with w :: ws => (b :: w) :: ws | [] => [[b]] end
  end.

Definition is_absolute (p : Path) : bool := match p with b :: _ => bool_decide (b = slash) | [] => false end.

(** [Path::components]: the root if the path has one, then the parts between
slashes; empty parts and dots are dropped, but a dot at the start of a relative path is kept. *)
Inductive Component := RootDir | CurDir | Normal (name : OsStr).

#[export] Instance Component_eq_dec : EqDecision Component.
Proof. solve_decision. Defined.
#[export] Instance Component_countable : Countable Component.
Proof.
  apply (inj_countable'
    (λ c, match c with RootDir => inl (inl tt) | CurDir => inl (inr tt) | Normal n => inr n end)
    (λ x, match x with inl (inl tt) => RootDir | inl (inr tt) => CurDir | inr n => Normal n end)).
  by intros [].
Defined.

Definition kept_part (part : OsStr) : option Component :=
  if decide (part = [] ∨ part = dot) then None else Some (Normal part).

Definition components (p : Path) : list Component :=
  if is_absolute p then RootDir :: omap kept_part (split_slash p)
  else match split_slash p with
       | part :: parts => (if decide (part = dot) then [CurDir] else option_list (kept_part part)) ++ omap kept_part parts
       | [] => []
       end.

(** [Path::join]. *)
Definition path_join (p q : Path) : Path :=
  if is_absolute q then q
  else match last p with
       | None => q
       | Some b => if decide (b = slash) then p ++ q else p ++ slash :: q
       end.

(** ** State *)

Record PtINode := { pt_ino : NodeID; pt_path : Path; pt_refcount : u64 }.

#[export] Instance PtINode_table : TableINode PtINode (list Component) := {|
  ti_ino := pt_ino;
  ti_key i := components i.(pt_path);
  ti_count := pt_refcount;
  ti_recount n i := {| pt_ino := i.(pt_ino); pt_path := i.(pt_path); pt_refcount := n |} |}.

#[export] Instance PtINode_table_spec : TableINodeSpec PtINode (list Component).
Proof. done. Qed.

(** Inodes by number, numbers by path. *)
Definition PtTable := INodeTable PtINode (list Component).

Record PtDirEntry := { pe_name : OsStr; pe_ino : NodeID; pe_typ : option FileType }.

Section path_through.
Context {W : Type} `{HF : HostFs W} `{MA : MemApi} `{SL : SlabApi} `{L : Libc} `{BF : Bitflags}.
Context `{ZC : Zerocopy} `{PR : Profile}.

Record PtDirHandle := { read_dir : HostDir; last_entry : option PtDirEntry; pd_offset : u64 }.

Record PathThrough := {
  pt_source : Path;
  pt_inodes : PtTable;
  pt_dirs : gmap Z PtDirHandle;
  pt_files : gmap Z HostFile;
}.

Definition set_pt_inodes (t : PtTable) (s : PathThrough) : PathThrough :=
  {| pt_source := s.(pt_source); pt_inodes := t; pt_dirs := s.(pt_dirs); pt_files := s.(pt_files) |}.
Definition set_pt_dirs (d : gmap Z PtDirHandle) (s : PathThrough) : PathThrough :=
  {| pt_source := s.(pt_source); pt_inodes := s.(pt_inodes); pt_dirs := d; pt_files := s.(pt_files) |}.
Definition set_pt_files (f : gmap Z HostFile) (s : PathThrough) : PathThrough :=
  {| pt_source := s.(pt_source); pt_inodes := s.(pt_inodes); pt_dirs := s.(pt_dirs); pt_files := f |}.

Notation PM := (M (PathThrough * W) fs_error).

Notation io := (world FsIo).
Notation fs := (own (S := PathThrough) (W := W) (E := fs_error)).

Definition pt_errno {A} (e : Errno) : PM A := lift (Err (FsErrno e)).

(** ** The table of inodes *)

Definition PtTable_vacant {E} (t : PtTable) : outcome E NodeID :=
  table_vacant "called `Option::unwrap()` on a `None` value" t.

Definition PathThrough_new (source : Path) : M W io_error PathThrough :=
  source ← h_canonicalize source;
  ino ← lift (PtTable_vacant INodeTable_new);
  t ← lift (table_insert ino
        {| pt_ino := NodeID_ROOT; pt_path := []; pt_refcount := (2 ^ 64 - 1) / 2 |} INodeTable_new);
  mret {| pt_source := source; pt_inodes := t; pt_dirs := ∅; pt_files := ∅ |}.

Definition pt_get (ino : NodeID) : PM PtINode :=
  s ← fs; lift (ok_or (s.(pt_inodes).(t_map) !! ino) (FsErrno MErrno_NOENT)).

(** The part of LOOKUP that changes the table. *)
Definition count_entry (path : Path) (t : PtTable) : outcome fs_error (NodeID * PtTable) :=
  '(ino, t, _) ← table_count "called `Option::unwrap()` on a `None` value" (components path)
                   (λ ino, {| pt_ino := ino; pt_path := path; pt_refcount := 1 |}) t;
  Ok (ino, t).

Definition pt_lookup (op : Lookup) : PM mem_reply :=
  parent ← pt_get op.(Lookup_parent);
  let path := path_join parent.(pt_path) op.(Lookup_name) in
  s ← fs;
  metadata ← io (h_symlink_metadata (path_join s.(pt_source) path));
  attr ← lift match FileAttr_try_from_metadata metadata with
              | Ok a => Ok a
              | Err _ => Panic "called `Result::unwrap()` on an `Err` value"
              | Panic w => Panic w
              | UB => UB
              end;
  s ← fs;
  '(ino, t) ← lift (count_entry path s.(pt_inodes));
  _ ← set_own (set_pt_inodes t s);
  mret (EntryOut ino attr None None).

Fixpoint pt_forget (forgets : list Forget) : PM unit :=
  match forgets with
  | [] => mret tt
  | forget :: forgets =>
      ino ← lift (Forget_ino forget);
      s ← fs;
      _ ← set_own (set_pt_inodes (table_forget ino (Forget_nlookup forget) s.(pt_inodes)).1 s);
      pt_forget forgets
  end.

(** [metadata.try_into().map_err(|_| Errno::INVAL)] *)
Definition attr_or_inval (m : Metadata) : outcome fs_error FileAttr :=
  map_err (λ _, FsErrno MErrno_INVAL) (FileAttr_try_from_metadata m).

Definition pt_getattr (op : Getattr) : PM mem_reply :=
  inode ← pt_get op.(Getattr_ino);
  s ← fs;
  metadata ← io (h_symlink_metadata (path_join s.(pt_source) inode.(pt_path)));
  a ← lift (attr_or_inval metadata);
  mret (AttrOut a None).

Definition get_file (fh : FileID) : PM HostFile :=
  s ← fs; lift (ok_or (s.(pt_files) !! fh.(FileID_into_raw)) (FsErrno MErrno_INVAL)).

Definition pt_setattr (op : Setattr) : PM mem_reply :=
  fh ← lift (ok_or op.(Setattr_fh) (FsErrno MErrno_NOENT));
  file ← get_file fh;
  _ ← io (h_sync_all file);
  inode ← pt_get op.(Setattr_ino);
  s ← fs;
  let path := path_join s.(pt_source) inode.(pt_path) in
  _ ← (match op.(Setattr_mode) with
       | Some mode => io (h_set_permissions file (FileMode_permissions mode))
       | None => mret tt
       end);
  _ ← (match op.(Setattr_size) with Some size => io (h_set_len file size) | None => mret tt end);
  _ ← (match op.(Setattr_uid), op.(Setattr_gid) with
       | None, None => mret tt
       | uid, gid => world FsErrno (h_chown path uid gid)
       end);
  metadata ← io (h_symlink_metadata (path_join s.(pt_source) inode.(pt_path)));
  a ← lift (attr_or_inval metadata);
  mret (AttrOut a None).

Definition pt_readlink (op : Readlink) : PM mem_reply :=
  inode ← pt_get op.(Readlink_ino);
  s ← fs;
  path ← io (h_read_link (path_join s.(pt_source) inode.(pt_path)));
  mret (Raw path).

(** ** Directories *)

Definition pt_opendir (op : Opendir) : PM mem_reply :=
  inode ← pt_get op.(Opendir_ino);
  s ← fs;
  rd ← io (h_read_dir (path_join s.(pt_source) inode.(pt_path)));
  s ← fs;
  let fh := slab_key s.(pt_dirs) in
  _ ← set_own (set_pt_dirs (<[fh := {| read_dir := rd; last_entry := None; pd_offset := 1 |}]> s.(pt_dirs)) s);
  mret (OpenOut (FileID_from_raw fh)).

(** [metadata.file_type()], as far as it is told apart. *)
Definition entry_type (m : Metadata) : option FileType :=
  let t := Z.land m.(m_mode) S_IFMT in
  if t =? S_IFREG then Some Regular
  else if t =? S_IFDIR then Some Directory
  else if t =? S_IFLNK then Some SymbolicLink
  else None.

Definition dir_entry (e : PtDirEntry) (off : u64) : MemDirEntry :=
  {| md_name := e.(pe_name); md_ino := e.(pe_ino); md_typ := e.(pe_typ); md_off := off |}.

Definition put_dir (key : Z) (d : PtDirHandle) : PM unit :=
  s ← fs; set_own (set_pt_dirs (<[key := d]> s.(pt_dirs)) s).

Definition with_last (e : option PtDirEntry) (d : PtDirHandle) : PtDirHandle :=
  {| read_dir := d.(read_dir); last_entry := e; pd_offset := d.(pd_offset) |}.
Definition with_dir (rd : HostDir) (d : PtDirHandle) : PtDirHandle :=
  {| read_dir := rd; last_entry := d.(last_entry); pd_offset := d.(pd_offset) |}.

(** [dir.offset += 1] *)
Definition advance (d : PtDirHandle) : outcome fs_error PtDirHandle :=
  n ← arith_u 64 (d.(pd_offset) + 1);
  Ok {| read_dir := d.(read_dir); last_entry := d.(last_entry); pd_offset := n |}.

Definition next_entry (key : Z) (d : PtDirHandle) : PM (option HostEntry * PtDirHandle) := λ '(s, w),
  let '(r, rd, w') := h_next d.(read_dir) w in
  let d := with_dir rd d in
  (_ ← put_dir key d;
   match r with
   | None => mret (None, d)
   | Some (Ok e) => mret (Some e, d)
   | Some (Err e) => lift (Err (FsIo e))
   | Some (Panic why) => lift (Panic why)
   | Some UB => lift UB
   end) (s, w').

(** The loop over the host's entries; [None] when the fuel is used up. *)
Fixpoint fill_listing (fuel : nat) (key : Z) (size : usize) (d : PtDirHandle) (buf : list MemDirEntry)
    : PM (option (list MemDirEntry)) :=
  match fuel with
  | O => mret None
  | S fuel =>
      '(e, d) ← next_entry key d;
      match e with
      | None => mret (Some buf)
      | Some e =>
          if decide (e.(he_name) = dot ∨ e.(he_name) = dotdot) then fill_listing fuel key size d buf
          else
            metadata ← io (h_entry_metadata e);
            ino ← lift match NodeID_from_raw metadata.(m_ino) with
                       | Some ino => Ok ino
                       | None => Panic "called `Option::unwrap()` on a `None` value"
                       end;
            let entry := {| pe_name := e.(he_name); pe_ino := ino; pe_typ := entry_type metadata |} in
            if readdir_full size buf (dir_entry entry d.(pd_offset)) then
              _ ← put_dir key (with_last (Some entry) d);
              if decide (buf = []) then pt_errno MErrno_RANGE else mret (Some buf)
            else
              d' ← lift (advance d);
              _ ← put_dir key d';
              fill_listing fuel key size d' (buf ++ [dir_entry entry d.(pd_offset)])
      end
  end.

Definition pt_readdir (fuel : nat) (op : Readdir) : PM (option mem_reply) :=
  match op.(Readdir_mode) with
  | ReaddirMode_Plus => pt_errno MErrno_NOSYS
  | ReaddirMode_Normal =>
      s ← fs;
      let key := op.(Readdir_fh).(FileID_into_raw) in
      dir ← lift (ok_or (s.(pt_dirs) !! key) (FsErrno MErrno_INVAL));
      '(dir, buf) ← (match dir.(last_entry) with
        | None => mret (dir, [])
        | Some entry =>
            if readdir_full op.(Readdir_size) [] (dir_entry entry dir.(pd_offset))
            then pt_errno MErrno_RANGE
            else
              dir' ← lift (advance (with_last None dir));
              _ ← put_dir key dir';
              mret (dir', [dir_entry entry dir.(pd_offset)])
        end);
      r ← fill_listing fuel key op.(Readdir_size) dir buf;
      mret (ReaddirOut <$> r)
  end.

Definition pt_releasedir (op : Releasedir) : PM mem_reply :=
  s ← fs;
  let key := op.(Releasedir_fh).(FileID_into_raw) in
  match s.(pt_dirs) !! key with
  | None => lift (Panic "invalid key")
  | Some _ => _ ← set_own (set_pt_dirs (delete key s.(pt_dirs)) s); mret Empty
  end.

(** ** Files *)

Definition pt_open (op : Open) : PM mem_reply :=
  inode ← pt_get op.(Open_ino);
  let flags := bf_intersection (OpenOptions_flags op.(Open_options))
                 (bf_from_bits_truncate OpenFlags_flags (u32_not O_NOFOLLOW)) in
  let options := fs_OpenOptions_from (OpenOptions_set_flags flags op.(Open_options)) in
  s ← fs;
  file ← io (h_open options (path_join s.(pt_source) inode.(pt_path)));
  s ← fs;
  let fh := slab_key s.(pt_files) in
  _ ← set_own (set_pt_files (<[fh := file]> s.(pt_files)) s);
  mret (OpenOut (FileID_from_raw fh)).

Definition FileHandle_read (file : HostFile) (offset : u64) (size : usize) : M W io_error (list byte) :=
  _ ← h_seek file offset; h_read_to_end file size.

Definition pt_read (op : Read) : PM mem_reply :=
  file ← get_file op.(Read_fh);
  buf ← io (FileHandle_read file op.(Read_offset) op.(Read_size));
  mret (Raw buf).

(** [BufReader::new(data).take(limit)]: the bytes buffered, and what each further
read of the request's reader returns. *)
Record TakeReader := {
  tr_buf : list byte; tr_reads : list (outcome io_error (list byte)); tr_limit : u64;
}.

(** [BufReader::fill_buf] reads only when its buffer is empty. *)
Definition fill_inner : M TakeReader io_error (list byte) := λ r,
  match r.(tr_buf), r.(tr_reads) with
  | [], read :: reads =>
      (read, {| tr_buf := match read with Ok c => c | _ => [] end; tr_reads := reads; tr_limit := r.(tr_limit) |})
  | buf, _ => (Ok buf, r)
  end.

(** [Take::fill_buf] *)
Definition fill_buf : M TakeReader io_error (list byte) :=
  r ← get;
  if r.(tr_limit) =? 0 then mret []
  else buf ← fill_inner; mret (take (Z.to_nat r.(tr_limit)) buf).

(** The loop of [FileHandle::write]; [None] while it has not ended. *)
Fixpoint write_loop (fuel : nat) (file : HostFile) (data : TakeReader) (written : usize) (w : W)
    : option (outcome io_error usize * W) :=
  match fuel with
  | O => None
  | S fuel =>
      match fill_buf data with
      | (Ok [], _) => Some (Ok written, w)
      | (Ok chunk, data) =>
          match (n ← h_write file chunk; lift (arith_u 64 (written + n))) w with
          | (Ok written, w) => write_loop fuel file data written w
          | (Err e, w) => Some (Err e, w)
          | (Panic why, w) => Some (Panic why, w)
          | (UB, w) => Some (UB, w)
          end
      | (Err e, _) => Some (Err e, w)
      | (Panic why, _) => Some (Panic why, w)
      | (UB, _) => Some (UB, w)
      end
  end.

Definition FileHandle_write (fuel : nat) (file : HostFile) (data : TakeReader) (offset : u64) (w : W)
    : option (outcome io_error usize * W) :=
  match h_seek file offset w with
  | (Ok _, w) => write_loop fuel file data 0 w
  | (Err e, w) => Some (Err e, w)
  | (Panic why, w) => Some (Panic why, w)
  | (UB, w) => Some (UB, w)
  end.

(** WRITE, with what each read of its data returns; [None] while it runs. *)
Definition pt_write (fuel : nat) (op : Write) (reads : list (outcome io_error (list byte))) (sw : PathThrough * W)
    : option (outcome fs_error mem_reply * (PathThrough * W)) :=
  match get_file op.(Write_fh) sw with
  | (Ok file, (s, w)) =>
      match FileHandle_write fuel file {| tr_buf := []; tr_reads := reads; tr_limit := op.(Write_size) |}
              op.(Write_offset) w with
      | None => None
      | Some (r, w) => Some (n ← map_err FsIo r; Ok (WriteOut (wrap_u 32 n)), (s, w))
      end
  | (Err e, sw) => Some (Err e, sw)
  | (Panic why, sw) => Some (Panic why, sw)
  | (UB, sw) => Some (UB, sw)
  end.

Definition FileHandle_fsync (file : HostFile) (datasync : bool) : M W io_error unit :=
  if datasync then h_sync_data file else h_sync_all file.

Definition pt_flush (op : Flush) : PM mem_reply :=
  file ← get_file op.(Flush_fh);
  _ ← io (FileHandle_fsync file false);
  mret Empty.

Definition pt_fsync (op : Fsync) : PM mem_reply :=
  file ← get_file op.(Fsync_fh);
  _ ← io (FileHandle_fsync file op.(Fsync_datasync));
  mret Empty.

Definition pt_release (op : Release) : PM mem_reply :=
  s ← fs;
  let key := op.(Release_fh).(FileID_into_raw) in
  match s.(pt_files) !! key with
  | None => lift (Panic "invalid key")
  | Some _ => _ ← set_own (set_pt_files (delete key s.(pt_files)) s); mret Empty
  end.

End path_through.
