(* ===== verification/PathThroughSpec.v ===== *)
(** * The forwarding file system: numbers, listings, writes

What [PathThrough] promises about the numbers it gives to paths and about
directory listings, and the loop of its WRITE that does not end. *)

From stdpp Require Import gmap.
From S2P Require Import Prelude Layout Kernel Crates Types Operation MemFs MemFsSpec Host INodeTable PathThrough.
Local Open Scope Z_scope.

(** ** Components of a joined path *)

(** A name the kernel sends. *)
Definition plain (name : OsStr) : Prop := name ≠ [] ∧ slash ∉ name ∧ name ≠ dot.

Lemma split_slash_cons p : ∃ w ws, split_slash p = w :: ws.
Proof.
  induction p as [|b p (w & ws & IH)]; simpl; [eauto|]. case_decide; [eauto|]. rewrite IH. eauto.
Qed.

Lemma split_slash_app a b : split_slash (a ++ slash :: b) = split_slash a ++ split_slash b.
Proof.
  induction a as [|x a IH]; simpl.
  - done.
  - rewrite IH. case_decide; [done|]. by destruct (split_slash_cons a) as (w & ws & ->).
Qed.

Lemma split_slash_plain n : slash ∉ n → split_slash n = [n].
Proof.
  induction n as [|b n IH]; simpl; [done|]. intros [Hb Hn]%not_elem_of_cons.
  by rewrite decide_False, IH by done.
Qed.

Lemma is_absolute_app a b : a ≠ [] → is_absolute (a ++ b) = is_absolute a.
Proof. by destruct a. Qed.

Lemma plain_relative n : slash ∉ n → is_absolute n = false.
Proof.
  destruct n as [|b n]; [done|]. intros [Hb _]%not_elem_of_cons. simpl. by apply bool_decide_eq_false_2.
Qed.

Lemma kept_plain n : plain n → kept_part n = Some (Normal n).
Proof. intros (H1 & _ & H2). unfold kept_part. by rewrite decide_False by tauto. Qed.

(** A slash and a name behind a path. *)
Lemma components_snoc a n :
  a ≠ [] → plain n → components (a ++ slash :: n) = components a ++ [Normal n].
Proof.
  intros Ha Hn. pose proof Hn as (_ & Hs & _). unfold components.
  rewrite is_absolute_app, split_slash_app, (split_slash_plain n) by done.
  destruct (is_absolute a).
  - rewrite omap_app. simpl. by rewrite kept_plain.
  - destruct (split_slash_cons a) as (w & ws & ->). simpl. rewrite omap_app. simpl.
    rewrite (kept_plain n) by done. by rewrite app_assoc.
Qed.

Lemma components_trailing a : a ≠ [] → components (a ++ [slash]) = components a.
Proof.
  intros Ha. unfold components. rewrite is_absolute_app, split_slash_app by done. simpl.
  destruct (is_absolute a); [by rewrite omap_app, app_nil_r|].
  destruct (split_slash_cons a) as (w & ws & ->). simpl. by rewrite omap_app, app_nil_r.
Qed.

Lemma components_join p n : plain n → components (path_join p n) = components p ++ [Normal n].
Proof.
  intros Hn. pose proof Hn as (Hne & Hs & Hd). unfold path_join. rewrite plain_relative by done.
  destruct (last p) as [b|] eqn:Hl.
  - assert (p ≠ []) by by intros ->. case_decide as Hb; [|by apply components_snoc].
    apply last_Some in Hl as [a ->]. subst b. rewrite <- app_assoc. simpl.
    destruct (decide (a = [])) as [->|Ha].
    + simpl. unfold components. simpl. rewrite split_slash_plain by done. simpl. by rewrite kept_plain.
    + by rewrite components_snoc, components_trailing.
  - apply last_None in Hl as ->. unfold components. rewrite plain_relative, split_slash_plain by done. simpl.
    rewrite decide_False by done. by rewrite kept_plain.
Qed.

(** ** Operations *)

Section operations.
Context {W : Type} `{HF : HostFs W} `{MA : MemApi} `{SL : SlabApi} `{L : Libc} `{BF : Bitflags}.
Context `{ZC : Zerocopy} `{PR : Profile}.

Lemma pt_get_ok ino i (s : PathThrough) (w : W) :
  s.(pt_inodes).(t_map) !! ino = Some i → pt_get ino (s, w) = (Ok i, (s, w)).
Proof. intros H. unfold pt_get, mbind, M_bind, own, lift. by rewrite H. Qed.

(** LOOKUP gives a path one number: a name under an inode answers with the
number its path already has, one lookup more, or with a number never used
before; the counts of all other paths stay, no number stands for two paths, and
the attributes are the host's. *)
Theorem path_through_lookup (s : PathThrough) (w w' : W) op p m a :
  table_ok s.(pt_inodes) → table_room s.(pt_inodes) → plain op.(Lookup_name) →
  s.(pt_inodes).(t_map) !! op.(Lookup_parent) = Some p →
  h_symlink_metadata (path_join s.(pt_source) (path_join p.(pt_path) op.(Lookup_name))) w = (Ok m, w') →
  FileAttr_try_from_metadata m = Ok a →
  let here := components p.(pt_path) ++ [Normal op.(Lookup_name)] in
  let '(ino, count) := looked_up s.(pt_inodes) here in
  ∃ s', pt_lookup op (s, w) = (Ok (EntryOut ino a None None), (s', w')) ∧ table_ok s'.(pt_inodes)
    ∧ s'.(pt_dirs) = s.(pt_dirs) ∧ s'.(pt_files) = s.(pt_files)
    ∧ (∀ c, live s'.(pt_inodes) c = if decide (c = here) then Some (ino, count) else live s.(pt_inodes) c)
    ∧ ∀ c n, live s'.(pt_inodes) c = Some (ino, n) → c = here.
Proof.
  intros Hw Hroom Hpl Hp Hm Ha here.
  set (path := path_join p.(pt_path) op.(Lookup_name)).
  destruct (table_count_spec (E := fs_error) "called `Option::unwrap()` on a `None` value" (components path)
    (λ ino, {| pt_ino := ino; pt_path := path; pt_refcount := 1 |}) s.(pt_inodes) Hw Hroom)
    as (t & new & Hc & Hw' & Hl & _); [done|].
  unfold path in Hc, Hl. rewrite components_join in Hc, Hl by done. fold here in Hc, Hl.
  destruct (looked_up s.(pt_inodes) here) as [ino count] eqn:Hlu.
  exists (set_pt_inodes t s). split; [|split; [done|split; [done|split; [done|split]]]].
  - unfold pt_lookup. rewrite (M_bind_Ok _ _ _ _ _ (pt_get_ok _ _ s w Hp)).
    erewrite (M_bind_Ok own) by reflexivity.
    erewrite M_bind_Ok by (unfold world; rewrite Hm; reflexivity).
    rewrite Ha. erewrite M_bind_Ok by reflexivity. erewrite (M_bind_Ok own) by reflexivity.
    erewrite M_bind_Ok by (unfold lift, count_entry; rewrite components_join by done; fold here; rewrite Hc; reflexivity). done.
  - intros c. simpl. rewrite Hl. case_decide; [|done]. subst. by rewrite Hlu.
  - intros c n Hn. simpl in *. apply (live_inj t c here ino n count); [done..|].
    rewrite Hl, decide_True by done. by rewrite Hlu.
Qed.

(** FORGET gives lookups back. *)
Lemma path_through_forget forgets (s : PathThrough) (w : W) :
  table_ok s.(pt_inodes) → forgets_legal forgets →
  ∃ s', pt_forget forgets (s, w) = (Ok tt, (s', w)) ∧ table_ok s'.(pt_inodes)
    ∧ ∀ c, live s'.(pt_inodes) c = live s.(pt_inodes) c ≫= after_forgets forgets.
Proof.
  revert s. induction forgets as [|f l IH]; intros s Hw Hok.
  { exists s. split; [done|]. split; [done|]. intros c. by rewrite after_forgets_nil. }
  pose proof Hok as [[Hf Hn] Hl]%Forall_cons. simpl.
  set (ino := NodeID_from_raw_unchecked f.(Forget_raw).(forget_one_nodeid)).
  assert (Forget_ino (E := fs_error) f = Ok ino) as Hi.
  { unfold Forget_ino, NodeID_from_raw. by rewrite (proj2 (Z.eqb_neq _ _)). }
  erewrite M_bind_Ok by (unfold lift; by rewrite Hi). do 2 erewrite M_bind_Ok by reflexivity.
  destruct (table_forget_spec ino (Forget_nlookup f) s.(pt_inodes) Hw) as [Hw1 Hl1].
  destruct (IH (set_pt_inodes (table_forget ino (Forget_nlookup f) s.(pt_inodes)).1 s) Hw1 Hl) as (s' & Hr & Hw' & Hlive).
  exists s'. split; [done|]. split; [done|]. intros c. rewrite Hlive. simpl. rewrite Hl1.
  destruct (live s.(pt_inodes) c) as [x|]; simpl; [|done]. by rewrite after_forgets_cons.
Qed.

(** ** Writes *)

(** Bytes stay in the buffer of the reader until they are consumed, which the
loop does not do. *)
Lemma fill_buf_again buf reads limit :
  buf ≠ [] → 0 < limit →
  let r := {| tr_buf := buf; tr_reads := reads; tr_limit := limit |} in
  ∃ b bs, take (Z.to_nat limit) buf = b :: bs ∧ fill_buf r = (Ok (b :: bs), r).
Proof.
  intros Hb Hl r. destruct buf as [|b buf]; [done|].
  destruct (Z.to_nat limit) as [|n] eqn:Hn; [lia|]. exists b, (take n buf). split; [done|].
  unfold fill_buf, mbind, M_bind, get. unfold r at 1. simpl. rewrite (proj2 (Z.eqb_neq _ _)) by lia.
  by rewrite Hn.
Qed.

Lemma fill_buf_first chunk reads limit :
  0 < limit →
  fill_buf {| tr_buf := []; tr_reads := Ok chunk :: reads; tr_limit := limit |}
  = (Ok (take (Z.to_nat limit) chunk), {| tr_buf := chunk; tr_reads := reads; tr_limit := limit |}).
Proof.
  intros Hl. unfold fill_buf, mbind, M_bind, get. simpl. by rewrite (proj2 (Z.eqb_neq _ _)) by lia.
Qed.

Lemma write_loop_runs fuel file buf reads limit written w :
  buf ≠ [] → 0 < limit → 0 ≤ written →
  (∀ chunk w, ∃ n w', h_write file chunk w = (Ok n, w') ∧ 0 ≤ n ≤ Z.of_nat (length chunk)) →
  written + Z.of_nat fuel * Z.of_nat (length buf) < 2 ^ 64 →
  write_loop fuel file {| tr_buf := buf; tr_reads := reads; tr_limit := limit |} written w = None.
Proof.
  intros Hb Hl Hw Hwr. revert written w Hw. induction fuel as [|fuel IH]; intros written w Hw Hlt; [done|].
  destruct (fill_buf_again buf reads limit Hb Hl) as (b & bs & Htake & Hfill). simpl. rewrite Hfill.
  destruct (Hwr (b :: bs) w) as (n & w' & Hn & Hr).
  assert (Z.of_nat (length (b :: bs)) ≤ Z.of_nat (length buf)) as Hlen by (rewrite <- Htake, length_take; lia).
  unfold mbind at 1, M_bind at 1. rewrite Hn. unfold lift. rewrite arith_u_ok by (unfold is_u; lia).
  apply IH; lia.
Qed.

(** WRITE of at least one byte does not end: the loop takes the same chunk
from the reader again and again, because nothing consumes it, so on a host that
accepts every write no number of rounds (up to the overflow of the byte count)
leads to a reply. *)
Theorem path_through_write_never_ends fuel op chunk reads (s : PathThrough) (w w' : W) file pos :
  s.(pt_files) !! op.(Write_fh).(FileID_into_raw) = Some file →
  h_seek file op.(Write_offset) w = (Ok pos, w') → 0 < op.(Write_size) → chunk ≠ [] →
  (∀ data w, ∃ n w', h_write file data w = (Ok n, w') ∧ 0 ≤ n ≤ Z.of_nat (length data)) →
  Z.of_nat fuel * Z.of_nat (length chunk) < 2 ^ 64 →
  pt_write fuel op (Ok chunk :: reads) (s, w) = None.
Proof.
  intros Hf Hs Hsz Hc Hwr Hlt. unfold pt_write, get_file, mbind, M_bind, own, lift. rewrite Hf. simpl.
  unfold FileHandle_write. rewrite Hs. destruct fuel as [|fuel]; [done|]. simpl.
  destruct (fill_buf_again chunk reads op.(Write_size) Hc Hsz) as (b & bs & Htake & _).
  rewrite fill_buf_first, Htake by done. unfold mbind, M_bind. destruct (Hwr (b :: bs) w') as (n & w2 & Hn & Hr). rewrite Hn.
  assert (Z.of_nat (length (b :: bs)) ≤ Z.of_nat (length chunk)) as Hlen by (rewrite <- Htake, length_take; lia).
  unfold lift. rewrite arith_u_ok by (unfold is_u; lia). rewrite write_loop_runs; [done|done|done|lia|done|lia].
Qed.
End operations.

(** ** Listings *)

(** A host directory that is read without errors: it hands out a list of
entries, each with its metadata. *)
Class HostDirSpec {W} `{HostFs W} (stream : HostDir → list HostEntry) (meta : HostEntry → Metadata) : Prop := {
  next_none d w : stream d = [] → ∃ d', h_next d w = (None, d', w) ∧ stream d' = [];
  next_some d w e es : stream d = e :: es → ∃ d', h_next d w = (Some (Ok e), d', w) ∧ stream d' = es;
  entry_meta e w : h_entry_metadata e w = (Ok (meta e), w);
  meta_ino e : (meta e).(m_ino) ≠ 0;
}.

Section listing.
Context {W : Type} `{HF : HostFs W} `{MA : MemApi} `{SL : SlabApi} `{L : Libc} `{BF : Bitflags}.
Context `{ZC : Zerocopy} `{PR : Profile} (stream : HostDir → list HostEntry) (meta : HostEntry → Metadata).
Context `{HD : !HostDirSpec stream meta}.

(** The entry shown for an entry of the host. *)
Definition shown_entry (e : HostEntry) : option PtDirEntry :=
  if decide (e.(he_name) = dot ∨ e.(he_name) = dotdot) then None
  else Some {| pe_name := e.(he_name); pe_ino := NodeID_from_raw_unchecked (meta e).(m_ino);
               pe_typ := entry_type (meta e) |}.

(** What an open directory has still to deliver. *)
Definition pending (d : PtDirHandle) : list PtDirEntry :=
  option_list d.(last_entry) ++ omap shown_entry (stream d.(read_dir)).

(** Entries with consecutive offsets. *)
Fixpoint numbered_from (off : Z) (l : list PtDirEntry) : list MemDirEntry :=
  match l with [] => [] | e :: l => dir_entry e off :: numbered_from (off + 1) l end.

Definition in_dir (key : Z) (d : PtDirHandle) (s : PathThrough) : PathThrough :=
  set_pt_dirs (<[key := d]> s.(pt_dirs)) s.

Lemma in_dir_twice key d1 d2 s : in_dir key d2 (in_dir key d1 s) = in_dir key d2 s.
Proof. unfold in_dir. simpl. unfold set_pt_dirs. simpl. by rewrite insert_insert_eq. Qed.

Lemma put_dir_ok key d s (w : W) : put_dir key d (s, w) = (Ok tt, (in_dir key d s, w)).
Proof. done. Qed.

Lemma next_entry_none key d s (w : W) :
  stream d.(read_dir) = [] →
  ∃ rd, next_entry key d (s, w) = (Ok (None, with_dir rd d), (in_dir key (with_dir rd d) s, w)) ∧ stream rd = [].
Proof.
  intros Hs. destruct (next_none d.(read_dir) w Hs) as (rd & Hn & Hrd). exists rd. split; [|done].
  unfold next_entry. by rewrite Hn.
Qed.

Lemma next_entry_some key d s (w : W) e es :
  stream d.(read_dir) = e :: es →
  ∃ rd, next_entry key d (s, w) = (Ok (Some e, with_dir rd d), (in_dir key (with_dir rd d) s, w)) ∧ stream rd = es.
Proof.
  intros Hs. destruct (next_some d.(read_dir) w e es Hs) as (rd & Hn & Hrd). exists rd. split; [|done].
  unfold next_entry. by rewrite Hn.
Qed.

(** How a READDIR ends: with entries that are gone from what is pending, or
because not even the first one fits. *)
Definition delivered (size : Z) (before : list PtDirEntry) (off : Z) (buf : list MemDirEntry) (d' : PtDirHandle)
    (out : outcome fs_error (option (list MemDirEntry))) : Prop :=
  (∃ l, out = Ok (Some (buf ++ numbered_from off l)) ∧ before = l ++ pending d'
        ∧ d'.(pd_offset) = off + Z.of_nat (length l) ∧ (buf = [] → l = [] → before = []))
  ∨ (buf = [] ∧ out = Err (FsErrno MErrno_RANGE) ∧ pending d' = before ∧ d'.(pd_offset) = off
     ∧ ∃ e rest, before = e :: rest ∧ readdir_full size [] (dir_entry e off) = true).

Lemma fill_listing_spec fuel key size d buf s (w : W) :
  (length (stream d.(read_dir)) < fuel)%nat → d.(last_entry) = None → 0 ≤ d.(pd_offset) →
  d.(pd_offset) + Z.of_nat (length (stream d.(read_dir))) < 2 ^ 64 →
  ∃ out d', fill_listing fuel key size d buf (s, w) = (out, (in_dir key d' s, w))
    ∧ delivered size (pending d) d.(pd_offset) buf d' out.
Proof.
  revert d buf s. induction fuel as [|fuel IH]; intros d buf s Hlt Hlast Hoff Hov; [lia|].
  cbn [fill_listing]. unfold pending at 1. rewrite Hlast. simpl.
  destruct (stream d.(read_dir)) as [|e es] eqn:Hs.
  - destruct (next_entry_none key d s w Hs) as (rd & Hn & Hrd). erewrite M_bind_Ok by exact Hn.
    eexists _, _. split; [done|]. left. exists []. rewrite app_nil_r. split; [done|].
    unfold pending. simpl. rewrite Hlast, Hrd. simpl. split; [done|]. split; [lia|done].
  - destruct (next_entry_some key d s w e es Hs) as (rd & Hn & Hrd). erewrite M_bind_Ok by exact Hn.
    simpl in Hlt, Hov. simpl. unfold shown_entry at 1. case_decide as Hdot.
    + destruct (IH (with_dir rd d) buf (in_dir key (with_dir rd d) s)) as (out & d' & Hf & Hd); simpl;
        [rewrite Hrd; lia|done|done|rewrite Hrd; lia|].
      exists out, d'. rewrite Hf, in_dir_twice. split; [done|]. unfold pending in Hd at 1. simpl in Hd.
      by rewrite Hlast, Hrd in Hd.
    + erewrite M_bind_Ok by (unfold world; rewrite entry_meta; reflexivity).
      pose proof (meta_ino e) as Hi. unfold NodeID_from_raw. rewrite (proj2 (Z.eqb_neq _ _)) by done.
      erewrite M_bind_Ok by reflexivity.
      set (pe := {| pe_name := e.(he_name); pe_ino := _; pe_typ := _ |}).
      destruct (readdir_full size buf (dir_entry pe d.(pd_offset))) eqn:Hfull.
      * erewrite M_bind_Ok by apply put_dir_ok. rewrite in_dir_twice.
        assert (pending (with_last (Some pe) (with_dir rd d)) = pe :: omap shown_entry es) as Hp.
        { unfold pending. simpl. by rewrite Hrd. }
        case_decide as Hb; (eexists _, _; split; [done|]).
        -- right. subst buf. rewrite Hp. do 4 (split; [done|]). eauto.
        -- left. exists []. rewrite app_nil_r, Hp. split; [done|]. split; [done|]. simpl. split; [lia|done].
      * unfold advance. rewrite arith_u_ok by (unfold is_u; simpl; lia). simpl.
        erewrite M_bind_Ok by reflexivity. erewrite M_bind_Ok by apply put_dir_ok. rewrite in_dir_twice.
        set (d1 := {| read_dir := rd; last_entry := d.(last_entry); pd_offset := d.(pd_offset) + 1 |}).
        destruct (IH d1 (buf ++ [dir_entry pe d.(pd_offset)]) (in_dir key d1 s)) as (out & d' & Hf & Hd); simpl;
          [rewrite Hrd; lia|done|lia|rewrite Hrd; lia|].
        exists out, d'. rewrite Hf, in_dir_twice. split; [done|].
        destruct Hd as [(l & -> & Hl & Ho & _)|(Hb & _)]; [|by destruct buf].
        left. exists (pe :: l). unfold pending in Hl at 1. simpl in Hl. rewrite Hlast, Hrd in Hl. simpl in Hl.
        rewrite <- app_assoc. split; [done|]. split; [exact (f_equal (cons pe) Hl)|]. simpl in *. split; [lia|done].
Qed.

(** READDIR neither loses nor repeats an entry: what it answers with, under
consecutive offsets, is a prefix of the entries of the host (without "." and
"..") that are still pending, and the rest stays pending, the entry that did not
fit included.  It answers with no entry only at the end of the directory, and
fails, with RANGE, only when not even the first pending entry fits; then all
stay pending. *)
Theorem path_through_listing fuel op s (w : W) d :
  op.(Readdir_mode) = ReaddirMode_Normal →
  s.(pt_dirs) !! op.(Readdir_fh).(FileID_into_raw) = Some d →
  (length (stream d.(read_dir)) < fuel)%nat →
  0 ≤ d.(pd_offset) → d.(pd_offset) + Z.of_nat (length (stream d.(read_dir))) + 1 < 2 ^ 64 →
  ∃ out d', pt_readdir fuel op (s, w) = (out, (in_dir op.(Readdir_fh).(FileID_into_raw) d' s, w)) ∧
    ((∃ l, out = Ok (Some (ReaddirOut (numbered_from d.(pd_offset) l))) ∧ pending d = l ++ pending d'
           ∧ d'.(pd_offset) = d.(pd_offset) + Z.of_nat (length l) ∧ (l = [] → pending d = []))
     ∨ (out = Err (FsErrno MErrno_RANGE) ∧ pending d' = pending d ∧ d'.(pd_offset) = d.(pd_offset)
        ∧ ∃ e rest, pending d = e :: rest
                    ∧ readdir_full op.(Readdir_size) [] (dir_entry e d.(pd_offset)) = true)).
Proof.
  intros Hm Hd Hfuel Hoff Hov. set (key := op.(Readdir_fh).(FileID_into_raw)) in *.
  assert (in_dir key d s = s) as Hsame.
  { unfold in_dir. rewrite insert_id by done. by destruct s. }
  unfold pt_readdir. rewrite Hm. erewrite (M_bind_Ok own) by reflexivity. fold key.
  erewrite M_bind_Ok by (unfold lift; rewrite Hd; reflexivity).
  destruct (last_entry d) as [e|] eqn:Hlast.
  - destruct (readdir_full op.(Readdir_size) [] (dir_entry e d.(pd_offset))) eqn:Hfull.
    + exists (Err (FsErrno MErrno_RANGE)), d. rewrite Hsame. split; [done|]. right. do 3 (split; [done|]).
      unfold pending. rewrite Hlast. simpl. eauto.
    + set (d1 := {| read_dir := d.(read_dir); last_entry := None; pd_offset := d.(pd_offset) + 1 |}).
      erewrite (M_bind_Ok (_ ≫= _)).
      2: { unfold advance. rewrite arith_u_ok by (unfold is_u; simpl; lia).
           erewrite M_bind_Ok by reflexivity. erewrite M_bind_Ok by apply put_dir_ok. reflexivity. }
      fold d1. destruct (fill_listing_spec fuel key op.(Readdir_size) d1 [dir_entry e d.(pd_offset)] (in_dir key d1 s) w)
        as (out & d' & Hf & [(l & -> & Hl & Ho & _)|(Hb & _)]); simpl; [done|done|lia|lia| |done].
      exists (Ok (Some (ReaddirOut (numbered_from d.(pd_offset) (e :: l))))), d'.
      erewrite M_bind_Ok by exact Hf. rewrite in_dir_twice. split; [done|]. left. exists (e :: l).
      split; [done|]. unfold pending at 1. rewrite Hlast. simpl in Ho |- *.
      unfold pending in Hl at 1. simpl in Hl. rewrite Hl. split; [done|]. split; [lia|done].
  - erewrite M_bind_Ok by reflexivity.
    destruct (fill_listing_spec fuel key op.(Readdir_size) d [] s w)
      as (out & d' & Hf & [(l & -> & Hl & Ho & He)|(_ & -> & Hp & Ho & Hfull)]); [done|done|done|lia|..].
    + eexists _, d'. erewrite M_bind_Ok by exact Hf. split; [done|]. left. exists l. auto.
    + exists (Err (FsErrno MErrno_RANGE)), d'. unfold mbind, M_bind. rewrite Hf. split; [done|]. right. auto.
Qed.
End listing.

(** ** The table at the start *)

Section start.
Context {W : Type} `{HF : HostFs W} `{PR : Profile}.

Definition root_table : PtTable := {|
  t_map := {[ NodeID_ROOT := {| pt_ino := NodeID_ROOT; pt_path := []; pt_refcount := (2 ^ 64 - 1) / 2 |} ]};
  t_index := {[ [] := NodeID_ROOT ]};
  t_next := 2 |}.

Lemma root_table_wf : table_ok root_table ∧ table_room root_table.
Proof.
  split; [split|split]; simpl.
  - intros ino i [<- <-]%lookup_singleton_Some. done.
  - intros c ino [<- <-]%lookup_singleton_Some. split; [done|].
    intros i [_ <-]%lookup_singleton_Some. done.
  - intros ino i [<- <-]%lookup_singleton_Some. done.
  - done.
  - intros ino i [<- <-]%lookup_singleton_Some. done.
Qed.

Lemma PathThrough_new_table source (w w' : W) p :
  h_canonicalize source w = (Ok p, w') →
  PathThrough_new source w
  = (Ok {| pt_source := p; pt_inodes := root_table; pt_dirs := ∅; pt_files := ∅ |}, w').
Proof. intros Hc. unfold PathThrough_new. erewrite M_bind_Ok by exact Hc. done. Qed.
End start.

(** ** Examples *)

Definition metadata_example : Metadata := {|
  m_ino := 7; m_size := 3; m_mode := 0x81a4; m_nlink := 1; m_uid := 0; m_gid := 0; m_rdev := 0;
  m_blksize := 512; m_blocks := 1; m_atime := 0; m_atime_nsec := 0; m_mtime := 0; m_mtime_nsec := 0;
  m_ctime := 0; m_ctime_nsec := 0 |}.

(** A host with one directory of three entries, on which every call succeeds; the
world is the bytes written. *)
#[local] Instance ref_host : HostFs (list byte) := {|
  HostFile := unit;
  HostDir := list HostEntry;
  h_canonicalize p := mret p;
  h_symlink_metadata _ := mret metadata_example;
  h_read_link p := mret p;
  h_read_dir _ := mret [{| he_name := dot; he_id := 1 |}; {| he_name := [Byte.x61]; he_id := 2 |};
                        {| he_name := [Byte.x62]; he_id := 3 |}];
  h_next d w := match d with [] => (None, [], w) | e :: es => (Some (Ok e), es, w) end;
  h_entry_metadata _ := mret metadata_example;
  h_open _ _ := mret tt;
  h_seek _ pos := mret pos;
  h_read_to_end _ limit := λ w, (Ok (take (Z.to_nat limit) w), w);
  h_write _ data := λ w, (Ok (Z.of_nat (length data)), w ++ data);
  h_sync_all _ := mret tt;
  h_sync_data _ := mret tt;
  h_set_permissions _ _ := mret tt;
  h_set_len _ _ := mret tt;
  h_chown _ _ _ := mret tt |}.

Definition ref_stream (d : @HostDir _ ref_host) : list HostEntry := d.

#[local] Instance ref_host_dir : HostDirSpec (W := list byte) ref_stream (λ _, metadata_example).
Proof.
  split; simpl; try done.
  - intros d w Hd. unfold ref_stream in Hd. subst d. by eexists.
  - intros d w e es Hd. unfold ref_stream in Hd. subst d. by eexists.
Qed.

#[local] Instance ref_slab : SlabApi := λ A m, map_fold (λ k _ acc, Z.max (k + 1) acc) 0 m.
#[local] Instance pt_libc : Libc := linux_libc.
#[local] Instance pt_bf : Bitflags := ref_bitflags.
#[local] Instance pt_zc : Zerocopy := ref_zerocopy.
#[local] Instance pt_profile : Profile := true.

(** Room for one entry per reply. *)
#[local] Instance pt_mem_api : MemApi := {|
  MErrno_NOENT := 2; MErrno_NOTDIR := 20; MErrno_EXIST := 17; MErrno_NOTEMPTY := 39;
  MErrno_INVAL := 22; MErrno_NOSYS := 38; MErrno_NOTSUP := 95; MErrno_NODATA := 61; MErrno_RANGE := 34;
  XattrFlags_CREATE := 1; XattrFlags_REPLACE := 2;
  hash_order A m := map_to_list m;
  slab_vacant_key m := 0;
  readdir_full size pushed e := dirent_bytes (pushed ++ [e]) >? size;
  same_shard held wanted := held.(NodeID_into_raw) =? wanted.(NodeID_into_raw) |}.

Definition dir_example : PtDirHandle (W := list byte) := {|
  read_dir := [{| he_name := dot; he_id := 1 |}; {| he_name := [Byte.x61]; he_id := 2 |};
               {| he_name := [Byte.x62]; he_id := 3 |}];
  last_entry := None; pd_offset := 1 |}.

Definition pt_example : PathThrough (W := list byte) := {|
  pt_source := [slash]; pt_inodes := root_table; pt_files := {[ 0 := tt ]};
  pt_dirs := {[ 0 := dir_example ]} |}.

Definition attr_example : FileAttr :=
  match FileAttr_try_from_metadata metadata_example with Ok a => a | _ => fresh_attr NodeID_ROOT 0 (FileMode_from_raw 0) end.

(** The name [a] under the root gets the number 2. *)
Lemma path_through_lookup_witness :
  ∃ s', pt_lookup {| Lookup_parent := NodeID_ROOT; Lookup_name := [Byte.x61] |} (pt_example, [])
        = (Ok (EntryOut (ino_of 2) attr_example None None), (s', []))
    ∧ live s'.(pt_inodes) [Normal [Byte.x61]] = Some (ino_of 2, 1).
Proof.
  destruct root_table_wf as [Hw Hr].
  destruct (path_through_lookup pt_example [] [] {| Lookup_parent := NodeID_ROOT; Lookup_name := [Byte.x61] |}
    {| pt_ino := NodeID_ROOT; pt_path := []; pt_refcount := (2 ^ 64 - 1) / 2 |} metadata_example attr_example Hw Hr)
    as (s' & Hl & _ & _ & _ & Hc & _); [|reflexivity..|].
  - split; [done|]. split; [|done]. apply (bool_decide_unpack _). vm_compute. exact I.
  - exists s'. split; [exact Hl|]. rewrite Hc. reflexivity.
Defined.

Definition pt_write_example : Write := {|
  Write_ino := NodeID_ROOT; Write_fh := FileID_from_raw 0; Write_offset := 0; Write_size := 2;
  Write_options := OpenOptions_from_raw 0; Write_lock_owner := None; Write_flags := 0 |}.

Lemma path_through_write_never_ends_witness :
  pt_write 1000 pt_write_example [Ok [Byte.x61; Byte.x62]] (pt_example, []) = None.
Proof.
  apply (path_through_write_never_ends 1000 pt_write_example [Byte.x61; Byte.x62] [] pt_example [] [] tt 0);
    [reflexivity|reflexivity|reflexivity|done| |reflexivity].
  intros data w. exists (Z.of_nat (length data)), (w ++ data). split; [reflexivity|lia].
Defined.

Lemma path_through_listing_witness :
  ∃ out d', pt_readdir 5 {| Readdir_ino := NodeID_ROOT; Readdir_fh := FileID_from_raw 0; Readdir_offset := 0;
                            Readdir_size := 32; Readdir_mode := ReaddirMode_Normal |} (pt_example, [])
            = (out, (in_dir 0 d' pt_example, []))
    ∧ ∃ l, out = Ok (Some (ReaddirOut (numbered_from 1 l))) ∧ l ≠ [].
Proof.
  destruct (path_through_listing ref_stream (λ _, metadata_example) 5
    {| Readdir_ino := NodeID_ROOT; Readdir_fh := FileID_from_raw 0; Readdir_offset := 0;
       Readdir_size := 32; Readdir_mode := ReaddirMode_Normal |} pt_example [] dir_example)
    as (out & d' & Hr & [(l & Ho & _ & _ & Hl)|(_ & _ & _ & e & rest & Hb & Hf)]);
    [reflexivity|reflexivity|vm_compute; repeat constructor|done|reflexivity|
    |vm_compute in Hb; injection Hb as <- <-; by vm_compute in Hf].
  exists out, d'. split; [exact Hr|]. exists l. split; [exact Ho|]. intros ->. specialize (Hl eq_refl). by vm_compute in Hl.
Defined.
