(* ===== verification/Nix.v ===== *)
(** * System calls: [src/examples_disabled/passthrough/nix.rs]

The calls of the C library are parameters: each takes the world [W] and returns
what the C function returns, with what it stores through its pointers; a call
that fails returns -1 and leaves its code in [errno].  A descriptor is its
number; dropping the value that owns it closes it. *)

From S2P Require Import Prelude Layout Kernel Crates Types Operation MountOpts Host.
Local Open Scope Z_scope.

Definition RawFd := Z.

(** [libc::stat]: the fields of [stat] and the device. *)
Record nix_stat := { ns_stat : stat; st_dev : u64 }.

(** [libc::timespec] *)
Record timespec := { tv_sec : i64; tv_nsec : i64 }.

(** [libc::dirent]: the name is the bytes up to the NUL. *)
Record dirent := { d_ino : u64; d_off : i64; d_type : u8; d_name : list byte }.

Class NixSys (W : Type) := {
  DirP : Type;
  AT_EMPTY_PATH : i32; AT_FDCWD : i32; AT_REMOVEDIR : i32; AT_SYMLINK_FOLLOW : i32;
  AT_SYMLINK_NOFOLLOW : i32; PATH_MAX : Z; ENAMETOOLONG : i32; UTIME_NOW : i64; UTIME_OMIT : i64;
  c_errno (w : W) : i32;
  c_set_errno (e : i32) (w : W) : W;
  c_close (fd : RawFd) (w : W) : W;
  c_open (path : list byte) (flags : i32) (w : W) : Z * W;
  c_openat (fd : RawFd) (path : list byte) (flags : i32) (w : W) : Z * W;
  c_fstatat (fd : RawFd) (path : list byte) (flags : i32) (w : W) : Z * nix_stat * W;
  c_fdopendir (fd : RawFd) (w : W) : option DirP * W;
  c_closedir (d : DirP) (w : W) : W;
  c_dirfd (d : DirP) : RawFd;
  c_seekdir (d : DirP) (pos : i64) (w : W) : W;
  c_readdir (d : DirP) (w : W) : option dirent * W;
  c_readlinkat (fd : RawFd) (path : list byte) (size : usize) (w : W) : Z * list byte * W;
  c_fchownat (fd : RawFd) (path : list byte) (uid gid : u32) (flags : i32) (w : W) : Z * W;
  c_utimensat (fd : RawFd) (path : list byte) (tv : timespec * timespec) (flags : i32) (w : W) : Z * W;
  c_futimens (fd : RawFd) (tv : timespec * timespec) (w : W) : Z * W;
  c_linkat (fd : RawFd) (path : list byte) (newfd : RawFd) (newpath : list byte) (flags : i32) (w : W) : Z * W;
  c_mkdirat (fd : RawFd) (path : list byte) (mode : u32) (w : W) : Z * W;
  c_mknodat (fd : RawFd) (path : list byte) (mode : u32) (dev : u64) (w : W) : Z * W;
  c_symlinkat (link : list byte) (fd : RawFd) (path : list byte) (w : W) : Z * W;
  c_unlinkat (fd : RawFd) (path : list byte) (flags : i32) (w : W) : Z * W;
  c_renameat (fd : RawFd) (path : list byte) (newfd : RawFd) (newpath : list byte) (w : W) : Z * W;
  c_fsync (fd : RawFd) (w : W) : Z * W;
  c_fdatasync (fd : RawFd) (w : W) : Z * W;
  c_chmod (path : list byte) (mode : u32) (w : W) : Z * W;
  c_fchmod (fd : RawFd) (mode : u32) (w : W) : Z * W;
  c_truncate (path : list byte) (len : i64) (w : W) : Z * W;
  c_ftruncate (fd : RawFd) (len : i64) (w : W) : Z * W;
  c_flock (fd : RawFd) (op : i32) (w : W) : Z * W;
  c_posix_fallocate (fd : RawFd) (offset len : i64) (w : W) : Z * W;
  c_getxattr (path name : list byte) (size : usize) (w : W) : Z * list byte * W;
  c_listxattr (path : list byte) (size : usize) (w : W) : Z * list byte * W;
  c_setxattr (path name value : list byte) (flags : i32) (w : W) : Z * W;
  c_removexattr (path name : list byte) (w : W) : Z * W;
  c_fstatvfs (fd : RawFd) (w : W) : Z * statvfs * W;
}.

Section nix.
Context {W : Type} `{NS : NixSys W} `{L : Libc}.

Notation sys := (M W io_error).

(** The macro [syscall!]. *)
Definition syscall (call : W → Z * W) : sys Z := λ w,
  let '(ret, w) := call w in
  if ret =? -1 then (Err (Os (c_errno w)), w) else (Ok ret, w).

(** The same for a call that stores a result through a pointer. *)
Definition syscall_out {A} (call : W → Z * A * W) : sys (Z * A) := λ w,
  let '(ret, out, w) := call w in
  if ret =? -1 then (Err (Os (c_errno w)), w) else (Ok (ret, out), w).

(** [CString::new] *)
Definition c_str (s : OsStr) : outcome io_error (list byte) :=
  if decide (Byte.x00 ∈ s) then Err (Custom InvalidInput "data provided contains a nul byte") else Ok s.

(** ** [FileDesc] *)

Record FileDesc := { fd_raw : RawFd }.

(** [Drop] *)
Definition FileDesc_drop (fd : FileDesc) : W → W := c_close fd.(fd_raw).

Definition with_empty_path (path : OsStr) (flags : i32) : i32 :=
  if decide (path = []) then Z.lor flags AT_EMPTY_PATH else flags.

Definition FileDesc_open (path : OsStr) (flags : i32) : sys FileDesc :=
  let flags := with_empty_path path flags in
  c_path ← lift (c_str path);
  fd ← syscall (c_open c_path flags);
  mret {| fd_raw := fd |}.

(** The bytes of a string of ASCII characters. *)
Definition ascii_bytes (s : str) : list byte := omap (λ c, Byte.of_N (Z.to_N c)) s.

Definition procname (fd : FileDesc) : Path :=
  ascii_bytes (lit "/proc/self/fd/" ++ format 10 fd.(fd_raw)).

Definition openat (self : FileDesc) (path : OsStr) (flags : i32) : sys FileDesc :=
  let flags := with_empty_path path flags in
  c_path ← lift (c_str path);
  fd ← syscall (c_openat self.(fd_raw) c_path flags);
  mret {| fd_raw := fd |}.

Definition fstatat (self : FileDesc) (path : OsStr) (flags : i32) : sys nix_stat :=
  let flags := with_empty_path path flags in
  c_path ← lift (c_str path);
  '(_, stat) ← syscall_out (c_fstatat self.(fd_raw) c_path flags);
  mret stat.

Record ReadDir := { rd_dir : DirP; rd_offset : u64; rd_fd : FileDesc }.

(** [Drop] of [ReadDir], and then of its field [fd]. *)
Definition ReadDir_drop (rd : ReadDir) (w : W) : W := FileDesc_drop rd.(rd_fd) (c_closedir rd.(rd_dir) w).

(** The end of [read_dir], which owns [fd]. *)
Definition opened_dir (fd : FileDesc) : sys ReadDir := λ w,
  match c_fdopendir fd.(fd_raw) w with
  | (Some dp, w) => (Ok {| rd_dir := dp; rd_offset := 0; rd_fd := fd |}, w)
  | (None, w) => (Err (Os (c_errno w)), FileDesc_drop fd w)
  end.

Definition read_dir (self : FileDesc) : sys ReadDir :=
  fd ← openat self [Byte.x2e] O_RDONLY; opened_dir fd.

Definition readlinkat (self : FileDesc) (path : OsStr) : sys OsStr :=
  c_path ← lift (c_str path);
  '(len, buf) ← syscall_out (c_readlinkat self.(fd_raw) c_path (PATH_MAX + 1));
  if PATH_MAX + 1 <=? len then lift (Err (Os ENAMETOOLONG))
  else mret (take (Z.to_nat len) buf).

Definition fchownat (self : FileDesc) (name : OsStr) (uid gid : option u32) (flags : i32) : sys unit :=
  let flags := with_empty_path name flags in
  c_name ← lift (c_str name);
  let uid := default (wrap_u 32 (-1)) uid in
  let gid := default (wrap_u 32 (-1)) gid in
  _ ← syscall (c_fchownat self.(fd_raw) c_name uid gid flags);
  mret tt.

Definition futimensat (self : FileDesc) (name : OsStr) (tv : timespec * timespec) (flags : i32) : sys unit :=
  let flags := with_empty_path name flags in
  c_name ← lift (c_str name);
  _ ← syscall (c_utimensat self.(fd_raw) c_name tv flags);
  mret tt.

Definition linkat (self : FileDesc) (name : OsStr) (newparent : RawFd) (newname : OsStr) (flags : i32) : sys unit :=
  let flags := with_empty_path name flags in
  c_name ← lift (c_str name);
  c_newname ← lift (c_str newname);
  _ ← syscall (c_linkat self.(fd_raw) c_name newparent c_newname flags);
  mret tt.

Definition mkdirat (self : FileDesc) (name : OsStr) (mode : u32) : sys unit :=
  c_name ← lift (c_str name);
  _ ← syscall (c_mkdirat self.(fd_raw) c_name mode);
  mret tt.

Definition mknodat (self : FileDesc) (name : OsStr) (mode : u32) (rdev : u64) : sys unit :=
  c_name ← lift (c_str name);
  _ ← syscall (c_mknodat self.(fd_raw) c_name mode rdev);
  mret tt.

Definition symlinkat (self : FileDesc) (name link : OsStr) : sys unit :=
  c_name ← lift (c_str name);
  c_link ← lift (c_str link);
  _ ← syscall (c_symlinkat c_link self.(fd_raw) c_name);
  mret tt.

Definition unlinkat (self : FileDesc) (name : OsStr) (flags : i32) : sys unit :=
  c_name ← lift (c_str name);
  _ ← syscall (c_unlinkat self.(fd_raw) c_name flags);
  mret tt.

Definition renameat (self : FileDesc) (name : OsStr) (newparent : option RawFd) (newname : OsStr) : sys unit :=
  let newparent_fd := default self.(fd_raw) newparent in
  c_name ← lift (c_str name);
  c_newname ← lift (c_str newname);
  _ ← syscall (c_renameat self.(fd_raw) c_name newparent_fd c_newname);
  mret tt.

(** ** [ReadDir] *)

(** The position is only moved when the offset differs from the one of the last
move. *)
Definition ReadDir_seek (rd : ReadDir) (offset : u64) (w : W) : ReadDir * W :=
  if negb (offset =? rd.(rd_offset))
  then ({| rd_dir := rd.(rd_dir); rd_offset := offset; rd_fd := rd.(rd_fd) |},
        c_seekdir rd.(rd_dir) (wrap_i 64 offset) w)
  else (rd, w).

Definition ReadDir_sync_all (rd : ReadDir) : sys unit :=
  _ ← syscall (c_fsync (c_dirfd rd.(rd_dir))); mret tt.

Definition ReadDir_sync_data (rd : ReadDir) : sys unit :=
  _ ← syscall (c_fdatasync (c_dirfd rd.(rd_dir))); mret tt.

Record NixDirEntry := { ne_name : OsStr; ne_ino : NodeID; ne_typ : u8; ne_off : u64 }.

(** [Iterator::next]: the outer [None] when the fuel is used up, the inner one at
the end of the stream. *)
Fixpoint ReadDir_next (fuel : nat) (d : DirP) : sys (option (option NixDirEntry)) := λ w,
  match fuel with
  | O => (Ok None, w)
  | S fuel =>
      let '(dp, w) := c_readdir d (c_set_errno 0 w) in
      match dp with
      | None => if c_errno w =? 0 then (Ok (Some None), w) else (Err (Os (c_errno w)), w)
      | Some raw =>
          if decide (raw.(d_name) = [Byte.x2e] ∨ raw.(d_name) = [Byte.x2e; Byte.x2e]) then ReadDir_next fuel d w
          else match NodeID_from_raw raw.(d_ino) with
               | None => (Panic "invalid nodeid", w)
               | Some ino =>
                   (Ok (Some (Some {| ne_name := raw.(d_name); ne_ino := ino; ne_typ := raw.(d_type);
                                      ne_off := wrap_u 64 raw.(d_off) |})), w)
               end
      end
  end.

(** ** Calls by path or by descriptor *)

Definition chmod (path : OsStr) (mode : u32) : sys unit :=
  c_path ← lift (c_str path); _ ← syscall (c_chmod c_path mode); mret tt.

Definition fchmod (fd : RawFd) (mode : u32) : sys unit :=
  _ ← syscall (c_fchmod fd mode); mret tt.

Definition truncate (path : OsStr) (length : i64) : sys unit :=
  c_path ← lift (c_str path); _ ← syscall (c_truncate c_path length); mret tt.

Definition ftruncate (fd : RawFd) (length : i64) : sys unit :=
  _ ← syscall (c_ftruncate fd length); mret tt.

Definition utimens (path : OsStr) (tv : timespec * timespec) : sys unit :=
  c_path ← lift (c_str path); _ ← syscall (c_utimensat AT_FDCWD c_path tv 0); mret tt.

Definition futimens (fd : RawFd) (tv : timespec * timespec) : sys unit :=
  _ ← syscall (c_futimens fd tv); mret tt.

Definition link (name : OsStr) (parent : RawFd) (newname : OsStr) (flags : i32) : sys unit :=
  c_name ← lift (c_str name);
  c_newname ← lift (c_str newname);
  _ ← syscall (c_linkat AT_FDCWD c_name parent c_newname flags);
  mret tt.

Definition flock (fd : RawFd) (op : i32) : sys unit :=
  _ ← syscall (c_flock fd op); mret tt.

(** The C function returns the code of the error. *)
Definition posix_fallocate (fd : RawFd) (offset length : i64) : sys unit := λ w,
  let '(err, w) := c_posix_fallocate fd offset length w in
  if negb (err =? 0) then (Err (Os err), w) else (Ok tt, w).

(** Without a buffer the size is zero, and the call only tells the length. *)
Definition getxattr (path name : OsStr) (value : option usize) : sys (usize * list byte) :=
  c_path ← lift (c_str path);
  c_name ← lift (c_str name);
  let size := default 0 value in
  '(n, buf) ← syscall_out (c_getxattr c_path c_name size);
  mret (wrap_u 64 n, buf).

Definition listxattr (path : OsStr) (value : option usize) : sys (usize * list byte) :=
  c_path ← lift (c_str path);
  let size := default 0 value in
  '(n, buf) ← syscall_out (c_listxattr c_path size);
  mret (wrap_u 64 n, buf).

Definition setxattr (path name value : OsStr) (flags : i32) : sys unit :=
  c_path ← lift (c_str path);
  c_name ← lift (c_str name);
  _ ← syscall (c_setxattr c_path c_name value flags);
  mret tt.

Definition removexattr (path name : OsStr) : sys unit :=
  c_path ← lift (c_str path);
  c_name ← lift (c_str name);
  _ ← syscall (c_removexattr c_path c_name);
  mret tt.

Definition fstatvfs (fd : RawFd) : sys statvfs :=
  '(_, st) ← syscall_out (c_fstatvfs fd);
  mret st.

End nix.
