(* ===== verification/Passthrough.v ===== *)
(** * The example [src/examples_disabled/passthrough/main.rs]

A file system that forwards requests to a directory of the host, by descriptor:
every inode the kernel holds keeps an open descriptor of what it stands for, and
inodes are told apart by number and device on the host.

The program is written against the same earlier interface of the library as
[MemFs].  The locks of the inodes, which an operation takes one after the other,
are written out where one could be taken twice: such a call never returns, which
is a panic here.  Where the source drops a descriptor, it is closed. *)

From stdpp Require Import gmap.
From S2P Require Import Prelude Layout Kernel Crates Types Operation MemFs MountOpts Host INodeTable Nix.
Local Open Scope Z_scope.

(** An open [std::fs::File] has a descriptor, which dropping the file closes. *)
Class FileFd (W : Type) `{HostFs W} := file_fd : HostFile → RawFd.

Definition SrcId : Type := u64 * u64.

Record PsINode := {
  ps_ino : NodeID;
  ps_src_id : SrcId;
  ps_is_symlink : bool;
  ps_fd : FileDesc;
  ps_refcount : u64;
}.

#[export] Instance PsINode_table : TableINode PsINode SrcId := {|
  ti_ino := ps_ino;
  ti_key := ps_src_id;
  ti_count := ps_refcount;
  ti_recount n i := {| ps_ino := i.(ps_ino); ps_src_id := i.(ps_src_id); ps_is_symlink := i.(ps_is_symlink);
                       ps_fd := i.(ps_fd); ps_refcount := n |} |}.

#[export] Instance PsINode_table_spec : TableINodeSpec PsINode SrcId.
Proof. done. Qed.

(** Inodes by number, numbers by source. *)
Definition PsTable := INodeTable PsINode SrcId.

Section passthrough.
Context {W : Type} `{HF : HostFs W} `{FF : !FileFd W} `{NS : !NixSys W} `{MA : MemApi} `{SL : SlabApi}.
Context `{L : Libc} `{BF : Bitflags} `{ZC : Zerocopy} `{RX : Rustix} `{PR : Profile}.

Record Passthrough := {
  ps_inodes : PsTable;
  ps_opened_dirs : gmap Z ReadDir;
  ps_opened_files : gmap Z HostFile;
  ps_timeout : option Duration;
}.

Definition set_ps_inodes (t : PsTable) (s : Passthrough) : Passthrough :=
  {| ps_inodes := t; ps_opened_dirs := s.(ps_opened_dirs); ps_opened_files := s.(ps_opened_files);
     ps_timeout := s.(ps_timeout) |}.
Definition set_ps_dirs (d : gmap Z ReadDir) (s : Passthrough) : Passthrough :=
  {| ps_inodes := s.(ps_inodes); ps_opened_dirs := d; ps_opened_files := s.(ps_opened_files);
     ps_timeout := s.(ps_timeout) |}.
Definition set_ps_files (f : gmap Z HostFile) (s : Passthrough) : Passthrough :=
  {| ps_inodes := s.(ps_inodes); ps_opened_dirs := s.(ps_opened_dirs); ps_opened_files := f;
     ps_timeout := s.(ps_timeout) |}.

Notation PM := (M (Passthrough * W) fs_error).
Notation io := (world FsIo).
Notation fs := (own (S := Passthrough) (W := W) (E := fs_error)).

Definition ps_errno {A} (e : Errno) : PM A := lift (Err (FsErrno e)).

(** What a scope owns is dropped when it is left with an error. *)
Definition owning {S A} (drop : W → W) (m : M (S * W) fs_error A) : M (S * W) fs_error A := λ sw,
  match m sw with
  | (Ok a, sw) => (Ok a, sw)
  | (Err e, (s, w)) => (Err e, (s, drop w))
  | (Panic why, (s, w)) => (Panic why, (s, drop w))
  | (UB, sw) => (UB, sw)
  end.

Definition dropping (drop : W → W) : PM unit := λ '(s, w), (Ok tt, (s, drop w)).

Definition ps_get (ino : NodeID) : PM PsINode :=
  s ← fs; lift (ok_or (s.(ps_inodes).(t_map) !! ino) (FsErrno MErrno_NOENT)).

(** A lock that may be held already. *)
Definition lock_other (held ino : NodeID) : PM unit :=
  if decide (ino = held) then lift (Panic "deadlock") else mret tt.

Definition PsTable_vacant {E} (t : PsTable) : outcome E NodeID := table_vacant "invalid nodeid" t.

(** [stat.try_into().map_err(|_| Errno::INVAL)] *)
Definition stat_attr (st : nix_stat) : outcome fs_error FileAttr :=
  map_err (λ _, FsErrno MErrno_INVAL) (FileAttr_try_from_stat st.(ns_stat)).

Definition src_id_of (st : nix_stat) : SrcId := (st.(ns_stat).(st_ino), st.(st_dev)).

Definition is_symlink_mode (st : nix_stat) : bool := Z.land st.(ns_stat).(st_mode) S_IFMT =? S_IFLNK.

Definition Passthrough_new (source : Path) (timeout : option Duration) : M W io_error Passthrough :=
  source ← h_canonicalize source;
  fd ← FileDesc_open source O_PATH;
  stat ← (λ w, match fstatat fd [] AT_SYMLINK_NOFOLLOW w with
               | (Err e, w) => (Err e, FileDesc_drop fd w)
               | r => r
               end);
  ino ← lift (PsTable_vacant INodeTable_new);
  t ← lift (table_insert ino
        {| ps_ino := NodeID_ROOT; ps_fd := fd; ps_refcount := (2 ^ 64 - 1) / 2; ps_src_id := src_id_of stat;
           ps_is_symlink := false |} INodeTable_new);
  mret {| ps_inodes := t; ps_opened_dirs := ∅; ps_opened_files := ∅; ps_timeout := timeout |}.

(** The part of [do_lookup] that changes the table; it owns [fd]. *)
Definition count_source (parent : NodeID) (fd : FileDesc) (stat : nix_stat) : PM NodeID :=
  s ← fs;
  let src_id := src_id_of stat in
  _ ← (match table_get_by_key src_id s.(ps_inodes) with
       | Some (ino, _) => lock_other parent ino
       | None => mret tt
       end);
  '(ino, t, new) ← lift (table_count "invalid nodeid" src_id
      (λ ino, {| ps_ino := ino; ps_fd := fd; ps_refcount := 1; ps_src_id := src_id;
                 ps_is_symlink := is_symlink_mode stat |}) s.(ps_inodes));
  _ ← set_own (set_ps_inodes t s);
  _ ← (if (new : bool) then mret tt else dropping (FileDesc_drop fd));
  mret ino.

Definition do_lookup (parent : NodeID) (name : OsStr) : PM mem_reply :=
  p ← ps_get parent;
  fd ← io (openat p.(ps_fd) name (Z.lor O_PATH O_NOFOLLOW));
  stat ← owning (FileDesc_drop fd) (io (fstatat fd [] AT_SYMLINK_NOFOLLOW));
  ino ← count_source parent fd stat;
  attr ← lift (stat_attr stat);
  s ← fs;
  mret (EntryOut ino attr s.(ps_timeout) s.(ps_timeout)).

Definition ps_make_node (parent : NodeID) (name : OsStr) (mode : FileMode) (rdev : option DeviceID)
    (link : option OsStr) : PM mem_reply :=
  p ← ps_get parent;
  _ ← (match FileMode_file_type mode with
       | Some Directory => io (mkdirat p.(ps_fd) name (FileMode_permissions mode))
       | Some SymbolicLink =>
           link ← lift match link with Some link => Ok link | None => Panic "missing 'link'" end;
           io (symlinkat p.(ps_fd) name link)
       | _ => io (mknodat p.(ps_fd) name mode.(FileMode_into_raw)
                    (match rdev with Some rdev => DeviceID_into_userspace_dev rdev | None => 0 end))
       end);
  do_lookup parent name.

Definition ps_lookup (op : Lookup) : PM mem_reply := do_lookup op.(Lookup_parent) op.(Lookup_name).

Fixpoint ps_forget (forgets : list Forget) : PM unit :=
  match forgets with
  | [] => mret tt
  | forget :: forgets =>
      ino ← lift (Forget_ino forget);
      s ← fs;
      let '(t, removed) := table_forget ino (Forget_nlookup forget) s.(ps_inodes) in
      _ ← set_own (set_ps_inodes t s);
      _ ← (match removed with Some i => dropping (FileDesc_drop i.(ps_fd)) | None => mret tt end);
      ps_forget forgets
  end.

(** The attributes of an inode, answered for the time-out. *)
Definition ps_reply_attr (fd : FileDesc) : PM mem_reply :=
  stat ← io (fstatat fd [] AT_SYMLINK_NOFOLLOW);
  attr ← lift (stat_attr stat);
  s ← fs;
  mret (AttrOut attr s.(ps_timeout)).

Definition ps_getattr (op : Getattr) : PM mem_reply :=
  inode ← ps_get op.(Getattr_ino);
  ps_reply_attr inode.(ps_fd).

Definition get_opened_file (fh : FileID) : PM HostFile :=
  s ← fs; lift (ok_or (s.(ps_opened_files) !! fh.(FileID_into_raw)) (FsErrno MErrno_NOENT)).

Definition get_opened_dir (fh : FileID) : PM ReadDir :=
  s ← fs; lift (ok_or (s.(ps_opened_dirs) !! fh.(FileID_into_raw)) (FsErrno MErrno_NOENT)).

Definition make_timespec (t : option SetAttrTime) : timespec :=
  match t with
  | Some Now => {| tv_sec := 0; tv_nsec := UTIME_NOW |}
  | Some (Timespec ts) => {| tv_sec := wrap_i 64 ts.(as_secs); tv_nsec := ts.(subsec_nanos) |}
  | None => {| tv_sec := 0; tv_nsec := UTIME_OMIT |}
  end.

(** [Errno::from_io_error(&err)] decides which error is returned instead. *)
Definition refuse (codes : list Errno) (instead : Errno) (err : io_error) : io_error :=
  match Errno_from_io_error err with
  | Some e => if decide (e ∈ codes) then Os instead else err
  | None => err
  end.

(** ** SETATTR *)

Definition set_mode (fd : FileDesc) (file : option HostFile) (mode : FileMode) : PM unit :=
  match file with
  | Some file => io (fchmod (file_fd file) mode.(FileMode_into_raw))
  | None => io (chmod (procname fd) mode.(FileMode_into_raw))
  end.

Definition set_size (fd : FileDesc) (file : option HostFile) (size : u64) : PM unit :=
  match file with
  | Some file => io (ftruncate (file_fd file) (wrap_i 64 size))
  | None => io (truncate (procname fd) (wrap_i 64 size))
  end.

Definition set_times (inode : PsINode) (file : option HostFile) (tv : timespec * timespec) : PM unit :=
  match file with
  | Some file => io (futimens (file_fd file) tv)
  | None =>
      if inode.(ps_is_symlink)
      then world (λ err, FsIo (refuse [MErrno_INVAL] Errno_PERM err))
             (futimensat inode.(ps_fd) [] tv AT_SYMLINK_NOFOLLOW)
      else io (utimens (procname inode.(ps_fd)) tv)
  end.

Definition ps_setattr (op : Setattr) : PM mem_reply :=
  inode ← ps_get op.(Setattr_ino);
  let fd := inode.(ps_fd) in
  file ← (match op.(Setattr_fh) with
          | Some fh => f ← get_opened_file fh; mret (Some f)
          | None => mret None
          end);
  _ ← (match op.(Setattr_mode) with Some mode => set_mode fd file mode | None => mret tt end);
  _ ← (match op.(Setattr_uid), op.(Setattr_gid) with
       | None, None => mret tt
       | uid, gid => io (fchownat fd [] uid gid AT_SYMLINK_NOFOLLOW)
       end);
  _ ← (match op.(Setattr_size) with Some size => set_size fd file size | None => mret tt end);
  _ ← (match op.(Setattr_atime), op.(Setattr_mtime) with
       | None, None => mret tt
       | atime, mtime => set_times inode file (make_timespec atime, make_timespec mtime)
       end);
  ps_reply_attr fd.

Definition ps_readlink (op : Readlink) : PM mem_reply :=
  inode ← ps_get op.(Readlink_ino);
  link ← io (readlinkat inode.(ps_fd) []);
  mret (Raw link).

(** ** Names *)

Definition ps_link (op : Link) : PM mem_reply :=
  source ← ps_get op.(Link_ino);
  parent ← ps_get op.(Link_newparent);
  _ ← lock_other op.(Link_ino) op.(Link_newparent);
  _ ← (if source.(ps_is_symlink)
       then world (λ err, FsIo (refuse [MErrno_NOENT; MErrno_INVAL] MErrno_NOTSUP err))
              (linkat source.(ps_fd) [] parent.(ps_fd).(fd_raw) op.(Link_newname) 0)
       else io (link (procname source.(ps_fd)) parent.(ps_fd).(fd_raw) op.(Link_newname) AT_SYMLINK_FOLLOW));
  stat ← io (fstatat source.(ps_fd) [] AT_SYMLINK_NOFOLLOW);
  attr ← lift (stat_attr stat);
  s ← fs;
  n ← lift (arith_u 64 (source.(ps_refcount) + 1));
  _ ← set_own (set_ps_inodes (table_set op.(Link_ino) (ti_recount n source) s.(ps_inodes)) s);
  mret (EntryOut source.(ps_ino) attr s.(ps_timeout) s.(ps_timeout)).

Definition ps_mknod (op : Mknod) : PM mem_reply :=
  ps_make_node op.(Mknod_parent) op.(Mknod_name) op.(Mknod_mode) (Some op.(Mknod_rdev)) None.

Definition ps_mkdir (op : Mkdir) : PM mem_reply :=
  ps_make_node op.(Mkdir_parent) op.(Mkdir_name) (FileMode_new Directory op.(Mkdir_permissions)) None None.

Definition ps_symlink (op : Symlink) : PM mem_reply :=
  ps_make_node op.(Symlink_parent) op.(Symlink_name) (FileMode_new SymbolicLink bf_empty) None
    (Some op.(Symlink_link)).

Definition ps_unlink (op : Unlink) : PM mem_reply :=
  parent ← ps_get op.(Unlink_parent);
  _ ← io (unlinkat parent.(ps_fd) op.(Unlink_name) 0);
  mret Empty.

Definition ps_rmdir (op : Rmdir) : PM mem_reply :=
  parent ← ps_get op.(Rmdir_parent);
  _ ← io (unlinkat parent.(ps_fd) op.(Rmdir_name) AT_REMOVEDIR);
  mret Empty.

Definition ps_rename (op : Rename) : PM mem_reply :=
  if negb (op.(Rename_flags) =? 0) then ps_errno MErrno_INVAL else
  parent ← ps_get op.(Rename_parent);
  newparent ← ps_get op.(Rename_newparent);
  _ ← (if decide (op.(Rename_parent) = op.(Rename_newparent))
       then io (renameat parent.(ps_fd) op.(Rename_name) None op.(Rename_newname))
       else io (renameat parent.(ps_fd) op.(Rename_name) (Some newparent.(ps_fd).(fd_raw)) op.(Rename_newname)));
  mret Empty.

(** ** Directories *)

Definition ps_opendir (op : Opendir) : PM mem_reply :=
  inode ← ps_get op.(Opendir_ino);
  dir ← io (read_dir inode.(ps_fd));
  s ← fs;
  let fh := slab_key s.(ps_opened_dirs) in
  _ ← set_own (set_ps_dirs (<[fh := dir]> s.(ps_opened_dirs)) s);
  mret (OpenOut (FileID_from_raw fh)).

(** Entries are taken from the stream until one does not fit; [None] when the
fuel is used up. *)
Fixpoint push_dir (fuel : nat) (d : DirP) (size : usize) (out : list MemDirEntry)
    : M W io_error (option (list MemDirEntry)) :=
  match fuel with
  | O => mret None
  | S fuel' =>
      r ← ReadDir_next fuel d;
      match r with
      | None => mret None
      | Some None => mret (Some out)
      | Some (Some e) =>
          let entry := {| md_name := e.(ne_name); md_ino := e.(ne_ino);
                          md_typ := FileType_from_dirent_type e.(ne_typ); md_off := e.(ne_off) |} in
          if readdir_full size out entry then mret (Some out) else push_dir fuel' d size (out ++ [entry])
      end
  end.

Definition seek_dir (key : Z) (rd : ReadDir) (offset : u64) : PM ReadDir := λ '(s, w),
  let '(rd, w) := ReadDir_seek rd offset w in
  (Ok rd, (set_ps_dirs (<[key := rd]> s.(ps_opened_dirs)) s, w)).

Definition ps_readdir (fuel : nat) (op : Readdir) : PM (option mem_reply) :=
  match op.(Readdir_mode) with
  | ReaddirMode_Plus => ps_errno MErrno_NOSYS
  | ReaddirMode_Normal =>
      rd ← get_opened_dir op.(Readdir_fh);
      rd ← seek_dir op.(Readdir_fh).(FileID_into_raw) rd op.(Readdir_offset);
      r ← io (push_dir fuel rd.(rd_dir) op.(Readdir_size) []);
      mret (ReaddirOut <$> r)
  end.

Definition ps_fsyncdir (op : Fsyncdir) : PM mem_reply :=
  rd ← get_opened_dir op.(Fsyncdir_fh);
  _ ← io (if op.(Fsyncdir_datasync) then ReadDir_sync_data rd else ReadDir_sync_all rd);
  mret Empty.

(** [HandlePool::remove] panics on a handle that is not in use. *)
Definition ps_releasedir (op : Releasedir) : PM mem_reply :=
  s ← fs;
  let key := op.(Releasedir_fh).(FileID_into_raw) in
  match s.(ps_opened_dirs) !! key with
  | None => lift (Panic "invalid key")
  | Some rd =>
      _ ← set_own (set_ps_dirs (delete key s.(ps_opened_dirs)) s);
      _ ← dropping (ReadDir_drop rd);
      mret Empty
  end.

(** ** Files *)

Definition ps_open (op : Open) : PM mem_reply :=
  inode ← ps_get op.(Open_ino);
  let flags := bf_intersection (OpenOptions_flags op.(Open_options))
                 (bf_from_bits_truncate OpenFlags_flags (u32_not O_NOFOLLOW)) in
  let options := fs_OpenOptions_from (OpenOptions_set_flags flags op.(Open_options)) in
  file ← io (h_open options (procname inode.(ps_fd)));
  s ← fs;
  let fh := slab_key s.(ps_opened_files) in
  _ ← set_own (set_ps_files (<[fh := file]> s.(ps_opened_files)) s);
  mret (OpenOut (FileID_from_raw fh)).

Definition ps_read (op : Read) : PM mem_reply :=
  file ← get_opened_file op.(Read_fh);
  _ ← io (h_seek file op.(Read_offset));
  buf ← io (h_read_to_end file op.(Read_size));
  mret (Raw buf).

(** [Write::file_write_all]: an interrupted write is tried again; [None] while it runs. *)
Fixpoint file_write_all (fuel : nat) (file : HostFile) (data : list byte) (w : W) : option (outcome io_error unit * W) :=
  match data with
  | [] => Some (Ok tt, w)
  | _ :: _ =>
      match fuel with
      | O => None
      | S fuel =>
          match h_write file data w with
          | (Ok n, w) =>
              if n =? 0 then Some (Err (Custom WriteZero "failed to write whole buffer"), w)
              else file_write_all fuel file (drop (Z.to_nat n) data) w
          | (Err e, w) =>
              if decide (Errno_from_io_error e = Some Errno_INTR) then file_write_all fuel file data w else Some (Err e, w)
          | (Panic why, w) => Some (Panic why, w)
          | (UB, w) => Some (UB, w)
          end
      end
  end.

(** [io::copy] from memory: chunk by chunk through a buffer of 8 KiB. *)
Definition COPY_BUF : nat := 8192.

Fixpoint io_copy (fuel : nat) (file : HostFile) (data : list byte) (written : u64) (w : W)
    : option (outcome io_error u64 * W) :=
  match data with
  | [] => Some (Ok written, w)
  | _ :: _ =>
      match fuel with
      | O => None
      | S fuel' =>
          match file_write_all fuel file (take COPY_BUF data) w with
          | Some (Ok _, w) =>
              io_copy fuel' file (drop COPY_BUF data) (written + Z.of_nat (length (take COPY_BUF data))) w
          | Some (Err e, w) => Some (Err e, w)
          | Some (Panic why, w) => Some (Panic why, w)
          | Some (UB, w) => Some (UB, w)
          | None => None
          end
      end
  end.

(** [data] is what [read_to_end] of the request's reader gives. *)
Definition ps_write (fuel : nat) (op : Write) (data : outcome io_error (list byte)) (sw : Passthrough * W)
    : option (outcome fs_error mem_reply * (Passthrough * W)) :=
  match (file ← get_opened_file op.(Write_fh);
         _ ← io (h_seek file op.(Write_offset));
         buf ← lift (map_err FsIo data);
         mret (file, take (Z.to_nat op.(Write_size)) buf)) sw with
  | (Ok (file, buf), (s, w)) =>
      match io_copy fuel file buf 0 w with
      | None => None
      | Some (r, w) => Some (n ← map_err FsIo r; Ok (WriteOut (wrap_u 32 n)), (s, w))
      end
  | (Err e, sw) => Some (Err e, sw)
  | (Panic why, sw) => Some (Panic why, sw)
  | (UB, sw) => Some (UB, sw)
  end.

Definition ps_flush (op : Flush) : PM mem_reply :=
  file ← get_opened_file op.(Flush_fh);
  _ ← io (h_sync_all file);
  mret Empty.

Definition ps_fsync (op : Fsync) : PM mem_reply :=
  file ← get_opened_file op.(Fsync_fh);
  _ ← io (if op.(Fsync_datasync) then h_sync_data file else h_sync_all file);
  mret Empty.

Definition ps_flock (op : Flock) : PM mem_reply :=
  file ← get_opened_file op.(Flock_fh);
  _ ← io (flock (file_fd file) (FlockOp_into_raw op.(Flock_op)));
  mret Empty.

Definition ps_fallocate (op : Fallocate) : PM mem_reply :=
  if negb (op.(Fallocate_mode) =? 0) then ps_errno MErrno_NOTSUP else
  file ← get_opened_file op.(Fallocate_fh);
  _ ← io (posix_fallocate (file_fd file) (wrap_i 64 op.(Fallocate_offset)) (wrap_i 64 op.(Fallocate_length)));
  mret Empty.

Definition ps_release (op : Release) : PM mem_reply :=
  s ← fs;
  let key := op.(Release_fh).(FileID_into_raw) in
  match s.(ps_opened_files) !! key with
  | None => lift (Panic "invalid key")
  | Some file =>
      _ ← set_own (set_ps_files (delete key s.(ps_opened_files)) s);
      _ ← dropping (c_close (file_fd file));
      mret Empty
  end.

(** ** Extended attributes *)

(** A call on an inode by its name under [/proc], which a symbolic link has not. *)
Definition ps_get_named (ino : NodeID) : PM PsINode :=
  inode ← ps_get ino;
  if inode.(ps_is_symlink) then ps_errno MErrno_NOTSUP else mret inode.

(** The buffer of [size] bytes after [n] were stored and it was resized. *)
Definition filled (size n : Z) (stored : list byte) : list byte :=
  resize_zeroes (take (Z.to_nat size) (stored ++ replicate (Z.to_nat size) Byte.x00)) n.

Definition ps_getxattr (op : Getxattr) : PM mem_reply :=
  inode ← ps_get_named op.(Getxattr_ino);
  if op.(Getxattr_size) =? 0 then
    '(size, _) ← io (getxattr (procname inode.(ps_fd)) op.(Getxattr_name) None);
    mret (XattrOut (wrap_u 32 size))
  else
    '(n, stored) ← io (getxattr (procname inode.(ps_fd)) op.(Getxattr_name) (Some op.(Getxattr_size)));
    mret (Raw (filled op.(Getxattr_size) n stored)).

Definition ps_listxattr (op : Listxattr) : PM mem_reply :=
  inode ← ps_get_named op.(Listxattr_ino);
  if op.(Listxattr_size) =? 0 then
    '(size, _) ← io (listxattr (procname inode.(ps_fd)) None);
    mret (XattrOut (wrap_u 32 size))
  else
    '(n, stored) ← io (listxattr (procname inode.(ps_fd)) (Some op.(Listxattr_size)));
    mret (Raw (filled op.(Listxattr_size) n stored)).

Definition ps_setxattr (op : Setxattr) : PM mem_reply :=
  inode ← ps_get_named op.(Setxattr_ino);
  _ ← io (setxattr (procname inode.(ps_fd)) op.(Setxattr_name) op.(Setxattr_value) (wrap_i 32 op.(Setxattr_flags)));
  mret Empty.

Definition ps_removexattr (op : Removexattr) : PM mem_reply :=
  inode ← ps_get_named op.(Removexattr_ino);
  _ ← io (removexattr (procname inode.(ps_fd)) op.(Removexattr_name));
  mret Empty.

Definition ps_statfs (op : StatfsOp) : PM mem_reply :=
  inode ← ps_get op.(StatfsOp_ino);
  st ← io (fstatvfs inode.(ps_fd).(fd_raw));
  mret (StatfsOut (Statfs_from_statvfs st)).

End passthrough.
