(* ===== verification/PassthroughSpec.v ===== *)
(** * Forwarding by descriptor: ownership of descriptors

Every inode of [Passthrough] owns an open descriptor, and so does every open
directory and file.  This file follows who owns which descriptor through the
operations, with triples over the monad: [holds base n held] says that the
descriptors of the process are those of [base], those of the program's tables,
and those that the running operation holds, each owned once. *)

From stdpp Require Import gmap sets fin_map_dom.
From S2P Require Import Prelude Layout Kernel Crates Types Operation MemFs MemFsSpec MountOpts Host INodeTable.
From S2P Require Import Nix Passthrough.
Local Open Scope Z_scope.

(** ** Triples *)

(** From a state of [P], a result goes to a state of [Q] and an error to a state
of [X]; nothing is said of panics. *)
Definition hoare {S E A} (P : S → Prop) (m : M S E A) (Q : A → S → Prop) (X : S → Prop) : Prop :=
  ∀ s, P s → match m s with (Ok a, s') => Q a s' | (Err _, s') => X s' | _ => True end.

Section hoare.
Context {S E : Type}.

Lemma hoare_bind {A B} P Q R X (m : M S E A) (k : A → M S E B) :
  hoare P m Q X → (∀ a, hoare (Q a) (k a) R X) → hoare P (m ≫= k) R X.
Proof.
  intros Hm Hk s Hs. specialize (Hm s Hs). unfold mbind, M_bind.
  destruct (m s) as [[a|e|why|] s']; [by apply Hk|done..].
Qed.

Lemma hoare_ret {A} P X (a : A) : hoare P (mret a : M S E A) (λ _, P) X.
Proof. by intros s Hs. Qed.

Lemma hoare_lift {A} P (o : outcome E A) : hoare P (lift o : M S E A) (λ _, P) P.
Proof. intros s Hs. unfold lift. by destruct o. Qed.

Lemma hoare_weaken {A} P Q R X Y (m : M S E A) :
  hoare P m Q X → (∀ a s, Q a s → R a s) → (∀ s, X s → Y s) → hoare P m R Y.
Proof. intros Hm HQ HX s Hs. specialize (Hm s Hs). destruct (m s) as [[]]; auto. Qed.
End hoare.

(** ** Values of a map *)

Definition vals {K A B} `{Countable K} (f : A → B) (m : gmap K A) : list B := (λ kv, f kv.2) <$> map_to_list m.

Section vals.
Context {K A B : Type} `{Countable K} (f : A → B).
Implicit Types m : gmap K A.

Lemma vals_insert m k x : m !! k = None → vals f (<[k := x]> m) ≡ₚ f x :: vals f m.
Proof. intros Hk. unfold vals. by rewrite map_to_list_insert. Qed.

Lemma vals_delete m k x : m !! k = Some x → vals f m ≡ₚ f x :: vals f (delete k m).
Proof. intros Hk. unfold vals. by rewrite <- (map_to_list_delete m k x Hk). Qed.

Lemma vals_update m k x y : m !! k = Some x → f y = f x → vals f (<[k := y]> m) ≡ₚ vals f m.
Proof.
  intros Hk Hf. rewrite (vals_delete m k x Hk), <- Hf, <- (vals_insert (delete k m) k y) by apply lookup_delete_eq.
  by rewrite insert_delete_eq.
Qed.
End vals.

(** ** Sets of descriptors *)

Lemma set_opened (b : gset Z) l fd : {[fd]} ∪ (b ∪ list_to_set l) = b ∪ list_to_set (fd :: l).
Proof. simpl. set_solver. Qed.

Lemma set_closed (b : gset Z) l fd :
  fd ∉ b → fd ∉ l → (b ∪ list_to_set (fd :: l)) ∖ {[fd]} = b ∪ list_to_set l.
Proof. simpl. set_solver. Qed.

Lemma set_moved (b : gset Z) l k : l ≡ₚ k → b ∪ list_to_set l = b ∪ list_to_set k.
Proof. intros Hp. f_equal. by apply list_to_set_perm_L. Qed.

Lemma set_fresh (b : gset Z) (l : list Z) fd : fd ∉ b ∪ list_to_set l → fd ∉ b ∧ fd ∉ l.
Proof. by rewrite not_elem_of_union, not_elem_of_list_to_set. Qed.

(** ** What the calls do to the table of descriptors *)

(** A call that opens and closes nothing. *)
Definition quiet_call {W R} (open_fds : W → gset Z) (call : W → R * W) : Prop :=
  ∀ w, open_fds (call w).2 = open_fds w.

Class NixFdSpec {W} `{HostFs W} `{!FileFd W} `{!NixSys W} (open_fds : W → gset Z) : Prop := {
  close_fds fd w : open_fds (c_close fd w) = open_fds w ∖ {[fd]};
  open_fresh p f w : let '(r, w') := c_open p f w in
    (r = -1 ∧ open_fds w' = open_fds w) ∨ (r ≠ -1 ∧ r ∉ open_fds w ∧ open_fds w' = {[r]} ∪ open_fds w);
  openat_fresh fd p f w : let '(r, w') := c_openat fd p f w in
    (r = -1 ∧ open_fds w' = open_fds w) ∨ (r ≠ -1 ∧ r ∉ open_fds w ∧ open_fds w' = {[r]} ∪ open_fds w);
  h_open_fresh o p w :
    match h_open o p w with
    | (Ok f, w') => file_fd f ∉ open_fds w ∧ open_fds w' = {[file_fd f]} ∪ open_fds w
    | (_, w') => open_fds w' = open_fds w
    end;
  fdopendir_dirfd fd w d w' : c_fdopendir fd w = (Some d, w') → c_dirfd d = fd;
  closedir_fds d w : open_fds (c_closedir d w) = open_fds w ∖ {[c_dirfd d]};
  set_errno_fds e w : open_fds (c_set_errno e w) = open_fds w;
  seekdir_fds d p w : open_fds (c_seekdir d p w) = open_fds w;
  fdopendir_fds fd : quiet_call open_fds (c_fdopendir fd);
  readdir_fds d : quiet_call open_fds (c_readdir d);
  fstatat_fds fd p f : quiet_call open_fds (c_fstatat fd p f);
  readlinkat_fds fd p n : quiet_call open_fds (c_readlinkat fd p n);
  fchownat_fds fd p u g f : quiet_call open_fds (c_fchownat fd p u g f);
  utimensat_fds fd p tv f : quiet_call open_fds (c_utimensat fd p tv f);
  futimens_fds fd tv : quiet_call open_fds (c_futimens fd tv);
  linkat_fds fd p nfd np f : quiet_call open_fds (c_linkat fd p nfd np f);
  mkdirat_fds fd p m : quiet_call open_fds (c_mkdirat fd p m);
  mknodat_fds fd p m d : quiet_call open_fds (c_mknodat fd p m d);
  symlinkat_fds l fd p : quiet_call open_fds (c_symlinkat l fd p);
  unlinkat_fds fd p f : quiet_call open_fds (c_unlinkat fd p f);
  renameat_fds fd p nfd np : quiet_call open_fds (c_renameat fd p nfd np);
  fsync_fds fd : quiet_call open_fds (c_fsync fd);
  fdatasync_fds fd : quiet_call open_fds (c_fdatasync fd);
  chmod_fds p m : quiet_call open_fds (c_chmod p m);
  fchmod_fds fd m : quiet_call open_fds (c_fchmod fd m);
  truncate_fds p n : quiet_call open_fds (c_truncate p n);
  ftruncate_fds fd n : quiet_call open_fds (c_ftruncate fd n);
  flock_fds fd o : quiet_call open_fds (c_flock fd o);
  posix_fallocate_fds fd o n : quiet_call open_fds (c_posix_fallocate fd o n);
  getxattr_fds p n z : quiet_call open_fds (c_getxattr p n z);
  listxattr_fds p z : quiet_call open_fds (c_listxattr p z);
  setxattr_fds p n v f : quiet_call open_fds (c_setxattr p n v f);
  removexattr_fds p n : quiet_call open_fds (c_removexattr p n);
  fstatvfs_fds fd : quiet_call open_fds (c_fstatvfs fd);
  h_canonicalize_fds p : quiet_call open_fds (h_canonicalize p);
  h_seek_fds f n : quiet_call open_fds (h_seek f n);
  h_read_to_end_fds f n : quiet_call open_fds (h_read_to_end f n);
  h_write_fds f d : quiet_call open_fds (h_write f d);
  h_sync_all_fds f : quiet_call open_fds (h_sync_all f);
  h_sync_data_fds f : quiet_call open_fds (h_sync_data f);
}.

Create HintDb fds.
#[export] Hint Resolve fdopendir_fds readdir_fds fstatat_fds readlinkat_fds fchownat_fds utimensat_fds
  futimens_fds linkat_fds mkdirat_fds mknodat_fds symlinkat_fds unlinkat_fds renameat_fds fsync_fds fdatasync_fds
  chmod_fds fchmod_fds truncate_fds ftruncate_fds flock_fds posix_fallocate_fds getxattr_fds listxattr_fds
  setxattr_fds removexattr_fds fstatvfs_fds h_canonicalize_fds h_seek_fds h_read_to_end_fds h_write_fds
  h_sync_all_fds h_sync_data_fds : fds.

Section quiet.
Context {W : Type} `{HF : HostFs W} `{FF : !FileFd W} `{NS : !NixSys W} `{L : Libc} `{MA : MemApi} `{RX : Rustix}.
Context (open_fds : W → gset Z) `{FS : !NixFdSpec open_fds}.

Notation quiet := (quiet_call open_fds).

Lemma quiet_bind {E A B} (m : M W E A) (k : A → M W E B) : quiet m → (∀ a, quiet (k a)) → quiet (m ≫= k).
Proof.
  intros Hm Hk w. specialize (Hm w). unfold mbind, M_bind. destruct (m w) as [[a|e|why|] w']; simpl in *; [|done..].
  by rewrite Hk.
Qed.

Lemma quiet_lift {E A} (o : outcome E A) : quiet (lift o).
Proof. done. Qed.

Lemma quiet_ret {E A} (a : A) : quiet (mret a : M W E A).
Proof. done. Qed.

Lemma quiet_syscall call : quiet call → quiet (syscall call).
Proof. intros Hc w. specialize (Hc w). unfold syscall. destruct (call w). simpl in *. by case_match. Qed.

Lemma quiet_syscall_out {A} (call : W → Z * A * W) : quiet call → quiet (syscall_out call).
Proof. intros Hc w. specialize (Hc w). unfold syscall_out. destruct (call w) as [[]]. simpl in *. by case_match. Qed.

Lemma quiet_fallocate fd o n : quiet (posix_fallocate fd o n).
Proof.
  intros w. pose proof (posix_fallocate_fds fd o n w) as Hq. unfold posix_fallocate.
  destruct (c_posix_fallocate fd o n w). simpl in Hq. by case_match.
Qed.
End quiet.

#[export] Hint Resolve quiet_lift quiet_ret quiet_syscall quiet_syscall_out quiet_fallocate : fds.

(** Computations that are made of such calls. *)
Ltac quiet :=
  repeat first [ done | assumption | solve [eauto 3 with fds typeclass_instances] | apply quiet_bind; [|intros ?]
               | progress cbv zeta | case_match ].

#[export] Hint Unfold fstatat readlinkat fchownat futimensat linkat mkdirat mknodat symlinkat unlinkat renameat
  ReadDir_sync_all ReadDir_sync_data chmod fchmod truncate ftruncate utimens futimens link flock getxattr listxattr
  setxattr removexattr fstatvfs : nix.

(** ** Who owns what *)

Section fds.
Context {W : Type} `{HF : HostFs W} `{FF : !FileFd W} `{NS : !NixSys W} `{MA : MemApi} `{SL : SlabApi}.
Context `{L : Libc} `{BF : Bitflags} `{ZC : Zerocopy} `{RX : Rustix} `{PR : Profile}.
Context (open_fds : W → gset Z) `{FS : !NixFdSpec open_fds}.

Notation PM := (M (Passthrough * W) fs_error).
Notation io := (world (S := Passthrough) FsIo).

Definition inode_fd (i : PsINode) : Z := i.(ps_fd).(fd_raw).
Definition dir_fd (d : ReadDir) : Z := d.(rd_fd).(fd_raw).

(** The descriptors of the program's tables. *)
Definition owned (s : Passthrough) : list Z :=
  vals inode_fd s.(ps_inodes).(t_map) ++ vals dir_fd s.(ps_opened_dirs) ++ vals file_fd s.(ps_opened_files).

(** The stream of an open directory reads from its own descriptor. *)
Definition dirs_ok (s : Passthrough) : Prop :=
  ∀ k d, s.(ps_opened_dirs) !! k = Some d → c_dirfd d.(rd_dir) = dir_fd d.

Record holds (base : gset Z) (n : Z) (held : list Z) (sw : Passthrough * W) : Prop := {
  ho_table : table_ok sw.1.(ps_inodes);
  ho_below : table_below n sw.1.(ps_inodes);
  ho_dirs : dirs_ok sw.1;
  ho_once : NoDup (held ++ owned sw.1);
  ho_open : open_fds sw.2 = base ∪ list_to_set (held ++ owned sw.1);
  ho_base : ∀ fd, fd ∈ held ++ owned sw.1 → fd ∉ base;
}.

Section logic.
Context (base : gset Z).

(** What [holds] needs when the tables change: the same descriptors are owned. *)
Lemma holds_move n m h h' s s' w w' :
  holds base n h (s, w) → table_ok s'.(ps_inodes) → table_below m s'.(ps_inodes) → dirs_ok s' →
  h' ++ owned s' ≡ₚ h ++ owned s → open_fds w' = open_fds w → holds base m h' (s', w').
Proof.
  intros [? ? ? Hn Ho Hb] Ht Hm Hd Hp Hw. split; simpl in *; [done..| | |].
  - by rewrite Hp.
  - rewrite Hw, Ho. by apply set_moved.
  - intros fd. rewrite Hp. apply Hb.
Qed.

(** A descriptor is opened, or closed. *)
Lemma holds_opened n h s w w' fd :
  holds base n h (s, w) → fd ∉ open_fds w → open_fds w' = {[fd]} ∪ open_fds w → holds base n (fd :: h) (s, w').
Proof.
  intros [? ? ? Hn Ho Hb] Hf Hw. simpl in *. rewrite Ho in Hf. apply set_fresh in Hf as [Hf1 Hf2].
  split; simpl; [done..| | |].
  - by apply NoDup_cons.
  - rewrite Hw, Ho. apply set_opened.
  - intros x [->|Hx]%elem_of_cons; [done|by apply Hb].
Qed.

Lemma holds_closed n h s w w' fd :
  holds base n (fd :: h) (s, w) → open_fds w' = open_fds w ∖ {[fd]} → holds base n h (s, w').
Proof.
  intros [? ? ? Hn Ho Hb] Hw. simpl in *. apply NoDup_cons in Hn as [Hf Hn]. split; simpl; [done..| |].
  - rewrite Hw, Ho. apply set_closed; [|done]. apply Hb, list_elem_of_here.
  - intros x Hx. apply Hb. by right.
Qed.

(** A computation that leaves the tables and the descriptors alone. *)
Definition neutral {A} (m : PM A) : Prop := ∀ s w, (m (s, w)).2.1 = s ∧ open_fds (m (s, w)).2.2 = open_fds w.

Lemma neutral_bind {A B} (m : PM A) (k : A → PM B) : neutral m → (∀ a, neutral (k a)) → neutral (m ≫= k).
Proof.
  intros Hm Hk s w. destruct (Hm s w) as [Hs Hw]. unfold mbind, M_bind.
  destruct (m (s, w)) as [[a|e|why|] [s' w']]; simpl in *; [|done..]. subst s'. rewrite <- Hw. apply Hk.
Qed.

Lemma neutral_lift {A} (o : outcome fs_error A) : neutral (lift o).
Proof. done. Qed.

Lemma neutral_ret {A} (a : A) : neutral (mret a : PM A).
Proof. done. Qed.

Lemma neutral_own : neutral own.
Proof. done. Qed.

Lemma neutral_world {F A} (err : F → fs_error) (m : M W F A) : quiet_call open_fds m → neutral (world err m).
Proof. intros Hm s w. specialize (Hm w). unfold world. by destruct (m w). Qed.

Lemma hoare_neutral {A} n h (m : PM A) : neutral m → hoare (holds base n h) m (λ _, holds base n h) (holds base n h).
Proof.
  intros Hm [s w] Hh. destruct (Hm s w) as [Hs Hw].
  assert (holds base n h (m (s, w)).2) as Hh'.
  { destruct (m (s, w)) as [r [s' w']]. simpl in *. subst s'.
    by eapply holds_move; [exact Hh|apply Hh|apply Hh|apply Hh|done|]. }
  by destruct (m (s, w)) as [[] ?].
Qed.
End logic.

End fds.

#[export] Hint Resolve neutral_lift neutral_ret neutral_own : fds.

Ltac neutral :=
  repeat first [ solve [eauto 2 with fds typeclass_instances] | apply neutral_bind; [|intros ?]
               | apply neutral_world; autounfold with nix; solve [quiet] | progress cbv zeta | case_match ].

Section operations.
Context {W : Type} `{HF : HostFs W} `{FF : !FileFd W} `{NS : !NixSys W} `{MA : MemApi} `{SL : SlabApi}.
Context `{L : Libc} `{BF : Bitflags} `{ZC : Zerocopy} `{RX : Rustix} `{PR : Profile}.
Context (open_fds : W → gset Z) `{FS : !NixFdSpec open_fds}.

Notation PM := (M (Passthrough * W) fs_error).
Notation neutral := (neutral open_fds).

Lemma neutral_get ino : neutral (ps_get ino).
Proof. unfold ps_get. neutral. Qed.
Lemma neutral_file fh : neutral (get_opened_file fh).
Proof. unfold get_opened_file. neutral. Qed.
Lemma neutral_dir fh : neutral (get_opened_dir fh).
Proof. unfold get_opened_dir. neutral. Qed.
Lemma neutral_reply_attr fd : neutral (ps_reply_attr fd).
Proof. unfold ps_reply_attr. neutral. Qed.
End operations.

#[export] Hint Resolve neutral_get neutral_file neutral_dir neutral_reply_attr : fds.
#[export] Hint Unfold ps_getattr ps_setattr set_mode set_size set_times ps_readlink ps_unlink ps_rmdir ps_rename
  ps_fsyncdir ps_read ps_flush ps_fsync ps_flock ps_fallocate ps_get_named ps_getxattr ps_listxattr ps_setxattr
  ps_removexattr ps_statfs ps_errno : passthrough.

Section operations.
Context {W : Type} `{HF : HostFs W} `{FF : !FileFd W} `{NS : !NixSys W} `{MA : MemApi} `{SL : SlabApi}.
Context `{L : Libc} `{BF : Bitflags} `{ZC : Zerocopy} `{RX : Rustix} `{PR : Profile}.
Context (open_fds : W → gset Z) `{FS : !NixFdSpec open_fds}.

Notation PM := (M (Passthrough * W) fs_error).
Notation neutral := (neutral open_fds).

Section logic.
Context (base : gset Z).
Notation holds := (holds open_fds base).

Lemma holds_grow n h sw : holds n h sw → holds (n + 1) h sw.
Proof. intros [? ? ? ? ? ?]. split; try done. apply (table_below_mono n); [lia|done]. Qed.

Lemma hoare_openat n h fd p f :
  hoare (holds n h) (world FsIo (openat fd p f)) (λ d, holds n (d.(fd_raw) :: h)) (holds n h).
Proof.
  intros [s w] Hh. unfold openat, world, mbind, M_bind, lift. destruct (c_str p) as [c|e|why|]; simpl; [|done..].
  unfold syscall. pose proof (openat_fresh fd.(fd_raw) c (with_empty_path p f) w) as Ho.
  destruct (c_openat _ _ _ w) as [r w']. destruct Ho as [[-> Hw]|(Hr & Hf & Hw)].
  - simpl. by eapply holds_move; [exact Hh|apply Hh|apply Hh|apply Hh|done|].
  - rewrite (proj2 (Z.eqb_neq _ _)) by done. simpl. by apply (holds_opened _ _ _ _ _ w).
Qed.

Lemma hoare_dropping n h fd X : hoare (holds n (fd :: h)) (dropping (c_close fd)) (λ _, holds n h) X.
Proof. intros [s w] Hh. simpl. eapply holds_closed; [exact Hh|]. apply close_fds. Qed.

Lemma hoare_owning {A} n h fd P (Q : A → _) (m : PM A) :
  hoare P m Q (holds n (fd :: h)) → hoare P (owning (c_close fd) m) Q (holds n h).
Proof.
  intros Hm sw Hs. specialize (Hm sw Hs). unfold owning. destruct (m sw) as [[a|e|why|] [s w]]; [done| |done..].
  eapply holds_closed; [exact Hm|]. apply close_fds.
Qed.

(** The descriptor that was opened goes to the new inode, or is closed. *)
Lemma holds_counted n fd st s w why ino t new :
  n < 2 ^ 64 - 1 → holds n [fd.(fd_raw)] (s, w) →
  table_count (E := fs_error) why (src_id_of st)
    (λ ino, {| ps_ino := ino; ps_fd := fd; ps_refcount := 1; ps_src_id := src_id_of st;
               ps_is_symlink := is_symlink_mode st |}) s.(ps_inodes) = Ok (ino, t, new) →
  holds (n + 1) (if new then [] else [fd.(fd_raw)]) (set_ps_inodes t s, w).
Proof.
  intros Hn Hh Hc. pose proof (ho_table _ _ _ _ _ Hh) as Hok. pose proof (ho_below _ _ _ _ _ Hh) as Hb. simpl in Hok, Hb.
  assert (table_below (n + 1) t) as Hb' by by eapply (table_count_below (E := fs_error)); [| | | |exact Hc].
  set (mk := λ ino : NodeID, _) in Hc.
  destruct (table_count_spec (E := fs_error) why (src_id_of st) mk s.(ps_inodes) Hok)
    as (t' & new' & Hc' & Hok' & _ & Hcd); [by apply (table_below_room n)|done|].
  rewrite Hc in Hc'. injection Hc' as _ <- <-.
  eapply holds_move; [exact Hh|done|done|apply Hh| |done].
  destruct new; simpl in Hcd |- *.
  - destruct Hcd as [Hfree Hm]. unfold owned. simpl. rewrite Hm. by rewrite vals_insert.
  - destruct Hcd as (k & i & Hi & _ & ->). f_equiv. unfold owned. simpl. f_equiv. by eapply vals_update.
Qed.

Lemma hoare_count_source n parent fd st X :
  n < 2 ^ 64 - 1 →
  hoare (holds n [fd.(fd_raw)]) (count_source parent fd st) (λ _, holds (n + 1) []) X.
Proof.
  intros Hn [s w] Hh. unfold count_source. erewrite (M_bind_Ok own) by reflexivity.
  unfold lock_other, lift, mbind, M_bind, mret, M_ret, set_own, dropping. cbv zeta.
  set (c := table_count _ _ _ _). destruct c as [[[ino t] new]|e|why|] eqn:Hc; unfold c in Hc.
  - pose proof (holds_counted n fd st s w _ ino t new Hn Hh Hc) as Hh'.
    repeat case_match; simplify_eq; try done; by eapply holds_closed; [exact Hh'|apply close_fds].
  - exfalso. unfold table_count, table_vacant, table_insert, arith_u in Hc. repeat case_match; simplify_eq.
  - by repeat case_match; simplify_eq.
  - by repeat case_match; simplify_eq.
Qed.

(** A request that is served, with a reply or an error, leaves every descriptor
with one owner; counters grow by at most one. *)
Definition serves {A} (m : PM A) : Prop :=
  ∀ n, n < 2 ^ 64 - 1 → hoare (holds n []) m (λ _, holds (n + 1) []) (holds (n + 1) []).

Lemma serves_neutral {A} (m : PM A) : neutral m → serves m.
Proof.
  intros Hm n Hn. eapply hoare_weaken; [by apply hoare_neutral|..]; intros; by apply holds_grow.
Qed.

(** A prefix that leaves all alone. *)
Lemma serves_bind {A B} (m : PM A) (k : A → PM B) : neutral m → (∀ a, serves (k a)) → serves (m ≫= k).
Proof.
  intros Hm Hk n Hn. eapply hoare_bind; [|intros a; by apply Hk].
  eapply hoare_weaken; [by apply hoare_neutral|done|]. intros. by apply holds_grow.
Qed.

Lemma hoare_early {A} n h P Q (m : PM A) :
  hoare P m Q (holds n h) → hoare P m Q (holds (n + 1) h).
Proof. intros Hm. eapply hoare_weaken; [exact Hm|done|]. intros. by apply holds_grow. Qed.

Lemma serves_do_lookup parent name : serves (do_lookup parent name).
Proof.
  apply serves_bind; [apply neutral_get|]. intros p n Hn.
  eapply hoare_bind; [apply hoare_early, hoare_openat|]. intros fd.
  eapply hoare_bind.
  { apply hoare_early, hoare_owning, hoare_neutral. neutral. }
  intros st. eapply hoare_bind; [by apply hoare_count_source|]. intros ino. apply hoare_neutral. neutral.
Qed.

Lemma serves_make_node parent name mode rdev link : serves (ps_make_node parent name mode rdev link).
Proof.
  apply serves_bind; [apply neutral_get|]. intros p.
  apply serves_bind; [neutral|]. intros _. apply serves_do_lookup.
Qed.

Lemma serves_forget forgets :
  forgets_legal forgets → ∀ n, hoare (holds n []) (ps_forget forgets) (λ _, holds n []) (holds n []).
Proof.
  induction forgets as [|f l IH]; intros Hl n; [apply hoare_ret|].
  apply Forall_cons in Hl as [[Hf Hn] Hl]. simpl.
  eapply hoare_bind; [apply hoare_lift|]. intros ino [s w] Hh.
  erewrite (M_bind_Ok own) by reflexivity.
  pose proof (table_forget_spec ino (Forget_nlookup f) s.(ps_inodes) (ho_table _ _ _ _ _ Hh)) as [Hok _].
  pose proof (table_forget_below ino (Forget_nlookup f) n s.(ps_inodes) (ho_table _ _ _ _ _ Hh) Hn
    (ho_below _ _ _ _ _ Hh)) as Hb.
  pose proof (table_forget_removed ino (Forget_nlookup f) s.(ps_inodes)) as Hr.
  destruct (table_forget _ _ _) as [t [j|]]; simpl in Hok, Hb, Hr; erewrite (M_bind_Ok (set_own _)) by reflexivity.
  - destruct Hr as (i & c & Hi & -> & Hm). erewrite (M_bind_Ok (dropping _)) by reflexivity. apply IH; [done|].
    apply (holds_closed open_fds base n [] _ w _ (inode_fd i)); [|apply close_fds].
    eapply holds_move; [exact Hh|done|done|apply Hh| |done].
    unfold owned. simpl. rewrite Hm. by rewrite (vals_delete _ _ _ _ Hi).
  - erewrite (M_bind_Ok (mret _)) by reflexivity. apply IH; [done|].
    eapply holds_move; [exact Hh|done|done|apply Hh| |done]. simpl. destruct Hr as [->|(i & c & Hi & ->)]; [done|].
    unfold owned. simpl. f_equiv. by eapply vals_update.
Qed.

(** A prefix that leaves all alone, when the tables matter after it. *)
Lemma hoare_at {A B} n s (m : PM A) (k : A → PM B) Q X :
  neutral m → (∀ sw, holds n [] sw → X sw) →
  (∀ a, hoare (λ sw, holds n [] sw ∧ sw.1 = s) (k a) Q X) →
  hoare (λ sw, holds n [] sw ∧ sw.1 = s) (m ≫= k) Q X.
Proof.
  intros Hm HX Hk. eapply hoare_bind; [|exact Hk]. intros [s1 w] [Hh Hs]. simpl in Hs. subst s1.
  pose proof (hoare_neutral open_fds base n [] m Hm (s, w) Hh) as Hq. destruct (Hm s w) as [Hs _].
  destruct (m (s, w)) as [[a|e|why|] [s1 w1]]; simpl in *; auto.
Qed.

Lemma hoare_fix {A} n (m : PM A) Q X :
  (∀ s, hoare (λ sw, holds n [] sw ∧ sw.1 = s) m Q X) → hoare (holds n []) m Q X.
Proof. intros Hm sw Hh. by apply (Hm sw.1). Qed.

Lemma hoare_get {B} n s ino (k : PsINode → PM B) Q X :
  (∀ sw, holds n [] sw → X sw) →
  (∀ i, s.(ps_inodes).(t_map) !! ino = Some i → hoare (λ sw, holds n [] sw ∧ sw.1 = s) (k i) Q X) →
  hoare (λ sw, holds n [] sw ∧ sw.1 = s) (ps_get ino ≫= k) Q X.
Proof.
  intros HX Hk [s1 w] [Hh Hs]. simpl in Hs. subst s1. unfold ps_get, mbind, M_bind, own, lift.
  destruct (s.(ps_inodes).(t_map) !! ino) as [i|] eqn:Hi; simpl; [by apply (Hk i)|by apply HX].
Qed.

(** LINK counts the inode it links once more. *)
Lemma serves_link op : serves (ps_link op).
Proof.
  intros n Hn. apply hoare_fix. intros s. apply hoare_get; [apply holds_grow|]. intros i Hi.
  do 4 (refine (hoare_at n s _ _ _ _ _ (holds_grow n []) _);
        [first [apply neutral_get|unfold lock_other; neutral]|intros ?]).
  refine (hoare_at n s _ _ _ _ _ (holds_grow n []) _); [neutral|intros attr].
  intros [s1 w1] [Hh Hs]. simpl in Hs. subst s1. erewrite (M_bind_Ok own) by reflexivity.
  pose proof (ho_table _ _ _ _ _ Hh) as Hok. pose proof (to_count _ Hok _ _ Hi) as Hpos.
  pose proof (ho_below _ _ _ _ _ Hh) as Hb. pose proof (proj2 Hb _ _ Hi) as Hc. simpl in Hpos, Hc.
  erewrite M_bind_Ok by (unfold lift; rewrite arith_u_ok by (unfold is_u; lia); reflexivity). simpl.
  eapply holds_move; [exact Hh| | |apply Hh| |done]; simpl.
  - refine (proj1 (recount_ok op.(Link_ino) i (ps_refcount i + 1) s.(ps_inodes) Hok Hi _)). lia.
  - apply table_below_set; [|simpl; lia]. by apply (ho_below _ _ _ _ _ (holds_grow _ _ _ Hh)).
  - unfold owned. simpl. f_equiv. by eapply vals_update.
Qed.

Lemma quiet_next fuel d : quiet_call open_fds (ReadDir_next fuel d).
Proof.
  induction fuel as [|fuel IH]; intros w; [done|]. simpl.
  pose proof (readdir_fds d (c_set_errno 0 w)) as Hr. rewrite set_errno_fds in Hr.
  destruct (c_readdir d _) as [[raw|] w1]; simpl in Hr; [|by case_match].
  case_decide; [by rewrite IH|]. by case_match.
Qed.

Lemma quiet_push_dir fuel d size out : quiet_call open_fds (push_dir fuel d size out).
Proof.
  revert out. induction fuel as [|fuel IH]; intros out; [done|]. cbn [push_dir].
  apply quiet_bind; [apply quiet_next|].
  intros [[e|]|]; [|done..]. case_match; [done|apply IH].
Qed.

Lemma hoare_seek_dir n key d s offset :
  s.(ps_opened_dirs) !! key = Some d →
  hoare (λ sw, holds n [] sw ∧ sw.1 = s) (seek_dir key d offset) (λ _, holds n []) (holds (n + 1) []).
Proof.
  intros Hd [s1 w] [Hh Hs]. simpl in Hs. subst s1. unfold seek_dir, ReadDir_seek.
  set (d' := {| rd_dir := d.(rd_dir); rd_offset := offset; rd_fd := d.(rd_fd) |}).
  assert (∀ x w', x = d ∨ x = d' → open_fds w' = open_fds w →
    holds n [] (set_ps_dirs (<[key := x]> s.(ps_opened_dirs)) s, w')) as Hx.
  { intros x w' Hx Hw. eapply holds_move; [exact Hh|apply Hh|apply Hh| | |done].
    - intros k y. simpl. intros [[<- <-]|[_ Hy]]%lookup_insert_Some; [|by apply (ho_dirs _ _ _ _ _ Hh k)].
      pose proof (ho_dirs _ _ _ _ _ Hh _ _ Hd). by destruct Hx as [->| ->].
    - unfold owned. simpl. f_equiv. f_equiv. eapply vals_update; [done|]. by destruct Hx as [->| ->]. }
  destruct (negb (offset =? d.(rd_offset))); simpl; apply Hx; auto. apply seekdir_fds.
Qed.

Lemma serves_readdir fuel op : serves (ps_readdir fuel op).
Proof.
  intros n Hn. unfold ps_readdir. destruct (Readdir_mode op).
  - apply hoare_fix. intros s sw [Hh Hs]. unfold mbind at 1, M_bind at 1. destruct sw as [s1 w]. simpl in Hs. subst s1.
    unfold get_opened_dir. erewrite (M_bind_Ok own) by reflexivity. unfold lift at 1.
    destruct (s.(ps_opened_dirs) !! _) as [d|] eqn:Hd; simpl; [|by apply holds_grow].
    assert (holds n [] (s, w) ∧ (s, w).1 = s) as Hs by done. clear Hh. revert Hs. generalize (s, w).
    refine (hoare_bind _ _ _ _ _ _ (hoare_seek_dir n _ d s _ Hd) _). intros d1.
    apply serves_neutral; [|done]. apply neutral_bind; [|neutral]. apply neutral_world, quiet_push_dir.
  - apply serves_neutral; [|done]. unfold ps_errno. neutral.
Qed.

Lemma write_all_fds fuel f data w r w' : file_write_all fuel f data w = Some (r, w') → open_fds w' = open_fds w.
Proof.
  revert data w. induction fuel as [|fuel IH]; intros data w; destruct data as [|b data]; simpl; [by intros [= <- <-]|done|by intros [= <- <-]|].
  pose proof (h_write_fds f (b :: data) w) as Hw. destruct (h_write f (b :: data) w) as [[m|e|why|] w1]; simpl in Hw.
  - case_match; [by intros [= <- <-]|]. intros Hr. by rewrite (IH _ _ Hr).
  - case_decide; [|by intros [= <- <-]]. intros Hr. by rewrite (IH _ _ Hr).
  - by intros [= <- <-].
  - by intros [= <- <-].
Qed.

Lemma io_copy_fds fuel f data k w r w' : io_copy fuel f data k w = Some (r, w') → open_fds w' = open_fds w.
Proof.
  revert data k w. induction fuel as [|fuel IH]; intros data k w; (destruct data as [|b data]; [by intros [= <- <-]|]); [done|].
  cbn [io_copy].
  destruct (file_write_all _ _ _ w) as [[[m|e|why|] w1]|] eqn:Hw; [|by intros [= <- <-]; eapply write_all_fds..|done].
  intros Hr. by rewrite (IH _ _ _ Hr), (write_all_fds _ _ _ _ _ _ Hw).
Qed.

(** [ps_write] as a computation; its last result stands for a write under way. *)
Definition write_op (fuel : nat) (op : Write) (data : outcome io_error (list byte)) : PM (option mem_reply) := λ sw,
  match ps_write fuel op data sw with
  | Some (r, sw) => (out ← r; Ok (Some out), sw)
  | None => (Ok None, sw)
  end.

Lemma neutral_write fuel op data : neutral (write_op fuel op data).
Proof.
  intros s w. unfold write_op, ps_write.
  set (m := (file ← get_opened_file op.(Write_fh); _)). assert (neutral m) as Hm by (unfold m; neutral).
  destruct (Hm s w) as [Hs Hw]. destruct (m (s, w)) as [[[f buf]|e|why|] [s1 w1]]; simpl in *; [|done..].
  destruct (io_copy fuel f buf 0 w1) as [[r w2]|] eqn:Hc; [|done]. simpl. rewrite <- Hw. split; [done|].
  by eapply io_copy_fds.
Qed.

Lemma slab_key_vals {A B} (f : A → B) (m : gmap Z A) x `{!SlabSpec} : vals f (<[slab_key m := x]> m) ≡ₚ f x :: vals f m.
Proof. apply vals_insert, slab_key_fresh. Qed.

Context `{SS : !SlabSpec}.

Lemma hoare_read_dir n fd :
  hoare (holds n []) (world FsIo (read_dir fd))
    (λ d sw, holds n [dir_fd d] sw ∧ c_dirfd d.(rd_dir) = dir_fd d) (holds n []).
Proof.
  intros [s w] Hh. pose proof (hoare_openat n [] fd [Byte.x2e] O_RDONLY (s, w) Hh) as Ho.
  unfold world, read_dir, mbind, M_bind in *. destruct (openat _ _ _ w) as [[d|e|why|] w1]; simpl in *; [|done..].
  unfold opened_dir. pose proof (fdopendir_fds d.(fd_raw) w1) as Hq. pose proof (fdopendir_dirfd d.(fd_raw) w1) as Hd.
  destruct (c_fdopendir _ w1) as [[dp|] w2]; simpl in *.
  - split; [|by apply (Hd dp w2)]. by eapply holds_move; [exact Ho|apply Ho|apply Ho|apply Ho|done|].
  - eapply holds_closed; [|apply close_fds]. by eapply holds_move; [exact Ho|apply Ho|apply Ho|apply Ho|done|].
Qed.

Lemma serves_opendir op : serves (ps_opendir op).
Proof.
  apply serves_bind; [apply neutral_get|]. intros i n Hn. eapply hoare_bind; [apply hoare_early, hoare_read_dir|].
  intros d [s w] [Hh Hd]. simpl. apply holds_grow. eapply holds_move; [exact Hh|apply Hh|apply Hh| | |done].
  - intros k x. simpl. intros [[<- <-]|[_ Hx]]%lookup_insert_Some; [done|by apply (ho_dirs _ _ _ _ _ Hh k)].
  - unfold owned. simpl. rewrite slab_key_vals by done. simpl. by rewrite <- Permutation_middle.
Qed.

Lemma hoare_h_open n o p :
  hoare (holds n []) (world FsIo (h_open o p)) (λ f, holds n [file_fd f]) (holds n []).
Proof.
  intros [s w] Hh. unfold world. pose proof (h_open_fresh o p w) as Ho.
  destruct (h_open o p w) as [[f|e|why|] w']; simpl; [|by eapply holds_move; [exact Hh|apply Hh|apply Hh|apply Hh|done|]|done..].
  destruct Ho as [Hf Hw]. by apply (holds_opened _ _ _ _ _ w).
Qed.

Lemma serves_open op : serves (ps_open op).
Proof.
  apply serves_bind; [apply neutral_get|]. intros i n Hn. eapply hoare_bind; [apply hoare_early, hoare_h_open|].
  intros f [s w] Hh. simpl. apply holds_grow. eapply holds_move; [exact Hh|apply Hh|apply Hh|apply Hh| |done].
  unfold owned. simpl. rewrite slab_key_vals by done. simpl. by rewrite <- !Permutation_middle.
Qed.

Lemma serves_releasedir op : serves (ps_releasedir op).
Proof.
  intros n Hn [s w] Hh. unfold ps_releasedir. erewrite (M_bind_Ok own) by reflexivity.
  destruct (s.(ps_opened_dirs) !! _) as [d|] eqn:Hd; [|done]. simpl. apply holds_grow.
  pose proof (ho_dirs _ _ _ _ _ Hh _ _ Hd) as Hfd. unfold ReadDir_drop, FileDesc_drop.
  apply (holds_closed open_fds base n [] _ w _ (dir_fd d)).
  - eapply holds_move; [exact Hh|apply Hh|apply Hh| | |done].
    + intros k x. simpl. intros [_ Hx]%lookup_delete_Some. by apply (ho_dirs _ _ _ _ _ Hh k).
    + unfold owned. simpl. rewrite (vals_delete dir_fd _ _ _ Hd). simpl. by rewrite <- Permutation_middle.
  - rewrite close_fds, closedir_fds, Hfd. unfold dir_fd. clear. set_solver.
Qed.

Lemma serves_release op : serves (ps_release op).
Proof.
  intros n Hn [s w] Hh. unfold ps_release. erewrite (M_bind_Ok own) by reflexivity.
  destruct (s.(ps_opened_files) !! _) as [f|] eqn:Hf; [|done]. simpl. apply holds_grow.
  apply (holds_closed open_fds base n [] _ w _ (file_fd f)); [|apply close_fds].
  eapply holds_move; [exact Hh|apply Hh|apply Hh|apply Hh| |done].
  unfold owned. simpl. rewrite (vals_delete file_fd _ _ _ Hf). simpl. by rewrite <- !Permutation_middle.
Qed.
End logic.
End operations.

(** ** Runs of the program *)

Inductive ps_request : Type :=
| ReqLookup (op : Lookup) | ReqForget (forgets : list Forget) | ReqGetattr (op : Getattr) | ReqSetattr (op : Setattr)
| ReqReadlink (op : Readlink) | ReqLink (op : Link) | ReqMknod (op : Mknod) | ReqMkdir (op : Mkdir)
| ReqSymlink (op : Symlink) | ReqUnlink (op : Unlink) | ReqRmdir (op : Rmdir) | ReqRename (op : Rename)
| ReqOpendir (op : Opendir) | ReqReaddir (op : Readdir) | ReqFsyncdir (op : Fsyncdir) | ReqReleasedir (op : Releasedir)
| ReqOpen (op : Open) | ReqRead (op : Read) | ReqWrite (op : Write) (data : outcome io_error (list byte))
| ReqFlush (op : Flush) | ReqFsync (op : Fsync) | ReqFlock (op : Flock) | ReqFallocate (op : Fallocate)
| ReqRelease (op : Release) | ReqGetxattr (op : Getxattr) | ReqListxattr (op : Listxattr)
| ReqSetxattr (op : Setxattr) | ReqRemovexattr (op : Removexattr) | ReqStatfs (op : StatfsOp).

(** A reply, none (FORGET), or a loop that has not ended with the fuel given. *)
Inductive ps_answer : Type := Answer (out : mem_reply) | NoAnswer | Unfinished.

Definition legal_request (req : ps_request) : Prop :=
  match req with ReqForget forgets => forgets_legal forgets | _ => True end.

Section runs.
Context {W : Type} `{HF : HostFs W} `{FF : !FileFd W} `{NS : !NixSys W} `{MA : MemApi} `{SL : SlabApi}.
Context `{L : Libc} `{BF : Bitflags} `{ZC : Zerocopy} `{RX : Rustix} `{PR : Profile}.

Notation PM := (M (Passthrough * W) fs_error).

Definition answering (m : PM mem_reply) : PM ps_answer := out ← m; mret (Answer out).
Definition looping (m : PM (option mem_reply)) : PM ps_answer :=
  out ← m; mret (match out with Some out => Answer out | None => Unfinished end).

(** The methods of [impl Filesystem for Passthrough]. *)
Definition ps_serve (fuel : nat) (req : ps_request) : PM ps_answer :=
  match req with
  | ReqLookup op => answering (ps_lookup op) | ReqForget forgets => _ ← ps_forget forgets; mret NoAnswer
  | ReqGetattr op => answering (ps_getattr op) | ReqSetattr op => answering (ps_setattr op)
  | ReqReadlink op => answering (ps_readlink op) | ReqLink op => answering (ps_link op)
  | ReqMknod op => answering (ps_mknod op) | ReqMkdir op => answering (ps_mkdir op)
  | ReqSymlink op => answering (ps_symlink op) | ReqUnlink op => answering (ps_unlink op)
  | ReqRmdir op => answering (ps_rmdir op) | ReqRename op => answering (ps_rename op)
  | ReqOpendir op => answering (ps_opendir op) | ReqReaddir op => looping (ps_readdir fuel op)
  | ReqFsyncdir op => answering (ps_fsyncdir op) | ReqReleasedir op => answering (ps_releasedir op)
  | ReqOpen op => answering (ps_open op) | ReqRead op => answering (ps_read op)
  | ReqWrite op data => looping (write_op fuel op data)
  | ReqFlush op => answering (ps_flush op) | ReqFsync op => answering (ps_fsync op)
  | ReqFlock op => answering (ps_flock op) | ReqFallocate op => answering (ps_fallocate op)
  | ReqRelease op => answering (ps_release op) | ReqGetxattr op => answering (ps_getxattr op)
  | ReqListxattr op => answering (ps_listxattr op) | ReqSetxattr op => answering (ps_setxattr op)
  | ReqRemovexattr op => answering (ps_removexattr op) | ReqStatfs op => answering (ps_statfs op)
  end.

(** One request is served to its end, with or without an error. *)
Inductive ps_step : Passthrough * W → Passthrough * W → Prop :=
| step_answer fuel req a sw sw' :
    legal_request req → ps_serve fuel req sw = (Ok a, sw') → a ≠ Unfinished → ps_step sw sw'
| step_error fuel req e sw sw' :
    legal_request req → ps_serve fuel req sw = (Err e, sw') → ps_step sw sw'.

Context (open_fds : W → gset Z) `{FS : !NixFdSpec open_fds} `{SS : !SlabSpec}.

Lemma serves_answering base m : serves open_fds base m → serves open_fds base (answering m).
Proof. intros Hm n Hn. eapply hoare_bind; [by apply Hm|]. intros out. apply hoare_ret. Qed.

Lemma serves_looping base m : serves open_fds base m → serves open_fds base (looping m).
Proof. intros Hm n Hn. eapply hoare_bind; [by apply Hm|]. intros out. apply hoare_ret. Qed.

Lemma ps_serve_serves base fuel req : legal_request req → serves open_fds base (ps_serve fuel req).
Proof.
  intros Hl. destruct req; simpl;
    try (apply serves_answering; solve [ by apply serves_do_lookup | by apply serves_make_node | by apply serves_link
      | by apply serves_opendir | by apply serves_open | by apply serves_releasedir | by apply serves_release
      | apply serves_neutral; autounfold with passthrough; neutral ]).
  - intros n Hn. eapply hoare_bind; [|intros; apply hoare_ret].
    eapply hoare_weaken; [by apply (serves_forget open_fds base _ Hl n)|..]; intros; by apply holds_grow.
  - by apply serves_looping, serves_readdir.
  - by apply serves_looping, serves_neutral, neutral_write.
Qed.

Lemma ps_step_holds base n sw sw' :
  n < 2 ^ 64 - 1 → holds open_fds base n [] sw → ps_step sw sw' → holds open_fds base (n + 1) [] sw'.
Proof.
  intros Hn Hh Hs. revert Hh. destruct Hs as [fuel req a sw sw' Hl Hr _|fuel req e sw sw' Hl Hr]; intros Hh;
    pose proof (ps_serve_serves base fuel req Hl n Hn _ Hh) as Hs; by rewrite Hr in Hs.
Qed.

Lemma ps_run_holds base k n sw sw' :
  n + Z.of_nat k < 2 ^ 64 → holds open_fds base n [] sw → nsteps ps_step k sw sw' →
  holds open_fds base (n + Z.of_nat k) [] sw'.
Proof.
  intros Hn Hh Hr. revert n Hn Hh. induction Hr as [sw|k sw1 sw2 sw3 Hs Hr IH]; intros n Hn Hh; [by rewrite Z.add_0_r|].
  replace (n + Z.of_nat (S k)) with (n + 1 + Z.of_nat k) by lia. apply IH; [lia|].
  eapply ps_step_holds; [|done..]. lia.
Qed.

Lemma Passthrough_new_holds source timeout w s w' :
  Passthrough_new source timeout w = (Ok s, w') → holds open_fds (open_fds w) (2 ^ 63) [] (s, w').
Proof.
  unfold Passthrough_new. intros (p & w1 & Hc & H)%M_bind_inv. pose proof (h_canonicalize_fds source w) as Hq.
  rewrite Hc in Hq. simpl in Hq. clear Hc. apply M_bind_inv in H as (fd & w2 & Ho & H). unfold FileDesc_open in Ho.
  apply M_bind_inv in Ho as (c & w1' & Hl & Ho). unfold lift in Hl. injection Hl as Hl <-.
  apply M_bind_inv in Ho as (r & w2' & Ho & [= <- <-]). unfold syscall in Ho.
  pose proof (open_fresh c (with_empty_path p O_PATH) w1) as Hf. destruct (c_open _ _ w1) as [x wx].
  case_match eqn:Hx; [done|]. injection Ho as -> ->. apply Z.eqb_neq in Hx. destruct Hf as [[? _]|(_ & Hf & Hw)]; [done|].
  apply M_bind_inv in H as (st & w3 & Hs & H).
  assert (open_fds w3 = open_fds w2') as Hw3.
  { assert (quiet_call open_fds (fstatat {| fd_raw := r |} [] AT_SYMLINK_NOFOLLOW)) as Hq' by (autounfold with nix; quiet).
    specialize (Hq' w2'). destruct (fstatat _ _ _ w2') as [[] ?]; simplify_eq. done. }
  cbn in H. injection H as <- <-.
  destruct st as [st dev]. split; simpl; rewrite ?insert_empty.
  - split; simpl.
    + intros ino i [<- <-]%lookup_singleton_Some. split; [done|]. apply lookup_singleton_eq.
    + intros k ino [<- <-]%lookup_singleton_Some. split; [done|]. by intros i [_ <-]%lookup_singleton_Some.
    + by intros ino i [<- <-]%lookup_singleton_Some.
  - split; [done|]. simpl. by intros ino i [<- <-]%lookup_singleton_Some.
  - by intros k d Hk.
  - apply NoDup_singleton.
  - rewrite Hw3, Hw, Hq. simpl. clear. set_solver.
  - intros x [->|Hx']%elem_of_cons; [by rewrite <- Hq|]. by apply elem_of_nil in Hx'.
Qed.

(** C12: The passthrough file system neither leaks a descriptor nor touches a
foreign one.  After any requests served from the start, with replies or errors,
the open descriptors of the process are those it had before and those its inodes,
open directories and open files own; each is owned once, none was there
before, and the table of inodes is well formed. *)
Theorem passthrough_descriptors source timeout w0 s0 w1 k s w :
  Passthrough_new source timeout w0 = (Ok s0, w1) → Z.of_nat k < 2 ^ 62 → nsteps ps_step k (s0, w1) (s, w) →
  open_fds w = open_fds w0 ∪ list_to_set (owned s) ∧ NoDup (owned s)
  ∧ (∀ fd, fd ∈ owned s → fd ∉ open_fds w0) ∧ table_ok s.(ps_inodes).
Proof.
  intros Hnew Hk Hrun. pose proof (Passthrough_new_holds _ _ _ _ _ Hnew) as Hh.
  destruct (ps_run_holds (open_fds w0) k (2 ^ 63) _ _ ltac:(lia) Hh Hrun). auto.
Qed.
End runs.

(** ** Numbers *)

Section numbers.
Context {W : Type} `{HF : HostFs W} `{FF : !FileFd W} `{NS : !NixSys W} `{MA : MemApi} `{SL : SlabApi}.
Context `{L : Libc} `{BF : Bitflags} `{ZC : Zerocopy} `{RX : Rustix} `{PR : Profile}.

Lemma ps_get_ok ino i (s : Passthrough) (w : W) :
  s.(ps_inodes).(t_map) !! ino = Some i → ps_get ino (s, w) = (Ok i, (s, w)).
Proof. intros H. unfold ps_get, mbind, M_bind, own, lift. by rewrite H. Qed.

Lemma world_ok {S E F A} (err : F → E) (m : M W F A) (s : S) w a w' :
  m w = (Ok a, w') → world err m (s, w) = (Ok a, (s, w')).
Proof. intros Hm. unfold world. by rewrite Hm. Qed.

(** LOOKUP up to the table: the source of the name is opened and examined. *)
Lemma do_lookup_found parent name (s : Passthrough) (w w1 w2 : W) p fd st :
  s.(ps_inodes).(t_map) !! parent = Some p →
  openat p.(ps_fd) name (Z.lor O_PATH O_NOFOLLOW) w = (Ok fd, w1) →
  fstatat fd [] AT_SYMLINK_NOFOLLOW w1 = (Ok st, w2) →
  do_lookup parent name (s, w)
  = (ino ← count_source parent fd st;
     attr ← lift (stat_attr st);
     s ← own;
     mret (EntryOut ino attr s.(ps_timeout) s.(ps_timeout))) (s, w2).
Proof.
  intros Hp Ho Hs. unfold do_lookup. rewrite (M_bind_Ok _ _ _ _ _ (ps_get_ok _ _ s w Hp)).
  erewrite M_bind_Ok by (apply world_ok; exact Ho).
  erewrite M_bind_Ok by (unfold owning; erewrite world_ok by exact Hs; reflexivity). done.
Qed.

(** C27: LOOKUP tells files apart by what they are on the host: a name whose
source (inode and device) already has a number answers with it, counted once
more, whatever the name and the directory; another source gets a number never
used before.  All other counts stay, and no number stands for two sources.  The
source must not be the directory itself.  When the attributes of the host do not
fit the protocol the request fails, but the lookup has been counted. *)
Theorem passthrough_lookup op (s : Passthrough) (w w1 w2 : W) p fd st :
  table_ok s.(ps_inodes) → table_room s.(ps_inodes) →
  s.(ps_inodes).(t_map) !! op.(Lookup_parent) = Some p →
  openat p.(ps_fd) op.(Lookup_name) (Z.lor O_PATH O_NOFOLLOW) w = (Ok fd, w1) →
  fstatat fd [] AT_SYMLINK_NOFOLLOW w1 = (Ok st, w2) →
  s.(ps_inodes).(t_index) !! src_id_of st ≠ Some op.(Lookup_parent) →
  let here := src_id_of st in
  let '(ino, count) := looked_up s.(ps_inodes) here in
  ∃ s' w', ps_lookup op (s, w) = (a ← stat_attr st; Ok (EntryOut ino a s.(ps_timeout) s.(ps_timeout)), (s', w'))
    ∧ table_ok s'.(ps_inodes) ∧ s'.(ps_opened_dirs) = s.(ps_opened_dirs) ∧ s'.(ps_opened_files) = s.(ps_opened_files)
    ∧ (∀ c, live s'.(ps_inodes) c = if decide (c = here) then Some (ino, count) else live s.(ps_inodes) c)
    ∧ ∀ c n, live s'.(ps_inodes) c = Some (ino, n) → c = here.
Proof.
  intros Hw Hroom Hp Ho Hs Hpar here. unfold ps_lookup. rewrite (do_lookup_found _ _ _ _ _ _ _ _ _ Hp Ho Hs).
  destruct (table_count_spec (E := fs_error) "invalid nodeid" here
    (λ ino, {| ps_ino := ino; ps_fd := fd; ps_refcount := 1; ps_src_id := here;
               ps_is_symlink := is_symlink_mode st |}) s.(ps_inodes) Hw Hroom)
    as (t & new & Hc & Hw' & Hl & _); [done|].
  destruct (looked_up s.(ps_inodes) here) as [ino count] eqn:Hlu. simpl in Hc.
  assert (∃ w', count_source op.(Lookup_parent) fd st (s, w2) = (Ok ino, (set_ps_inodes t s, w'))) as [w' Hcs].
  { unfold count_source. erewrite (M_bind_Ok own) by reflexivity. cbv zeta. fold here. rewrite Hc.
    erewrite (M_bind_Ok _ _ (s, w2) (s, w2)).
    2: { destruct (table_get_by_key here s.(ps_inodes)) as [[x i]|] eqn:Hg; [|done].
         apply get_by_key_Some in Hg as [Hx _]. unfold lock_other. rewrite decide_False by (intros ->; by apply Hpar). done. }
    destruct new; eexists; reflexivity. }
  exists (set_ps_inodes t s), w'. split; [|split; [done|split; [done|split; [done|split]]]].
  - rewrite (M_bind_Ok _ _ _ _ _ Hcs). unfold mbind, M_bind, lift, outcome_bind. by destruct (stat_attr st).
  - intros c. simpl. rewrite Hl. case_decide; [|done]. subst. by rewrite Hlu.
  - intros c n Hn. simpl in *. apply (live_inj t c here ino n count); [done..|].
    rewrite Hl, decide_True by done. by rewrite Hlu.
Qed.

(** A name whose source is the directory itself, such as ".", is looked up with
the lock of the directory held, which is then taken once more. *)
Lemma passthrough_lookup_self_deadlocks op (s : Passthrough) (w w1 w2 : W) p fd st :
  s.(ps_inodes).(t_map) !! op.(Lookup_parent) = Some p →
  openat p.(ps_fd) op.(Lookup_name) (Z.lor O_PATH O_NOFOLLOW) w = (Ok fd, w1) →
  fstatat fd [] AT_SYMLINK_NOFOLLOW w1 = (Ok st, w2) →
  s.(ps_inodes).(t_index) !! src_id_of st = Some op.(Lookup_parent) →
  ps_lookup op (s, w) = (Panic "deadlock", (s, w2)).
Proof.
  intros Hp Ho Hs Hself. unfold ps_lookup. rewrite (do_lookup_found _ _ _ _ _ _ _ _ _ Hp Ho Hs).
  assert (table_get_by_key (src_id_of st) s.(ps_inodes) = Some (op.(Lookup_parent), p)) as Hg.
  { unfold table_get_by_key. rewrite Hself. simpl. by rewrite Hp. }
  unfold mbind at 1, M_bind at 1. unfold count_source. erewrite (M_bind_Ok own) by reflexivity. cbv zeta.
  rewrite Hg. unfold lock_other, mbind, M_bind. by rewrite decide_True by done.
Qed.

(** LINK of an inode under itself likewise. *)
Lemma passthrough_link_self_deadlocks op (s : Passthrough) (w : W) i :
  s.(ps_inodes).(t_map) !! op.(Link_ino) = Some i → op.(Link_newparent) = op.(Link_ino) →
  ps_link op (s, w) = (Panic "deadlock", (s, w)).
Proof.
  intros Hi He. unfold ps_link. rewrite He. rewrite !(M_bind_Ok _ _ _ _ _ (ps_get_ok _ _ s w Hi)).
  unfold lock_other. by rewrite decide_True by done.
Qed.
End numbers.

(** ** Examples *)

(** A small host: every path opens, as a file whose inode is the length of the
path; a directory lists ".", "a" and "b"; files share their bytes, and a write
takes three bytes at most. *)
Record ref_os := { ro_open : list (Z * Z); ro_errno : Z; ro_dirpos : nat; ro_pos : nat; ro_data : list byte }.

Definition ro_with (o : list (Z * Z)) (w : ref_os) : ref_os :=
  {| ro_open := o; ro_errno := w.(ro_errno); ro_dirpos := w.(ro_dirpos); ro_pos := w.(ro_pos); ro_data := w.(ro_data) |}.
Definition ro_seekdir (n : nat) (w : ref_os) : ref_os :=
  {| ro_open := w.(ro_open); ro_errno := w.(ro_errno); ro_dirpos := n; ro_pos := w.(ro_pos); ro_data := w.(ro_data) |}.
Definition ro_file (n : nat) (d : list byte) (w : ref_os) : ref_os :=
  {| ro_open := w.(ro_open); ro_errno := w.(ro_errno); ro_dirpos := w.(ro_dirpos); ro_pos := n; ro_data := d |}.

Definition ro_next (w : ref_os) : Z := foldr Z.max 2 (map fst w.(ro_open)) + 1.
Definition ro_push (path : list byte) (w : ref_os) : Z * ref_os :=
  (ro_next w, ro_with ((ro_next w, Z.of_nat (length path)) :: w.(ro_open)) w).
Definition ro_fds (w : ref_os) : gset Z := list_to_set (map fst w.(ro_open)).
Definition ro_close (fd : Z) (w : ref_os) : ref_os := ro_with (List.filter (λ e, negb (e.1 =? fd)) w.(ro_open)) w.

Definition ro_stat (ino : Z) : stat := {|
  st_ino := ino; st_nlink := 1; st_mode := 0x81a4; st_uid := 0; st_gid := 0; st_rdev := 0; st_size := 0;
  st_blksize := 512; st_blocks := 0; st_atime := 0; st_atime_nsec := 0; st_mtime := 0; st_mtime_nsec := 0;
  st_ctime := 0; st_ctime_nsec := 0 |}.

Definition ro_entries : list dirent :=
  [ {| d_ino := 1; d_off := 10; d_type := 4; d_name := [Byte.x2e] |};
    {| d_ino := 5; d_off := 20; d_type := 8; d_name := [Byte.x61] |};
    {| d_ino := 6; d_off := 30; d_type := 8; d_name := [Byte.x62] |} ].

Definition ro_cookie (pos : Z) : nat := Z.to_nat (pos / 10).

#[export] Instance ref_nix : NixSys ref_os := {|
  DirP := Z;
  AT_EMPTY_PATH := 0x1000; AT_FDCWD := -100; AT_REMOVEDIR := 0x200; AT_SYMLINK_FOLLOW := 0x400;
  AT_SYMLINK_NOFOLLOW := 0x100; PATH_MAX := 4096; ENAMETOOLONG := 36; UTIME_NOW := 2 ^ 30 - 1; UTIME_OMIT := 2 ^ 30 - 2;
  c_errno w := w.(ro_errno);
  c_set_errno e w := {| ro_open := w.(ro_open); ro_errno := e; ro_dirpos := w.(ro_dirpos); ro_pos := w.(ro_pos);
                        ro_data := w.(ro_data) |};
  c_close := ro_close;
  c_open path _ := ro_push path;
  c_openat _ path _ := ro_push path;
  c_fstatat fd _ _ w := (0, {| ns_stat := ro_stat (default 0 ((list_to_map w.(ro_open) : gmap Z Z) !! fd)); st_dev := 1 |}, w);
  c_fdopendir fd w := (Some fd, ro_seekdir 0 w);
  c_closedir := ro_close;
  c_dirfd d := d;
  c_seekdir _ pos := ro_seekdir (ro_cookie pos);
  c_readdir _ w := match ro_entries !! w.(ro_dirpos) with
                   | Some e => (Some e, ro_seekdir (S w.(ro_dirpos)) w)
                   | None => (None, w)
                   end;
  c_readlinkat _ _ _ w := (0, [], w);
  c_fchownat _ _ _ _ _ w := (0, w); c_utimensat _ _ _ _ w := (0, w); c_futimens _ _ w := (0, w);
  c_linkat _ _ _ _ _ w := (0, w); c_mkdirat _ _ _ w := (0, w); c_mknodat _ _ _ _ w := (0, w);
  c_symlinkat _ _ _ w := (0, w); c_unlinkat _ _ _ w := (0, w); c_renameat _ _ _ _ w := (0, w);
  c_fsync _ w := (0, w); c_fdatasync _ w := (0, w); c_chmod _ _ w := (0, w); c_fchmod _ _ w := (0, w);
  c_truncate _ _ w := (0, w); c_ftruncate _ _ w := (0, w); c_flock _ _ w := (0, w);
  c_posix_fallocate _ _ _ w := (0, w);
  c_getxattr _ _ _ w := (0, [], w); c_listxattr _ _ w := (0, [], w); c_setxattr _ _ _ _ w := (0, w);
  c_removexattr _ _ w := (0, w);
  c_fstatvfs _ w := (0, {| f_bsize := 512; f_frsize := 512; f_blocks := 1; f_bfree := 1; f_bavail := 1; f_files := 1;
                           f_ffree := 1; f_namemax := 255 |}, w) |}.

#[export] Instance ref_host_os : HostFs ref_os := {|
  HostFile := Z;
  HostDir := unit;
  h_canonicalize p := mret p;
  h_symlink_metadata _ := lift (Err (Os 2));
  h_read_link p := mret p;
  h_read_dir _ := mret tt;
  h_next d w := (None, d, w);
  h_entry_metadata _ := lift (Err (Os 2));
  h_open _ p w := let '(fd, w) := ro_push p w in (Ok fd, w);
  h_seek _ pos w := (Ok pos, ro_file (Z.to_nat pos) w.(ro_data) w);
  h_read_to_end _ limit w := (Ok (take (Z.to_nat limit) (drop w.(ro_pos) w.(ro_data))), w);
  h_write _ data w :=
    let part := take 3 data in
    (Ok (Z.of_nat (length part)),
     let c := w.(ro_data) in
     let size := Z.max (Z.of_nat (length c)) (Z.of_nat w.(ro_pos) + Z.of_nat (length part)) in
     ro_file (w.(ro_pos) + length part) (write_at (resize_zeroes c size) (Z.of_nat w.(ro_pos)) part) w);
  h_sync_all _ := mret tt;
  h_sync_data _ := mret tt;
  h_set_permissions _ _ := mret tt;
  h_set_len _ _ := mret tt;
  h_chown _ _ _ := mret tt |}.

#[export] Instance ref_file_fd : FileFd ref_os := λ f, f.

Lemma ro_next_fresh w : ro_next w ∉ ro_fds w ∧ ro_next w ≠ -1.
Proof.
  unfold ro_next, ro_fds. rewrite not_elem_of_list_to_set.
  assert (2 ≤ foldr Z.max 2 (map fst w.(ro_open)) ∧ ∀ x, x ∈ (map fst w.(ro_open)) → x ≤ foldr Z.max 2 (map fst w.(ro_open))) as [H2 Hle].
  { induction (map fst w.(ro_open)) as [|x l [IH1 IH2]]; simpl; [split; [done|by intros x ?%elem_of_nil]|].
    split; [lia|]. intros y [->|Hy]%elem_of_cons; [lia|]. specialize (IH2 y Hy). lia. }
  split; [|lia]. intros Hin. specialize (Hle _ Hin). lia.
Qed.

Lemma ro_close_fds fd w : ro_fds (ro_close fd w) = ro_fds w ∖ {[fd]}.
Proof.
  unfold ro_fds. simpl. induction w.(ro_open) as [|[x i] l IH]; simpl; [set_solver|].
  destruct (Z.eqb_spec x fd) as [->|Hx]; simpl; rewrite IH; set_solver.
Qed.

Lemma ro_push_fds path w : let '(r, w') := ro_push path w in
  (r = -1 ∧ ro_fds w' = ro_fds w) ∨ (r ≠ -1 ∧ r ∉ ro_fds w ∧ ro_fds w' = {[r]} ∪ ro_fds w).
Proof. right. destruct (ro_next_fresh w). done. Qed.

#[export] Instance ref_nix_spec : NixFdSpec ro_fds.
Proof.
  split; try done.
  - apply ro_close_fds.
  - intros p f w. apply ro_push_fds.
  - intros fd p f w. apply ro_push_fds.
  - intros o p w. split; [apply ro_next_fresh|done].
  - by intros fd w d w' [= <- <-].
  - apply ro_close_fds.
  - intros d w. simpl. by destruct (ro_entries !! _).
Qed.

#[export] Instance ps_slab : SlabApi := λ A m, fresh (dom m).
#[export] Instance ps_slab_spec : SlabSpec.
Proof. intros A m. apply not_elem_of_dom, is_fresh. Qed.

#[export] Instance ps_libc : Libc := linux_libc.
#[export] Instance ps_bf : Bitflags := ref_bitflags.
#[export] Instance ps_zc : Zerocopy := ref_zerocopy.
#[export] Instance ps_rustix : Rustix := ref_rustix.
#[export] Instance ps_profile : Profile := true.

(** Room for one entry per reply. *)
#[export] Instance ps_mem_api : MemApi := {|
  MErrno_NOENT := 2; MErrno_NOTDIR := 20; MErrno_EXIST := 17; MErrno_NOTEMPTY := 39;
  MErrno_INVAL := 22; MErrno_NOSYS := 38; MErrno_NOTSUP := 95; MErrno_NODATA := 61; MErrno_RANGE := 34;
  XattrFlags_CREATE := 1; XattrFlags_REPLACE := 2;
  hash_order A m := map_to_list m;
  slab_vacant_key m := 0;
  readdir_full size pushed e := dirent_bytes (pushed ++ [e]) >? size;
  same_shard held wanted := held.(NodeID_into_raw) =? wanted.(NodeID_into_raw) |}.

Definition os_start : ref_os := {| ro_open := [(0, 0); (1, 0); (2, 0)]; ro_errno := 0; ro_dirpos := 0; ro_pos := 0; ro_data := [] |}.

(** The program on the directory ["/"]. *)
Definition ps_start : Passthrough * ref_os :=
  match Passthrough_new [Byte.x2f] None os_start with
  | (Ok s, w) => (s, w)
  | (_, w) => ({| ps_inodes := INodeTable_new; ps_opened_dirs := ∅; ps_opened_files := ∅; ps_timeout := None |}, w)
  end.

Definition lookup_a : Lookup := {| Lookup_parent := NodeID_ROOT; Lookup_name := [Byte.x61; Byte.x61] |}.

Lemma ps_start_new : Passthrough_new [Byte.x2f] None os_start = (Ok ps_start.1, ps_start.2).
Proof. reflexivity. Qed.

(** After LOOKUP of a name under the root the process has two descriptors more. *)
Lemma passthrough_descriptors_witness :
  ∃ s w, nsteps ps_step 1 ps_start (s, w)
    ∧ ro_fds w = ro_fds os_start ∪ list_to_set (owned s) ∧ NoDup (owned s).
Proof.
  set (sw := (ps_serve 1 (ReqLookup lookup_a) ps_start).2).
  assert (nsteps ps_step 1 ps_start (sw.1, sw.2)) as Hrun.
  { rewrite <- surjective_pairing. eapply nsteps_l; [|apply nsteps_O].
    eapply (step_answer 1 (ReqLookup lookup_a)); [exact I|reflexivity|discriminate]. }
  exists sw.1, sw.2. split; [exact Hrun|].
  destruct (passthrough_descriptors ro_fds [Byte.x2f] None os_start ps_start.1 ps_start.2 1 sw.1 sw.2
    ps_start_new) as (Ho & Hn & _); [reflexivity|exact Hrun|]. split; [exact Ho|exact Hn].
Defined.

(** The file [aa], inode 2, gets the number 2. *)
Lemma passthrough_lookup_witness :
  ∃ s' w' a, ps_lookup lookup_a ps_start = (Ok (EntryOut (ino_of 2) a None None), (s', w'))
    ∧ live s'.(ps_inodes) (2, 1) = Some (ino_of 2, 1).
Proof.
  destruct (Passthrough_new_holds ro_fds [Byte.x2f] None os_start ps_start.1 ps_start.2 ps_start_new) as [Hok Hb _ _ _ _].
  destruct (passthrough_lookup lookup_a ps_start.1 ps_start.2 (ro_push [Byte.x61; Byte.x61] ps_start.2).2
    (ro_push [Byte.x61; Byte.x61] ps_start.2).2
    {| ps_ino := NodeID_ROOT; ps_src_id := (1, 1); ps_is_symlink := false; ps_fd := {| fd_raw := 3 |};
       ps_refcount := (2 ^ 64 - 1) / 2 |} {| fd_raw := 4 |} {| ns_stat := ro_stat 2; st_dev := 1 |} Hok)
    as (s' & w' & Hl & _ & _ & _ & Hc & _);
    [by apply (table_below_room (2 ^ 63))|reflexivity|reflexivity|reflexivity|vm_compute; discriminate|].
  exists s', w'. eexists. split; [exact Hl|]. rewrite Hc. reflexivity.
Defined.
