(* ===== verification/PassthroughData.v ===== *)
(** * Forwarding by descriptor: listings and writes

What READDIR and WRITE of [Passthrough] do on a host whose directory streams and
files behave as the manual says, and what goes wrong when a stream is dropped. *)

From stdpp Require Import gmap sets.
From S2P Require Import Prelude Layout Kernel Crates Types Operation MemFs MemFsSpec MemFsData MountOpts Host INodeTable.
From S2P Require Import Nix Passthrough PassthroughSpec.
Local Open Scope Z_scope.

(** ** Listings *)

(** A directory stream: its entries, and the one that is next.  [seekdir] with the
cookie of an entry goes behind it, with zero to the start. *)
Class DirStreamSpec {W} `{NixSys W} (entries : DirP → list dirent) (pos : DirP → W → nat) : Prop := {
  ds_errno d e w : pos d (c_set_errno e w) = pos d w;
  ds_some d w e : entries d !! pos d w = Some e →
    ∃ w', c_readdir d (c_set_errno 0 w) = (Some e, w') ∧ pos d w' = S (pos d w);
  ds_end d w : entries d !! pos d w = None →
    ∃ w', c_readdir d (c_set_errno 0 w) = (None, w') ∧ pos d w' = pos d w ∧ c_errno w' = 0;
  ds_rewind d w : pos d (c_seekdir d 0 w) = 0%nat;
  ds_seek d i e w : entries d !! i = Some e → pos d (c_seekdir d (wrap_i 64 (wrap_u 64 e.(d_off))) w) = S i;
  ds_ino d e : e ∈ entries d → e.(d_ino) ≠ 0;
  ds_cookie d e : e ∈ entries d → wrap_u 64 e.(d_off) ≠ 0;
  ds_cookies d i j e f : entries d !! i = Some e → entries d !! j = Some f →
    wrap_u 64 e.(d_off) = wrap_u 64 f.(d_off) → i = j;
}.

Section listing.
Context {W : Type} `{HF : HostFs W} `{FF : !FileFd W} `{NS : !NixSys W} `{MA : MemApi} `{SL : SlabApi}.
Context `{L : Libc} `{BF : Bitflags} `{ZC : Zerocopy} `{RX : Rustix} `{PR : Profile}.
Context (entries : DirP → list dirent) (pos : DirP → W → nat) `{DS : !DirStreamSpec entries pos}.

(** The entry shown for an entry of the host. *)
Definition shown (e : dirent) : option MemDirEntry :=
  if decide (e.(d_name) = [Byte.x2e] ∨ e.(d_name) = [Byte.x2e; Byte.x2e]) then None
  else Some {| md_name := e.(d_name); md_ino := NodeID_from_raw_unchecked e.(d_ino);
               md_typ := FileType_from_dirent_type e.(d_type); md_off := wrap_u 64 e.(d_off) |}.

(** What a stream has to show from a position on. *)
Definition shown_from (d : DirP) (q : nat) : list MemDirEntry := omap shown (drop q (entries d)).

(** The position an offset stands for. *)
Definition pos_at (d : DirP) (off : u64) (q : nat) : Prop :=
  (off = 0 ∧ q = 0%nat) ∨ ∃ i e, q = S i ∧ entries d !! i = Some e ∧ wrap_u 64 e.(d_off) = off.

Definition entry_of (e : NixDirEntry) : MemDirEntry :=
  {| md_name := e.(ne_name); md_ino := e.(ne_ino); md_typ := FileType_from_dirent_type e.(ne_typ);
     md_off := e.(ne_off) |}.

Lemma shown_from_some d q e : entries d !! q = Some e → shown_from d q = option_list (shown e) ++ shown_from d (S q).
Proof. intros He. unfold shown_from. rewrite (drop_S _ e q He). simpl. by destruct (shown e). Qed.

Lemma shown_from_none d q : entries d !! q = None → shown_from d q = [].
Proof. intros He. unfold shown_from. by rewrite drop_ge by by apply lookup_ge_None. Qed.

Lemma next_spec fuel d w :
  (length (entries d) < fuel + pos d w)%nat → (0 < fuel)%nat →
  (∃ w', ReadDir_next fuel d w = (Ok (Some None), w') ∧ shown_from d (pos d w) = [])
  ∨ ∃ w' x, ReadDir_next fuel d w = (Ok (Some (Some x)), w')
      ∧ shown_from d (pos d w) = entry_of x :: shown_from d (pos d w')
      ∧ pos_at d (entry_of x).(md_off) (pos d w') ∧ (pos d w < pos d w')%nat.
Proof.
  revert w. induction fuel as [|fuel IH]; intros w Hf Hp; [lia|]. simpl.
  destruct (entries d !! pos d w) as [e|] eqn:He.
  - destruct (ds_some d w e He) as (w1 & Hr & Hp1). rewrite Hr. pose proof (lookup_lt_Some _ _ _ He).
    rewrite (shown_from_some d _ e He). unfold shown. case_decide as Hd.
    + destruct (IH w1) as [(w' & Hn & Hs)|(w' & x & Hn & Hs & Ha & Hlt)]; [lia|lia|..]; rewrite <- Hp1.
      * left. eauto.
      * right. exists w', x. simpl. split; [done|]. split; [done|]. split; [done|lia].
    + unfold NodeID_from_raw. rewrite (proj2 (Z.eqb_neq _ _)) by (by eapply ds_ino, list_elem_of_lookup_2).
      right. eexists _, _. split; [done|]. rewrite Hp1. split; [done|]. split; [|lia]. right. exists (pos d w), e. done.
  - destruct (ds_end d w He) as (w1 & Hr & Hp1 & Hn). rewrite Hr, Hn. left. eexists. split; [done|]. by apply shown_from_none.
Qed.

(** Where the kernel goes on: behind the last entry it was given. *)
Definition next_offset (off : u64) (l : list MemDirEntry) : u64 :=
  match last l with Some e => e.(md_off) | None => off end.

Lemma push_dir_spec fuel d size out w :
  (length (entries d) < fuel + pos d w)%nat → (0 < fuel)%nat →
  ∃ l w', push_dir fuel d size out w = (Ok (Some (out ++ l)), w')
    ∧ ∃ q, shown_from d (pos d w) = l ++ shown_from d q ∧ (pos d w ≤ q)%nat
      ∧ (l = [] ∧ q = pos d w ∨ ∃ e, last l = Some e ∧ pos_at d e.(md_off) q)
      ∧ (shown_from d q = [] ∨ ∃ e es, shown_from d q = e :: es ∧ readdir_full size (out ++ l) e = true).
Proof.
  revert out w. induction fuel as [|fuel IH]; intros out w Hf Hp; [lia|]. cbn [push_dir].
  unfold mbind at 1, M_bind at 1.
  destruct (next_spec (S fuel) d w Hf Hp) as [(w1 & Hn & Hs)|(w1 & x & Hn & Hs & Ha & Hlt)]; rewrite Hn.
  - exists [], w1. rewrite app_nil_r. split; [done|]. exists (pos d w). rewrite Hs. auto 6.
  - fold (entry_of x). cbv zeta. destruct (readdir_full size out (entry_of x)) eqn:Hfull.
    + exists [], w1. rewrite app_nil_r. split; [done|]. exists (pos d w). rewrite Hs.
      split; [done|]. split; [lia|]. split; [auto|]. right. eauto.
    + destruct fuel as [|fuel].
      { exfalso. unfold shown_from in Hs. rewrite drop_ge in Hs by lia. done. }
      destruct (IH (out ++ [entry_of x]) w1) as (l & w' & Hr & q & Hq & Hle & Hl & He); [lia|lia|].
      exists (entry_of x :: l), w'. rewrite Hr, <- app_assoc. split; [done|]. exists q.
      rewrite Hs, Hq. split; [done|]. split; [lia|]. split.
      * right. destruct Hl as [[-> ->]|(e & Hl & Hpos)]; [by eexists|]. exists e.
        destruct l; [done|]. done.
      * by rewrite <- app_assoc in He.
Qed.

(** READDIR at an offset: the entries from there on that fit. *)
Lemma readdir_step fuel op (s : Passthrough) (w : W) rd q :
  op.(Readdir_mode) = ReaddirMode_Normal →
  s.(ps_opened_dirs) !! op.(Readdir_fh).(FileID_into_raw) = Some rd →
  (length (entries rd.(rd_dir)) < fuel)%nat →
  pos_at rd.(rd_dir) op.(Readdir_offset) q →
  (op.(Readdir_offset) = rd.(rd_offset) → pos rd.(rd_dir) w = q) →
  ∃ l s' w' rd', ps_readdir fuel op (s, w) = (Ok (Some (ReaddirOut l)), (s', w'))
    ∧ s'.(ps_opened_dirs) !! op.(Readdir_fh).(FileID_into_raw) = Some rd'
    ∧ rd'.(rd_dir) = rd.(rd_dir) ∧ rd'.(rd_offset) = op.(Readdir_offset)
    ∧ ∃ q', shown_from rd.(rd_dir) q = l ++ shown_from rd.(rd_dir) q'
      ∧ (l ≠ [] → pos_at rd.(rd_dir) (next_offset op.(Readdir_offset) l) q')
      ∧ (shown_from rd.(rd_dir) q' = []
         ∨ ∃ e es, shown_from rd.(rd_dir) q' = e :: es ∧ readdir_full op.(Readdir_size) l e = true).
Proof.
  intros Hm Hd Hf Hq Hsame. unfold ps_readdir. rewrite Hm. set (key := op.(Readdir_fh).(FileID_into_raw)) in *.
  erewrite M_bind_Ok.
  2: { unfold get_opened_dir. erewrite (M_bind_Ok own) by reflexivity. unfold lift. fold key. by rewrite Hd. }
  assert (∃ rd' w', ReadDir_seek rd op.(Readdir_offset) w = (rd', w') ∧ rd'.(rd_dir) = rd.(rd_dir)
    ∧ rd'.(rd_offset) = op.(Readdir_offset) ∧ pos rd.(rd_dir) w' = q) as (rd' & w1 & Hseek & Hdir & Hoff & Hpos).
  { unfold ReadDir_seek. destruct (Z.eqb_spec op.(Readdir_offset) rd.(rd_offset)) as [He|He]; simpl.
    - exists rd, w. auto.
    - eexists _, _. split; [done|]. split; [done|]. split; [done|].
      destruct Hq as [[-> ->]|(i & e & -> & Hi & <-)]; [apply ds_rewind|by eapply ds_seek]. }
  erewrite M_bind_Ok by (unfold seek_dir; rewrite Hseek; reflexivity).
  destruct (push_dir_spec fuel rd.(rd_dir) op.(Readdir_size) [] w1) as (l & w2 & Hp & q' & Hs & _ & Hl & He); [lia|lia|].
  set (s1 := set_ps_dirs (<[key := rd']> s.(ps_opened_dirs)) s).
  exists l, s1, w2, rd'. rewrite Hdir.
  erewrite M_bind_Ok by (apply (world_ok FsIo); exact Hp). split; [done|]. split; [apply lookup_insert_eq|].
  split; [done|]. split; [done|]. exists q'. rewrite <- Hpos. split; [done|]. split; [|done].
  intros Hne. destruct Hl as [[-> _]|(e & Hlast & Hpos')]; [done|]. unfold next_offset. by rewrite Hlast.
Qed.

(** The kernel reads a directory: a READDIR from where the last reply ended, until
a reply is empty. *)
Fixpoint ps_read_dir (rounds fuel : nat) (fh : FileID) (size : u32) (off : u64) (sw : Passthrough * W)
    : option (list MemDirEntry) :=
  match rounds with
  | O => None
  | S rounds =>
      match ps_readdir fuel {| Readdir_ino := NodeID_ROOT; Readdir_fh := fh; Readdir_offset := off;
                               Readdir_size := size; Readdir_mode := ReaddirMode_Normal |} sw with
      | (Ok (Some (ReaddirOut [])), _) => Some []
      | (Ok (Some (ReaddirOut l)), sw) => (l ++.) <$> ps_read_dir rounds fuel fh size (next_offset off l) sw
      | _ => None
      end
  end.

(** Two offsets that stand for different positions differ. *)
Lemma pos_at_inj d off1 off2 q1 q2 : pos_at d off1 q1 → pos_at d off2 q2 → off1 = off2 → q1 = q2.
Proof.
  intros [[-> ->]|(i & e & -> & Hi & <-)] [[-> ->]|(j & f & -> & Hj & <-)] He; [done|..].
  - by destruct (ds_cookie d f (list_elem_of_lookup_2 _ _ _ Hj)).
  - by destruct (ds_cookie d e (list_elem_of_lookup_2 _ _ _ Hi)).
  - f_equal. by eapply ds_cookies.
Qed.

Lemma ps_read_dir_from rounds fuel fh size off (s : Passthrough) (w : W) rd q :
  s.(ps_opened_dirs) !! fh.(FileID_into_raw) = Some rd →
  (length (entries rd.(rd_dir)) < fuel)%nat → (length (shown_from rd.(rd_dir) q) < rounds)%nat →
  pos_at rd.(rd_dir) off q → (off = rd.(rd_offset) → pos rd.(rd_dir) w = q) →
  (∀ e, e ∈ shown_from rd.(rd_dir) q → readdir_full size [] e = false) →
  ps_read_dir rounds fuel fh size off (s, w) = Some (shown_from rd.(rd_dir) q).
Proof.
  revert off s w rd q. induction rounds as [|rounds IH]; intros off s w rd q Hd Hf Hr Hq Hsame Hfit; [lia|]. simpl.
  destruct (readdir_step fuel {| Readdir_ino := NodeID_ROOT; Readdir_fh := fh; Readdir_offset := off;
    Readdir_size := size; Readdir_mode := ReaddirMode_Normal |} s w rd q)
    as (l & s' & w' & rd' & Hstep & Hd' & Hdir & Hoff & q' & Hs & Hnext & He); [done..|]. rewrite Hstep. simpl in *.
  destruct l as [|x l].
  - destruct He as [He|(e & es & He & Hfull)]; [by rewrite Hs, He|]. simpl in Hs. rewrite <- Hs in He.
    rewrite Hfit in Hfull; [done|]. rewrite He. left.
  - rewrite Hs in Hr |- *. rewrite length_app in Hr. simpl in Hr. rewrite <- Hdir in *.
    rewrite (IH _ s' w' rd' q'); [done|done|done|lia|by apply Hnext| |].
    + intros Heq. exfalso.
      assert (q' = q) as ->.
      { apply (pos_at_inj rd'.(rd_dir) (next_offset off (x :: l)) off); [by apply Hnext|done|congruence]. }
      apply (f_equal length) in Hs. rewrite length_app in Hs. simpl in Hs. lia.
    + intros e Hin. apply Hfit. rewrite Hs. apply elem_of_app. by right.
Qed.

End listing.

(** ** Writes *)

(** A file: its bytes, the position, and the interruptions still to come.  A
write stores some of the bytes at the position, at least one, or is interrupted. *)
Class FileSpec {W} `{HostFs W} `{Rustix} (content : HostFile → W → list byte) (fpos : HostFile → W → nat)
    (irqs : W → nat) : Prop := {
  fs_seek f p w : ∃ w', h_seek f p w = (Ok p, w') ∧ content f w' = content f w ∧ fpos f w' = Z.to_nat p
    ∧ irqs w' = irqs w;
  fs_write f data w : data ≠ [] →
    (∃ n w', h_write f data w = (Ok (Z.of_nat n), w') ∧ (0 < n ≤ length data)%nat
       ∧ (∀ i, content f w' !! i = overlay (content f w) (take n data) (fpos f w) i)
       ∧ fpos f w' = (fpos f w + n)%nat ∧ (irqs w' ≤ irqs w)%nat)
    ∨ ∃ e w', h_write f data w = (Err e, w') ∧ Errno_from_io_error e = Some Errno_INTR
       ∧ content f w' = content f w ∧ fpos f w' = fpos f w ∧ (irqs w' < irqs w)%nat;
}.

(** Two writes, the second where the first ended, are one. *)
Lemma overlay_seq c c1 d1 d2 p i :
  (∀ i, c1 !! i = overlay c d1 p i) →
  overlay c1 d2 (p + length d1) i = overlay c (d1 ++ d2) p i.
Proof.
  intros Hc. assert (∀ i, (length c1 ≤ i)%nat ↔ overlay c d1 p i = None) as Hlen.
  { intros j. rewrite <- Hc. symmetry. apply lookup_ge_None. }
  specialize (Hlen i). specialize (Hc i). unfold overlay in *. rewrite length_app.
  destruct (decide (p + length d1 ≤ i < p + length d1 + length d2)%nat) as [H1|H1].
  { rewrite decide_True by lia. rewrite lookup_app_r by lia. f_equal. lia. }
  destruct (decide (p ≤ i < p + length d1)%nat) as [H2|H2].
  { rewrite (decide_True (P := (p ≤ i < p + (length d1 + length d2))%nat)) by lia. rewrite lookup_app_l by lia.
    rewrite decide_True; [done|]. apply Nat.nle_gt. intros Hge. apply Hlen in Hge. apply lookup_ge_None in Hge. lia. }
  rewrite (decide_False (P := (p ≤ i < p + (length d1 + length d2))%nat)) by lia.
  destruct (decide (i < length c1)%nat) as [H3|H3]; [done|].
  pose proof (proj1 Hlen ltac:(lia)) as Hnone. rewrite Hnone. destruct (decide (i < p + length d1)%nat) as [H4|H4]; [|done].
  destruct (decide (i < length c)%nat) as [H5|H5].
  - apply lookup_ge_None in Hnone. lia.
  - rewrite decide_True in Hnone by lia. done.
Qed.

Section writes.
Context {W : Type} `{HF : HostFs W} `{FF : !FileFd W} `{NS : !NixSys W} `{MA : MemApi} `{SL : SlabApi}.
Context `{L : Libc} `{BF : Bitflags} `{ZC : Zerocopy} `{RX : Rustix} `{PR : Profile}.
Context (content : HostFile → W → list byte) (fpos : HostFile → W → nat) (irqs : W → nat).
Context `{FSp : !FileSpec content fpos irqs}.

(** [data] is in the file, where the position was, and the position behind it. *)
Definition stored (f : HostFile) (data : list byte) (w w' : W) : Prop :=
  (∀ i, content f w' !! i = overlay (content f w) data (fpos f w) i)
  ∧ fpos f w' = (fpos f w + length data)%nat ∧ (irqs w' ≤ irqs w)%nat.

Lemma stored_app f d1 d2 w1 w2 w3 : stored f d1 w1 w2 → stored f d2 w2 w3 → stored f (d1 ++ d2) w1 w3.
Proof.
  intros (C1 & P1 & I1) (C2 & P2 & I2). split; [|split].
  - intros i. rewrite C2, P1. by apply overlay_seq.
  - rewrite P2, P1, length_app. lia.
  - lia.
Qed.

Lemma write_all_spec fuel f data w :
  data ≠ [] → (length data + irqs w ≤ fuel)%nat →
  ∃ w', file_write_all fuel f data w = Some (Ok tt, w') ∧ stored f data w w'.
Proof.
  revert data w. induction fuel as [|fuel IH]; intros data w Hd Hf; (destruct data as [|b data]; [done|]); simpl in Hf; [lia|].
  cbn [file_write_all]. set (d := b :: data) in *.
  destruct (fs_write f d w Hd) as [(n & w1 & Hw & Hn & Hc & Hp & Hi)|(e & w1 & Hw & He & Hc & Hp & Hi)]; rewrite Hw.
  - rewrite (proj2 (Z.eqb_neq _ _)) by lia. rewrite Nat2Z.id.
    assert (stored f (take n d) w w1) as H1 by (split; [done|]; rewrite length_take; split; [lia|done]).
    destruct (decide (n = length d)) as [->|Hlt].
    + rewrite drop_all. exists w1. split; [by destruct fuel|]. by rewrite firstn_all in H1.
    + destruct (IH (drop n d) w1) as (w2 & Hr & H2).
      * intros Hnil. apply (f_equal length) in Hnil. rewrite length_drop in Hnil. simpl in *. lia.
      * rewrite length_drop. simpl in *. lia.
      * exists w2. split; [done|]. rewrite <- (take_drop n d). by eapply stored_app.
  - rewrite decide_True by done. destruct (IH d w1) as (w2 & Hr & Hc2 & Hp2 & Hi2); [done|simpl; lia|].
    exists w2. split; [done|]. rewrite Hc, Hp in *. split; [done|]. split; [done|lia].
Qed.

Lemma io_copy_spec fuel f data k w :
  data ≠ [] → (length data + irqs w ≤ fuel)%nat →
  ∃ w', io_copy fuel f data k w = Some (Ok (k + Z.of_nat (length data)), w') ∧ stored f data w w'.
Proof.
  revert data k w. induction fuel as [|fuel IH]; intros data k w Hd Hf; (destruct data as [|b data]; [done|]); simpl in Hf; [lia|].
  cbn [io_copy]. set (d := b :: data) in *.
  assert (length (take COPY_BUF d) = COPY_BUF `min` length d)%nat as Hlen by apply length_take.
  assert (0 < COPY_BUF)%nat as Hpos by (by apply Nat.ltb_lt).
  destruct (write_all_spec (S fuel) f (take COPY_BUF d) w) as (w1 & Hw & H1).
  { intros Hnil. apply (f_equal length) in Hnil. rewrite Hlen in Hnil. simpl in Hnil. lia. }
  { rewrite Hlen. unfold d. cbn [length]. lia. }
  rewrite Hw. destruct (drop COPY_BUF d) as [|x rest] eqn:Hrest.
  - assert (take COPY_BUF d = d) as Htake by (rewrite <- (take_drop COPY_BUF d) at 2; by rewrite Hrest, app_nil_r).
    rewrite Htake in *. exists w1. split; [by destruct fuel|done].
  - destruct (IH (x :: rest) (k + Z.of_nat (length (take COPY_BUF d))) w1) as (w2 & Hr & H2); [done| |].
    { rewrite <- Hrest, length_drop. destruct H1 as (_ & _ & Hi). simpl. lia. }
    exists w2. rewrite Hr. split.
    + rewrite <- Hrest, length_drop, Hlen. do 3 f_equal. lia.
    + rewrite <- (take_drop COPY_BUF d), Hrest. by eapply stored_app.
Qed.

(** C26: WRITE ends and writes: for at least one byte, with the host taking any
part of what it is given or interrupting a bounded number of times, the file
holds the bytes of the request (at most its size) at the offset of the request,
everything else is as before, and the reply carries the number of bytes.  Rounds
as many as bytes and interruptions are enough. *)
Theorem passthrough_write fuel op data (s : Passthrough) (w : W) f :
  s.(ps_opened_files) !! op.(Write_fh).(FileID_into_raw) = Some f →
  let bytes := take (Z.to_nat op.(Write_size)) data in
  bytes ≠ [] → Z.of_nat (length bytes) < 2 ^ 32 → (length bytes + irqs w ≤ fuel)%nat →
  ∃ w', ps_write fuel op (Ok data) (s, w) = Some (Ok (WriteOut (Z.of_nat (length bytes))), (s, w'))
    ∧ ∀ i, content f w' !! i = overlay (content f w) bytes (Z.to_nat op.(Write_offset)) i.
Proof.
  intros Hf bytes Hb Hlt Hfuel. destruct (fs_seek f op.(Write_offset) w) as (w1 & Hs & Hc & Hp & Hi).
  destruct (io_copy_spec fuel f bytes 0 w1 Hb) as (w2 & Hr & Hst & _); [by rewrite Hi|].
  exists w2. split.
  - unfold ps_write. erewrite M_bind_Ok.
    2: { unfold get_opened_file. erewrite (M_bind_Ok own) by reflexivity. unfold lift. by rewrite Hf. }
    erewrite M_bind_Ok by (apply (world_ok FsIo); exact Hs).
    unfold mbind at 1, M_bind at 1, lift, map_err, mret, M_ret. cbv zeta. fold bytes. rewrite Hr. simpl.
    rewrite wrap_u_id; [done|]. unfold is_u. lia.
  - intros i. by rewrite Hst, Hc, Hp.
Qed.
End writes.

(** ** Examples *)

#[export] Instance ro_stream : DirStreamSpec (W := ref_os) (λ _, ro_entries) (λ _ w, w.(ro_dirpos)).
Proof.
  split; try done.
  - intros d w e He. simpl in *. rewrite He. eauto.
  - intros d w He. simpl in *. rewrite He. eauto.
  - intros d i e w. destruct i as [|[|[|i]]]; simpl; [by intros [= <-]..|done].
  - intros d e He. repeat (apply elem_of_cons in He as [->|He]; [done|]). by apply elem_of_nil in He.
  - intros d e He. repeat (apply elem_of_cons in He as [->|He]; [done|]). by apply elem_of_nil in He.
  - intros d [|[|[|i]]] [|[|[|j]]] e f; simpl; intros; simplify_eq; done.
Qed.

#[export] Instance ro_file_spec : FileSpec (W := ref_os) (λ _ w, w.(ro_data)) (λ _ w, w.(ro_pos)) (λ _, 0%nat).
Proof.
  split.
  - intros f p w. eexists. simpl. eauto.
  - intros f data w Hd. left. exists (length (take 3 data)). eexists. split; [done|].
    assert (0 < length data)%nat by (destruct data; [done|simpl; lia]).
    split; [rewrite length_take; lia|]. split; [|split; [done|lia]]. intros i.
    etrans; [apply (write_at_overlay w.(ro_data) (take 3 data) (Z.of_nat w.(ro_pos)) i); lia|].
    rewrite Nat2Z.id. f_equal. rewrite length_take. destruct (decide (length data ≤ 3)%nat) as [H3|H3].
    + by rewrite Nat.min_r, firstn_all, take_ge by lia.
    + by rewrite Nat.min_l by lia.
Qed.

Definition ps_opened : Passthrough * ref_os :=
  (ps_serve 1 (ReqOpen {| Open_ino := NodeID_ROOT; Open_options := OpenOptions_from_raw 2; Open_flags := 0 |})
    (ps_serve 1 (ReqOpendir {| Opendir_ino := NodeID_ROOT; Opendir_options := OpenOptions_from_raw 0 |}) ps_start).2).2.

(** The directory that was opened. *)
Definition opened_dir_example : ReadDir := {| rd_dir := 4; rd_offset := 0; rd_fd := {| fd_raw := 4 |} |}.

Lemma ps_opened_dir : ps_opened.1.(ps_opened_dirs) !! slab_key (∅ : gmap Z ReadDir) = Some opened_dir_example.
Proof. reflexivity. Qed.


Definition ps_write_example : Write := {|
  Write_ino := NodeID_ROOT; Write_fh := FileID_from_raw (slab_key (∅ : gmap Z Z)); Write_offset := 2; Write_size := 9;
  Write_options := OpenOptions_from_raw 0; Write_lock_owner := None; Write_flags := 0 |}.

(** Five bytes at offset 2, three at a time. *)
Lemma passthrough_write_witness :
  ∃ w', ps_write 5 ps_write_example (Ok (replicate 5 Byte.x61)) ps_opened = Some (Ok (WriteOut 5), (ps_opened.1, w'))
    ∧ w'.(ro_data) !! 6%nat = Some Byte.x61 ∧ w'.(ro_data) !! 0%nat = Some Byte.x00.
Proof.
  destruct (passthrough_write (λ _ w, w.(ro_data)) (λ _ w, w.(ro_pos)) (λ _, 0%nat) 5 ps_write_example
    (replicate 5 Byte.x61) ps_opened.1 ps_opened.2 5) as (w' & Hw & Hc);
    [reflexivity|discriminate|reflexivity|simpl; lia|].
  exists w'. split; [exact Hw|]. rewrite !Hc. split; reflexivity.
Defined.

(** A READDIR at the offset of the one before goes on where that one stopped
reading, behind the entry that did not fit: [a] is not shown again, and [b] not at all. *)
Lemma passthrough_readdir_repeated :
  let readdir := {| Readdir_ino := NodeID_ROOT; Readdir_fh := FileID_from_raw (slab_key (∅ : gmap Z ReadDir));
                    Readdir_offset := 0; Readdir_size := 32; Readdir_mode := ReaddirMode_Normal |} in
  let '(first, sw) := ps_readdir 4 readdir ps_opened in
  let '(second, _) := ps_readdir 4 readdir sw in
  (∃ e, first = Ok (Some (ReaddirOut [e])) ∧ e.(md_name) = [Byte.x61]) ∧ second = Ok (Some (ReaddirOut [])).
Proof. vm_compute. eauto. Qed.

(** [closedir] has already closed the descriptor when the field [fd] of a
[ReadDir] is dropped.  When another thread opens a file in between and gets the
number, it loses its descriptor. *)
Lemma passthrough_double_close :
  let w := c_closedir 4 (ro_push [Byte.x2f] ps_start.2).2 in
  let '(fd, w) := c_openat 3 [Byte.x61] 0 w in
  fd = 4 ∧ bool_decide (fd ∈ ro_fds (FileDesc_drop {| fd_raw := 4 |} w)) = false.
Proof. vm_compute. done. Qed.
